(* ===== verification/_CoqProject ===== *)
-Q . S2P
Prelude.v
Text.v
Testing.v
Addr.v
Config.v
Files.v
Runs.v
Protocol.v
Wire.v
ProtocolFacts.v
RoundTrip.v
ResponseTrip.v
CodecSafety.v
Codec.v
Record.v
Crc.v
RecordFacts.v
Log.v
LogRep.v
LogFacts.v
LogAppend.v
LogRead.v
LogOpen.v
Damage.v
LogShrink.v
Storage.v
Durable.v
Groups.v
GroupFacts.v
GroupSteps.v
Coordination.v
Leadership.v
ProtocolTests.v
CoordinatorTests.v
LeadershipFacts.v
Leaders.v
Worker.v
WorkerSpec.v
WorkerFacts.v
Whole.v
WorkerOpen.v
StorageTests.v
Topics.v
Queue.v
Broker.v
Handle.v
Replication.v
Cluster.v
Requests.v
Serving.v
Connection.v
Connections.v
HandlerFacts.v
RequestFacts.v
Sharing.v
Service.v
Startup.v
StartupFacts.v
Restart.v
Lives.v
Server.v
Daemon.v
Client.v
Rpc.v
Host.v
Retry.v
RetryFacts.v
ToolTests.v
Consume.v
ConsumeFacts.v
ConsumeRun.v
Cli.v
Metrics.v
Admin.v
MetricsFacts.v
AdminFacts.v
Accounts.v
Isr.v
Meters.v
BrokerTests.v
