(* ===== verification/Prelude.v ===== *)
(** * SevlaMQ, verified

    SevlaMQ is a message queue in Rust: brokers that keep partitioned logs on
    disk, replicate them to each other and serve a binary protocol, and a client
    library and command-line client that produce to and consume from them.  This
    development translates the program into Rocq definitions and proves what makes
    its parts correct.  This file is also the prelude: the result type, the state
    monad in which the operations are written ([SM S E A]: state, error, value, and
    [Panic] where the Rust code would abort), its laws and weakest preconditions,
    fixed-width arithmetic, big-endian integers and the hints the components share.

    ** The program and its model

    - Values.  [Text] has Rust's strings (UTF-8, [parse], [format!],
      [from_utf8_lossy]), [Addr] socket addresses, [Files] directories as finite maps from
      names to contents and atomic replacement of a file.  Machine integers are [Z]
      with the range checks, [checked_add], [saturating_add] or wrap-around of the
      code written out.
    - [crates/protocol]: [Protocol] has every message type, encoder and decoder;
      [Wire] the layout as a reference; [ProtocolFacts], [RoundTrip],
      [ResponseTrip], [CodecSafety] and [Codec] the theorems.
    - [crates/storage]: [Record] is the record codec and [Log] [PartitionLog] on a
      directory (open, append, read, truncate, retention, rotation).  [LogRep] is
      the abstract log and its representation, [LogFacts] to [LogShrink] the
      refinement lemmas, [Storage] the theorems, [Durable] what [sync_data] and a
      power failure add, [Crc] the checksum that the crate computes and what it
      detects, [Damage] logs with changed bytes.
    - [crates/broker]: [Groups] ([groups.rs], with [GroupFacts], [GroupSteps],
      [Coordination]), [Leadership] ([leadership.rs], with [LeadershipFacts],
      [Leaders]), [Worker] (the storage worker of [lib.rs], with [WorkerSpec],
      [WorkerFacts], [Whole], [WorkerOpen], [Topics]), [Queue] and [Handle] (the bounded
      queue in front of the worker and the methods of [StorageHandle]), [Broker]
      (replication and replica placement, with [Replication], [Cluster]),
      [Requests] (request handlers, promotion, leader monitor, recovery and
      synchronisation, with [Serving], [HandlerFacts], [RequestFacts]), [Sharing]
      (the coordinator behind its lock and the task that ends sessions),
      [Connection] (the connection loops, with [Connections]), [Service] (the
      broker as a state machine), [Startup] ([run] up to the accept loop, with
      [StartupFacts], [Restart]; [Lives] puts starts, steps and stops together),
      [Server] (the accept loop and the shutdown), [Metrics] ([observability.rs])
      and [Admin] (the admin listener, with [MetricsFacts], [AdminFacts]).  Three
      files run handlers beside the metrics: [Accounts] has what requests add,
      [Isr] what replication and recovery add, [Meters] what the storage worker,
      the follower, the monitor and the connections add.
    - [crates/common]: [Config].  [crates/client]: [Client], and in [Rpc] a client
      connected to the loop of a broker.  [bin/sevlamqd]: [Daemon], with the tasks
      beside the accept loop.
    - [bin/sevlamq-cli]: [Host] (what the commands use: the operations of the client
      as a class, which [Client] implements, and the machine they run on), [Retry]
      ([retry.rs]), [Consume] ([consume.rs]), [Cli] (the other commands), with
      [RetryFacts], [ConsumeFacts], [ConsumeRun].
    - The tests of the crates: [Testing] has the panicking assertions of a Rust
      test, [ProtocolTests], [CoordinatorTests], [StorageTests], [ToolTests] and
      [BrokerTests] each test as a computation on the definitions, with a theorem
      that it passes, under the checksum of [Crc] where its value matters.

    The parts meet as in the code.  A connection loop takes frames off a buffer
    with the codec, gives requests to [process_request] and writes its answers; the
    handlers call the storage worker, the registry and the coordinator, which are
    the fields of the record [Broker]; [replicate] sends records to other brokers,
    whose loop calls [handle_replica]; clients and the consumer reach a broker over
    the network.  Code that is not part of the repository is a class with the laws
    its documentation states: [Crc32], [Zstd], [Network], [Channel], [ClientApi]
    and [Host] (for the consumer), [IterationOrder] (the order of a hash map).

    ** What is proved

    - Codec: requests and responses round trip; encoders accept exactly what is
      within the limits; decoders never panic, consume whole frames only and give
      well-formed values; how a stream is cut into reads does not matter.
    - Storage: every operation of the log implements the abstract one; after a
      crash in the middle of a write the log opens with every whole record; durable
      appends survive a power failure, unless a batch rotates the log; a log in
      which a checksummed byte has changed is refused and left as it is.
    - Worker and queue: every command implements the abstract worker; keyed records
      keep their order; the queue runs the commands in the order of their calls,
      every caller gets an answer, and a call through the queue gives what the
      handlers of the model get directly.
    - Coordinator and registry: invariants over all runs, also behind the lock,
      exclusive ownership of partitions, fencing of old generations, the end of
      sessions, one leader per epoch, and files that
      a crash leaves either old or new.
    - Replication: a durable acknowledgement means enough replicas hold the record,
      a reachable follower catches up, a promotion keeps what was committed, and a
      fetch shows committed records only.
    - The whole broker: its invariant over any interleaving of handlers, a restart
      that gives it back, and both over any number of lives from an empty disk on;
      a shutdown drops no accepted command.
    - Clients: a request over any connection that delivers bytes in order is a call
      of the handlers; routing agrees with the broker.  The consumer keeps its
      delivery mode over all runs; a retried message keeps its identity through
      every retry topic.
    - Admin listener: it answers every connection, its lag is the number of unread
      committed records, names cannot forge metric lines, the counters are what the
      clients saw, and the in-sync replicas those that acknowledged.
    - Theorems that end in [fails], [lost], [blocks], [stops_consumer] and the like
      show behaviour the program presumably does not intend.

    ** Bounds and fuel

    Loops that the data bounds take their bound from it: decoding loops get the
    length of the buffer, [recover_loop] and [read_loop] one more than the bytes of
    the file, the client's [reads] one per byte of the answer, the admin loop as
    many chunks as a request may have bytes, [sync_attempts] the 20 of the code;
    theorems show that this is enough.  Loops that only time bounds get a number of
    rounds: [catch_up] the records that can be sent before the 2 s limit
    ([ReplicationTimeout] after that), [storage_read] the wake-ups before its
    deadline, [execute] and [consume_turns] generations and turns of a consumer.
    Their theorems hold for every such number.

    ** Not modelled

    Tracing and the choice of its subscriber; the TOML and command-line parsers,
    which are libraries, and so the tests of the command line and of the parsing of
    the configuration file; errors of the file system other than those the code
    provokes; the lock of the registry, which no panic poisons; wall-clock time
    other than as the value of a clock.  Handlers of one broker run one at a time,
    except that other parts may run between the handler's calls
    ([Service.broker_step] has steps for the parts alone); the tasks beside the
    accept loop are their ticks, and aborting one ends them.  [Lives] is about
    configurations without retention: with it [open] refuses what retention leaves
    ([Storage.reopen_after_retention_fails]). *)

From stdpp Require Import base numbers list strings gmap.
From Stdlib Require Import ZArith Lia.
From Stdlib Require Strings.Byte.

#[global] Open Scope Z_scope.

(* ------------------------------------------------------------------ *)
(** ** Results, panics and the state monad                              *)
(* ------------------------------------------------------------------ *)

(** A Rust computation of type [Result<A, E>]: a value, an error, or an
    abort of the thread ([Panic]). *)
Inductive outcome (E A : Type) : Type :=
| Ok (a : A)
| Err (e : E)
| Panic.
Arguments Ok {E A} a.
Arguments Err {E A} e.
Arguments Panic {E A}.

Definition is_ok {E A} (o : outcome E A) : bool :=
  match o with Ok _ => true | _ => false end.

Definition obind {E A B} (o : outcome E A) (k : A -> outcome E B) : outcome E B :=
  match o with
  | Ok a => k a
  | Err e => Err e
  | Panic => Panic
  end.

Definition omap_err {E F A} (f : E -> F) (o : outcome E A) : outcome F A :=
  match o with
  | Ok a => Ok a
  | Err e => Err (f e)
  | Panic => Panic
  end.

(** A computation that works on a mutable object of type [S] ([&mut S]):
    the object is left as it is at the point where an error is returned. *)
Definition SM (S E A : Type) : Type := S -> outcome E A * S.

Definition ret {S E A} (a : A) : SM S E A := fun s => (Ok a, s).
Definition throw {S E A} (e : E) : SM S E A := fun s => (Err e, s).
Definition panic {S E A} : SM S E A := fun s => (Panic, s).
Definition bind {S E A B} (m : SM S E A) (k : A -> SM S E B) : SM S E B :=
  fun s =>
    match m s with
    | (Ok a, s') => k a s'
    | (Err e, s') => (Err e, s')
    | (Panic, s') => (Panic, s')
    end.
Definition get {S E} : SM S E S := fun s => (Ok s, s).
Definition put {S E} (s : S) : SM S E unit := fun _ => (Ok tt, s).
Definition modify {S E} (f : S -> S) : SM S E unit := fun s => (Ok tt, f s).
Definition gets {S E A} (f : S -> A) : SM S E A := fun s => (Ok (f s), s).
Definition lift {S E A} (o : outcome E A) : SM S E A := fun s => (o, s).
(** [if cond { return Err(e) }] *)
Definition reject_if {S E} (c : bool) (e : E) : SM S E unit :=
  if c then throw e else ret tt.
(** [opt.ok_or(e)?] *)
Definition ok_or {S E A} (o : option A) (e : E) : SM S E A :=
  match o with Some a => ret a | None => throw e end.
(** [result.map_err(f)] *)
Definition map_err {S E F A} (f : E -> F) (m : SM S E A) : SM S F A :=
  fun s => let '(o, s') := m s in (omap_err f o, s').

Declare Scope monad_scope.
Delimit Scope monad_scope with monad.
#[global] Open Scope monad_scope.

Notation "x <- c1 ;; c2" := (bind c1 (fun x => c2))
  (at level 100, c1 at next level, right associativity) : monad_scope.
Notation "'let*' p ':=' c1 'in' c2" := (bind c1 (fun x => match x with p => c2 end))
  (at level 100, p pattern, c1 at level 99, c2 at level 200, right associativity) : monad_scope.
Notation "c1 ;;; c2" := (bind c1 (fun _ => c2))
  (at level 100, right associativity) : monad_scope.

(** [for x in xs { body }] with [?] inside the body. *)
Fixpoint for_each {S E A} (xs : list A) (body : A -> SM S E unit) : SM S E unit :=
  match xs with
  | [] => ret tt
  | x :: xs' => body x ;;; for_each xs' body
  end.

(** [xs.map(body).collect::<Result<Vec<_>, _>>()] *)
Fixpoint map_m {S E A B} (body : A -> SM S E B) (xs : list A) : SM S E (list B) :=
  match xs with
  | [] => ret []
  | x :: xs' => y <- body x ;; ys <- map_m body xs' ;; ret (y :: ys)
  end.

(** [(0..n).map(|_| body).collect()] *)
Fixpoint repeat_m {S E B} (n : nat) (body : SM S E B) : SM S E (list B) :=
  match n with
  | O => ret []
  | Datatypes.S n' => y <- body ;; ys <- repeat_m n' body ;; ret (y :: ys)
  end.

(* ------------------------------------------------------------------ *)
(** ** Machine integers                                                 *)
(* ------------------------------------------------------------------ *)

Definition U8_MAX : Z := 255.
Definition U16_MAX : Z := 65535.
Definition U32_MAX : Z := 4294967295.
Definition U64_MAX : Z := 18446744073709551615.
Definition I32_MAX : Z := 2147483647.

Definition in_range (hi v : Z) : Prop := 0 <= v <= hi.
Abbreviation is_u8 := (in_range U8_MAX).
Abbreviation is_u16 := (in_range U16_MAX).
Abbreviation is_u32 := (in_range U32_MAX).
Abbreviation is_u64 := (in_range U64_MAX).

(** [v.saturating_add(d)] and [v.saturating_sub(d)] at [u64]. *)
Definition saturating_add (v d : Z) : Z := Z.min U64_MAX (v + d).
Definition saturating_sub (v d : Z) : Z := Z.max 0 (v - d).
(** [v.checked_add(d)] at [u64]. *)
Definition checked_add (v d : Z) : option Z :=
  if v + d <=? U64_MAX then Some (v + d) else None.
(** [fetch_add]: wrap-around at 64 bits. *)
Definition wrapping_add (v d : Z) : Z := (v + d) mod (U64_MAX + 1).
(** [uN::try_from(v)] for a non-negative [v]. *)
Definition try_from {S E} (hi v : Z) (e : E) : SM S E Z :=
  if v <=? hi then ret v else throw e.

(* ------------------------------------------------------------------ *)
(** ** Bytes                                                            *)
(* ------------------------------------------------------------------ *)

Abbreviation byte := Corelib.Init.Byte.byte.
Abbreviation bytes := (list byte).

#[global] Instance byte_eq_dec : EqDecision byte := Byte.byte_eq_dec.

Definition Z_of_byte (b : byte) : Z := Z.of_N (Byte.to_N b).
Definition byte_of_Z (z : Z) : byte :=
  match Byte.of_N (Z.to_N (z mod 256)) with
  | Some b => b
  | None => Byte.x00
  end.

Definition blen (b : bytes) : Z := Z.of_nat (length b).

(** [as_bytes] of a string and the unchecked inverse. *)
Definition as_bytes (s : string) : bytes := String.list_byte_of_string s.
Definition of_bytes (b : bytes) : string := String.string_of_list_byte b.
Definition str_len (s : string) : Z := blen (as_bytes s).

(** Big-endian encoding of an [n]-byte integer and its inverse. *)
Fixpoint be (n : nat) (v : Z) : bytes :=
  match n with
  | O => []
  | Datatypes.S n' => byte_of_Z (v / 256 ^ Z.of_nat n') :: be n' v
  end.
Definition be_val (b : bytes) : Z :=
  fold_left (fun acc x => acc * 256 + Z_of_byte x) b 0.

(* ------------------------------------------------------------------ *)
(** ** Buffers ([bytes::BytesMut]): accessors on the byte sequence       *)
(* ------------------------------------------------------------------ *)

Section buffers.
Context {E : Type}.

Definition put_slice (d : bytes) : SM bytes E unit := modify (fun b => b ++ d).
Definition put_u8 (v : Z) : SM bytes E unit := put_slice (be 1 v).
Definition put_u16 (v : Z) : SM bytes E unit := put_slice (be 2 v).
Definition put_u32 (v : Z) : SM bytes E unit := put_slice (be 4 v).
Definition put_u64 (v : Z) : SM bytes E unit := put_slice (be 8 v).
Definition put_i32 (v : Z) : SM bytes E unit := put_slice (be 4 v).

(** [split_to]: panics when the buffer is shorter. *)
Definition split_to (n : Z) : SM bytes E bytes :=
  fun b => if blen b <? n then (Panic, b)
           else (Ok (take (Z.to_nat n) b), drop (Z.to_nat n) b).
Definition advance (n : Z) : SM bytes E unit := split_to n ;;; ret tt.
Definition get_uint (n : Z) : SM bytes E Z := d <- split_to n ;; ret (be_val d).
Definition get_u8 : SM bytes E Z := get_uint 1.
Definition get_u16 : SM bytes E Z := get_uint 2.
Definition get_u32 : SM bytes E Z := get_uint 4.
Definition get_u64 : SM bytes E Z := get_uint 8.
Definition get_i32 : SM bytes E Z :=
  v <- get_u32 ;; ret (if v <=? I32_MAX then v else v - 4294967296).
Definition remaining : SM bytes E Z := gets blen.
End buffers.

(** Run a computation on an owned buffer that is dropped afterwards. *)
Definition on_frame {S E A} (frame : bytes) (m : SM bytes E A) : SM S E A :=
  lift (fst (m frame)).

(* ------------------------------------------------------------------ *)
(** ** Weakest preconditions                                            *)
(* ------------------------------------------------------------------ *)

(** [wp m Q R s]: run from [s], [m] does not panic, ends with a value and
    state in [Q], or with an error and state in [R]. *)
Definition wp {S E A} (m : SM S E A) (Q : A -> S -> Prop) (R : E -> S -> Prop) (s : S) : Prop :=
  match m s with
  | (Ok a, s') => Q a s'
  | (Err e, s') => R e s'
  | (Panic, _) => False
  end.

Definition any_err {S E} : E -> S -> Prop := fun _ _ => True.

Create Rewrite HintDb sm.
Create Rewrite HintDb blen.
Create HintDb codec.

Section monad_laws.
Context {S E : Type}.

Lemma bind_Ok {A B} (m : SM S E A) (k : A -> SM S E B) s s' a :
  m s = (Ok a, s') -> bind m k s = k a s'.
Proof. unfold bind. by intros ->. Qed.

Lemma bind_Err {A B} (m : SM S E A) (k : A -> SM S E B) s s' e :
  m s = (Err e, s') -> bind m k s = (Err e, s').
Proof. unfold bind. by intros ->. Qed.

Lemma bind_ret_l {A B} (a : A) (k : A -> SM S E B) s : bind (ret a) k s = k a s.
Proof. done. Qed.

Lemma bind_assoc {A B C} (m : SM S E A) (k : A -> SM S E B) (h : B -> SM S E C) s :
  bind (bind m k) h s = bind m (fun x => bind (k x) h) s.
Proof. unfold bind. by destruct (m s) as [[] ?]. Qed.

Lemma bind_inv {A B} (m : SM S E A) (k : A -> SM S E B) s s'' b :
  bind m k s = (Ok b, s'') -> exists a s', m s = (Ok a, s') /\ k a s' = (Ok b, s'').
Proof. unfold bind. destruct (m s) as [[] s']; naive_solver. Qed.

Lemma wp_mono {A} (m : SM S E A) (Q Q' : A -> S -> Prop) (R R' : E -> S -> Prop) s :
  wp m Q R s -> (forall a s', Q a s' -> Q' a s') -> (forall e s', R e s' -> R' e s') ->
  wp m Q' R' s.
Proof. unfold wp. destruct (m s) as [[] ?]; naive_solver. Qed.

Lemma wp_bind {A B} (m : SM S E A) (k : A -> SM S E B) Q R s :
  wp m (fun a s' => wp (k a) Q R s') R s -> wp (bind m k) Q R s.
Proof. unfold wp, bind. by destruct (m s) as [[] ?]. Qed.

Lemma wp_ret {A} (a : A) (Q : A -> S -> Prop) (R : E -> S -> Prop) s :
  Q a s -> wp (ret a) Q R s.
Proof. done. Qed.

Lemma wp_throw {A} (e : E) (Q : A -> S -> Prop) (R : E -> S -> Prop) s :
  R e s -> wp (throw e) Q R s.
Proof. done. Qed.

Lemma wp_reject_if c (e : E) (Q : unit -> S -> Prop) (R : E -> S -> Prop) s :
  (c = true -> R e s) -> (c = false -> Q tt s) -> wp (reject_if c e) Q R s.
Proof. unfold reject_if. destruct c; naive_solver. Qed.

Lemma wp_ok_or {A} (o : option A) (e : E) (Q : A -> S -> Prop) (R : E -> S -> Prop) s :
  (o = None -> R e s) -> (forall a, o = Some a -> Q a s) -> wp (ok_or o e) Q R s.
Proof. unfold ok_or. destruct o; naive_solver. Qed.

Lemma wp_try_from hi v (e : E) (Q : Z -> S -> Prop) (R : E -> S -> Prop) s :
  (v <= hi -> Q v s) -> (hi < v -> R e s) -> wp (try_from hi v e) Q R s.
Proof.
  unfold try_from, wp. intros. destruct (Z.leb_spec v hi); naive_solver.
Qed.

Lemma wp_if {A} (c : bool) (m1 m2 : SM S E A) Q R s :
  (c = true -> wp m1 Q R s) -> (c = false -> wp m2 Q R s) ->
  wp (if c then m1 else m2) Q R s.
Proof. destruct c; naive_solver. Qed.

(** A loop keeps an invariant of the state that each round keeps. *)
Lemma wp_repeat_m {B} (body : SM S E B) (I : nat -> S -> Prop) (P : B -> Prop)
      (R : E -> S -> Prop) n s :
  I n s ->
  (forall k s', I (Datatypes.S k) s' -> wp body (fun b s'' => P b /\ I k s'') R s') ->
  wp (repeat_m n body) (fun l s' => length l = n /\ Forall P l /\ I O s') R s.
Proof.
  intros HI Hbody. revert s HI. induction n as [|n IH]; intros s HI; simpl.
  { apply wp_ret. auto. }
  apply wp_bind. eapply wp_mono; [by apply Hbody| |done].
  intros b s1 [HP HI']. apply wp_bind.
  eapply wp_mono; [by apply IH| |done].
  intros l s2 (Hl & HF & HI''). apply wp_ret. simpl. auto using Forall_cons_2.
Qed.

Lemma wp_for_each {A} (body : A -> SM S E unit) (I : S -> Prop) (R : E -> S -> Prop) xs s :
  I s ->
  (forall x s', x ∈ xs -> I s' -> wp (body x) (fun _ s'' => I s'') R s') ->
  wp (for_each xs body) (fun _ s' => I s') R s.
Proof.
  revert s. induction xs as [|x xs IH]; intros s HI Hbody; simpl; [done|].
  apply wp_bind. eapply wp_mono; [apply Hbody; [left|done]| |done].
  intros ? s' HI'. apply IH; [done|]. intros. apply Hbody; [by right|done].
Qed.
End monad_laws.

(* ------------------------------------------------------------------ *)
(** ** Lemmas on bytes and big-endian integers                          *)
(* ------------------------------------------------------------------ *)

Lemma Z_of_byte_range b : 0 <= Z_of_byte b < 256.
Proof. unfold Z_of_byte. pose proof (Byte.to_N_bounded b). lia. Qed.

Lemma Z_of_byte_of_Z z : Z_of_byte (byte_of_Z z) = z mod 256.
Proof.
  unfold Z_of_byte, byte_of_Z.
  pose proof (Z.mod_pos_bound z 256 eq_refl).
  destruct (Byte.of_N _) as [b|] eqn:Hb.
  - apply Byte.to_of_N in Hb. rewrite Hb. lia.
  - apply Byte.of_N_None_iff in Hb. lia.
Qed.

Lemma byte_of_Z_of_byte b : byte_of_Z (Z_of_byte b) = b.
Proof.
  unfold byte_of_Z, Z_of_byte. pose proof (Byte.to_N_bounded b).
  rewrite Z.mod_small, N2Z.id by lia. by rewrite Byte.of_to_N.
Qed.

Lemma blen_nonneg b : 0 <= blen b.
Proof. unfold blen. lia. Qed.

Lemma blen_app a b : blen (a ++ b) = blen a + blen b.
Proof. unfold blen. rewrite length_app. lia. Qed.

Lemma blen_cons x b : blen (x :: b) = 1 + blen b.
Proof. unfold blen. simpl. lia. Qed.

Lemma blen_nil : blen [] = 0.
Proof. done. Qed.

Lemma blen_zero_nil b : blen b = 0 -> b = [].
Proof. destruct b; [done|]. rewrite blen_cons. pose proof (blen_nonneg b0). lia. Qed.

Lemma length_be n v : length (be n v) = n.
Proof. induction n; simpl; congruence. Qed.

Lemma blen_be n v : blen (be n v) = Z.of_nat n.
Proof. unfold blen. by rewrite length_be. Qed.

Lemma blen_as_bytes s : blen (as_bytes s) = Z.of_nat (String.length s).
Proof.
  unfold blen, as_bytes, String.list_byte_of_string. rewrite length_map. f_equal.
  induction s as [|a s IH]; [done|]. simpl. by rewrite IH.
Qed.

Lemma of_bytes_as_bytes s : of_bytes (as_bytes s) = s.
Proof. apply String.string_of_list_byte_of_string. Qed.

Lemma as_bytes_of_bytes b : as_bytes (of_bytes b) = b.
Proof. apply String.list_byte_of_string_of_list_byte. Qed.

Lemma as_bytes_inj s t : as_bytes s = as_bytes t -> s = t.
Proof. intros H. rewrite <- (of_bytes_as_bytes s), H. apply of_bytes_as_bytes. Qed.

Lemma be_val_acc l acc :
  fold_left (fun acc x => acc * 256 + Z_of_byte x) l acc =
  acc * 256 ^ blen l + be_val l.
Proof.
  unfold be_val. revert acc. induction l as [|x l IH]; intros acc.
  - simpl. rewrite Z.pow_0_r. lia.
  - cbn [fold_left]. rewrite IH, (IH (0 * 256 + _)), blen_cons.
    pose proof (blen_nonneg l). rewrite Z.pow_add_r by lia. lia.
Qed.

Lemma be_val_cons x l : be_val (x :: l) = Z_of_byte x * 256 ^ blen l + be_val l.
Proof. unfold be_val at 1. cbn [fold_left]. rewrite be_val_acc. lia. Qed.

Lemma be_val_range l : 0 <= be_val l < 256 ^ blen l.
Proof.
  induction l as [|x l IH].
  - rewrite blen_nil. unfold be_val. simpl. lia.
  - rewrite be_val_cons, blen_cons. pose proof (blen_nonneg l).
    rewrite Z.pow_add_r by lia. pose proof (Z_of_byte_range x). nia.
Qed.

Lemma be_val_be n v : be_val (be n v) = v mod 256 ^ Z.of_nat n.
Proof.
  induction n as [|n IH].
  { simpl. rewrite Z.pow_0_r, Z.mod_1_r. done. }
  cbn [be]. rewrite be_val_cons, blen_be, Z_of_byte_of_Z, IH.
  rewrite Nat2Z.inj_succ, Z.pow_succ_r by lia.
  rewrite (Z.mul_comm 256), Z.rem_mul_r by lia. lia.
Qed.

Lemma be_val_be_small n v : 0 <= v < 256 ^ Z.of_nat n -> be_val (be n v) = v.
Proof. intros. rewrite be_val_be. by apply Z.mod_small. Qed.

Lemma be_mod n v : be n (v mod 256 ^ Z.of_nat n) = be n v.
Proof.
  enough (forall m, (n <= m)%nat -> be n (v mod 256 ^ Z.of_nat m) = be n v) as H by auto.
  induction n as [|n IH]; intros m Hm; [done|]. cbn [be].
  rewrite IH by lia. f_equal.
  assert (forall x y, x mod 256 = y mod 256 -> byte_of_Z x = byte_of_Z y) as Hb.
  { intros x y Hxy. unfold byte_of_Z. by rewrite Hxy. }
  apply Hb.
  replace (256 ^ Z.of_nat m) with (256 ^ Z.of_nat n * (256 * 256 ^ (Z.of_nat m - Z.of_nat n - 1))).
  2:{ rewrite <- Z.pow_succ_r, <- Z.pow_add_r by lia. f_equal. lia. }
  set (r := 256 ^ (Z.of_nat m - Z.of_nat n - 1)).
  assert (0 < r) by (apply Z.pow_pos_nonneg; lia).
  rewrite Z.rem_mul_r by (try apply Z.pow_nonzero; lia).
  rewrite (Z.mul_comm (256 ^ _)), Z.div_add by (apply Z.pow_nonzero; lia).
  rewrite Z.div_small by (apply Z.mod_pos_bound, Z.pow_pos_nonneg; lia).
  rewrite Z.add_0_l, (Z.rem_mul_r _ 256) by lia.
  rewrite Z.mul_comm, Z.mod_add by lia. by rewrite Z.mod_mod.
Qed.

Lemma be_be_val l : be (length l) (be_val l) = l.
Proof.
  induction l as [|x l IH]; [done|]. cbn [length be]. rewrite be_val_cons.
  pose proof (be_val_range l). f_equal.
  - unfold blen in *. rewrite Z.div_add_l by lia. rewrite Z.div_small by lia.
    rewrite Z.add_0_r. apply byte_of_Z_of_byte.
  - rewrite <- be_mod. unfold blen in *.
    rewrite Z.add_comm, Z.mod_add, Z.mod_small by lia. exact IH.
Qed.

(* ------------------------------------------------------------------ *)
(** ** Running the buffer accessors                                     *)
(* ------------------------------------------------------------------ *)

Section buffer_lemmas.
Context {E : Type}.
Implicit Types (b d r : bytes) (v n : Z).

Lemma split_to_app d r n :
  blen d = n -> split_to (E:=E) n (d ++ r) = (Ok d, r).
Proof.
  intros <-. unfold split_to. rewrite blen_app. pose proof (blen_nonneg r).
  destruct (Z.ltb_spec (blen d + blen r) (blen d)); [lia|].
  unfold blen. by rewrite Nat2Z.id, take_app_length, drop_app_length.
Qed.

Lemma get_uint_app k v r :
  0 <= v < 256 ^ Z.of_nat k ->
  get_uint (E:=E) (Z.of_nat k) (be k v ++ r) = (Ok v, r).
Proof.
  intros. unfold get_uint.
  rewrite (bind_Ok _ _ _ r (be k v)) by (apply split_to_app, blen_be).
  by rewrite be_val_be_small.
Qed.

Lemma get_u8_app v r : is_u8 v -> get_u8 (E:=E) (be 1 v ++ r) = (Ok v, r).
Proof. unfold in_range, U8_MAX. intros. apply (get_uint_app 1). simpl. lia. Qed.
Lemma get_u16_app v r : is_u16 v -> get_u16 (E:=E) (be 2 v ++ r) = (Ok v, r).
Proof. unfold in_range, U16_MAX. intros. apply (get_uint_app 2). simpl. lia. Qed.
Lemma get_u32_app v r : is_u32 v -> get_u32 (E:=E) (be 4 v ++ r) = (Ok v, r).
Proof. unfold in_range, U32_MAX. intros. apply (get_uint_app 4). simpl. lia. Qed.
Lemma get_u64_app v r : is_u64 v -> get_u64 (E:=E) (be 8 v ++ r) = (Ok v, r).
Proof. unfold in_range, U64_MAX. intros. apply (get_uint_app 8). simpl. lia. Qed.

Lemma get_i32_app v r :
  -1 <= v <= I32_MAX -> get_i32 (E:=E) (be 4 v ++ r) = (Ok v, r).
Proof.
  unfold I32_MAX. intros. unfold get_i32, get_u32, get_uint.
  rewrite bind_assoc. change 4 with (Z.of_nat 4).
  rewrite (bind_Ok _ _ _ r (be 4 v)) by (apply split_to_app, blen_be).
  rewrite bind_ret_l, be_val_be. unfold ret, I32_MAX.
  change (256 ^ Z.of_nat 4) with 4294967296.
  destruct (decide (v = -1)) as [->|]; [done|].
  rewrite Z.mod_small by lia. destruct (Z.leb_spec v 2147483647); [done|lia].
Qed.

Lemma wp_split_to n b (Q : bytes -> bytes -> Prop) (R : E -> bytes -> Prop) :
  0 <= n <= blen b ->
  (forall d b', b = d ++ b' -> blen d = n -> blen b' = blen b - n -> Q d b') ->
  wp (split_to n) Q R b.
Proof.
  intros Hn HQ. unfold wp, split_to.
  destruct (Z.ltb_spec (blen b) n); [lia|].
  apply HQ; unfold blen in *; rewrite ?take_drop, ?length_take, ?length_drop; [done|lia..].
Qed.

Lemma wp_advance n b (Q : unit -> bytes -> Prop) (R : E -> bytes -> Prop) :
  0 <= n <= blen b ->
  (forall d b', b = d ++ b' -> blen d = n -> blen b' = blen b - n -> Q tt b') ->
  wp (advance n) Q R b.
Proof. intros Hn HQ. apply wp_bind, wp_split_to; [done|]. intros. by eapply HQ. Qed.

Lemma wp_get_uint k b (Q : Z -> bytes -> Prop) (R : E -> bytes -> Prop) :
  Z.of_nat k <= blen b ->
  (forall v b', 0 <= v < 256 ^ Z.of_nat k -> blen b' = blen b - Z.of_nat k ->
                b = be k v ++ b' -> Q v b') ->
  wp (get_uint (Z.of_nat k)) Q R b.
Proof.
  intros Hn HQ. apply wp_bind, wp_split_to; [lia|].
  intros d b' Hb Hd Hb'. apply wp_ret. apply HQ; [|done|].
  - rewrite <- Hd. apply be_val_range.
  - rewrite Hb. f_equal. assert (length d = k) as <- by (unfold blen in Hd; lia).
    by rewrite be_be_val.
Qed.

Lemma wp_get_u8 b (Q : Z -> bytes -> Prop) (R : E -> bytes -> Prop) :
  1 <= blen b -> (forall v b', is_u8 v -> blen b' = blen b - 1 -> Q v b') ->
  wp get_u8 Q R b.
Proof.
  intros ? HQ. apply (wp_get_uint 1); [done|]. intros v b' Hv **. apply HQ; [|done].
  change (256 ^ Z.of_nat 1) with 256 in Hv. unfold in_range, U8_MAX. lia.
Qed.
Lemma wp_get_u16 b (Q : Z -> bytes -> Prop) (R : E -> bytes -> Prop) :
  2 <= blen b -> (forall v b', is_u16 v -> blen b' = blen b - 2 -> Q v b') ->
  wp get_u16 Q R b.
Proof.
  intros ? HQ. apply (wp_get_uint 2); [done|]. intros v b' Hv **. apply HQ; [|done].
  change (256 ^ Z.of_nat 2) with 65536 in Hv. unfold in_range, U16_MAX. lia.
Qed.
Lemma wp_get_u32 b (Q : Z -> bytes -> Prop) (R : E -> bytes -> Prop) :
  4 <= blen b -> (forall v b', is_u32 v -> blen b' = blen b - 4 -> Q v b') ->
  wp get_u32 Q R b.
Proof.
  intros ? HQ. apply (wp_get_uint 4); [done|]. intros v b' Hv **. apply HQ; [|done].
  change (256 ^ Z.of_nat 4) with 4294967296 in Hv. unfold in_range, U32_MAX. lia.
Qed.
Lemma wp_get_u64 b (Q : Z -> bytes -> Prop) (R : E -> bytes -> Prop) :
  8 <= blen b -> (forall v b', is_u64 v -> blen b' = blen b - 8 -> Q v b') ->
  wp get_u64 Q R b.
Proof.
  intros ? HQ. apply (wp_get_uint 8); [done|]. intros v b' Hv **. apply HQ; [|done].
  change (256 ^ Z.of_nat 8) with 18446744073709551616 in Hv.
  unfold in_range, U64_MAX. lia.
Qed.
Lemma wp_get_i32 b (Q : Z -> bytes -> Prop) (R : E -> bytes -> Prop) :
  4 <= blen b ->
  (forall v b', -2147483648 <= v <= I32_MAX -> blen b' = blen b - 4 -> Q v b') ->
  wp get_i32 Q R b.
Proof.
  intros ? HQ. apply wp_bind, wp_get_u32; [done|]. intros v b' [] ?. apply wp_ret.
  unfold U32_MAX, I32_MAX in *.
  apply HQ; [|done]. destruct (Z.leb_spec v 2147483647); lia.
Qed.

Lemma wp_remaining b (Q : Z -> bytes -> Prop) (R : E -> bytes -> Prop) :
  Q (blen b) b -> wp remaining Q R b.
Proof. done. Qed.
End buffer_lemmas.

#[export] Hint Rewrite @bind_assoc @bind_ret_l : sm.
#[export] Hint Resolve split_to_app get_u8_app get_u16_app get_u32_app get_u64_app
  get_i32_app : codec.
#[export] Hint Rewrite blen_app blen_be blen_cons blen_nil : blen.

(** Arithmetic on ranges and lengths. *)
Ltac range := unfold in_range, U8_MAX, U16_MAX, U32_MAX, U64_MAX, I32_MAX in *; lia.
#[export] Hint Extern 3 (in_range _ _) => range : codec.
#[export] Hint Extern 3 (_ <= _ <= _) => range : codec.

(** One step of a computation that reads what is in front of the buffer. *)
Ltac run_step :=
  first [ rewrite bind_assoc | rewrite bind_ret_l
        | erewrite bind_Ok; [| solve [eauto with codec nocore]] ]; cbv beta.

(** One step of the weakest precondition of a decoder. *)
Ltac wp_step :=
  lazymatch goal with
  | |- wp (bind _ _) _ _ _ => apply wp_bind
  | |- wp (ret _) _ _ _ => apply wp_ret
  | |- wp (throw _) _ _ _ => apply wp_throw
  | |- wp (reject_if _ _) _ _ _ => apply wp_reject_if; intros
  | |- wp (ok_or _ _) _ _ _ => apply wp_ok_or; intros
  | |- wp (try_from _ _ _) _ _ _ => apply wp_try_from; intros
  | |- wp get_u8 _ _ _ => apply wp_get_u8; [lia|intros]
  | |- wp get_u16 _ _ _ => apply wp_get_u16; [lia|intros]
  | |- wp get_u32 _ _ _ => apply wp_get_u32; [lia|intros]
  | |- wp get_u64 _ _ _ => apply wp_get_u64; [lia|intros]
  | |- wp get_i32 _ _ _ => apply wp_get_i32; [lia|intros]
  | |- wp remaining _ _ _ => apply wp_remaining
  | |- wp (split_to _) _ _ _ => apply wp_split_to; [lia|intros]
  | |- wp (advance _) _ _ _ => apply wp_advance; [lia|intros]
  | |- wp (if ?c then _ else _) _ _ _ => apply wp_if; intros
  | |- any_err _ _ => exact I
  end.
