(* ===== verification/Text.v ===== *)
(** * Text: the parts of Rust's [str], [String] and integer formatting and
    parsing that the code uses (UTF-8 validation, ASCII classes, [lines],
    [split], [trim], decimal [Display] and [FromStr] of unsigned integers),
    with their round-trip lemmas; and [from_utf8_lossy] and the [Display] of lists,
    for what the command-line client prints. *)

From stdpp Require Import base numbers list strings gmap.
From Stdlib Require Import ZArith Lia.
From Stdlib Require Strings.Byte.
From S2P Require Import Prelude.

(* ------------------------------------------------------------------ *)
(** ** UTF-8                                                            *)
(* ------------------------------------------------------------------ *)

Definition between (lo hi : Z) (b : byte) : bool :=
  (lo <=? Z_of_byte b) && (Z_of_byte b <=? hi).

(** The second byte of a three or four byte sequence (the table of
    well-formed sequences of the Unicode standard). *)
Definition utf8_second (x : Z) (b : byte) : bool :=
  if x =? 0xE0 then between 0xA0 0xBF b
  else if x =? 0xED then between 0x80 0x9F b
  else if x =? 0xF0 then between 0x90 0xBF b
  else if x =? 0xF4 then between 0x80 0x8F b
  else between 0x80 0xBF b.

Fixpoint utf8_valid (l : bytes) : bool :=
  match l with
  | [] => true
  | b0 :: l1 =>
    if between 0 0x7F b0 then utf8_valid l1
    else match l1 with
    | [] => false
    | b1 :: l2 =>
      if between 0xC2 0xDF b0 then between 0x80 0xBF b1 && utf8_valid l2
      else match l2 with
      | [] => false
      | b2 :: l3 =>
        if between 0xE0 0xEF b0 then
          utf8_second (Z_of_byte b0) b1 && between 0x80 0xBF b2 && utf8_valid l3
        else match l3 with
        | [] => false
        | b3 :: l4 =>
          between 0xF0 0xF4 b0 && utf8_second (Z_of_byte b0) b1 &&
          between 0x80 0xBF b2 && between 0x80 0xBF b3 && utf8_valid l4
        end
      end
    end
  end.

(** The invariant of the type [String]. *)
Definition is_str (s : string) : Prop := utf8_valid (as_bytes s) = true.

Definition from_utf8 (b : bytes) : option string :=
  if utf8_valid b then Some (of_bytes b) else None.

(* ------------------------------------------------------------------ *)
(** ** Classes of characters and substrings                             *)
(* ------------------------------------------------------------------ *)

Definition is_ascii_digit (b : byte) : bool := between 48 57 b.
Definition is_ascii_alphanumeric (b : byte) : bool :=
  between 48 57 b || between 65 90 b || between 97 122 b.
(** [byte.is_ascii_alphanumeric() || matches!(byte, b'.' | b'_' | b'-')] *)
Definition id_byte (b : byte) : bool :=
  is_ascii_alphanumeric b || (Z_of_byte b =? 46) || (Z_of_byte b =? 95) || (Z_of_byte b =? 45).

Definition is_empty (s : string) : bool := str_len s =? 0.
Fixpoint bytes_prefix (p l : bytes) : bool :=
  match p, l with
  | [], _ => true
  | x :: p', y :: l' => bool_decide (x = y) && bytes_prefix p' l'
  | _ :: _, [] => false
  end.
Definition starts_with (p s : string) : bool := bytes_prefix (as_bytes p) (as_bytes s).

(* ------------------------------------------------------------------ *)
(** ** Decimal integers                                                 *)
(* ------------------------------------------------------------------ *)

Definition digit (d : Z) : byte := byte_of_Z (48 + d).
Definition digit_val (b : byte) : option Z :=
  if is_ascii_digit b then Some (Z_of_byte b - 48) else None.

(** Twenty digits hold every [u64]. *)
Definition DIGITS : nat := 20.
Fixpoint dec_digits (fuel : nat) (n : Z) : bytes :=
  match fuel with
  | O => []
  | S f => if n <? 10 then [digit n] else dec_digits f (n / 10) ++ [digit (n mod 10)]
  end.
(** [format!("{n}")] for an unsigned [n]. *)
Definition show_uint (n : Z) : string := of_bytes (dec_digits DIGITS n).
(** [format!("{n:020}")] *)
Definition pad20 (n : Z) : string :=
  let d := dec_digits DIGITS n in of_bytes (replicate (20 - length d) (digit 0) ++ d).

Fixpoint parse_digits (hi : Z) (l : bytes) (acc : Z) : option Z :=
  match l with
  | [] => Some acc
  | b :: l' =>
    match digit_val b with
    | None => None
    | Some d => if acc * 10 + d <=? hi then parse_digits hi l' (acc * 10 + d) else None
    end
  end.
(** [str::parse::<uN>()]: an optional leading plus sign, then digits. *)
Definition parse_uint (hi : Z) (s : string) : option Z :=
  match as_bytes s with
  | [] => None
  | b :: l =>
    if Z_of_byte b =? 43 then match l with [] => None | _ => parse_digits hi l 0 end
    else parse_digits hi (b :: l) 0
  end.

(* ------------------------------------------------------------------ *)
(** ** [lines], [split] and [trim]                                      *)
(* ------------------------------------------------------------------ *)

(** [s.split(sep)] for a one-byte separator: always at least one piece. *)
Fixpoint split_on (sep : byte) (l : bytes) : list bytes :=
  match l with
  | [] => [[]]
  | b :: l' =>
    if bool_decide (b = sep) then [] :: split_on sep l'
    else match split_on sep l' with
         | [] => [[b]]
         | p :: ps => (b :: p) :: ps
         end
  end.
Definition split (sep : byte) (s : string) : list string := of_bytes <$> split_on sep (as_bytes s).

Definition LF : byte := byte_of_Z 10.
Definition CR : byte := byte_of_Z 13.
Definition TAB : byte := byte_of_Z 9.

Definition strip_cr (l : bytes) : bytes :=
  match reverse l with
  | b :: r => if bool_decide (b = CR) then reverse r else l
  | [] => l
  end.
(** [s.lines()]: the text after a final line feed is not a line. *)
Definition drop_last_empty (ps : list bytes) : list bytes :=
  match reverse ps with
  | [] :: r => reverse r
  | _ => ps
  end.
Definition lines (s : string) : list string :=
  (fun l => of_bytes (strip_cr l)) <$> drop_last_empty (split_on LF (as_bytes s)).

(** The UTF-8 encodings of the characters of [char::is_whitespace]. *)
Definition whitespace : list (list Z) :=
  ((fun x => [x]) <$> [9; 10; 11; 12; 13; 32]) ++
  [[0xC2; 0x85]; [0xC2; 0xA0]; [0xE1; 0x9A; 0x80]] ++
  ((fun x => [0xE2; 0x80; x]) <$>
     [0x80; 0x81; 0x82; 0x83; 0x84; 0x85; 0x86; 0x87; 0x88; 0x89; 0x8A; 0xA8; 0xA9; 0xAF]) ++
  [[0xE2; 0x81; 0x9F]; [0xE3; 0x80; 0x80]].

Fixpoint strip_one (ws : list (list Z)) (l : bytes) : option bytes :=
  match ws with
  | [] => None
  | w :: ws' =>
    let p := byte_of_Z <$> w in
    if bytes_prefix p l then Some (drop (length p) l) else strip_one ws' l
  end.
Fixpoint strip_all (fuel : nat) (ws : list (list Z)) (l : bytes) : bytes :=
  match fuel with
  | O => l
  | S f => match strip_one ws l with Some l' => strip_all f ws l' | None => l end
  end.
Definition trim (s : string) : string :=
  let l := strip_all (String.length s) whitespace (as_bytes s) in
  of_bytes (reverse (strip_all (length l) ((fun w => reverse w) <$> whitespace) (reverse l))).

(* ------------------------------------------------------------------ *)
(** ** Lemmas                                                           *)
(* ------------------------------------------------------------------ *)

Lemma between_true lo hi b : between lo hi b = true <-> lo <= Z_of_byte b <= hi.
Proof. unfold between. rewrite andb_true_iff, !Z.leb_le. done. Qed.

Lemma from_utf8_as_bytes s : is_str s -> from_utf8 (as_bytes s) = Some s.
Proof. unfold is_str, from_utf8. intros ->. by rewrite of_bytes_as_bytes. Qed.

Lemma from_utf8_Some b s : from_utf8 b = Some s -> is_str s /\ as_bytes s = b.
Proof.
  unfold from_utf8, is_str. destruct (utf8_valid b) eqn:H; [|done].
  intros [= <-]. by rewrite as_bytes_of_bytes.
Qed.

Lemma utf8_valid_ascii l : Forall (fun b => Z_of_byte b <= 127) l -> utf8_valid l = true.
Proof.
  induction 1 as [|b l Hb _ IH]; [done|]. cbn [utf8_valid].
  replace (between 0 127 b) with true; [done|].
  symmetry. apply between_true. pose proof (Z_of_byte_range b). lia.
Qed.

Lemma id_byte_ascii b : id_byte b = true -> Z_of_byte b <= 127.
Proof.
  unfold id_byte, is_ascii_alphanumeric.
  rewrite !orb_true_iff, !between_true, !Z.eqb_eq. lia.
Qed.

Lemma forallb_id_is_str s : forallb id_byte (as_bytes s) = true -> is_str s.
Proof.
  intros H. apply utf8_valid_ascii. apply Forall_forall. intros b Hb.
  apply id_byte_ascii. rewrite forallb_forall in H. by apply H, list_elem_of_In.
Qed.

Lemma is_empty_false s : is_empty s = false <-> 0 < str_len s.
Proof. unfold is_empty. pose proof (blen_nonneg (as_bytes s)). unfold str_len in *. lia. Qed.

Lemma Z_of_digit d : 0 <= d <= 9 -> Z_of_byte (digit d) = 48 + d.
Proof. intros. unfold digit. rewrite Z_of_byte_of_Z, Z.mod_small by lia. done. Qed.

Lemma digit_val_digit d : 0 <= d <= 9 -> digit_val (digit d) = Some d.
Proof.
  intros Hd. unfold digit_val, is_ascii_digit, between. rewrite Z_of_digit by done.
  destruct (Z.leb_spec 48 (48 + d)), (Z.leb_spec (48 + d) 57); try lia.
  simpl. f_equal. lia.
Qed.

Lemma parse_digits_app hi l r acc :
  parse_digits hi (l ++ r) acc =
  match parse_digits hi l acc with Some v => parse_digits hi r v | None => None end.
Proof.
  revert acc. induction l as [|b l IH]; intros acc; [done|]. cbn.
  destruct (digit_val b); [|done]. by destruct (_ <=? hi).
Qed.

Lemma parse_dec_digits hi fuel n :
  0 <= n < 10 ^ Z.of_nat fuel -> n <= hi -> (0 < fuel)%nat ->
  parse_digits hi (dec_digits fuel n) 0 = Some n.
Proof.
  revert n. induction fuel as [|f IH]; intros n Hn Hhi Hf; [lia|]. cbn [dec_digits].
  destruct (Z.ltb_spec n 10).
  { cbn [parse_digits]. rewrite digit_val_digit by lia.
    destruct (Z.leb_spec (0 * 10 + n) hi); [f_equal; lia|lia]. }
  rewrite Nat2Z.inj_succ, Z.pow_succ_r in Hn by lia.
  rewrite parse_digits_app, IH.
  - cbn [parse_digits]. pose proof (Z.mod_pos_bound n 10 eq_refl).
    rewrite digit_val_digit by lia. pose proof (Z.div_mod n 10).
    destruct (Z.leb_spec (n / 10 * 10 + n mod 10) hi); [f_equal; lia|lia].
  - split; [apply Z.div_pos; lia|]. apply Z.div_lt_upper_bound; lia.
  - pose proof (Z.div_mod n 10). pose proof (Z.mod_pos_bound n 10 eq_refl). lia.
  - destruct f; [|lia]. change (10 ^ Z.of_nat 0) with 1 in Hn. lia.
Qed.

Lemma dec_digits_digits fuel n :
  0 <= n -> Forall (fun b => is_ascii_digit b = true) (dec_digits fuel n).
Proof.
  assert (forall d, 0 <= d <= 9 -> is_ascii_digit (digit d) = true) as Hd.
  { intros d ?. apply between_true. rewrite Z_of_digit; lia. }
  revert n. induction fuel as [|f IH]; intros n Hn; cbn [dec_digits]; [done|].
  destruct (Z.ltb_spec n 10); [constructor; [apply Hd; lia|done]|].
  apply Forall_app. split; [apply IH, Z.div_pos; lia|].
  constructor; [apply Hd|done]. pose proof (Z.mod_pos_bound n 10 eq_refl). lia.
Qed.

Lemma dec_digits_length fuel n :
  (0 < fuel)%nat -> (1 <= length (dec_digits fuel n) <= fuel)%nat.
Proof.
  revert n. induction fuel as [|f IH]; intros n Hf; [lia|]. cbn [dec_digits].
  destruct (Z.ltb_spec n 10); [simpl; lia|]. rewrite length_app. simpl.
  destruct f as [|f]; [simpl; lia|]. pose proof (IH (n / 10)). lia.
Qed.

Lemma parse_zeros hi k l : 0 <= hi -> parse_digits hi (replicate k (digit 0) ++ l) 0 = parse_digits hi l 0.
Proof.
  intros Hhi. induction k as [|k IH]; [done|].
  cbn [replicate app parse_digits]. rewrite digit_val_digit by lia.
  destruct (Z.leb_spec (0 * 10 + 0) hi); [exact IH|lia].
Qed.

Lemma digit_not_plus b : is_ascii_digit b = true -> (Z_of_byte b =? 43) = false.
Proof. intros ?%between_true. lia. Qed.

(** A text of digits only is parsed by its digits. *)
Lemma parse_uint_digits hi l :
  (0 < length l)%nat -> Forall (fun b => is_ascii_digit b = true) l ->
  parse_uint hi (of_bytes l) = parse_digits hi l 0.
Proof.
  intros Hl HF. unfold parse_uint. rewrite as_bytes_of_bytes.
  destruct l as [|b l]; [simpl in Hl; lia|]. inversion HF; subst.
  by rewrite digit_not_plus.
Qed.

Lemma parse_show_uint hi n :
  0 <= n <= hi -> hi <= U64_MAX -> parse_uint hi (show_uint n) = Some n.
Proof.
  intros Hn Hhi. unfold show_uint. pose proof (dec_digits_length DIGITS n).
  unfold DIGITS in *. rewrite parse_uint_digits; [|lia|apply dec_digits_digits; lia].
  unfold U64_MAX in *. apply parse_dec_digits; [|lia|lia].
  change (10 ^ Z.of_nat 20) with 100000000000000000000. lia.
Qed.

Lemma show_uint_inj m n : is_u64 m -> is_u64 n -> show_uint m = show_uint n -> m = n.
Proof.
  intros Hm Hn H. pose proof (parse_show_uint U64_MAX m) as Pm.
  pose proof (parse_show_uint U64_MAX n) as Pn. rewrite H in Pm.
  unfold in_range in *. rewrite Pm in Pn by lia. injection Pn; lia.
Qed.

Lemma pad20_digits n :
  0 <= n -> length (as_bytes (pad20 n)) = 20%nat /\
  Forall (fun b => is_ascii_digit b = true) (as_bytes (pad20 n)).
Proof.
  intros Hn. unfold pad20. rewrite as_bytes_of_bytes.
  pose proof (dec_digits_length DIGITS n). unfold DIGITS in *. split.
  - rewrite length_app, length_replicate. lia.
  - apply Forall_app. split; [|by apply dec_digits_digits].
    apply Forall_replicate. by vm_compute.
Qed.

Lemma parse_pad20 n : is_u64 n -> parse_uint U64_MAX (pad20 n) = Some n.
Proof.
  intros Hn. destruct (pad20_digits n) as [Hlen HF]; [range|].
  rewrite <- (of_bytes_as_bytes (pad20 n)), parse_uint_digits; [|lia|done].
  unfold pad20. rewrite as_bytes_of_bytes, parse_zeros by (unfold U64_MAX; lia).
  unfold DIGITS in *. apply parse_dec_digits; [|range|lia].
  change (10 ^ Z.of_nat 20) with 100000000000000000000. range.
Qed.

Lemma pad20_inj m n : is_u64 m -> is_u64 n -> pad20 m = pad20 n -> m = n.
Proof.
  intros Hm Hn H. pose proof (parse_pad20 m Hm) as Pm. rewrite H, parse_pad20 in Pm by done.
  congruence.
Qed.

(* ------------------------------------------------------------------ *)
(** ** Trimming a number and its line feed                              *)
(* ------------------------------------------------------------------ *)

Lemma strip_one_digit b l :
  is_ascii_digit b = true ->
  strip_one whitespace (b :: l) = None /\
  strip_one ((fun w => reverse w) <$> whitespace) (b :: l) = None.
Proof. destruct b; intros Hb; try (vm_compute in Hb; discriminate Hb); split; reflexivity. Qed.

Lemma strip_all_digit fuel b l :
  is_ascii_digit b = true ->
  strip_all fuel whitespace (b :: l) = b :: l /\
  strip_all fuel ((fun w => reverse w) <$> whitespace) (b :: l) = b :: l.
Proof.
  intros Hb. destruct (strip_one_digit b l Hb) as [H1 H2].
  destruct fuel; [done|]. cbn [strip_all]. by rewrite H1, H2.
Qed.

Lemma show_uint_digits n :
  0 <= n -> exists b l, as_bytes (show_uint n) = b :: l /\
    Forall (fun b => is_ascii_digit b = true) (b :: l).
Proof.
  intros Hn. unfold show_uint. rewrite as_bytes_of_bytes.
  pose proof (dec_digits_length DIGITS n). pose proof (dec_digits_digits DIGITS n Hn) as HF.
  unfold DIGITS in *. destruct (dec_digits 20 n) as [|b l] eqn:E; [simpl in *; lia|]. eauto.
Qed.

Lemma strip_line_feed k l :
  Forall (fun b => is_ascii_digit b = true) l -> l <> [] ->
  strip_all (S k) ((fun w => reverse w) <$> whitespace) (LF :: reverse l) = reverse l.
Proof.
  intros HF Hne. apply Forall_reverse in HF.
  destruct (reverse l) as [|c r] eqn:Hr.
  { apply (f_equal reverse) in Hr. by rewrite reverse_involutive in Hr. }
  inversion_clear HF as [|? ? Hc _]. cbn [strip_all].
  change (strip_one ((fun w => reverse w) <$> whitespace) (LF :: c :: r)) with (Some (c :: r)).
  cbv iota. apply (strip_all_digit k c r Hc).
Qed.

(** The number that was written with [writeln!] is read with [trim]. *)
Lemma trim_show_uint n : 0 <= n -> trim (of_bytes (as_bytes (show_uint n) ++ [LF])) = show_uint n.
Proof.
  intros Hn. destruct (show_uint_digits n Hn) as (b & l & Hs & HF).
  unfold trim. rewrite as_bytes_of_bytes, Hs.
  inversion HF as [|? ? Hb _]; subst. rewrite <- app_comm_cons.
  destruct (strip_all_digit (String.length (of_bytes (b :: l ++ [LF]))) b (l ++ [LF]) Hb) as [-> _].
  rewrite app_comm_cons, reverse_snoc. rewrite length_app, Nat.add_comm.
  change (length [LF] + length (b :: l))%nat with (S (length (b :: l))).
  rewrite strip_line_feed, reverse_involutive, <- Hs by done. apply of_bytes_as_bytes.
Qed.

(* ------------------------------------------------------------------ *)
(** ** Reading back lines and fields                                    *)
(* ------------------------------------------------------------------ *)

Lemma split_on_sep sep l r :
  Forall (fun b => b <> sep) l -> split_on sep (l ++ sep :: r) = l :: split_on sep r.
Proof.
  induction 1 as [|b l Hb _ IH]; cbn [app split_on].
  - by rewrite bool_decide_eq_true_2.
  - rewrite bool_decide_eq_false_2 by done. by rewrite IH.
Qed.
Lemma split_on_last sep l : Forall (fun b => b <> sep) l -> split_on sep l = [l].
Proof.
  induction 1 as [|b l Hb _ IH]; cbn [split_on]; [done|].
  rewrite bool_decide_eq_false_2 by done. by rewrite IH.
Qed.

(** A text of terminated lines. *)
Definition unlines (ls : list bytes) : bytes := ls ≫= (fun l => l ++ [LF]).
Definition plain_line (l : bytes) : Prop := Forall (fun b => b <> LF) l /\ strip_cr l = l.

Lemma split_on_unlines ls :
  Forall (fun l => Forall (fun b => b <> LF) l) ls -> split_on LF (unlines ls) = ls ++ [[]].
Proof.
  induction 1 as [|l ls Hl _ IH]; [done|]. unfold unlines in *. cbn [mbind list_bind].
  rewrite <- app_assoc. cbn [app]. by rewrite split_on_sep, IH.
Qed.

Lemma lines_unlines ls : Forall plain_line ls -> lines (of_bytes (unlines ls)) = of_bytes <$> ls.
Proof.
  intros HF. unfold lines. rewrite as_bytes_of_bytes, split_on_unlines.
  - unfold drop_last_empty. rewrite reverse_snoc, reverse_involutive.
    induction HF as [|l ls [_ Hl] _ IH]; [done|]. cbn. f_equal; [by rewrite Hl|apply IH].
  - eapply Forall_impl; [exact HF|]. by intros l [? _].
Qed.

(** A line that ends with a digit has no carriage return to strip. *)
Lemma strip_cr_digit l b : is_ascii_digit b = true -> strip_cr (l ++ [b]) = l ++ [b].
Proof.
  intros Hb. unfold strip_cr. rewrite reverse_snoc, bool_decide_eq_false_2; [done|].
  by intros ->.
Qed.
Lemma show_uint_last n : 0 <= n -> exists l b, as_bytes (show_uint n) = l ++ [b] /\ is_ascii_digit b = true.
Proof.
  intros Hn. destruct (show_uint_digits n Hn) as (b & l & Hs & HF). rewrite Hs in *.
  destruct (exists_last (l := b :: l)) as (l' & c & Heq); [done|]. rewrite Heq in *.
  exists l', c. split; [done|]. apply Forall_app in HF as [_ HF]. by inversion HF.
Qed.
Lemma digit_not_sep b : is_ascii_digit b = true -> b <> LF /\ b <> TAB /\ b <> CR.
Proof. intros Hb. by split_and?; intros ->. Qed.
Lemma show_uint_no_sep n :
  0 <= n -> Forall (fun b => b <> LF) (as_bytes (show_uint n)) /\
            Forall (fun b => b <> TAB) (as_bytes (show_uint n)).
Proof.
  intros Hn. destruct (show_uint_digits n Hn) as (b & l & -> & HF).
  split; (eapply Forall_impl; [exact HF|]; intros x Hx%digit_not_sep; tauto).
Qed.
Lemma id_byte_no_sep b : id_byte b = true -> b <> LF /\ b <> TAB /\ b <> CR.
Proof. intros Hb. by split_and?; intros ->. Qed.

(* ------------------------------------------------------------------ *)
(** ** [String::from_utf8_lossy] and [Display] of lists                *)
(* ------------------------------------------------------------------ *)

(** U+FFFD *)
Definition REPLACEMENT : bytes := byte_of_Z <$> [0xEF; 0xBF; 0xBD].
Definition continuation (b : byte) : bool := between 0x80 0xBF b.

(** Every maximal part that is no UTF-8 is replaced by one character. *)
Fixpoint utf8_lossy (l : bytes) : bytes :=
  match l with
  | [] => []
  | b0 :: l1 =>
    if between 0 0x7F b0 then b0 :: utf8_lossy l1
    else if between 0xC2 0xDF b0 then
      match l1 with
      | b1 :: l2 => if continuation b1 then b0 :: b1 :: utf8_lossy l2 else REPLACEMENT ++ utf8_lossy l1
      | [] => REPLACEMENT
      end
    else if between 0xE0 0xEF b0 then
      match l1 with
      | b1 :: l2 =>
        if utf8_second (Z_of_byte b0) b1 then
          match l2 with
          | b2 :: l3 => if continuation b2 then b0 :: b1 :: b2 :: utf8_lossy l3 else REPLACEMENT ++ utf8_lossy l2
          | [] => REPLACEMENT
          end
        else REPLACEMENT ++ utf8_lossy l1
      | [] => REPLACEMENT
      end
    else if between 0xF0 0xF4 b0 then
      match l1 with
      | b1 :: l2 =>
        if utf8_second (Z_of_byte b0) b1 then
          match l2 with
          | b2 :: l3 =>
            if continuation b2 then
              match l3 with
              | b3 :: l4 =>
                if continuation b3 then b0 :: b1 :: b2 :: b3 :: utf8_lossy l4 else REPLACEMENT ++ utf8_lossy l3
              | [] => REPLACEMENT
              end
            else REPLACEMENT ++ utf8_lossy l2
          | [] => REPLACEMENT
          end
        else REPLACEMENT ++ utf8_lossy l1
      | [] => REPLACEMENT
      end
    else REPLACEMENT ++ utf8_lossy l1
  end.
Definition from_utf8_lossy (b : bytes) : string := of_bytes (utf8_lossy b).

(** [xs.join(sep)] *)
Fixpoint join_with (sep : string) (xs : list string) : string :=
  match xs with
  | [] => ""
  | [x] => x
  | x :: xs => x +:+ sep +:+ join_with sep xs
  end.
(** [format!("{xs:?}")] of a list of integers. *)
Definition debug_list (xs : list Z) : string := "[" +:+ join_with ", " (show_uint <$> xs) +:+ "]".

(* ------------------------------------------------------------------ *)
(** ** What is printed is text                                          *)
(* ------------------------------------------------------------------ *)

Lemma utf8_valid_replacement l : utf8_valid (REPLACEMENT ++ l) = utf8_valid l.
Proof. reflexivity. Qed.

Ltac lossy_case :=
  match goal with
  | |- context [if ?c then _ else _] => destruct c eqn:?
  | |- context [match ?l with [] => _ | _ :: _ => _ end] => is_var l; destruct l
  end.

Lemma utf8_lossy_valid_below n l : (length l <= n)%nat -> utf8_valid (utf8_lossy l) = true.
Proof.
  revert l. induction n as [|n IH]; intros [|b0 l1] Hl; try done; [simpl in Hl; lia|]. cbn [utf8_lossy length] in *.
  repeat lossy_case; rewrite ?utf8_valid_replacement; try reflexivity; try (apply IH; cbn [length] in *; lia).
  all: cbn [utf8_valid]; unfold continuation in *;
    repeat match goal with H : ?c = _ |- _ => lazymatch c with between _ _ _ => rewrite !H | utf8_second _ _ => rewrite !H end end;
    cbn [andb]; apply IH; cbn [length] in *; lia.
Qed.
(** Whatever the bytes are, the result is a [String]. *)
Lemma from_utf8_lossy_str b : is_str (from_utf8_lossy b).
Proof. unfold is_str, from_utf8_lossy. rewrite as_bytes_of_bytes. by eapply utf8_lossy_valid_below. Qed.

Lemma utf8_lossy_id_below n l : (length l <= n)%nat -> utf8_valid l = true -> utf8_lossy l = l.
Proof.
  revert l. induction n as [|n IH]; intros [|b0 l1] Hl; try done; [simpl in Hl; lia|].
  cbn [utf8_lossy utf8_valid length] in *. unfold continuation.
  repeat (lossy_case; try done); rewrite ?andb_true_iff; intros; destruct_and?; try congruence;
    repeat f_equal; apply IH; try done; cbn [length] in *; lia.
Qed.
(** Text is printed as it is. *)
Lemma from_utf8_lossy_text s : is_str s -> from_utf8_lossy (as_bytes s) = s.
Proof.
  intros Hs. unfold from_utf8_lossy. rewrite (utf8_lossy_id_below (length (as_bytes s))); [|done..].
  apply of_bytes_as_bytes.
Qed.
