(* ===== verification/Testing.v ===== *)
(** * Testing: running the tests of the crates on the model.

    A [#[test]] function becomes a computation that panics when an assertion
    fails or a result that is expected to be [Ok] is not, and that has passed
    when it returns.  The files [ProtocolTests], [StorageTests] and
    [BrokerTests] translate the tests of the crates and run them. *)

From stdpp Require Import base numbers list strings gmap.
From Stdlib Require Import ZArith Lia.
From S2P Require Import Prelude.

(** A test returns nothing and has no error of its own. *)
Abbreviation test S := (SM S Empty_set unit).

(** [result.expect(..)] *)
Definition expect {S E F A} (m : SM S E A) : SM S F A :=
  fun s => let '(o, s') := m s in (match o with Ok a => Ok a | _ => Panic end, s').
(** [option.expect(..)] *)
Definition expect_some {S F A} (o : option A) : SM S F A :=
  match o with Some a => ret a | None => panic end.
(** [result.expect_err(..)] *)
Definition expect_err {S E F A} (m : SM S E A) : SM S F E :=
  fun s => let '(o, s') := m s in (match o with Err e => Ok e | _ => Panic end, s').
(** [assert!] *)
Definition assert {S E} (b : bool) : SM S E unit := if b then ret tt else panic.
(** [assert_eq!] *)
Definition assert_eq {S E A} `{!EqDecision A} (x y : A) : SM S E unit := assert (bool_decide (x = y)).
(** [assert!(matches!(result, Err(..)))] *)
Definition assert_err {S E F A} (m : SM S E A) (p : E -> bool) : SM S F unit :=
  e <- expect_err m ;; assert (p e).

(** An object from its opening to the end of its scope; what it leaves behind
    is the state again. *)
Definition scope {D S E A} (opened : SM D E S) (closed : S -> D) (body : SM S Empty_set A)
  : SM D Empty_set A :=
  s <- expect opened ;;
  fun _ => let '(o, s) := body s in (o, closed s).

(** The test returns. *)
Definition passes {S} (t : test S) (s : S) : Prop := fst (t s) = Ok tt.

(** [br#{..}#]: a JSON object with one number. *)
Definition json_quoted (b : bytes) : bytes := [byte_of_Z 34] ++ b ++ [byte_of_Z 34].
Definition amount : bytes := as_bytes "{" ++ json_quoted (as_bytes "amount") ++ as_bytes ":150}".

(** A test that passes has met its assertions. *)
Lemma assert_passes {S E} b (s s' : S) : assert (E := E) b s = (Ok tt, s') -> b = true /\ s' = s.
Proof. destruct b; [|done]. by intros [= ->]. Qed.
Lemma expect_passes {S E F A} (m : SM S E A) a s s' :
  expect (F := F) m s = (Ok a, s') -> m s = (Ok a, s').
Proof. unfold expect. destruct (m s) as [[| |] ?]; [|done..]. by intros [= -> ->]. Qed.
