(* ===== verification/Addr.v ===== *)
(** * Addr: [std::net::SocketAddr] as text.

    The parser of the standard library, as [str::parse::<SocketAddr>] runs it: a
    recursive descent over the bytes of the text, where an alternative that fails
    gives back what it read. *)

From stdpp Require Import base numbers list strings gmap.
From Stdlib Require Import ZArith Lia.
From S2P Require Import Prelude Text.

Inductive SocketAddr :=
| SocketAddrV4 (octets : list Z) (port : Z)
| SocketAddrV6 (segments : list Z) (scope_id port : Z).
#[global] Instance SocketAddr_eq_dec : EqDecision SocketAddr.
Proof. solve_decision. Defined.

(** A parser takes bytes off the front, or fails and takes nothing
    ([read_atomically]). *)
Definition parser (A : Type) : Type := bytes -> option (A * bytes).
Definition preturn {A} (a : A) : parser A := fun l => Some (a, l).
Definition pbind {A B} (p : parser A) (k : A -> parser B) : parser B := fun l =>
  match p l with
  | Some (a, l) => k a l
  | None => None
  end.
Definition por {A} (p q : parser A) : parser A := fun l =>
  match p l with
  | Some r => Some r
  | None => q l
  end.
(** [p().unwrap_or(a)] *)
Definition por_else {A} (p : parser A) (a : A) : parser A := por p (preturn a).
Declare Scope parser_scope.
Notation "x <~ p ; k" := (pbind p (fun x => k))
  (at level 100, p at next level, right associativity) : parser_scope.
#[local] Open Scope parser_scope.

Definition read_given_char (c : Z) : parser unit := fun l =>
  match l with
  | b :: l => if Z_of_byte b =? c then Some (tt, l) else None
  | [] => None
  end.
(** [inner], after a separator unless it is the first element. *)
Definition read_separator {A} (sep : Z) (index : nat) (inner : parser A) : parser A :=
  match index with
  | O => inner
  | _ => _u <~ read_given_char sep ; inner
  end.

(** [char::to_digit] *)
Definition to_digit (radix : Z) (b : byte) : option Z :=
  let x := Z_of_byte b in
  let d := if between 48 57 b then Some (x - 48)
           else if between 97 122 b then Some (x - 87)
           else if between 65 90 b then Some (x - 55) else None in
  match d with
  | Some d => if d <? radix then Some d else None
  | None => None
  end.
Fixpoint read_digits (radix : Z) (l : bytes) : list Z * bytes :=
  match l with
  | [] => ([], [])
  | b :: l' =>
      match to_digit radix b with
      | Some d => let '(ds, rest) := read_digits radix l' in (d :: ds, rest)
      | None => ([], l)
      end
  end.
(** A number that fits [hi], with at most [max_digits] digits if that is given,
    and without leading zeros unless they are allowed. *)
Definition read_number (radix hi : Z) (max_digits : option nat) (allow_zero_prefix : bool) : parser Z :=
  fun l =>
    let '(ds, rest) := read_digits radix l in
    let value := fold_left (fun acc d => acc * radix + d) ds 0 in
    let too_long := match max_digits with Some n => Nat.ltb n (length ds) | None => false end in
    let zero_prefix := match ds with d :: _ :: _ => d =? 0 | _ => false end in
    if Nat.eqb (length ds) 0 || too_long || (negb allow_zero_prefix && zero_prefix) || (hi <? value)
    then None else Some (value, rest).

Fixpoint read_octets (n index : nat) : parser (list Z) :=
  match n with
  | O => preturn []
  | S n =>
      o <~ read_separator 46 index (read_number 10 U8_MAX (Some 3%nat) false) ;
      os <~ read_octets n (S index) ;
      preturn (o :: os)
  end.
Definition read_ipv4_addr : parser (list Z) := read_octets 4 0.

(** [read_groups]: as many of [limit] groups as there are, and whether the last
    two were an embedded IPv4 address. *)
Fixpoint read_groups (limit index : nat) (l : bytes) : list Z * bool * bytes :=
  match limit with
  | O => ([], false, l)
  | S more =>
      match (if Nat.ltb 0 more then read_separator 58 index read_ipv4_addr l else None) with
      | Some ([a; b; c; d], l) => ([a * 256 + b; c * 256 + d], true, l)
      | _ =>
          match read_separator 58 index (read_number 16 U16_MAX (Some 4%nat) true) l with
          | Some (g, l) => let '(gs, v4, l) := read_groups more (S index) l in (g :: gs, v4, l)
          | None => ([], false, l)
          end
      end
  end.
Definition read_ipv6_addr : parser (list Z) := fun l =>
  let '(head, head_v4, l) := read_groups 8 0 l in
  if Nat.eqb (length head) 8 then Some (head, l)
  else if head_v4 then None
  else
    (_u <~ read_given_char 58 ;
     _u <~ read_given_char 58 ;
     fun l =>
       let '(tail, _, l) := read_groups (7 - length head) 0 l in
       Some (head ++ replicate (8 - length head - length tail) 0 ++ tail, l)) l.

Definition read_port : parser Z := _u <~ read_given_char 58 ; read_number 10 U16_MAX None true.
Definition read_scope_id : parser Z := _u <~ read_given_char 37 ; read_number 10 U32_MAX None true.
Definition read_socket_addr_v4 : parser SocketAddr :=
  ip <~ read_ipv4_addr ; port <~ read_port ; preturn (SocketAddrV4 ip port).
Definition read_socket_addr_v6 : parser SocketAddr :=
  _u <~ read_given_char 91 ;
  ip <~ read_ipv6_addr ;
  scope_id <~ por_else read_scope_id 0 ;
  _u <~ read_given_char 93 ;
  port <~ read_port ;
  preturn (SocketAddrV6 ip scope_id port).

(** [s.parse::<SocketAddr>().ok()]: nothing may follow the address. *)
Definition parse_socket_addr (s : string) : option SocketAddr :=
  match por read_socket_addr_v4 read_socket_addr_v6 (as_bytes s) with
  | Some (a, []) => Some a
  | _ => None
  end.
(** [format!("{host}:{port}").parse::<SocketAddr>().ok()] *)
Definition endpoint_addr (host : string) (port : Z) : option SocketAddr :=
  parse_socket_addr (host +:+ ":" +:+ show_uint port).

(* ------------------------------------------------------------------ *)
(** ** Dotted addresses                                                 *)
(* ------------------------------------------------------------------ *)

Example parses_v4 : endpoint_addr "127.0.0.1" 7400 = Some (SocketAddrV4 [127; 0; 0; 1] 7400).
Proof. vm_compute. reflexivity. Qed.
Example parses_v6 : endpoint_addr "[fe80::1%3]" 7400 = Some (SocketAddrV6 [0xfe80; 0; 0; 0; 0; 0; 0; 1] 3 7400).
Proof. vm_compute. reflexivity. Qed.
Example parses_v6_v4 : endpoint_addr "[::ffff:10.0.0.1]" 80 = Some (SocketAddrV6 [0; 0; 0; 0; 0; 0xffff; 0x0a00; 1] 0 80).
Proof. vm_compute. reflexivity. Qed.
Example rejects_name : endpoint_addr "localhost" 7400 = None.
Proof. vm_compute. reflexivity. Qed.
Example rejects_octal : endpoint_addr "127.0.0.01" 7400 = None.
Proof. vm_compute. reflexivity. Qed.
Example rejects_bare_v6 : endpoint_addr "::1" 7400 = None.
Proof. vm_compute. reflexivity. Qed.
