(* ===== verification/Config.v ===== *)
(** * Config: [crates/common/src/lib.rs], the configuration of a broker and the
    cluster membership it gives.  The TOML parser is a parameter. *)

From stdpp Require Import base numbers list strings gmap sorting.
From Stdlib Require Import ZArith Lia.
From S2P Require Import Prelude Text Addr.

(* ------------------------------------------------------------------ *)
(** ** Data                                                             *)
(* ------------------------------------------------------------------ *)

Record ClusterNodeConfig := {
  nc_id : Z;
  nc_host : string;
  nc_port : Z;
  nc_admin_port : Z;
  nc_replication_port : Z
}.
Record ClusterConfig := {
  cg_broker_id : Z;
  cg_replication_factor : Z;
  cg_min_in_sync_replicas : Z;
  cg_nodes : list ClusterNodeConfig
}.
Record LoggingConfig := { lg_json : bool }.
Record AdminConfig := { ac_host : string; ac_port : Z }.
Record BrokerConfig := {
  bc_host : string;
  bc_port : Z;
  bc_data_dir : string;
  bc_max_segment_bytes : Z;
  bc_index_interval_bytes : Z;
  bc_default_partition_count : Z;
  bc_group_session_timeout_ms : Z;
  bc_retention_bytes : Z;
  bc_retention_ms : Z;
  bc_storage_queue_capacity : Z;
  bc_storage_enqueue_timeout_ms : Z;
  bc_auto_create_topics : bool
}.
Record Config := {
  cf_broker : BrokerConfig;
  cf_admin : AdminConfig;
  cf_logging : LoggingConfig;
  cf_cluster : ClusterConfig
}.
Inductive ConfigError :=
| ConfigRead
| ConfigParse
| Address
| AdminAddress
| InvalidCluster
| LocalBrokerMissing
| InvalidReplicationPolicy.

#[global] Instance ClusterNodeConfig_eq_dec : EqDecision ClusterNodeConfig.
Proof. solve_decision. Defined.

(** What [serde] fills in for a key or a table that is not in the file. *)
Definition default_replication_factor : Z := 1.
Definition default_min_in_sync_replicas : Z := 1.
Definition ClusterConfig_default : ClusterConfig :=
  {| cg_broker_id := 1; cg_replication_factor := default_replication_factor;
     cg_min_in_sync_replicas := default_min_in_sync_replicas; cg_nodes := [] |}.
Definition AdminConfig_default : AdminConfig := {| ac_host := "127.0.0.1"; ac_port := 7401 |}.

(* ------------------------------------------------------------------ *)
(** ** Operations                                                       *)
(* ------------------------------------------------------------------ *)

(** [from_file]: what the file holds, if it can be read as text, through the
    TOML parser. *)
Definition from_file (from_str : string -> option Config) (contents : option string)
  : outcome ConfigError Config :=
  match contents with
  | None => Err ConfigRead
  | Some contents => match from_str contents with
                     | Some config => Ok config
                     | None => Err ConfigParse
                     end
  end.

Definition configured_nodes (c : Config) : outcome ConfigError (list ClusterNodeConfig) :=
  match cg_nodes (cf_cluster c) with
  | [] =>
      let port := bc_port (cf_broker c) in
      if port + 100 <=? U16_MAX then
        Ok [{| nc_id := cg_broker_id (cf_cluster c); nc_host := bc_host (cf_broker c); nc_port := port;
               nc_admin_port := ac_port (cf_admin c); nc_replication_port := port + 100 |}]
      else Err InvalidCluster
  | ns => Ok ns
  end.

(** [set.insert(x)], and stop when [x] was there. *)
Definition insert_new {A} `{Countable A} (x : A) (seen : gset A) : option (gset A) :=
  if bool_decide (x ∈ seen) then None else Some ({[x]} ∪ seen).
(** One node of the loop: the sets with the node, unless it is refused. *)
Definition check_node (seen : gset Z * gset (string * Z)) (n : ClusterNodeConfig)
  : option (gset Z * gset (string * Z)) :=
  let '(ids, endpoints) := seen in
  if nc_id n =? 0 then None
  else
    ids ← insert_new (nc_id n) ids;
    endpoints ← insert_new (nc_host n, nc_port n) endpoints;
    endpoints ← insert_new (nc_host n, nc_admin_port n) endpoints;
    endpoints ← insert_new (nc_host n, nc_replication_port n) endpoints;
    if existsb (fun port => bool_decide (endpoint_addr (nc_host n) port = None))
         [nc_port n; nc_admin_port n; nc_replication_port n]
    then None else Some (ids, endpoints).
Fixpoint check_nodes (seen : gset Z * gset (string * Z)) (ns : list ClusterNodeConfig)
  : option (gset Z * gset (string * Z)) :=
  match ns with
  | [] => Some seen
  | n :: ns => seen ← check_node seen n; check_nodes seen ns
  end.

Definition node_le (a b : ClusterNodeConfig) : Prop := nc_id a <= nc_id b.
#[global] Instance node_le_dec : RelDecision node_le.
Proof. intros a b. unfold node_le. apply _. Defined.
Definition cluster_nodes (c : Config) : outcome ConfigError (list ClusterNodeConfig) :=
  obind (configured_nodes c) (fun ns =>
  match check_nodes (∅, ∅) ns with
  | None => Err InvalidCluster
  | Some (ids, _) =>
      let cluster := cf_cluster c in
      if negb (bool_decide (cg_broker_id cluster ∈ ids)) then Err LocalBrokerMissing
      else if (cg_replication_factor cluster =? 0) ||
              (Z.of_nat (length ns) <? cg_replication_factor cluster) ||
              (cg_min_in_sync_replicas cluster =? 0) ||
              (cg_replication_factor cluster <? cg_min_in_sync_replicas cluster)
           then Err InvalidReplicationPolicy
      else Ok (merge_sort node_le ns)
  end).

Definition BrokerConfig_socket_addr (b : BrokerConfig) : outcome ConfigError SocketAddr :=
  match endpoint_addr (bc_host b) (bc_port b) with Some a => Ok a | None => Err Address end.
Definition AdminConfig_socket_addr (a : AdminConfig) : outcome ConfigError SocketAddr :=
  match endpoint_addr (ac_host a) (ac_port a) with Some a => Ok a | None => Err AdminAddress end.

(* ------------------------------------------------------------------ *)
(** ** What the checks accept                                           *)
(* ------------------------------------------------------------------ *)

Definition endpoints_of (n : ClusterNodeConfig) : list (string * Z) :=
  [(nc_host n, nc_port n); (nc_host n, nc_admin_port n); (nc_host n, nc_replication_port n)].
Definition parses (e : string * Z) : Prop := is_Some (endpoint_addr e.1 e.2).
(** Ids other than zero and distinct; addresses that are literal and distinct. *)
Definition valid_nodes (ns : list ClusterNodeConfig) : Prop :=
  Forall (fun n => nc_id n <> 0) ns /\ NoDup (nc_id <$> ns) /\
  NoDup (mbind endpoints_of ns) /\ Forall parses (mbind endpoints_of ns).
(** The replication policy fits [n] nodes. *)
Definition valid_policy (n : Z) (c : ClusterConfig) : Prop :=
  1 <= cg_min_in_sync_replicas c <= cg_replication_factor c /\ cg_replication_factor c <= n.
Definition by_id (a b : ClusterNodeConfig) : Prop := nc_id a < nc_id b.

Lemma insert_new_Some {A} `{Countable A} (x : A) (seen seen' : gset A) :
  insert_new x seen = Some seen' <-> (x ∉ seen) /\ seen' = {[x]} ∪ seen.
Proof. unfold insert_new. case_bool_decide; [|naive_solver]. split; [done|]. by intros [? _]. Qed.

Lemma check_node_Some ids eps n ids' eps' :
  check_node (ids, eps) n = Some (ids', eps') <->
  nc_id n <> 0 /\ (nc_id n ∉ ids) /\ NoDup (endpoints_of n) /\
  (forall e : string * Z, e ∈ endpoints_of n -> e ∉ eps) /\ Forall parses (endpoints_of n) /\
  ids' = {[nc_id n]} ∪ ids /\ eps' = list_to_set (endpoints_of n) ∪ eps.
Proof.
  unfold check_node. destruct (Z.eqb_spec (nc_id n) 0) as [->|Hz]; [split; [done|by intros [? _]]|].
  set (a := (nc_host n, nc_port n)). set (b := (nc_host n, nc_admin_port n)).
  set (c := (nc_host n, nc_replication_port n)).
  assert (existsb (fun port => bool_decide (endpoint_addr (nc_host n) port = None))
            [nc_port n; nc_admin_port n; nc_replication_port n] = false <->
          Forall parses (endpoints_of n)) as Hp.
  { assert (forall p : Z, bool_decide (endpoint_addr (nc_host n) p = None) = false <-> parses (nc_host n, p)) as H1.
    { intros p. rewrite bool_decide_eq_false. apply not_eq_None_Some. }
    cbn [existsb]. rewrite !orb_false_iff, !H1. unfold endpoints_of. rewrite !Forall_cons, Forall_nil. tauto. }
  assert (NoDup (endpoints_of n) <-> a <> b /\ a <> c /\ b <> c) as Hnd.
  { unfold endpoints_of. fold a b c. rewrite !NoDup_cons, !not_elem_of_cons. split; [naive_solver|].
    intros (? & ? & ?). split_and!; auto using not_elem_of_nil, NoDup_nil_2. }
  assert ((forall e : string * Z, e ∈ endpoints_of n -> e ∉ eps) <-> a ∉ eps /\ b ∉ eps /\ c ∉ eps) as Hfresh.
  { unfold endpoints_of. fold a b c. split; [intros He; split_and!; apply He; set_solver|].
    intros (? & ? & ?) e. rewrite !elem_of_cons. intros [->|[->|[->|?%elem_of_nil]]]; done. }
  assert (list_to_set (endpoints_of n) ∪ eps = {[c]} ∪ ({[b]} ∪ ({[a]} ∪ eps))) as Heps.
  { unfold endpoints_of. fold a b c. cbn [list_to_set]. set_solver. }
  rewrite Hnd, Hfresh, Heps, <- Hp. clear Hnd Hfresh Heps Hp.
  destruct (existsb _ _).
  - split; [|naive_solver]. intros (i & Hi & H1)%bind_Some. apply bind_Some in H1 as (e1 & _ & H1).
    apply bind_Some in H1 as (e2 & _ & H1). by apply bind_Some in H1 as (e3 & _ & H1).
  - rewrite bind_Some. setoid_rewrite bind_Some. setoid_rewrite bind_Some. setoid_rewrite bind_Some.
    setoid_rewrite insert_new_Some. split.
    + intros (i & [Hi ->] & e1 & [H1 ->] & e2 & [H2 ->] & e3 & [H3 ->] & [= <- <-]).
      rewrite !not_elem_of_union, !not_elem_of_singleton in *. split_and!; try done; naive_solver.
    + intros (_ & Hi & (Hab & Hac & Hbc) & (Ha & Hb & Hc) & _ & -> & ->).
      eexists. split; [done|]. eexists. split; [done|]. eexists.
      split; [split; [|done]; rewrite not_elem_of_union, not_elem_of_singleton; naive_solver|].
      eexists. split; [split; [|done]|done].
      rewrite !not_elem_of_union, !not_elem_of_singleton. naive_solver.
Qed.

Lemma union_shift {A} `{Countable A} (X Y Z : gset A) : Y ∪ (X ∪ Z) = X ∪ Y ∪ Z.
Proof. set_solver. Qed.
Lemma check_nodes_Some ns ids eps ids' eps' :
  check_nodes (ids, eps) ns = Some (ids', eps') <->
  (valid_nodes ns /\ (forall i, i ∈ nc_id <$> ns -> i ∉ ids) /\
   (forall e : string * Z, e ∈ mbind endpoints_of ns -> e ∉ eps)) /\
  ids' = list_to_set (nc_id <$> ns) ∪ ids /\ eps' = list_to_set (mbind endpoints_of ns) ∪ eps.
Proof.
  unfold valid_nodes. revert ids eps. induction ns as [|n ns IH]; intros ids eps; cbn [check_nodes].
  { cbn. rewrite !(left_id_L ∅ (∪)). split; [intros [= <- <-]|by intros (_ & -> & ->)].
    split; [|done]. split; [by split_and!; constructor|]. split; by intros ? ?%elem_of_nil. }
  rewrite bind_Some, bind_cons, list_to_set_app_L, NoDup_app, Forall_app, fmap_cons, NoDup_cons, Forall_cons.
  cbn [list_to_set]. split.
  - intros ([i1 e1] & H1%check_node_Some & H2%IH). destruct H1 as (? & ? & ? & He1 & ? & -> & ->).
    destruct H2 as (((? & ? & ? & ?) & Hi & He) & -> & ->). rewrite !union_shift.
    setoid_rewrite not_elem_of_union in Hi. setoid_rewrite not_elem_of_singleton in Hi.
    setoid_rewrite not_elem_of_union in He. setoid_rewrite not_elem_of_list_to_set in He.
    split; [|done]. split_and!; try done.
    + intros Hin. by destruct (Hi _ Hin).
    + intros e Hin Hin'. by destruct (He _ Hin').
    + intros i [->|Hin]%elem_of_cons; [done|apply (Hi _ Hin)].
    + intros e [Hin|Hin]%elem_of_app; [auto|apply (He _ Hin)].
  - intros (((Hz & [Hni Hi] & (He & Hd & He') & Hp) & Hs & Hse) & -> & ->).
    exists ({[nc_id n]} ∪ ids, list_to_set (endpoints_of n) ∪ eps). split.
    + apply check_node_Some. split_and!; try done; [apply Hz|apply Hs; left| |apply Hp].
      intros e Hin. apply Hse. apply elem_of_app. by left.
    + apply IH. rewrite !union_shift. split; [|done].
      split; [split_and!; try done; [apply Hz|apply Hp]|]. split.
      * intros i Hin. rewrite not_elem_of_union, not_elem_of_singleton. split; [by intros ->|].
        apply Hs. by right.
      * intros e Hin. rewrite not_elem_of_union, not_elem_of_list_to_set. split; [by intros ?%Hd|].
        apply Hse. apply elem_of_app. by right.
Qed.

Lemma sorted_by_id ns : NoDup (nc_id <$> ns) -> StronglySorted by_id (merge_sort node_le ns).
Proof.
  intros Hnd. assert (Transitive node_le) as Ht by (intros a b c; unfold node_le; lia).
  assert (Total node_le) as Hto by (intros a b; unfold node_le; lia).
  assert (StronglySorted node_le (merge_sort node_le ns)) as Hs by (apply StronglySorted_merge_sort; apply _).
  assert (NoDup (nc_id <$> merge_sort node_le ns)) as Hn by by rewrite merge_sort_Permutation.
  induction Hs as [|n l Hl IH HF]; [constructor|]. apply NoDup_cons in Hn as [Hni Hn].
  constructor; [auto|]. rewrite Forall_forall in *. intros m Hm. specialize (HF m Hm).
  unfold node_le, by_id in *. assert (nc_id n <> nc_id m); [|lia].
  intros He. apply Hni. rewrite He. by apply list_elem_of_fmap_2.
Qed.
Lemma sorted_unique l l' : StronglySorted by_id l -> StronglySorted by_id l' -> l ≡ₚ l' -> l = l'.
Proof. apply (StronglySorted_unique_strong by_id). unfold by_id. intros. lia. Qed.

#[export] Instance valid_nodes_proper : Proper ((≡ₚ) ==> iff) valid_nodes.
Proof.
  assert (forall l l' : list ClusterNodeConfig, l ≡ₚ l' -> valid_nodes l -> valid_nodes l') as H.
  { unfold valid_nodes. intros l l' Hp (H1 & H2 & H3 & H4). split_and!; by rewrite <- Hp. }
  intros l l' Hp. split; apply H; [done|by symmetry].
Qed.
Lemma check_nodes_valid ns : valid_nodes ns -> check_nodes (∅, ∅) ns <> None.
Proof.
  intros Hv. enough (check_nodes (∅, ∅) ns = Some (list_to_set (nc_id <$> ns) ∪ ∅,
    list_to_set (mbind endpoints_of ns) ∪ ∅)) as -> by done.
  apply check_nodes_Some. split; [|done]. split; [done|]. split; intros ? _; apply not_elem_of_empty.
Qed.
Lemma configured_nodes_error c e : configured_nodes c = Err e -> e = InvalidCluster.
Proof. unfold configured_nodes. destruct (cg_nodes _); [|done]. destruct (_ <=? _); [done|]. by intros [= <-]. Qed.
Lemma configured_nodes_total c : configured_nodes c <> Panic.
Proof. unfold configured_nodes. destruct (cg_nodes _); [|done]. by destruct (_ <=? _). Qed.

Lemma cluster_nodes_Ok c ns :
  0 <= cg_min_in_sync_replicas (cf_cluster c) -> 0 <= cg_replication_factor (cf_cluster c) ->
  cluster_nodes c = Ok ns ->
  exists cs, configured_nodes c = Ok cs /\ valid_nodes cs /\
    cg_broker_id (cf_cluster c) ∈ nc_id <$> ns /\
    valid_policy (Z.of_nat (length ns)) (cf_cluster c) /\ ns ≡ₚ cs /\ StronglySorted by_id ns.
Proof.
  intros Hmin Hrf. unfold cluster_nodes, valid_policy.
  destruct (configured_nodes c) as [cs|e|] eqn:Hcs; cbn [obind]; [|done..].
  destruct (check_nodes (∅, ∅) cs) as [[ids eps]|] eqn:Hck; [|done].
  apply check_nodes_Some in Hck as ((Hv & _ & _) & -> & _).
  case_bool_decide as Hin; [|done]. rewrite elem_of_union, elem_of_list_to_set in Hin. cbn [negb].
  destruct Hin as [Hin|Hin%elem_of_empty]; [|done].
  destruct (_ || _) eqn:Hpol; [done|]. intros [= <-]. exists cs.
  rewrite !orb_false_iff, !Z.eqb_neq, !Z.ltb_ge in Hpol.
  pose proof (merge_sort_Permutation node_le cs) as Hp. pose proof (sorted_by_id cs (proj1 (proj2 Hv))) as Hs.
  revert Hp Hs. generalize (merge_sort node_le cs). intros ns Hp Hs.
  split_and!; try done; rewrite ?Hp; try done; lia.
Qed.

(* ------------------------------------------------------------------ *)
(** ** Properties                                                       *)
(* ------------------------------------------------------------------ *)

(** C33 The cluster membership a configuration gives, on every branch: the nodes
    are those of the file, in increasing order of their ids, and they are given
    out exactly when every id is distinct and not zero, every port of every node
    is at a literal address that no other has, the broker itself is among them,
    and one to [replication_factor] in-sync replicas are required of at most as
    many replicas as there are nodes.  Otherwise the error names the check that
    failed. *)
Theorem cluster_nodes_exact c :
  0 <= cg_min_in_sync_replicas (cf_cluster c) -> 0 <= cg_replication_factor (cf_cluster c) ->
  match cluster_nodes c with
  | Ok ns => exists cs, configured_nodes c = Ok cs /\ valid_nodes cs /\
      cg_broker_id (cf_cluster c) ∈ nc_id <$> ns /\
      valid_policy (Z.of_nat (length ns)) (cf_cluster c) /\ ns ≡ₚ cs /\ StronglySorted by_id ns
  | Err InvalidCluster => forall cs, configured_nodes c = Ok cs -> ~ valid_nodes cs
  | Err LocalBrokerMissing => exists cs, configured_nodes c = Ok cs /\ valid_nodes cs /\
      ~ (cg_broker_id (cf_cluster c) ∈ nc_id <$> cs)
  | Err InvalidReplicationPolicy => exists cs, configured_nodes c = Ok cs /\ valid_nodes cs /\
      cg_broker_id (cf_cluster c) ∈ nc_id <$> cs /\
      ~ valid_policy (Z.of_nat (length cs)) (cf_cluster c)
  | _ => False
  end.
Proof.
  intros Hmin Hrf. destruct (cluster_nodes c) as [ns|e|] eqn:Hns; [by apply cluster_nodes_Ok| |].
  all: revert Hns; unfold cluster_nodes, valid_policy.
  all: destruct (configured_nodes c) as [cs|e'|] eqn:Hcs; cbn [obind];
    [|by intros [= <-]; apply configured_nodes_error in Hcs as ->|by apply configured_nodes_total in Hcs].
  all: destruct (check_nodes (∅, ∅) cs) as [[ids eps]|] eqn:Hck.
  all: try (apply check_nodes_Some in Hck as ((Hv & _ & _) & -> & _);
            rewrite (right_id_L ∅ (∪))).
  all: try (case_bool_decide as Hin; rewrite elem_of_list_to_set in Hin; cbn [negb]).
  all: try (destruct (_ || _) eqn:Hpol).
  all: try discriminate.
  - intros [= <-]. exists cs. split_and!; try done. rewrite !orb_true_iff, !Z.eqb_eq, !Z.ltb_lt in Hpol. lia.
  - intros [= <-]. by exists cs.
  - intros [= <-] cs' [= <-] Hv. by destruct (check_nodes_valid cs Hv).
Qed.

(** The three brokers of [config/cluster/], listed out of order. *)
Definition cluster_node (id port : Z) : ClusterNodeConfig :=
  {| nc_id := id; nc_host := "127.0.0.1"; nc_port := port; nc_admin_port := port + 1;
     nc_replication_port := port + 2 |}.
Definition file_broker : BrokerConfig :=
  {| bc_host := "127.0.0.1"; bc_port := 7400; bc_data_dir := "./data"; bc_max_segment_bytes := 268435456;
     bc_index_interval_bytes := 4096; bc_default_partition_count := 3; bc_group_session_timeout_ms := 10000;
     bc_retention_bytes := 0; bc_retention_ms := 0; bc_storage_queue_capacity := 1024;
     bc_storage_enqueue_timeout_ms := 100; bc_auto_create_topics := true |}.
Definition sample_file : Config :=
  {| cf_broker := file_broker; cf_admin := AdminConfig_default; cf_logging := {| lg_json := false |};
     cf_cluster := {| cg_broker_id := 1; cg_replication_factor := 3; cg_min_in_sync_replicas := 2;
                      cg_nodes := [cluster_node 2 7500; cluster_node 1 7400; cluster_node 3 7600] |} |}.

Lemma cluster_nodes_exact_witness :
  cluster_nodes sample_file = Ok [cluster_node 1 7400; cluster_node 2 7500; cluster_node 3 7600] /\
  match cluster_nodes sample_file with
  | Ok ns => exists cs, configured_nodes sample_file = Ok cs /\ valid_nodes cs /\ cg_broker_id (cf_cluster sample_file) ∈ nc_id <$> ns /\
      valid_policy (Z.of_nat (length ns)) (cf_cluster sample_file) /\ ns ≡ₚ cs /\ StronglySorted by_id ns
  | Err InvalidCluster => forall cs, configured_nodes sample_file = Ok cs -> ~ valid_nodes cs
  | Err LocalBrokerMissing => exists cs, configured_nodes sample_file = Ok cs /\ valid_nodes cs /\
      ~ (cg_broker_id (cf_cluster sample_file) ∈ nc_id <$> cs)
  | Err InvalidReplicationPolicy => exists cs, configured_nodes sample_file = Ok cs /\ valid_nodes cs /\
      cg_broker_id (cf_cluster sample_file) ∈ nc_id <$> cs /\ ~ valid_policy (Z.of_nat (length cs)) (cf_cluster sample_file)
  | _ => False
  end.
Proof.
  split; [vm_compute; reflexivity|].
  apply (cluster_nodes_exact sample_file); vm_compute; discriminate.
Defined.
