(* ===== verification/Files.v ===== *)
(** * Files: directories and the paths inside them.

    A directory is a finite map from file names to contents.  [replace_file] is
    the way the broker's metadata is written: a temporary file that is renamed
    over the old one; [replacing] are the directories a crash can leave. *)

From stdpp Require Import base numbers list strings gmap sorting.
From Stdlib Require Import ZArith Lia.
From S2P Require Import Prelude Text.

Abbreviation Dir := (gmap string bytes).

Definition DOT : byte := byte_of_Z 46.
Fixpoint break_dot (l : bytes) : option (bytes * bytes) :=
  match l with
  | [] => None
  | b :: l' =>
      if bool_decide (b = DOT) then Some ([], l')
      else match break_dot l' with Some (x, y) => Some (b :: x, y) | None => None end
  end.
(** The name before and after its last dot ([Path::file_stem] and
    [Path::extension]: a leading dot does not count). *)
Definition split_name (name : string) : bytes * option bytes :=
  match break_dot (reverse (as_bytes name)) with
  | Some (_, []) | None => (as_bytes name, None)
  | Some (after, before) => (reverse before, Some (reverse after))
  end.
Definition file_stem (name : string) : bytes := fst (split_name name).
Definition extension (name : string) : option bytes := snd (split_name name).
Definition with_extension (name ext : string) : string :=
  of_bytes (file_stem name ++ [DOT] ++ as_bytes ext).

(** [File::create(tmp)], writing [data], and [fs::rename(tmp, name)]. *)
Definition replace_file (name tmp : string) (data : bytes) (d : Dir) : Dir :=
  <[name := data]> (delete tmp d).
(** The directories a crash can leave while the file is replaced. *)
Inductive replacing (name tmp : string) (data : bytes) (d : Dir) : Dir -> Prop :=
| replacing_before : replacing name tmp data d d
| replacing_partial n : replacing name tmp data d (<[tmp := take n data]> d)
| replacing_after : replacing name tmp data d (replace_file name tmp data d).

(** [fs::read_to_string]: [None] when the contents are not UTF-8. *)
Definition read_to_string (contents : bytes) : option string := from_utf8 contents.

(** The order of Rust's [str] is that of the bytes. *)
Definition sort_strings (l : list string) : list string := merge_sort String.le l.

(* ------------------------------------------------------------------ *)
(** ** Lemmas                                                           *)
(* ------------------------------------------------------------------ *)

(** A file that is being replaced has its old contents or the new ones. *)
Lemma replacing_lookup name tmp data (d d' : Dir) :
  name <> tmp -> replacing name tmp data d d' ->
  d' !! name = d !! name \/ d' !! name = Some data.
Proof.
  intros Hne [|n|]; [by left| |].
  - left. by rewrite lookup_insert_ne.
  - right. apply lookup_insert_eq.
Qed.

Lemma replacing_other name tmp data (d d' : Dir) n :
  n <> name -> n <> tmp -> replacing name tmp data d d' -> d' !! n = d !! n.
Proof.
  intros Hn Ht [|k|]; [done| |].
  - by rewrite lookup_insert_ne.
  - unfold replace_file. by rewrite lookup_insert_ne, lookup_delete_ne.
Qed.

Lemma sort_strings_perm l : sort_strings l ≡ₚ l.
Proof. apply merge_sort_Permutation. Qed.

Lemma break_dot_app l r :
  Forall (fun b => b <> DOT) l -> break_dot (l ++ DOT :: r) = Some (l, r).
Proof.
  induction 1 as [|b l Hb _ IH]; cbn [break_dot app].
  - by rewrite bool_decide_eq_true_2.
  - by rewrite bool_decide_eq_false_2, IH.
Qed.

Lemma split_name_dot stem ext :
  stem <> [] -> Forall (fun b => b <> DOT) ext ->
  split_name (of_bytes (stem ++ DOT :: ext)) = (stem, Some ext).
Proof.
  intros Hs He. unfold split_name. rewrite as_bytes_of_bytes, reverse_app, reverse_cons.
  rewrite <- app_assoc. cbn [app]. rewrite break_dot_app by (by apply Forall_reverse).
  destruct (reverse stem) as [|b s] eqn:Hr.
  - destruct stem; [done|]. apply (f_equal length) in Hr. rewrite length_reverse in Hr. done.
  - rewrite <- Hr. by rewrite !reverse_involutive.
Qed.
