(* ===== verification/Runs.v ===== *)
(** * Runs: running and inverting computations on a buffer.

    A successful run is inverted step by step ([run_inv]); a run on known
    bytes is executed step by step ([run_all]). *)

From stdpp Require Import base numbers list strings gmap.
From Stdlib Require Import ZArith Lia.
From S2P Require Import Prelude.

(* ------------------------------------------------------------------ *)
(** ** Inverting a successful run                                       *)
(* ------------------------------------------------------------------ *)

Section inversion.
Context {S E : Type}.

Lemma ret_inv {A} (a b : A) (s s' : S) : ret (E:=E) a s = (Ok b, s') -> b = a /\ s' = s.
Proof. unfold ret. naive_solver. Qed.
Lemma throw_inv {A} (e : E) (b : A) (s s' : S) : throw e s = (Ok b, s') -> False.
Proof. unfold throw. naive_solver. Qed.
Lemma reject_if_inv c (e : E) (s s' : S) u :
  reject_if c e s = (Ok u, s') -> c = false /\ s' = s.
Proof. unfold reject_if, throw, ret. destruct c; naive_solver. Qed.
Lemma ok_or_inv {A} (o : option A) (e : E) (a : A) (s s' : S) :
  ok_or o e s = (Ok a, s') -> o = Some a /\ s' = s.
Proof. unfold ok_or, ret, throw. destruct o; naive_solver. Qed.
Lemma try_from_inv hi v (e : E) w (s s' : S) :
  try_from hi v e s = (Ok w, s') -> v <= hi /\ w = v /\ s' = s.
Proof. unfold try_from, ret, throw. destruct (Z.leb_spec v hi); naive_solver. Qed.

End inversion.

(** A loop that only writes, writes the concatenation. *)
Lemma for_each_inv {E A} (body : A -> SM bytes E unit) (f : A -> bytes) (P : A -> Prop) xs b b' u :
  (forall x c c' v, body x c = (Ok v, c') -> c' = c ++ f x /\ P x) ->
  for_each xs body b = (Ok u, b') -> b' = b ++ (xs ≫= f) /\ Forall P xs.
Proof.
  intros Hbody. revert b. induction xs as [|x xs IH]; intros b Hrun; cbn in Hrun.
  { apply ret_inv in Hrun as [_ ->]. cbn. by rewrite app_nil_r. }
  apply bind_inv in Hrun as (v & c & Hx & Hrun).
  apply Hbody in Hx as [-> HP]. apply IH in Hrun as [-> HF].
  cbn. rewrite <- app_assoc. auto.
Qed.


Lemma put_slice_inv {E} d b b' u : put_slice (E:=E) d b = (Ok u, b') -> b' = b ++ d.
Proof. unfold put_slice, modify. naive_solver. Qed.

(** Invert every successful step of a run. *)
Ltac run_inv_core :=
  match goal with
  | H : bind _ _ _ = (Ok _, _) |- _ => apply bind_inv in H as (? & ? & ? & H)
  | H : ret _ _ = (Ok _, _) |- _ => apply ret_inv in H as [? ?]; subst
  | H : throw _ _ = (Ok _, _) |- _ => destruct (throw_inv _ _ _ _ H)
  | H : reject_if _ _ _ = (Ok _, _) |- _ => apply reject_if_inv in H as [? ?]; subst
  | H : ok_or _ _ _ = (Ok _, _) |- _ => apply ok_or_inv in H as [? ?]; subst
  | H : try_from _ _ _ _ = (Ok _, _) |- _ => apply try_from_inv in H as (? & ? & ?); subst
  | H : put_slice _ _ = (Ok _, _) |- _ => apply put_slice_inv in H; subst
  | H : put_u8 _ _ = (Ok _, _) |- _ => apply put_slice_inv in H; subst
  | H : put_u16 _ _ = (Ok _, _) |- _ => apply put_slice_inv in H; subst
  | H : put_u32 _ _ = (Ok _, _) |- _ => apply put_slice_inv in H; subst
  | H : put_u64 _ _ = (Ok _, _) |- _ => apply put_slice_inv in H; subst
  | H : put_i32 _ _ = (Ok _, _) |- _ => apply put_slice_inv in H; subst
  | H : remaining ?b = (Ok _, _) |- _ => unfold remaining, gets in H; injection H as ? ?; subst
  end.
Ltac run_inv0 := repeat (run_inv_core; cbv beta in *).

(* ------------------------------------------------------------------ *)
(** ** Executing a run                                                  *)
(* ------------------------------------------------------------------ *)

(** Lengths of concatenations. *)
Ltac blia :=
  unfold str_len in *; autorewrite with blen;
  change (Z.of_nat 1) with 1; change (Z.of_nat 2) with 2; change (Z.of_nat 4) with 4;
  change (Z.of_nat 8) with 8;
  repeat match goal with
  | |- context [blen ?x] =>
      lazymatch goal with
      | H : 0 <= blen x |- _ => fail
      | _ => pose proof (blen_nonneg x)
      end
  end; range.

#[export] Hint Extern 1 (_ <= blen _) => blia : codec.
#[export] Hint Extern 1 (blen _ = _) => blia : codec.
#[export] Hint Extern 2 (in_range _ _) => (split; vm_compute; discriminate) : codec.
#[export] Hint Extern 2 (in_range _ _) => blia : codec.

Lemma ok_or_Some {S E A} (o : option A) (e : E) (a : A) (s : S) :
  o = Some a -> ok_or o e s = (Ok a, s).
Proof. by intros ->. Qed.
Lemma reject_if_false {S E} (c : bool) (e : E) (s : S) :
  c = false -> reject_if c e s = (Ok tt, s).
Proof. by intros ->. Qed.
(** Reading back a sequence of fixed elements. *)
Lemma repeat_m_app {E A} (dec : SM bytes E A) (f : A -> bytes) xs r :
  Forall (fun x => forall r, dec (f x ++ r) = (Ok x, r)) xs ->
  repeat_m (length xs) dec ((xs ≫= f) ++ r) = (Ok xs, r).
Proof.
  induction 1 as [|x xs Hx _ IH]; [done|].
  cbn [length repeat_m]. cbn. rewrite <- app_assoc.
  erewrite bind_Ok by apply Hx. by erewrite bind_Ok by apply IH.
Qed.

#[export] Hint Extern 2 (_ = false) => blia : codec.
#[export] Hint Extern 2 (_ <= _) => blia : codec.
#[export] Hint Resolve reject_if_false ok_or_Some : codec.

(** Evaluate a comparison of constants. *)
Ltac cmp_const :=
  match goal with
  | |- context [?a =? ?b] =>
      let v := eval vm_compute in (a =? b) in
      lazymatch v with
      | true => change (a =? b) with true
      | false => change (a =? b) with false
      end; cbv iota; cbn [andb orb negb]
  end.

Lemma remaining_run {E} b : remaining (E:=E) b = (Ok (blen b), b).
Proof. done. Qed.
Lemma get_run {S E} (s : S) : get (E:=E) s = (Ok s, s).
Proof. done. Qed.
#[export] Hint Resolve remaining_run : codec.

Ltac run_all := repeat (first [cmp_const | run_step]).

Lemma put_slice_run {E} d b : put_slice (E:=E) d b = (Ok tt, b ++ d).
Proof. done. Qed.
Lemma put_u8_run {E} v b : put_u8 (E:=E) v b = (Ok tt, b ++ be 1 v).
Proof. done. Qed.
Lemma put_u16_run {E} v b : put_u16 (E:=E) v b = (Ok tt, b ++ be 2 v).
Proof. done. Qed.
Lemma put_u32_run {E} v b : put_u32 (E:=E) v b = (Ok tt, b ++ be 4 v).
Proof. done. Qed.
Lemma put_u64_run {E} v b : put_u64 (E:=E) v b = (Ok tt, b ++ be 8 v).
Proof. done. Qed.
Lemma put_i32_run {E} v b : put_i32 (E:=E) v b = (Ok tt, b ++ be 4 v).
Proof. done. Qed.
Lemma try_from_run {S E} hi v (e : E) (s : S) : v <= hi -> try_from hi v e s = (Ok v, s).
Proof. intros. unfold try_from. destruct (Z.leb_spec v hi); [done|lia]. Qed.
#[export] Hint Resolve put_slice_run put_u8_run put_u16_run put_u32_run put_u64_run
  put_i32_run try_from_run : codec.

Lemma for_each_run {A E} (body : A -> SM bytes E unit) (f : A -> bytes) xs b :
  (forall x c, x ∈ xs -> body x c = (Ok tt, c ++ f x)) ->
  for_each xs body b = (Ok tt, b ++ (xs ≫= f)).
Proof.
  revert b. induction xs as [|x xs IH]; intros b Hbody; cbn [for_each].
  { cbn. by rewrite app_nil_r. }
  erewrite bind_Ok by (apply Hbody; left). cbv beta. rewrite IH, bind_cons, app_assoc; [done|].
  intros. apply Hbody. by right.
Qed.

