(* ===== verification/Protocol.v ===== *)
(** * Protocol: the wire types and the binary codec of [crates/protocol].

    Requests, responses and replication frames with their constructors and
    validation, the encoders (writers on the output buffer) and the decoders
    (readers on the input buffer).  The codec of the [zstd] crate is a
    parameter ([Zstd]). *)

From stdpp Require Import base numbers list strings gmap.
From Stdlib Require Import ZArith Lia.
From S2P Require Import Prelude Text.

(* ------------------------------------------------------------------ *)
(** ** Constants                                                        *)
(* ------------------------------------------------------------------ *)

Definition MAX_TOPIC_NAME : Z := 249.
Definition MAX_KEY_SIZE : Z := 65535.
Definition MAX_MESSAGE_SIZE : Z := 1024 * 1024.
Definition MAX_FRAME_SIZE : Z := 4 * 1024 * 1024.
Definition MAX_BATCH_MESSAGES : Z := 1000.
Definition MAX_UNCOMPRESSED_BATCH_SIZE : Z := 3 * 1024 * 1024.
Definition MAX_FETCH_BYTES : Z := 3 * 1024 * 1024.
Definition MAX_FETCH_WAIT_MS : Z := 30000.
Definition MAX_CLUSTER_NODES : Z := 1024.
Definition FRAME_HEADER_SIZE : Z := 4.

Definition PRODUCE : Z := 0x01.
Definition PRODUCE_ACK : Z := 0x02.
Definition PRODUCE_BATCH : Z := 0x03.
Definition PRODUCE_BATCH_ACK : Z := 0x04.
Definition FETCH : Z := 0x10.
Definition FETCH_RESPONSE : Z := 0x11.
Definition JOIN_GROUP : Z := 0x20.
Definition JOIN_GROUP_RESPONSE : Z := 0x21.
Definition HEARTBEAT : Z := 0x22.
Definition LEAVE_GROUP : Z := 0x23.
Definition COMMIT_OFFSET : Z := 0x24.
Definition FETCH_COMMITTED_OFFSET : Z := 0x25.
Definition GROUP_ACK : Z := 0x26.
Definition COMMITTED_OFFSET_RESPONSE : Z := 0x27.
Definition ERROR_RESPONSE : Z := 0x7f.
Definition GROUP_FETCH : Z := 0x28.
Definition CREATE_TOPIC : Z := 0x30.
Definition LIST_TOPICS : Z := 0x31.
Definition DESCRIBE_TOPIC : Z := 0x32.
Definition TOPICS_RESPONSE : Z := 0x33.
Definition CLUSTER_METADATA : Z := 0x40.
Definition CLUSTER_METADATA_RESPONSE : Z := 0x41.
Definition PROMOTE_LEADER : Z := 0x42.
Definition APPLY_LEADERSHIP : Z := 0x43.
Definition LEADERSHIP_CHANGED : Z := 0x44.
Definition PARTITION_STATUS : Z := 0x45.
Definition PARTITION_STATUS_RESPONSE : Z := 0x46.
Definition REPLICATE_RECORD : Z := 0x50.
Definition REPLICATE_ACK : Z := 0x51.

(* ------------------------------------------------------------------ *)
(** ** Data                                                             *)
(* ------------------------------------------------------------------ *)

Inductive ProtocolError : Type :=
| InvalidFrame
| FrameTooLarge
| UnknownOpcode (value : Z)
| InvalidTopic
| TopicTooLarge
| KeyTooLarge
| MessageTooLarge
| FetchTooLarge
| FetchWaitTooLong
| InvalidAckMode (code : Z)
| InvalidProducerId
| InvalidBatchCount
| BatchTooLarge
| InvalidCompression (code : Z)
| InvalidCompressedBatch
| InvalidPartitionCount
| InvalidClusterMetadata.

Record ClusterNode := {
  cn_id : Z;
  cn_host : string;
  cn_port : Z;
  cn_admin_port : Z;
  cn_replication_port : Z
}.
Record ClusterMetadata := {
  cm_responding_broker_id : Z;
  cm_nodes : list ClusterNode
}.
Record CreateTopicRequest := { ct_topic : string; ct_partitions : Z }.
Record TopicMetadata := {
  tm_topic : string;
  tm_partitions : Z;
  tm_leaders : list Z;
  tm_leader_epochs : list Z;
  tm_high_watermarks : list Z
}.
Record PartitionLeadership := {
  pl_partition : Z;
  pl_leader_id : Z;
  pl_leader_epoch : Z;
  pl_high_watermark : Z
}.
Record PromoteLeaderRequest := { plr_topic : string; plr_partition : Z; plr_leader_id : Z }.
Record ApplyLeadershipRequest := { alr_topic : string; alr_leadership : PartitionLeadership }.
Record PartitionStatusRequest := { psr_topic : string; psr_partition : Z }.
Record ReplicateRecord := {
  rr_topic : string;
  rr_partition : Z;
  rr_offset : Z;
  rr_timestamp_ms : Z;
  rr_key : option bytes;
  rr_value : bytes;
  rr_durable : bool;
  rr_leader_id : Z;
  rr_leader_epoch : Z
}.
Record ReplicateAck := { ra_partition : Z; ra_next_offset : Z }.

Inductive Compression := CompressionNone | CompressionZstd.
Inductive AckMode := AckLeader | AckDurable.

Record BatchRecord := { br_key : bytes; br_payload : bytes }.
Record ProduceBatchRequest := {
  pb_topic : string;
  pb_records : list BatchRecord;
  pb_ack_mode : AckMode;
  pb_compression : Compression;
  pb_partition : option Z
}.
Record GroupMemberRequest := { gm_group : string; gm_topic : string; gm_member : string }.
Record GroupGenerationRequest := {
  gg_group : string; gg_topic : string; gg_member : string; gg_generation : Z
}.
Record CommitOffsetRequest := {
  co_group : string; co_topic : string; co_member : string; co_generation : Z;
  co_partition : Z; co_offset : Z
}.
Record FetchCommittedOffsetRequest := {
  fc_group : string; fc_topic : string; fc_partition : Z
}.
Record GroupFetchRequest := {
  gf_group : string; gf_topic : string; gf_member : string; gf_generation : Z;
  gf_partition : Z; gf_offset : Z; gf_max_bytes : Z; gf_max_wait_ms : Z
}.
Record FetchRequest := {
  fr_topic : string; fr_partition : Z; fr_offset : Z; fr_max_bytes : Z; fr_max_wait_ms : Z
}.
Record ProducerIdentity := { pi_id : string; pi_sequence : Z }.
Record ProduceRequest := {
  pr_topic : string;
  pr_key : bytes;
  pr_payload : bytes;
  pr_ack_mode : AckMode;
  pr_producer : option ProducerIdentity;
  pr_partition : option Z
}.

Inductive Request :=
| RProduce (r : ProduceRequest)
| RProduceBatch (r : ProduceBatchRequest)
| RFetch (r : FetchRequest)
| RJoinGroup (r : GroupMemberRequest)
| RHeartbeat (r : GroupGenerationRequest)
| RLeaveGroup (r : GroupGenerationRequest)
| RCommitOffset (r : CommitOffsetRequest)
| RFetchCommittedOffset (r : FetchCommittedOffsetRequest)
| RGroupFetch (r : GroupFetchRequest)
| RCreateTopic (r : CreateTopicRequest)
| RListTopics
| RDescribeTopic (topic : string)
| RClusterMetadata
| RPromoteLeader (r : PromoteLeaderRequest)
| RApplyLeadership (r : ApplyLeadershipRequest)
| RPartitionStatus (r : PartitionStatusRequest).

Record JoinGroupResponse := { jg_generation : Z; jg_partitions : list Z }.
Record ProduceAck := { pa_partition : Z; pa_offset : Z }.
Record FetchedRecord := {
  fd_offset : Z; fd_timestamp_ms : Z; fd_key : option bytes; fd_value : bytes
}.
Record FetchResponse := { fp_records : list FetchedRecord }.

Inductive Response :=
| PProduceAck (a : ProduceAck)
| PProduceBatchAck (acks : list ProduceAck)
| PFetch (r : FetchResponse)
| PJoinGroup (r : JoinGroupResponse)
| PGroupAck
| PCommittedOffset (offset : option Z)
| PTopics (topics : list TopicMetadata)
| PClusterMetadata (m : ClusterMetadata)
| PLeadershipChanged (l : PartitionLeadership)
| PPartitionStatus (next_offset : Z)
| PError (message : string).

(* ------------------------------------------------------------------ *)
(** ** The [zstd] crate                                                 *)
(* ------------------------------------------------------------------ *)

(** [zstd::bulk::compress(data, 3)] and [zstd::bulk::decompress(data, cap)]. *)
Class Zstd := {
  zstd_compress : bytes -> option bytes;
  zstd_decompress : bytes -> Z -> option bytes
}.
(** Decompression into a large enough buffer undoes compression. *)
Class ZstdOk `{!Zstd} : Prop :=
  zstd_decompress_compress : forall b c cap,
    zstd_compress b = Some c -> blen b <= cap -> zstd_decompress c cap = Some b.

(* ------------------------------------------------------------------ *)
(** ** Validation and primitive fields                                  *)
(* ------------------------------------------------------------------ *)

Section validation.
Context {S : Type}.
Abbreviation M A := (SM S ProtocolError A).

Definition validate_size (actual maximum : Z) (error : ProtocolError) : M unit :=
  reject_if (maximum <? actual) error.

Definition validate_topic (topic : string) : M unit :=
  validate_size (str_len topic) MAX_TOPIC_NAME TopicTooLarge ;;;
  reject_if (is_empty topic || starts_with "__" topic) InvalidTopic.

Definition validate_identifier (value : string) : M unit :=
  reject_if (is_empty value || (MAX_TOPIC_NAME <? str_len value) ||
             negb (forallb id_byte (as_bytes value))) InvalidProducerId.

Definition Compression_code (c : Compression) : Z :=
  match c with CompressionNone => 0 | CompressionZstd => 1 end.
Definition Compression_from_code (code : Z) : M Compression :=
  if code =? 0 then ret CompressionNone
  else if code =? 1 then ret CompressionZstd
  else throw (InvalidCompression code).
Definition AckMode_code (a : AckMode) : Z :=
  match a with AckLeader => 1 | AckDurable => 2 end.
Definition AckMode_from_code (code : Z) : M AckMode :=
  if code =? 1 then ret AckLeader
  else if code =? 2 then ret AckDurable
  else throw (InvalidAckMode code).

Definition FetchRequest_new (topic : string) (partition offset max_bytes max_wait_ms : Z)
  : M FetchRequest :=
  validate_topic topic ;;;
  reject_if ((max_bytes =? 0) || (MAX_FETCH_BYTES <? max_bytes)) FetchTooLarge ;;;
  reject_if (MAX_FETCH_WAIT_MS <? max_wait_ms) FetchWaitTooLong ;;;
  ret {| fr_topic := topic; fr_partition := partition; fr_offset := offset;
         fr_max_bytes := max_bytes; fr_max_wait_ms := max_wait_ms |}.

Definition ProduceRequest_new (topic : string) (key payload : bytes) (ack_mode : AckMode)
    (producer : option ProducerIdentity) : M ProduceRequest :=
  validate_topic topic ;;;
  validate_size (blen key) MAX_KEY_SIZE KeyTooLarge ;;;
  validate_size (blen payload) MAX_MESSAGE_SIZE MessageTooLarge ;;;
  match producer with
  | Some p => validate_identifier (pi_id p)
  | None => ret tt
  end ;;;
  ret {| pr_topic := topic; pr_key := key; pr_payload := payload;
         pr_ack_mode := ack_mode; pr_producer := producer; pr_partition := None |}.
Definition ProduceRequest_with_partition (r : ProduceRequest) (p : Z) : ProduceRequest :=
  {| pr_topic := pr_topic r; pr_key := pr_key r; pr_payload := pr_payload r;
     pr_ack_mode := pr_ack_mode r; pr_producer := pr_producer r; pr_partition := Some p |}.

(** The loop that validates each record and sums the encoded sizes. *)
Fixpoint batch_encoded_size (records : list BatchRecord) (encoded_size : Z) : M Z :=
  match records with
  | [] => ret encoded_size
  | r :: rs =>
    validate_size (blen (br_key r)) MAX_KEY_SIZE KeyTooLarge ;;;
    validate_size (blen (br_payload r)) MAX_MESSAGE_SIZE MessageTooLarge ;;;
    size <- ok_or (checked_add encoded_size (2 + blen (br_key r) + 4 + blen (br_payload r)))
                  BatchTooLarge ;;
    batch_encoded_size rs size
  end.
Definition ProduceBatchRequest_new (topic : string) (records : list BatchRecord)
    (ack_mode : AckMode) (compression : Compression) : M ProduceBatchRequest :=
  validate_topic topic ;;;
  reject_if (bool_decide (records = []) || (MAX_BATCH_MESSAGES <? Z.of_nat (length records)))
            InvalidBatchCount ;;;
  encoded_size <- batch_encoded_size records 4 ;;
  validate_size encoded_size MAX_UNCOMPRESSED_BATCH_SIZE BatchTooLarge ;;;
  ret {| pb_topic := topic; pb_records := records; pb_ack_mode := ack_mode;
         pb_compression := compression; pb_partition := None |}.
Definition ProduceBatchRequest_with_partition (r : ProduceBatchRequest) (p : Z)
  : ProduceBatchRequest :=
  {| pb_topic := pb_topic r; pb_records := pb_records r; pb_ack_mode := pb_ack_mode r;
     pb_compression := pb_compression r; pb_partition := Some p |}.
End validation.

(* ------------------------------------------------------------------ *)
(** ** Reading                                                          *)
(* ------------------------------------------------------------------ *)

(** A computation on a buffer that can fail with a protocol error. *)
Abbreviation codec A := (SM bytes ProtocolError A).

Definition ensure_remaining (required : Z) : codec unit :=
  n <- remaining ;; reject_if (n <? required) InvalidFrame.
Definition ensure_empty : codec unit :=
  n <- remaining ;; reject_if (negb (n =? 0)) InvalidFrame.
Definition read_u16_len : codec Z := ensure_remaining 2 ;;; get_u16.
Definition read_u32_len : codec Z := ensure_remaining 4 ;;; get_u32.
Definition read_bytes (len : Z) : codec bytes := ensure_remaining len ;;; split_to len.
Definition decode_string : codec string :=
  len <- read_u16_len ;;
  b <- read_bytes len ;;
  ok_or (from_utf8 b) InvalidFrame.

(** [take_frame]: [None] when the frame is not complete yet. *)
Definition take_frame : codec (option bytes) :=
  buffer <- get ;;
  if blen buffer <? FRAME_HEADER_SIZE then ret None
  else
    let frame_len := be_val (take (Z.to_nat FRAME_HEADER_SIZE) buffer) in
    if frame_len =? 0 then throw InvalidFrame
    else if MAX_FRAME_SIZE <? frame_len then throw FrameTooLarge
    else if blen buffer <? FRAME_HEADER_SIZE + frame_len then ret None
    else
      advance FRAME_HEADER_SIZE ;;;
      frame <- split_to frame_len ;;
      ret (Some frame).

(** The topic prefix that [decode_produce], [decode_produce_batch]
    and [decode_fetch] read: length, limit, bytes, UTF-8. *)
Definition decode_topic_name : codec string :=
  topic_len <- read_u16_len ;;
  validate_size topic_len MAX_TOPIC_NAME TopicTooLarge ;;;
  topic <- read_bytes topic_len ;;
  ok_or (from_utf8 topic) InvalidTopic.

Definition decode_produce : codec ProduceRequest :=
  topic <- decode_topic_name ;;
  reject_if (is_empty topic) InvalidTopic ;;;
  key_len <- read_u16_len ;;
  validate_size key_len MAX_KEY_SIZE KeyTooLarge ;;;
  key <- read_bytes key_len ;;
  payload_len <- read_u32_len ;;
  validate_size payload_len MAX_MESSAGE_SIZE MessageTooLarge ;;;
  payload <- read_bytes payload_len ;;
  ensure_remaining 1 ;;;
  code <- get_u8 ;;
  ack_mode <- AckMode_from_code code ;;
  producer_len <- read_u16_len ;;
  producer <-
    (if producer_len =? 0 then
       ensure_remaining 8 ;;; _u <- get_u64 ;; ret None
     else
       id <- read_bytes producer_len ;;
       id <- ok_or (from_utf8 id) InvalidProducerId ;;
       ensure_remaining 8 ;;;
       sequence <- get_u64 ;;
       ret (Some {| pi_id := id; pi_sequence := sequence |})) ;;
  ensure_remaining 5 ;;;
  has_partition <- get_u8 ;;
  partition <- get_u32 ;;
  reject_if (1 <? has_partition) InvalidFrame ;;;
  ensure_empty ;;;
  request <- ProduceRequest_new topic key payload ack_mode producer ;;
  ret (if has_partition =? 1 then ProduceRequest_with_partition request partition else request).

Definition decode_create_topic : codec CreateTopicRequest :=
  topic <- decode_string ;;
  ensure_remaining 4 ;;;
  partitions <- get_u32 ;;
  ensure_empty ;;;
  validate_topic topic ;;;
  reject_if (partitions =? 0) InvalidPartitionCount ;;;
  ret {| ct_topic := topic; ct_partitions := partitions |}.

Definition decode_promote_leader : codec PromoteLeaderRequest :=
  topic <- decode_string ;;
  ensure_remaining 8 ;;;
  partition <- get_u32 ;;
  leader_id <- get_u32 ;;
  ensure_empty ;;;
  ret {| plr_topic := topic; plr_partition := partition; plr_leader_id := leader_id |}.

Definition decode_leadership_fields : codec PartitionLeadership :=
  partition <- get_u32 ;;
  leader_id <- get_u32 ;;
  leader_epoch <- get_u64 ;;
  high_watermark <- get_u64 ;;
  ret {| pl_partition := partition; pl_leader_id := leader_id;
         pl_leader_epoch := leader_epoch; pl_high_watermark := high_watermark |}.

Definition decode_apply_leadership : codec ApplyLeadershipRequest :=
  topic <- decode_string ;;
  ensure_remaining 24 ;;;
  leadership <- decode_leadership_fields ;;
  ensure_empty ;;;
  ret {| alr_topic := topic; alr_leadership := leadership |}.

Definition decode_batch_record : codec BatchRecord :=
  key_len <- read_u16_len ;;
  validate_size key_len MAX_KEY_SIZE KeyTooLarge ;;;
  key <- read_bytes key_len ;;
  payload_len <- read_u32_len ;;
  validate_size payload_len MAX_MESSAGE_SIZE MessageTooLarge ;;;
  payload <- read_bytes payload_len ;;
  ret {| br_key := key; br_payload := payload |}.
Definition decode_batch_records : codec (list BatchRecord) :=
  count <- read_u32_len ;;
  reject_if ((count =? 0) || (MAX_BATCH_MESSAGES <? count)) InvalidBatchCount ;;;
  records <- repeat_m (Z.to_nat count) decode_batch_record ;;
  ensure_empty ;;;
  ret records.

Definition decode_produce_batch `{!Zstd} : codec ProduceBatchRequest :=
  topic <- decode_topic_name ;;
  ensure_remaining (1 + 1 + 4 + 4) ;;;
  code <- get_u8 ;;
  ack_mode <- AckMode_from_code code ;;
  code <- get_u8 ;;
  compression <- Compression_from_code code ;;
  uncompressed_len <- read_u32_len ;;
  reject_if (MAX_UNCOMPRESSED_BATCH_SIZE <? uncompressed_len) BatchTooLarge ;;;
  encoded_len <- read_u32_len ;;
  encoded <- read_bytes encoded_len ;;
  ensure_remaining 5 ;;;
  has_partition <- get_u8 ;;
  partition <- get_u32 ;;
  reject_if (1 <? has_partition) InvalidFrame ;;;
  ensure_empty ;;;
  decoded <-
    match compression with
    | CompressionNone => ret encoded
    | CompressionZstd =>
        ok_or (zstd_decompress encoded MAX_UNCOMPRESSED_BATCH_SIZE) InvalidCompressedBatch
    end ;;
  reject_if (negb (blen decoded =? uncompressed_len)) InvalidCompressedBatch ;;;
  records <- on_frame decoded decode_batch_records ;;
  request <- ProduceBatchRequest_new topic records ack_mode compression ;;
  ret (if has_partition =? 1 then ProduceBatchRequest_with_partition request partition
       else request).

Definition decode_fetch : codec FetchRequest :=
  topic <- decode_topic_name ;;
  ensure_remaining (4 + 8 + 4 * 2) ;;;
  partition <- get_u32 ;;
  offset <- get_u64 ;;
  max_bytes <- get_u32 ;;
  max_wait_ms <- get_u32 ;;
  ensure_empty ;;;
  FetchRequest_new topic partition offset max_bytes max_wait_ms.

Definition decode_group_member : codec GroupMemberRequest :=
  group <- decode_string ;;
  topic <- decode_string ;;
  member <- decode_string ;;
  ensure_empty ;;;
  ret {| gm_group := group; gm_topic := topic; gm_member := member |}.

Definition decode_group_generation : codec GroupGenerationRequest :=
  group <- decode_string ;;
  topic <- decode_string ;;
  member <- decode_string ;;
  ensure_remaining 8 ;;;
  generation <- get_u64 ;;
  ensure_empty ;;;
  ret {| gg_group := group; gg_topic := topic; gg_member := member; gg_generation := generation |}.

Definition decode_commit_offset : codec CommitOffsetRequest :=
  group <- decode_string ;;
  topic <- decode_string ;;
  member <- decode_string ;;
  ensure_remaining 20 ;;;
  generation <- get_u64 ;;
  partition <- get_u32 ;;
  offset <- get_u64 ;;
  ensure_empty ;;;
  ret {| co_group := group; co_topic := topic; co_member := member;
         co_generation := generation; co_partition := partition; co_offset := offset |}.

Definition decode_fetch_committed : codec FetchCommittedOffsetRequest :=
  group <- decode_string ;;
  topic <- decode_string ;;
  ensure_remaining 4 ;;;
  partition <- get_u32 ;;
  ensure_empty ;;;
  ret {| fc_group := group; fc_topic := topic; fc_partition := partition |}.

Definition decode_group_fetch : codec GroupFetchRequest :=
  group <- decode_string ;;
  topic <- decode_string ;;
  member <- decode_string ;;
  ensure_remaining 28 ;;;
  generation <- get_u64 ;;
  partition <- get_u32 ;;
  offset <- get_u64 ;;
  max_bytes <- get_u32 ;;
  max_wait_ms <- get_u32 ;;
  ensure_empty ;;;
  _r <- FetchRequest_new topic partition offset max_bytes max_wait_ms ;;
  ret {| gf_group := group; gf_topic := topic; gf_member := member;
         gf_generation := generation; gf_partition := partition; gf_offset := offset;
         gf_max_bytes := max_bytes; gf_max_wait_ms := max_wait_ms |}.

(** The match on the opcode in [decode_request]; a failed guard falls through
    to the unknown opcode. *)
Definition decode_request_frame `{!Zstd} : codec Request :=
  opcode <- get_u8 ;;
  left <- remaining ;;
  if opcode =? PRODUCE then r <- decode_produce ;; ret (RProduce r)
  else if opcode =? PRODUCE_BATCH then r <- decode_produce_batch ;; ret (RProduceBatch r)
  else if opcode =? FETCH then r <- decode_fetch ;; ret (RFetch r)
  else if opcode =? JOIN_GROUP then r <- decode_group_member ;; ret (RJoinGroup r)
  else if opcode =? HEARTBEAT then r <- decode_group_generation ;; ret (RHeartbeat r)
  else if opcode =? LEAVE_GROUP then r <- decode_group_generation ;; ret (RLeaveGroup r)
  else if opcode =? COMMIT_OFFSET then r <- decode_commit_offset ;; ret (RCommitOffset r)
  else if opcode =? FETCH_COMMITTED_OFFSET then
    r <- decode_fetch_committed ;; ret (RFetchCommittedOffset r)
  else if opcode =? GROUP_FETCH then r <- decode_group_fetch ;; ret (RGroupFetch r)
  else if opcode =? CREATE_TOPIC then r <- decode_create_topic ;; ret (RCreateTopic r)
  else if (opcode =? LIST_TOPICS) && (left =? 0) then ret RListTopics
  else if opcode =? DESCRIBE_TOPIC then
    topic <- decode_string ;;
    ensure_empty ;;;
    validate_topic topic ;;;
    ret (RDescribeTopic topic)
  else if (opcode =? CLUSTER_METADATA) && (left =? 0) then ret RClusterMetadata
  else if opcode =? PROMOTE_LEADER then r <- decode_promote_leader ;; ret (RPromoteLeader r)
  else if opcode =? APPLY_LEADERSHIP then r <- decode_apply_leadership ;; ret (RApplyLeadership r)
  else if opcode =? PARTITION_STATUS then
    topic <- decode_string ;;
    ensure_remaining 4 ;;;
    partition <- get_u32 ;;
    ensure_empty ;;;
    ret (RPartitionStatus {| psr_topic := topic; psr_partition := partition |})
  else throw (UnknownOpcode opcode).

(** [decode_request] repeats the text of [take_frame] before its match. *)
Definition decode_request `{!Zstd} : codec (option Request) :=
  frame <- take_frame ;;
  match frame with
  | None => ret None
  | Some frame => r <- on_frame frame decode_request_frame ;; ret (Some r)
  end.

(* ------------------------------------------------------------------ *)
(** ** Writing                                                          *)
(* ------------------------------------------------------------------ *)

Definition bool_u8 (b : bool) : Z := if b then 1 else 0.
Definition buffer_len : codec Z := remaining.

(** [buffer[start..start + 4].copy_from_slice(&len.to_be_bytes())] *)
Definition overwrite_u32 (start v : Z) : codec unit :=
  fun b => if blen b <? start + 4 then (Panic, b)
           else (Ok tt, take (Z.to_nat start) b ++ be 4 v ++ drop (Z.to_nat (start + 4)) b).

Definition set_frame_len (start : Z) : codec unit :=
  n <- buffer_len ;;
  if n <? start + FRAME_HEADER_SIZE then panic
  else
    len <- try_from U32_MAX (n - start - FRAME_HEADER_SIZE) FrameTooLarge ;;
    overwrite_u32 start len.

Definition encode_string (value : string) : codec unit :=
  len <- try_from U16_MAX (str_len value) InvalidFrame ;;
  put_u16 len ;;;
  put_slice (as_bytes value).

(** The common start of a frame: a zero length and the opcode. *)
Definition start_frame (opcode : Z) : codec Z :=
  start <- buffer_len ;;
  put_u32 0 ;;;
  put_u8 opcode ;;;
  ret start.

Definition encode_string_request (opcode : Z) (values : list string) : codec Z :=
  start <- start_frame opcode ;;
  for_each values encode_string ;;;
  set_frame_len start ;;;
  ret start.

Definition encode_string_response (opcode : Z) (value : string) : codec unit :=
  start <- start_frame opcode ;;
  encode_string value ;;;
  set_frame_len start.

Definition encode_produce (request : ProduceRequest) : codec unit :=
  let producer_len := match pr_producer request with Some p => str_len (pi_id p) | None => 0 end in
  let frame_len := 1 + 2 + str_len (pr_topic request) + 2 + blen (pr_key request) + 4 +
                   blen (pr_payload request) + 1 + 2 + producer_len + 8 + 5 in
  len <- try_from U32_MAX frame_len FrameTooLarge ;;
  put_u32 len ;;;
  put_u8 PRODUCE ;;;
  len <- try_from U16_MAX (str_len (pr_topic request)) TopicTooLarge ;;
  put_u16 len ;;;
  put_slice (as_bytes (pr_topic request)) ;;;
  len <- try_from U16_MAX (blen (pr_key request)) KeyTooLarge ;;
  put_u16 len ;;;
  put_slice (pr_key request) ;;;
  len <- try_from U32_MAX (blen (pr_payload request)) MessageTooLarge ;;
  put_u32 len ;;;
  put_slice (pr_payload request) ;;;
  put_u8 (AckMode_code (pr_ack_mode request)) ;;;
  len <- try_from U16_MAX producer_len InvalidProducerId ;;
  put_u16 len ;;;
  match pr_producer request with
  | Some p => put_slice (as_bytes (pi_id p)) ;;; put_u64 (pi_sequence p)
  | None => put_u64 0
  end ;;;
  put_u8 (bool_u8 (bool_decide (is_Some (pr_partition request)))) ;;;
  put_u32 (default 0 (pr_partition request)).

Definition encode_create_topic (request : CreateTopicRequest) : codec unit :=
  validate_topic (ct_topic request) ;;;
  reject_if (ct_partitions request =? 0) InvalidPartitionCount ;;;
  start <- encode_string_request CREATE_TOPIC [ct_topic request] ;;
  put_u32 (ct_partitions request) ;;;
  set_frame_len start.

Definition encode_leadership_request (opcode : Z) (topic : string)
    (partition leader_id leader_epoch high_watermark : Z) : codec unit :=
  validate_topic topic ;;;
  start <- start_frame opcode ;;
  encode_string topic ;;;
  put_u32 partition ;;;
  put_u32 leader_id ;;;
  (if opcode =? APPLY_LEADERSHIP then put_u64 leader_epoch ;;; put_u64 high_watermark
   else ret tt) ;;;
  set_frame_len start.

Definition encode_batch_record (record : BatchRecord) : codec unit :=
  len <- try_from U16_MAX (blen (br_key record)) KeyTooLarge ;;
  put_u16 len ;;;
  put_slice (br_key record) ;;;
  len <- try_from U32_MAX (blen (br_payload record)) MessageTooLarge ;;
  put_u32 len ;;;
  put_slice (br_payload record).
(** The local buffer [records] of [encode_produce_batch]. *)
Definition encode_batch_records (records : list BatchRecord) : codec bytes :=
  lift (fst ((count <- try_from U32_MAX (Z.of_nat (length records)) InvalidBatchCount ;;
              put_u32 count ;;;
              for_each records encode_batch_record ;;;
              get) [])).
Definition encode_produce_batch `{!Zstd} (request : ProduceBatchRequest) : codec unit :=
  records <- encode_batch_records (pb_records request) ;;
  encoded <-
    match pb_compression request with
    | CompressionNone => ret records
    | CompressionZstd => ok_or (zstd_compress records) InvalidCompressedBatch
    end ;;
  start <- start_frame PRODUCE_BATCH ;;
  len <- try_from U16_MAX (str_len (pb_topic request)) TopicTooLarge ;;
  put_u16 len ;;;
  put_slice (as_bytes (pb_topic request)) ;;;
  put_u8 (AckMode_code (pb_ack_mode request)) ;;;
  put_u8 (Compression_code (pb_compression request)) ;;;
  len <- try_from U32_MAX (blen records) BatchTooLarge ;;
  put_u32 len ;;;
  len <- try_from U32_MAX (blen encoded) FrameTooLarge ;;
  put_u32 len ;;;
  put_slice encoded ;;;
  put_u8 (bool_u8 (bool_decide (is_Some (pb_partition request)))) ;;;
  put_u32 (default 0 (pb_partition request)) ;;;
  set_frame_len start ;;;
  n <- buffer_len ;;
  validate_size (n - start - FRAME_HEADER_SIZE) MAX_FRAME_SIZE FrameTooLarge.

Definition encode_fetch (request : FetchRequest) : codec unit :=
  let frame_len := 1 + 2 + str_len (fr_topic request) + 4 + 8 + 4 + 4 in
  len <- try_from U32_MAX frame_len FrameTooLarge ;;
  put_u32 len ;;;
  put_u8 FETCH ;;;
  len <- try_from U16_MAX (str_len (fr_topic request)) TopicTooLarge ;;
  put_u16 len ;;;
  put_slice (as_bytes (fr_topic request)) ;;;
  put_u32 (fr_partition request) ;;;
  put_u64 (fr_offset request) ;;;
  put_u32 (fr_max_bytes request) ;;;
  put_u32 (fr_max_wait_ms request).

Definition encode_group_member (opcode : Z) (request : GroupMemberRequest) : codec unit :=
  _s <- encode_string_request opcode [gm_group request; gm_topic request; gm_member request] ;;
  ret tt.

Definition encode_group_generation (opcode : Z) (request : GroupGenerationRequest) : codec unit :=
  start <- encode_string_request opcode
             [gg_group request; gg_topic request; gg_member request] ;;
  put_u64 (gg_generation request) ;;;
  set_frame_len start.

Definition encode_commit_offset (request : CommitOffsetRequest) : codec unit :=
  start <- encode_string_request COMMIT_OFFSET
             [co_group request; co_topic request; co_member request] ;;
  put_u64 (co_generation request) ;;;
  put_u32 (co_partition request) ;;;
  put_u64 (co_offset request) ;;;
  set_frame_len start.

Definition encode_fetch_committed (request : FetchCommittedOffsetRequest) : codec unit :=
  start <- encode_string_request FETCH_COMMITTED_OFFSET [fc_group request; fc_topic request] ;;
  put_u32 (fc_partition request) ;;;
  set_frame_len start.

Definition encode_group_fetch (request : GroupFetchRequest) : codec unit :=
  _r <- FetchRequest_new (gf_topic request) (gf_partition request) (gf_offset request)
          (gf_max_bytes request) (gf_max_wait_ms request) ;;
  start <- encode_string_request GROUP_FETCH
             [gf_group request; gf_topic request; gf_member request] ;;
  put_u64 (gf_generation request) ;;;
  put_u32 (gf_partition request) ;;;
  put_u64 (gf_offset request) ;;;
  put_u32 (gf_max_bytes request) ;;;
  put_u32 (gf_max_wait_ms request) ;;;
  set_frame_len start.

Definition encode_request `{!Zstd} (request : Request) : codec unit :=
  match request with
  | RProduce r => encode_produce r
  | RProduceBatch r => encode_produce_batch r
  | RFetch r => encode_fetch r
  | RJoinGroup r => encode_group_member JOIN_GROUP r
  | RHeartbeat r => encode_group_generation HEARTBEAT r
  | RLeaveGroup r => encode_group_generation LEAVE_GROUP r
  | RCommitOffset r => encode_commit_offset r
  | RFetchCommittedOffset r => encode_fetch_committed r
  | RGroupFetch r => encode_group_fetch r
  | RCreateTopic r => encode_create_topic r
  | RListTopics => put_u32 1 ;;; put_u8 LIST_TOPICS
  | RDescribeTopic topic =>
      validate_topic topic ;;;
      _s <- encode_string_request DESCRIBE_TOPIC [topic] ;;
      ret tt
  | RClusterMetadata => put_u32 1 ;;; put_u8 CLUSTER_METADATA
  | RPromoteLeader r =>
      encode_leadership_request PROMOTE_LEADER (plr_topic r) (plr_partition r)
        (plr_leader_id r) 0 0
  | RApplyLeadership r =>
      let l := alr_leadership r in
      encode_leadership_request APPLY_LEADERSHIP (alr_topic r) (pl_partition l)
        (pl_leader_id l) (pl_leader_epoch l) (pl_high_watermark l)
  | RPartitionStatus r =>
      validate_topic (psr_topic r) ;;;
      start <- encode_string_request PARTITION_STATUS [psr_topic r] ;;
      put_u32 (psr_partition r) ;;;
      set_frame_len start
  end.

(* ------------------------------------------------------------------ *)
(** ** Responses                                                        *)
(* ------------------------------------------------------------------ *)

Definition list_len {A} (l : list A) : Z := Z.of_nat (length l).

Definition encode_topic_metadata (topic : TopicMetadata) : codec unit :=
  reject_if ((tm_partitions topic =? 0) ||
             (negb (bool_decide (tm_leaders topic = [])) &&
              negb (list_len (tm_leaders topic) =? tm_partitions topic)) ||
             negb (list_len (tm_leader_epochs topic) =? list_len (tm_leaders topic)) ||
             negb (list_len (tm_high_watermarks topic) =? list_len (tm_leaders topic)))
            InvalidPartitionCount ;;;
  encode_string (tm_topic topic) ;;;
  put_u32 (tm_partitions topic) ;;;
  len <- try_from U32_MAX (list_len (tm_leaders topic)) FrameTooLarge ;;
  put_u32 len ;;;
  for_each (tm_leaders topic) put_u32 ;;;
  for_each (tm_leader_epochs topic) put_u64 ;;;
  for_each (tm_high_watermarks topic) put_u64.
Definition encode_topics_response (topics : list TopicMetadata) : codec unit :=
  start <- start_frame TOPICS_RESPONSE ;;
  len <- try_from U32_MAX (list_len topics) FrameTooLarge ;;
  put_u32 len ;;;
  for_each topics encode_topic_metadata ;;;
  set_frame_len start.

Definition encode_cluster_node (node : ClusterNode) : codec unit :=
  put_u32 (cn_id node) ;;;
  encode_string (cn_host node) ;;;
  put_u16 (cn_port node) ;;;
  put_u16 (cn_admin_port node) ;;;
  put_u16 (cn_replication_port node).
Definition encode_cluster_metadata (metadata : ClusterMetadata) : codec unit :=
  reject_if (bool_decide (cm_nodes metadata = []) ||
             (MAX_CLUSTER_NODES <? list_len (cm_nodes metadata))) InvalidClusterMetadata ;;;
  start <- start_frame CLUSTER_METADATA_RESPONSE ;;
  put_u32 (cm_responding_broker_id metadata) ;;;
  len <- try_from U32_MAX (list_len (cm_nodes metadata)) FrameTooLarge ;;
  put_u32 len ;;;
  for_each (cm_nodes metadata) encode_cluster_node ;;;
  set_frame_len start.

Definition encode_fetched_record (record : FetchedRecord) : codec unit :=
  put_u64 (fd_offset record) ;;;
  put_u64 (fd_timestamp_ms record) ;;;
  match fd_key record with
  | Some key => len <- try_from I32_MAX (blen key) KeyTooLarge ;; put_i32 len
  | None => put_i32 (-1)
  end ;;;
  len <- try_from U32_MAX (blen (fd_value record)) MessageTooLarge ;;
  put_u32 len ;;;
  match fd_key record with Some key => put_slice key | None => ret tt end ;;;
  put_slice (fd_value record).
(** [encode_fetch_response] drops its own bytes when the frame is too large. *)
Definition encode_fetch_response (response : FetchResponse) : codec unit :=
  frame_start <- start_frame FETCH_RESPONSE ;;
  len <- try_from U32_MAX (list_len (fp_records response)) FrameTooLarge ;;
  put_u32 len ;;;
  for_each (fp_records response) encode_fetched_record ;;;
  n <- buffer_len ;;
  let frame_len := n - frame_start - FRAME_HEADER_SIZE in
  if MAX_FRAME_SIZE <? frame_len then
    modify (take (Z.to_nat frame_start)) ;;; throw FrameTooLarge
  else
    encoded_len <- try_from U32_MAX frame_len FrameTooLarge ;;
    overwrite_u32 frame_start encoded_len.

Definition encode_produce_ack (ack : ProduceAck) : codec unit :=
  put_u32 (pa_partition ack) ;;; put_u64 (pa_offset ack).

Definition encode_response (response : Response) : codec unit :=
  match response with
  | PProduceAck ack =>
      put_u32 (1 + 4 + 8) ;;; put_u8 PRODUCE_ACK ;;; encode_produce_ack ack
  | PProduceBatchAck acks =>
      start <- start_frame PRODUCE_BATCH_ACK ;;
      len <- try_from U32_MAX (list_len acks) InvalidBatchCount ;;
      put_u32 len ;;;
      for_each acks encode_produce_ack ;;;
      set_frame_len start
  | PFetch response => encode_fetch_response response
  | PJoinGroup response =>
      len <- try_from U32_MAX (list_len (jg_partitions response)) FrameTooLarge ;;
      (if U32_MAX <? 1 + 8 + 4 + len * 4 then panic else ret tt) ;;;
      put_u32 (1 + 8 + 4 + len * 4) ;;;
      put_u8 JOIN_GROUP_RESPONSE ;;;
      put_u64 (jg_generation response) ;;;
      put_u32 len ;;;
      for_each (jg_partitions response) put_u32
  | PGroupAck => put_u32 1 ;;; put_u8 GROUP_ACK
  | PCommittedOffset offset =>
      put_u32 (1 + 1 + 8) ;;;
      put_u8 COMMITTED_OFFSET_RESPONSE ;;;
      put_u8 (bool_u8 (bool_decide (is_Some offset))) ;;;
      put_u64 (default 0 offset)
  | PTopics topics => encode_topics_response topics
  | PClusterMetadata metadata => encode_cluster_metadata metadata
  | PLeadershipChanged leadership =>
      put_u32 (1 + 4 + 4 + 8 + 8) ;;;
      put_u8 LEADERSHIP_CHANGED ;;;
      put_u32 (pl_partition leadership) ;;;
      put_u32 (pl_leader_id leadership) ;;;
      put_u64 (pl_leader_epoch leadership) ;;;
      put_u64 (pl_high_watermark leadership)
  | PPartitionStatus next_offset =>
      put_u32 (1 + 8) ;;; put_u8 PARTITION_STATUS_RESPONSE ;;; put_u64 next_offset
  | PError message => encode_string_response ERROR_RESPONSE message
  end.

Definition decode_produce_ack : codec ProduceAck :=
  partition <- get_u32 ;;
  offset <- get_u64 ;;
  ret {| pa_partition := partition; pa_offset := offset |}.

Definition decode_fetched_record : codec FetchedRecord :=
  ensure_remaining (8 * 2 + 4 + 4) ;;;
  offset <- get_u64 ;;
  timestamp_ms <- get_u64 ;;
  key_len <- get_i32 ;;
  value_len <- get_u32 ;;
  key <- (if key_len =? -1 then ret None
          else if 0 <=? key_len then k <- read_bytes key_len ;; ret (Some k)
          else throw InvalidFrame) ;;
  value <- read_bytes value_len ;;
  ret {| fd_offset := offset; fd_timestamp_ms := timestamp_ms; fd_key := key;
         fd_value := value |}.
Definition decode_fetch_response : codec FetchResponse :=
  ensure_remaining 4 ;;;
  record_count <- get_u32 ;;
  records <- repeat_m (Z.to_nat record_count) decode_fetched_record ;;
  ensure_empty ;;;
  ret {| fp_records := records |}.

Definition decode_topic_metadata : codec TopicMetadata :=
  topic <- decode_string ;;
  ensure_remaining 8 ;;;
  partitions <- get_u32 ;;
  leader_count <- read_u32_len ;;
  reject_if ((partitions =? 0) ||
             (negb (leader_count =? 0) && negb (leader_count =? partitions)))
            InvalidPartitionCount ;;;
  ensure_remaining (leader_count * 4) ;;;
  leaders <- repeat_m (Z.to_nat leader_count) get_u32 ;;
  ensure_remaining (leader_count * 8) ;;;
  leader_epochs <- repeat_m (Z.to_nat leader_count) get_u64 ;;
  ensure_remaining (leader_count * 8) ;;;
  high_watermarks <- repeat_m (Z.to_nat leader_count) get_u64 ;;
  ret {| tm_topic := topic; tm_partitions := partitions; tm_leaders := leaders;
         tm_leader_epochs := leader_epochs; tm_high_watermarks := high_watermarks |}.
Definition decode_topics_response : codec (list TopicMetadata) :=
  ensure_remaining 4 ;;;
  count <- read_u32_len ;;
  topics <- repeat_m (Z.to_nat count) decode_topic_metadata ;;
  ensure_empty ;;;
  ret topics.

Definition decode_cluster_node : codec ClusterNode :=
  ensure_remaining 4 ;;;
  id <- get_u32 ;;
  host <- decode_string ;;
  ensure_remaining 6 ;;;
  port <- get_u16 ;;
  admin_port <- get_u16 ;;
  replication_port <- get_u16 ;;
  ret {| cn_id := id; cn_host := host; cn_port := port; cn_admin_port := admin_port;
         cn_replication_port := replication_port |}.
Definition decode_cluster_metadata : codec ClusterMetadata :=
  ensure_remaining 8 ;;;
  responding_broker_id <- get_u32 ;;
  count <- read_u32_len ;;
  reject_if ((count =? 0) || (MAX_CLUSTER_NODES <? count)) InvalidClusterMetadata ;;;
  nodes <- repeat_m (Z.to_nat count) decode_cluster_node ;;
  ensure_empty ;;;
  ret {| cm_responding_broker_id := responding_broker_id; cm_nodes := nodes |}.

Definition decode_response_frame (opcode : Z) : codec Response :=
  left <- remaining ;;
  if opcode =? PRODUCE_ACK then
    reject_if (negb (left =? 4 + 8)) InvalidFrame ;;;
    ack <- decode_produce_ack ;;
    ret (PProduceAck ack)
  else if opcode =? PRODUCE_BATCH_ACK then
    ensure_remaining 4 ;;;
    count <- get_u32 ;;
    reject_if ((count =? 0) || (MAX_BATCH_MESSAGES <? count)) InvalidBatchCount ;;;
    ensure_remaining (count * (4 + 8)) ;;;
    acks <- repeat_m (Z.to_nat count) decode_produce_ack ;;
    ensure_empty ;;;
    ret (PProduceBatchAck acks)
  else if opcode =? FETCH_RESPONSE then r <- decode_fetch_response ;; ret (PFetch r)
  else if opcode =? JOIN_GROUP_RESPONSE then
    ensure_remaining 12 ;;;
    generation <- get_u64 ;;
    count <- get_u32 ;;
    ensure_remaining (count * 4) ;;;
    partitions <- repeat_m (Z.to_nat count) get_u32 ;;
    ensure_empty ;;;
    ret (PJoinGroup {| jg_generation := generation; jg_partitions := partitions |})
  else if (opcode =? GROUP_ACK) && (left =? 0) then ret PGroupAck
  else if opcode =? COMMITTED_OFFSET_RESPONSE then
    ensure_remaining 9 ;;;
    found <- get_u8 ;;
    offset <- get_u64 ;;
    n <- remaining ;;
    reject_if (negb (n =? 0) || (1 <? found)) InvalidFrame ;;;
    ret (PCommittedOffset (if found =? 1 then Some offset else None))
  else if opcode =? TOPICS_RESPONSE then t <- decode_topics_response ;; ret (PTopics t)
  else if opcode =? CLUSTER_METADATA_RESPONSE then
    m <- decode_cluster_metadata ;; ret (PClusterMetadata m)
  else if (opcode =? LEADERSHIP_CHANGED) && (left =? 24) then
    l <- decode_leadership_fields ;; ret (PLeadershipChanged l)
  else if (opcode =? PARTITION_STATUS_RESPONSE) && (left =? 8) then
    offset <- get_u64 ;; ret (PPartitionStatus offset)
  else if opcode =? ERROR_RESPONSE then
    message <- decode_string ;;
    ensure_empty ;;;
    ret (PError message)
  else throw (UnknownOpcode opcode).

(** [take_response_frame] has the text of [take_frame]. *)
(** The code of [take_frame] a second time. *)
Definition take_response_frame : codec (option bytes) := take_frame.
Definition decode_response : codec (option Response) :=
  frame <- take_response_frame ;;
  match frame with
  | None => ret None
  | Some frame =>
      r <- on_frame frame (opcode <- get_u8 ;; decode_response_frame opcode) ;;
      ret (Some r)
  end.

(* ------------------------------------------------------------------ *)
(** ** Replication frames                                               *)
(* ------------------------------------------------------------------ *)

Definition encode_replicate_record (record : ReplicateRecord) : codec unit :=
  let key_len := match rr_key record with Some k => blen k | None => 0 end in
  validate_topic (rr_topic record) ;;;
  validate_size key_len MAX_KEY_SIZE KeyTooLarge ;;;
  validate_size (blen (rr_value record)) MAX_MESSAGE_SIZE MessageTooLarge ;;;
  start <- start_frame REPLICATE_RECORD ;;
  encode_string (rr_topic record) ;;;
  put_u32 (rr_partition record) ;;;
  put_u64 (rr_offset record) ;;;
  put_u64 (rr_timestamp_ms record) ;;;
  put_u8 (bool_u8 (rr_durable record)) ;;;
  put_u32 (rr_leader_id record) ;;;
  put_u64 (rr_leader_epoch record) ;;;
  len <- try_from U16_MAX key_len KeyTooLarge ;;
  put_u16 len ;;;
  match rr_key record with Some k => put_slice k | None => ret tt end ;;;
  len <- try_from U32_MAX (blen (rr_value record)) MessageTooLarge ;;
  put_u32 len ;;;
  put_slice (rr_value record) ;;;
  set_frame_len start.

Definition decode_replicate_record_frame : codec ReplicateRecord :=
  opcode <- get_u8 ;;
  reject_if (negb (opcode =? REPLICATE_RECORD)) InvalidFrame ;;;
  topic <- decode_string ;;
  ensure_remaining (4 + 8 + 8 + 1 + 4 + 8 + 2) ;;;
  partition <- get_u32 ;;
  offset <- get_u64 ;;
  timestamp_ms <- get_u64 ;;
  durable <- get_u8 ;;
  reject_if (1 <? durable) InvalidFrame ;;;
  leader_id <- get_u32 ;;
  leader_epoch <- get_u64 ;;
  key_len <- read_u16_len ;;
  key <- read_bytes key_len ;;
  value_len <- read_u32_len ;;
  validate_size value_len MAX_MESSAGE_SIZE MessageTooLarge ;;;
  value <- read_bytes value_len ;;
  ensure_empty ;;;
  ret {| rr_topic := topic; rr_partition := partition; rr_offset := offset;
         rr_timestamp_ms := timestamp_ms;
         rr_key := if blen key =? 0 then None else Some key;
         rr_value := value; rr_durable := durable =? 1; rr_leader_id := leader_id;
         rr_leader_epoch := leader_epoch |}.
Definition decode_replicate_record : codec (option ReplicateRecord) :=
  frame <- take_frame ;;
  match frame with
  | None => ret None
  | Some frame => r <- on_frame frame decode_replicate_record_frame ;; ret (Some r)
  end.

Definition encode_replicate_ack (ack : ReplicateAck) : codec unit :=
  start <- start_frame REPLICATE_ACK ;;
  put_u32 (ra_partition ack) ;;;
  put_u64 (ra_next_offset ack) ;;;
  set_frame_len start.

(** The opcode is read only when the length is right. *)
Definition decode_replicate_ack_frame : codec ReplicateAck :=
  n <- remaining ;;
  reject_if (negb (n =? 1 + 4 + 8)) InvalidFrame ;;;
  opcode <- get_u8 ;;
  reject_if (negb (opcode =? REPLICATE_ACK)) InvalidFrame ;;;
  partition <- get_u32 ;;
  next_offset <- get_u64 ;;
  ret {| ra_partition := partition; ra_next_offset := next_offset |}.
Definition decode_replicate_ack : codec (option ReplicateAck) :=
  frame <- take_frame ;;
  match frame with
  | None => ret None
  | Some frame => r <- on_frame frame decode_replicate_ack_frame ;; ret (Some r)
  end.
