(* ===== verification/Wire.v ===== *)
(** * Wire: the byte layout of the frames of [crates/protocol], as a reference
    description that the encoders and decoders of [Protocol] are proved
    against, and the lemmas on their primitive fields. *)

From stdpp Require Import base numbers list strings gmap.
From Stdlib Require Import ZArith Lia.
From S2P Require Import Prelude Text Runs Protocol.

(* ------------------------------------------------------------------ *)
(** ** Layout                                                           *)
(* ------------------------------------------------------------------ *)

Definition frame (body : bytes) : bytes := be 4 (blen body) ++ body.

Definition wire_string (s : string) : bytes := be 2 (str_len s) ++ as_bytes s.
Definition wire_strings (l : list string) : bytes := l ≫= wire_string.
Definition wire_option (p : option Z) : bytes :=
  be 1 (bool_u8 (bool_decide (is_Some p))) ++ be 4 (default 0 p).
Definition wire_producer (p : option ProducerIdentity) : bytes :=
  match p with
  | Some p => wire_string (pi_id p) ++ be 8 (pi_sequence p)
  | None => be 2 0 ++ be 8 0
  end.
Definition wire_batch_record (r : BatchRecord) : bytes :=
  be 2 (blen (br_key r)) ++ br_key r ++ be 4 (blen (br_payload r)) ++ br_payload r.
Definition wire_batch (l : list BatchRecord) : bytes :=
  be 4 (list_len l) ++ (l ≫= wire_batch_record).
Definition wire_compressed `{!Zstd} (r : ProduceBatchRequest) : bytes :=
  match pb_compression r with
  | CompressionNone => wire_batch (pb_records r)
  | CompressionZstd => default [] (zstd_compress (wire_batch (pb_records r)))
  end.
Definition wire_leadership (l : PartitionLeadership) : bytes :=
  be 4 (pl_partition l) ++ be 4 (pl_leader_id l) ++ be 8 (pl_leader_epoch l) ++
  be 8 (pl_high_watermark l).

Definition wire_produce (r : ProduceRequest) : bytes :=
  be 1 PRODUCE ++ wire_string (pr_topic r) ++ be 2 (blen (pr_key r)) ++ pr_key r ++
  be 4 (blen (pr_payload r)) ++ pr_payload r ++ be 1 (AckMode_code (pr_ack_mode r)) ++
  wire_producer (pr_producer r) ++ wire_option (pr_partition r).
Definition wire_produce_batch `{!Zstd} (r : ProduceBatchRequest) : bytes :=
  be 1 PRODUCE_BATCH ++ wire_string (pb_topic r) ++ be 1 (AckMode_code (pb_ack_mode r)) ++
  be 1 (Compression_code (pb_compression r)) ++ be 4 (blen (wire_batch (pb_records r))) ++
  be 4 (blen (wire_compressed r)) ++ wire_compressed r ++ wire_option (pb_partition r).
Definition wire_fetch (r : FetchRequest) : bytes :=
  be 1 FETCH ++ wire_string (fr_topic r) ++ be 4 (fr_partition r) ++ be 8 (fr_offset r) ++
  be 4 (fr_max_bytes r) ++ be 4 (fr_max_wait_ms r).

Definition wire_request `{!Zstd} (r : Request) : bytes :=
  match r with
  | RProduce r => wire_produce r
  | RProduceBatch r => wire_produce_batch r
  | RFetch r => wire_fetch r
  | RJoinGroup r =>
      be 1 JOIN_GROUP ++ wire_strings [gm_group r; gm_topic r; gm_member r]
  | RHeartbeat r =>
      be 1 HEARTBEAT ++ wire_strings [gg_group r; gg_topic r; gg_member r] ++
      be 8 (gg_generation r)
  | RLeaveGroup r =>
      be 1 LEAVE_GROUP ++ wire_strings [gg_group r; gg_topic r; gg_member r] ++
      be 8 (gg_generation r)
  | RCommitOffset r =>
      be 1 COMMIT_OFFSET ++ wire_strings [co_group r; co_topic r; co_member r] ++
      be 8 (co_generation r) ++ be 4 (co_partition r) ++ be 8 (co_offset r)
  | RFetchCommittedOffset r =>
      be 1 FETCH_COMMITTED_OFFSET ++ wire_strings [fc_group r; fc_topic r] ++
      be 4 (fc_partition r)
  | RGroupFetch r =>
      be 1 GROUP_FETCH ++ wire_strings [gf_group r; gf_topic r; gf_member r] ++
      be 8 (gf_generation r) ++ be 4 (gf_partition r) ++ be 8 (gf_offset r) ++
      be 4 (gf_max_bytes r) ++ be 4 (gf_max_wait_ms r)
  | RCreateTopic r =>
      be 1 CREATE_TOPIC ++ wire_strings [ct_topic r] ++ be 4 (ct_partitions r)
  | RListTopics => be 1 LIST_TOPICS
  | RDescribeTopic topic => be 1 DESCRIBE_TOPIC ++ wire_strings [topic]
  | RClusterMetadata => be 1 CLUSTER_METADATA
  | RPromoteLeader r =>
      be 1 PROMOTE_LEADER ++ wire_string (plr_topic r) ++ be 4 (plr_partition r) ++
      be 4 (plr_leader_id r)
  | RApplyLeadership r =>
      be 1 APPLY_LEADERSHIP ++ wire_string (alr_topic r) ++ wire_leadership (alr_leadership r)
  | RPartitionStatus r =>
      be 1 PARTITION_STATUS ++ wire_strings [psr_topic r] ++ be 4 (psr_partition r)
  end.

Definition wire_ack (a : ProduceAck) : bytes := be 4 (pa_partition a) ++ be 8 (pa_offset a).
Definition wire_key_len (k : option bytes) : Z :=
  match k with Some k => blen k | None => -1 end.
Definition wire_fetched (r : FetchedRecord) : bytes :=
  be 8 (fd_offset r) ++ be 8 (fd_timestamp_ms r) ++ be 4 (wire_key_len (fd_key r)) ++
  be 4 (blen (fd_value r)) ++ default [] (fd_key r) ++ fd_value r.
Definition wire_topic (t : TopicMetadata) : bytes :=
  wire_string (tm_topic t) ++ be 4 (tm_partitions t) ++ be 4 (list_len (tm_leaders t)) ++
  (tm_leaders t ≫= be 4) ++ (tm_leader_epochs t ≫= be 8) ++ (tm_high_watermarks t ≫= be 8).
Definition wire_node (n : ClusterNode) : bytes :=
  be 4 (cn_id n) ++ wire_string (cn_host n) ++ be 2 (cn_port n) ++ be 2 (cn_admin_port n) ++
  be 2 (cn_replication_port n).

Definition wire_response (p : Response) : bytes :=
  match p with
  | PProduceAck a => be 1 PRODUCE_ACK ++ wire_ack a
  | PProduceBatchAck acks =>
      be 1 PRODUCE_BATCH_ACK ++ be 4 (list_len acks) ++ (acks ≫= wire_ack)
  | PFetch r =>
      be 1 FETCH_RESPONSE ++ be 4 (list_len (fp_records r)) ++ (fp_records r ≫= wire_fetched)
  | PJoinGroup r =>
      be 1 JOIN_GROUP_RESPONSE ++ be 8 (jg_generation r) ++ be 4 (list_len (jg_partitions r)) ++
      (jg_partitions r ≫= be 4)
  | PGroupAck => be 1 GROUP_ACK
  | PCommittedOffset o =>
      be 1 COMMITTED_OFFSET_RESPONSE ++ be 1 (bool_u8 (bool_decide (is_Some o))) ++
      be 8 (default 0 o)
  | PTopics ts => be 1 TOPICS_RESPONSE ++ be 4 (list_len ts) ++ (ts ≫= wire_topic)
  | PClusterMetadata m =>
      be 1 CLUSTER_METADATA_RESPONSE ++ be 4 (cm_responding_broker_id m) ++
      be 4 (list_len (cm_nodes m)) ++ (cm_nodes m ≫= wire_node)
  | PLeadershipChanged l => be 1 LEADERSHIP_CHANGED ++ wire_leadership l
  | PPartitionStatus o => be 1 PARTITION_STATUS_RESPONSE ++ be 8 o
  | PError m => be 1 ERROR_RESPONSE ++ wire_string m
  end.

Definition wire_replicate (r : ReplicateRecord) : bytes :=
  be 1 REPLICATE_RECORD ++ wire_string (rr_topic r) ++ be 4 (rr_partition r) ++
  be 8 (rr_offset r) ++ be 8 (rr_timestamp_ms r) ++ be 1 (bool_u8 (rr_durable r)) ++
  be 4 (rr_leader_id r) ++ be 8 (rr_leader_epoch r) ++
  be 2 (blen (default [] (rr_key r))) ++ default [] (rr_key r) ++
  be 4 (blen (rr_value r)) ++ rr_value r.

Lemma start_frame_inv opcode b b' start :
  start_frame opcode b = (Ok start, b') -> start = blen b /\ b' = b ++ be 4 0 ++ be 1 opcode.
Proof.
  unfold start_frame, buffer_len, remaining, gets, put_u32, put_u8, put_slice, modify.
  cbn. intros [= <- <-]. by rewrite <- app_assoc.
Qed.

Lemma set_frame_len_inv b x body b' u :
  length x = 4%nat ->
  set_frame_len (blen b) (b ++ x ++ body) = (Ok u, b') ->
  b' = b ++ frame body /\ blen body <= U32_MAX.
Proof.
  intros Hx H. unfold set_frame_len, FRAME_HEADER_SIZE in H.
  apply bind_inv in H as (n & s & [= <- <-] & H).
  assert (blen (b ++ x ++ body) = blen b + 4 + blen body) as Hlen.
  { unfold blen. rewrite !length_app, Hx. lia. }
  rewrite Hlen in H. pose proof (blen_nonneg body).
  destruct (Z.ltb_spec (blen b + 4 + blen body) (blen b + 4)); [lia|].
  apply bind_inv in H as (m & s & Hm & H).
  apply try_from_inv in Hm as (Hle & -> & ->).
  replace (blen b + 4 + blen body - blen b - 4) with (blen body) in * by lia.
  unfold overwrite_u32 in H. rewrite Hlen in H.
  destruct (Z.ltb_spec (blen b + 4 + blen body) (blen b + 4)); [lia|].
  injection H as _ <-. split; [|done]. unfold frame, blen.
  replace (Z.to_nat (Z.of_nat (length b))) with (length b) by lia.
  replace (Z.to_nat (Z.of_nat (length b) + 4)) with (length b + length x)%nat by lia.
  rewrite take_app_length, <- drop_drop, !drop_app_length. done.
Qed.

(** Invert every successful step of a run of an encoder. *)
Ltac run_inv1 :=
  first
    [ run_inv_core
    | match goal with
      | H : validate_size _ _ _ _ = (Ok _, _) |- _ => apply reject_if_inv in H as [? ?]; subst
      | H : start_frame _ _ = (Ok _, _) |- _ => apply start_frame_inv in H as [? ?]; subst
      | H : buffer_len ?b = (Ok _, _) |- _ => unfold buffer_len, remaining, gets in H;
          injection H as ? ?; subst
      end ].
Ltac run_inv := repeat (run_inv1; cbv beta in *).

Lemma encode_string_inv s b b' u :
  encode_string s b = (Ok u, b') -> b' = b ++ wire_string s /\ str_len s <= U16_MAX.
Proof.
  unfold encode_string. intros H. run_inv. unfold wire_string. by rewrite <- app_assoc.
Qed.

(** The length of a frame that starts at [b] is filled in. *)
Lemma close_frame_inv b body b' u :
  set_frame_len (blen b) (b ++ be 4 0 ++ body) = (Ok u, b') ->
  b' = b ++ frame body /\ blen body <= U32_MAX.
Proof. apply set_frame_len_inv, length_be. Qed.

(** The length of a frame is filled in once more when fields were added. *)
Lemma reclose_frame_inv b body more b' u :
  set_frame_len (blen b) ((b ++ frame body) ++ more) = (Ok u, b') ->
  b' = b ++ frame (body ++ more) /\ blen (body ++ more) <= U32_MAX.
Proof.
  unfold frame at 1. rewrite <- !app_assoc. apply set_frame_len_inv, length_be.
Qed.

Lemma encode_string_request_inv opcode vs b b' start :
  encode_string_request opcode vs b = (Ok start, b') ->
  start = blen b /\ b' = b ++ frame (be 1 opcode ++ wire_strings vs) /\
  Forall (fun s => str_len s <= U16_MAX) vs.
Proof.
  unfold encode_string_request. intros H. run_inv.
  match goal with H : for_each _ _ _ = _ |- _ =>
    eapply for_each_inv in H as [? HF]; [|intros *; apply encode_string_inv] end; subst.
  match goal with H : set_frame_len _ _ = _ |- _ =>
    rewrite <- !app_assoc in H; apply close_frame_inv in H as [? _] end; subst.
  done.
Qed.

(* ------------------------------------------------------------------ *)
(** ** Reading the primitive fields back                                *)
(* ------------------------------------------------------------------ *)

Lemma ensure_remaining_ok n b : n <= blen b -> ensure_remaining n b = (Ok tt, b).
Proof.
  intros. unfold ensure_remaining, remaining, gets, reject_if, bind.
  destruct (Z.ltb_spec (blen b) n); [lia|done].
Qed.
Lemma ensure_empty_nil : ensure_empty [] = (Ok tt, []).
Proof. done. Qed.

#[export] Hint Resolve ensure_remaining_ok ensure_empty_nil : codec.

Lemma read_u16_len_app v r : is_u16 v -> read_u16_len (be 2 v ++ r) = (Ok v, r).
Proof. intros. unfold read_u16_len. repeat run_step. auto with codec. Qed.
Lemma read_u32_len_app v r : is_u32 v -> read_u32_len (be 4 v ++ r) = (Ok v, r).
Proof. intros. unfold read_u32_len. repeat run_step. auto with codec. Qed.
Lemma read_bytes_app n d r : blen d = n -> read_bytes n (d ++ r) = (Ok d, r).
Proof.
  intros. unfold read_bytes. rewrite (bind_Ok _ _ _ (d ++ r) tt); auto with codec.
Qed.
Lemma read_bytes_end n d : blen d = n -> read_bytes n d = (Ok d, []).
Proof. intros. rewrite <- (app_nil_r d) at 1. by apply read_bytes_app. Qed.
#[export] Hint Resolve read_u16_len_app read_u32_len_app read_bytes_app
  from_utf8_as_bytes : codec.

Lemma decode_string_app s r :
  is_str s -> str_len s <= U16_MAX -> decode_string (wire_string s ++ r) = (Ok s, r).
Proof.
  intros. unfold decode_string, wire_string. rewrite <- app_assoc.
  repeat run_step. auto with codec.
Qed.
#[export] Hint Resolve decode_string_app : codec.

Lemma validate_size_ok {S} actual maximum e (s : S) :
  actual <= maximum -> validate_size actual maximum e s = (Ok tt, s).
Proof. intros. apply reject_if_false. lia. Qed.

(** A complete frame at the front of the buffer is taken off it. *)
Lemma take_frame_app body r :
  1 <= blen body <= MAX_FRAME_SIZE ->
  take_frame (frame body ++ r) = (Ok (Some body), r).
Proof.
  unfold take_frame, frame, FRAME_HEADER_SIZE, MAX_FRAME_SIZE. intros Hb.
  erewrite bind_Ok by done. rewrite <- app_assoc. cbv beta.
  replace (take (Z.to_nat 4) (be 4 (blen body) ++ body ++ r)) with (be 4 (blen body)).
  2:{ symmetry. apply take_app_length'. by rewrite length_be. }
  rewrite be_val_be_small by (change (256 ^ Z.of_nat 4) with 4294967296; lia).
  assert (blen (be 4 (blen body) ++ body ++ r) = 4 + blen body + blen r) as ->.
  { autorewrite with blen. lia. }
  pose proof (blen_nonneg r).
  destruct (Z.ltb_spec (4 + blen body + blen r) 4); [lia|].
  destruct (Z.eqb_spec (blen body) 0); [lia|].
  destruct (Z.ltb_spec (4 * 1024 * 1024) (blen body)); [lia|].
  destruct (Z.ltb_spec (4 + blen body + blen r) (4 + blen body)); [lia|].
  unfold advance. repeat run_step. done.
Qed.

(** A frame with bytes missing at its end stays in the buffer. *)
Lemma take_frame_incomplete body p q :
  1 <= blen body <= MAX_FRAME_SIZE -> frame body = p ++ q -> q <> [] ->
  take_frame p = (Ok None, p).
Proof.
  unfold take_frame, FRAME_HEADER_SIZE. intros Hb Hpq Hq. erewrite bind_Ok by done. cbv beta.
  destruct (Z.ltb_spec (blen p) 4) as [|Hp]; [done|].
  assert (blen p < 4 + blen body).
  { apply (f_equal blen) in Hpq. unfold frame in Hpq. autorewrite with blen in Hpq.
    pose proof (blen_nonneg q). destruct (decide (blen q = 0)) as [?%blen_zero_nil|]; [done|lia]. }
  replace (take (Z.to_nat 4) p) with (be 4 (blen body)).
  2:{ transitivity (take (Z.to_nat 4) (frame body)).
      - unfold frame. symmetry. apply take_app_length'. by rewrite length_be.
      - rewrite Hpq. apply take_app_le. unfold blen in Hp. lia. }
  unfold MAX_FRAME_SIZE in *.
  rewrite be_val_be_small by (change (256 ^ Z.of_nat 4) with 4294967296; lia).
  destruct (Z.eqb_spec (blen body) 0); [lia|].
  destruct (Z.ltb_spec (4 * 1024 * 1024) (blen body)); [lia|].
  destruct (Z.ltb_spec (blen p) (4 + blen body)); [done|lia].
Qed.
