(* ===== verification/ProtocolFacts.v ===== *)
(** * ProtocolFacts: the codec of [Protocol] against the layout of [Wire].

    Encoders write exactly the described frame; decoders read every frame an
    encoder wrote back to the value, whatever follows it in the buffer;
    decoders never panic, wait for incomplete frames without touching the
    buffer, and only produce values that meet the type's invariant. *)

From stdpp Require Import base numbers list strings gmap.
From Stdlib Require Import ZArith Lia.
From S2P Require Import Prelude Text Runs Protocol Wire.

(* ------------------------------------------------------------------ *)
(** ** Invariants of the request and response types                     *)
(* ------------------------------------------------------------------ *)

(** The name checks of [validate_topic]. *)
Definition topic_ok (s : string) : Prop :=
  0 < str_len s <= MAX_TOPIC_NAME /\ starts_with "__" s = false.
Definition id_ok (s : string) : Prop :=
  0 < str_len s <= MAX_TOPIC_NAME /\ forallb id_byte (as_bytes s) = true.
Definition opt_u32 (o : option Z) : Prop := match o with Some p => is_u32 p | None => True end.

Definition wf_producer (p : option ProducerIdentity) : Prop :=
  match p with Some p => id_ok (pi_id p) /\ is_u64 (pi_sequence p) | None => True end.
Definition wf_produce (r : ProduceRequest) : Prop :=
  is_str (pr_topic r) /\ topic_ok (pr_topic r) /\ blen (pr_key r) <= MAX_KEY_SIZE /\
  blen (pr_payload r) <= MAX_MESSAGE_SIZE /\ wf_producer (pr_producer r) /\
  opt_u32 (pr_partition r).
Definition wf_batch_record (r : BatchRecord) : Prop :=
  blen (br_key r) <= MAX_KEY_SIZE /\ blen (br_payload r) <= MAX_MESSAGE_SIZE.
Definition wf_batch (r : ProduceBatchRequest) : Prop :=
  is_str (pb_topic r) /\ topic_ok (pb_topic r) /\
  0 < list_len (pb_records r) <= MAX_BATCH_MESSAGES /\
  Forall wf_batch_record (pb_records r) /\
  blen (wire_batch (pb_records r)) <= MAX_UNCOMPRESSED_BATCH_SIZE /\
  opt_u32 (pb_partition r).
Definition wf_fetch (topic : string) (partition offset max_bytes max_wait_ms : Z) : Prop :=
  is_str topic /\ topic_ok topic /\ is_u32 partition /\ is_u64 offset /\
  0 < max_bytes <= MAX_FETCH_BYTES /\ 0 <= max_wait_ms <= MAX_FETCH_WAIT_MS.
Definition wf_leadership (l : PartitionLeadership) : Prop :=
  is_u32 (pl_partition l) /\ is_u32 (pl_leader_id l) /\ is_u64 (pl_leader_epoch l) /\
  is_u64 (pl_high_watermark l).

(** What the Rust types guarantee of a request: strings are UTF-8, integers
    are in range, and the types with a checked constructor meet its checks. *)
Definition wf_request (r : Request) : Prop :=
  match r with
  | RProduce r => wf_produce r
  | RProduceBatch r => wf_batch r
  | RFetch r => wf_fetch (fr_topic r) (fr_partition r) (fr_offset r) (fr_max_bytes r)
                  (fr_max_wait_ms r)
  | RJoinGroup r => is_str (gm_group r) /\ is_str (gm_topic r) /\ is_str (gm_member r)
  | RHeartbeat r | RLeaveGroup r =>
      is_str (gg_group r) /\ is_str (gg_topic r) /\ is_str (gg_member r) /\
      is_u64 (gg_generation r)
  | RCommitOffset r =>
      is_str (co_group r) /\ is_str (co_topic r) /\ is_str (co_member r) /\
      is_u64 (co_generation r) /\ is_u32 (co_partition r) /\ is_u64 (co_offset r)
  | RFetchCommittedOffset r =>
      is_str (fc_group r) /\ is_str (fc_topic r) /\ is_u32 (fc_partition r)
  | RGroupFetch r =>
      is_str (gf_group r) /\ is_str (gf_topic r) /\ is_str (gf_member r) /\
      is_u64 (gf_generation r) /\ is_u32 (gf_partition r) /\ is_u64 (gf_offset r) /\
      is_u32 (gf_max_bytes r) /\ is_u32 (gf_max_wait_ms r)
  | RCreateTopic r => is_str (ct_topic r) /\ is_u32 (ct_partitions r)
  | RListTopics | RClusterMetadata => True
  | RDescribeTopic t => is_str t
  | RPromoteLeader r =>
      is_str (plr_topic r) /\ is_u32 (plr_partition r) /\ is_u32 (plr_leader_id r)
  | RApplyLeadership r => is_str (alr_topic r) /\ wf_leadership (alr_leadership r)
  | RPartitionStatus r => is_str (psr_topic r) /\ is_u32 (psr_partition r)
  end.

(** What the encoder checks on top of the types. *)
Definition encodable `{!Zstd} (r : Request) : Prop :=
  match r with
  | RProduce _ | RFetch _ | RListTopics | RClusterMetadata => True
  | RProduceBatch r =>
      blen (wire_produce_batch r) <= MAX_FRAME_SIZE /\
      (pb_compression r = CompressionZstd ->
       exists c, zstd_compress (wire_batch (pb_records r)) = Some c)
  | RJoinGroup r => Forall (fun s => str_len s <= U16_MAX) [gm_group r; gm_topic r; gm_member r]
  | RHeartbeat r | RLeaveGroup r =>
      Forall (fun s => str_len s <= U16_MAX) [gg_group r; gg_topic r; gg_member r]
  | RCommitOffset r =>
      Forall (fun s => str_len s <= U16_MAX) [co_group r; co_topic r; co_member r]
  | RFetchCommittedOffset r => Forall (fun s => str_len s <= U16_MAX) [fc_group r; fc_topic r]
  | RGroupFetch r =>
      topic_ok (gf_topic r) /\ 0 < gf_max_bytes r <= MAX_FETCH_BYTES /\
      gf_max_wait_ms r <= MAX_FETCH_WAIT_MS /\
      Forall (fun s => str_len s <= U16_MAX) [gf_group r; gf_topic r; gf_member r]
  | RCreateTopic r => topic_ok (ct_topic r) /\ ct_partitions r <> 0
  | RDescribeTopic t => topic_ok t
  | RPromoteLeader r => topic_ok (plr_topic r)
  | RApplyLeadership r => topic_ok (alr_topic r)
  | RPartitionStatus r => topic_ok (psr_topic r)
  end.

(* ------------------------------------------------------------------ *)
(** ** Checked constructors                                             *)
(* ------------------------------------------------------------------ *)

#[export] Hint Resolve validate_size_ok : codec.

Section validation_facts.
Context {S : Type}.

Lemma validate_topic_ok t (s : S) : topic_ok t -> validate_topic t s = (Ok tt, s).
Proof.
  intros [Hl Hs]. unfold validate_topic. rewrite (bind_Ok _ _ _ s tt).
  2:{ apply validate_size_ok. lia. }
  apply reject_if_false. rewrite Hs, orb_false_r. apply is_empty_false. lia.
Qed.

Lemma validate_topic_inv t (s s' : S) u :
  validate_topic t s = (Ok u, s') -> topic_ok t /\ s' = s.
Proof.
  unfold validate_topic, topic_ok, MAX_TOPIC_NAME. intros H. run_inv.
  match goal with H : _ || _ = false |- _ =>
    apply orb_false_iff in H as [?%is_empty_false ?] end.
  split; [split|]; [lia|done..].
Qed.

Lemma validate_identifier_ok t (s : S) : id_ok t -> validate_identifier t s = (Ok tt, s).
Proof.
  intros [Hl Hs]. apply reject_if_false. rewrite Hs.
  assert (is_empty t = false) as -> by (apply is_empty_false; lia).
  simpl. unfold MAX_TOPIC_NAME in *. lia.
Qed.

Lemma validate_identifier_inv t (s s' : S) u :
  validate_identifier t s = (Ok u, s') -> id_ok t /\ s' = s.
Proof.
  intros H. apply reject_if_inv in H as [H ->]. split; [|done].
  rewrite !orb_false_iff in H. destruct H as [[?%is_empty_false ?] ?%negb_false_iff].
  unfold id_ok, MAX_TOPIC_NAME in *. split; [lia|done].
Qed.

Lemma Compression_code_ok c (s : S) :
  Compression_from_code (Compression_code c) s = (Ok c, s).
Proof. by destruct c. Qed.
Lemma AckMode_code_ok a (s : S) : AckMode_from_code (AckMode_code a) s = (Ok a, s).
Proof. by destruct a. Qed.

Lemma FetchRequest_new_ok t p o mb mw (s : S) :
  wf_fetch t p o mb mw ->
  FetchRequest_new t p o mb mw s =
  (Ok {| fr_topic := t; fr_partition := p; fr_offset := o; fr_max_bytes := mb;
         fr_max_wait_ms := mw |}, s).
Proof.
  intros (? & ? & ? & ? & ? & ?). unfold FetchRequest_new.
  erewrite bind_Ok by (by apply validate_topic_ok).
  do 2 (erewrite bind_Ok by (apply reject_if_false; lia)). done.
Qed.

Lemma FetchRequest_new_inv t p o mb mw (s s' : S) r :
  FetchRequest_new t p o mb mw s = (Ok r, s') -> is_u32 mb ->
  topic_ok t /\ 0 < mb <= MAX_FETCH_BYTES /\ mw <= MAX_FETCH_WAIT_MS /\ s' = s.
Proof.
  unfold FetchRequest_new. intros H Hmb. run_inv.
  match goal with H : validate_topic _ _ = _ |- _ => apply validate_topic_inv in H as [? ->] end.
  split; [done|]. rewrite orb_false_iff in *. unfold MAX_FETCH_BYTES, MAX_FETCH_WAIT_MS in *.
  repeat split; range.
Qed.
End validation_facts.

(** The size that [ProduceBatchRequest::new] computes is the encoded size. *)
Lemma wire_batch_cons_len x xs :
  blen ((x :: xs) ≫= wire_batch_record) =
  2 + blen (br_key x) + 4 + blen (br_payload x) + blen (xs ≫= wire_batch_record).
Proof.
  rewrite bind_cons. unfold wire_batch_record at 1. autorewrite with blen. lia.
Qed.

Lemma batch_encoded_size_ok {S} xs n (s : S) :
  Forall wf_batch_record xs -> n + blen (xs ≫= wire_batch_record) <= U64_MAX ->
  batch_encoded_size xs n s = (Ok (n + blen (xs ≫= wire_batch_record)), s).
Proof.
  intros HF. revert n. induction HF as [|x xs [Hk Hp] HF IH]; intros n Hn.
  { change (blen ([] ≫= wire_batch_record)) with 0. by rewrite Z.add_0_r. }
  rewrite wire_batch_cons_len in *. cbn [batch_encoded_size].
  do 2 (erewrite bind_Ok by (by apply validate_size_ok)).
  pose proof (blen_nonneg (xs ≫= wire_batch_record)).
  erewrite bind_Ok.
  2:{ apply ok_or_Some. unfold checked_add.
      destruct (Z.leb_spec (n + (2 + blen (br_key x) + 4 + blen (br_payload x))) U64_MAX);
        [done|lia]. }
  cbv beta. rewrite IH by lia. do 2 f_equal. lia.
Qed.

Lemma batch_encoded_size_inv {S} xs n (s s' : S) m :
  batch_encoded_size xs n s = (Ok m, s') ->
  Forall wf_batch_record xs /\ m = n + blen (xs ≫= wire_batch_record) /\ s' = s.
Proof.
  revert n. induction xs as [|x xs IH]; intros n H; cbn [batch_encoded_size] in H.
  { run_inv. change (blen ([] ≫= wire_batch_record)) with 0. repeat split; [constructor|lia]. }
  run_inv. unfold checked_add in *. destruct (_ <=? U64_MAX); [|done]. simplify_eq.
  apply IH in H as (HF & -> & ->). rewrite wire_batch_cons_len.
  unfold MAX_KEY_SIZE, MAX_MESSAGE_SIZE in *.
  repeat split; [constructor; [split; unfold MAX_KEY_SIZE, MAX_MESSAGE_SIZE; lia|done]|lia].
Qed.

(* ------------------------------------------------------------------ *)
(** ** Encoders write the layout                                        *)
(* ------------------------------------------------------------------ *)

Lemma encode_batch_record_inv x b b' u :
  encode_batch_record x b = (Ok u, b') -> b' = b ++ wire_batch_record x /\ True.
Proof.
  unfold encode_batch_record. intros H. run_inv. unfold wire_batch_record.
  by rewrite <- !app_assoc.
Qed.

Lemma encode_batch_records_inv xs b b' recs :
  encode_batch_records xs b = (Ok recs, b') ->
  recs = wire_batch xs /\ list_len xs <= U32_MAX /\ b' = b.
Proof.
  unfold encode_batch_records, lift. intros H. injection H as H ->.
  destruct (bind _ _ []) as [o c] eqn:Hrun. cbn in H. subst o. run_inv.
  match goal with H : for_each _ _ _ = _ |- _ =>
    eapply for_each_inv in H as [? _]; [|intros *; apply encode_batch_record_inv] end.
  match goal with H : get _ = _ |- _ => injection H as ? ?; subst end.
  unfold wire_batch. done.
Qed.

Lemma frame_grow opcode vs more :
  be 1 opcode ++ wire_strings vs ++ more = (be 1 opcode ++ wire_strings vs) ++ more.
Proof. apply app_assoc. Qed.

(** Close every frame of the hypotheses. *)
Ltac close_frames :=
  repeat match goal with
  | H : encode_string_request _ _ _ = _ |- _ =>
      apply encode_string_request_inv in H as (? & ? & ?); subst
  | H : encode_string _ _ = _ |- _ => apply encode_string_inv in H as [? ?]; subst
  | H : validate_topic _ _ = _ |- _ => apply validate_topic_inv in H as [? ?]; subst
  | H : set_frame_len (blen ?b) ((?b ++ frame _) ++ _) = _ |- _ =>
      apply reclose_frame_inv in H as [? ?]; subst
  | H : set_frame_len (blen ?b) _ = _ |- _ =>
      rewrite <- !app_assoc in H;
      first [ apply close_frame_inv in H as [? ?]
            | rewrite app_assoc in H; apply reclose_frame_inv in H as [? ?] ]; subst
  end.

Lemma encode_string_frame_inv opcode vs more b b' st (u : unit) c :
  encode_string_request opcode vs b = (Ok st, c) ->
  set_frame_len st (c ++ more) = (Ok u, b') ->
  b' = b ++ frame (be 1 opcode ++ wire_strings vs ++ more) /\
  Forall (fun s => str_len s <= U16_MAX) vs.
Proof.
  intros H1 H2. apply encode_string_request_inv in H1 as (-> & -> & HF).
  apply reclose_frame_inv in H2 as [-> _]. by rewrite <- app_assoc.
Qed.

(** An optional producer and the fields around it. *)
Lemma encode_producer_inv (p : option ProducerIdentity) b b' (u : unit) :
  (match p with
   | Some p => put_slice (as_bytes (pi_id p)) ;;; put_u64 (pi_sequence p)
   | None => put_u64 0
   end : SM bytes ProtocolError unit) (b ++ be 2 (match p with Some p => str_len (pi_id p) | None => 0 end)) = (Ok u, b') ->
  b' = b ++ wire_producer p.
Proof.
  destruct p; intros H; run_inv; unfold wire_producer, wire_string; by rewrite <- !app_assoc.
Qed.

Lemma encode_produce_inv r b b' u :
  encode_produce r b = (Ok u, b') -> b' = b ++ frame (wire_produce r).
Proof.
  unfold encode_produce. intros H. run_inv.
  match goal with H : (match pr_producer r with Some _ => _ | None => _ end) _ = _ |- _ =>
    apply encode_producer_inv in H; subst end.
  unfold frame. rewrite <- !app_assoc. do 2 f_equal.
  f_equal. unfold wire_produce, wire_string, wire_option, wire_producer, wire_string.
  destruct (pr_producer r); autorewrite with blen; unfold str_len; lia.
Qed.

Lemma encode_fetch_inv r b b' u :
  encode_fetch r b = (Ok u, b') -> b' = b ++ frame (wire_fetch r).
Proof.
  unfold encode_fetch. intros H. run_inv.
  unfold frame. rewrite <- !app_assoc. do 2 f_equal.
  f_equal. unfold wire_fetch, wire_string. autorewrite with blen. unfold str_len. lia.
Qed.

Lemma encode_produce_batch_inv `{!Zstd} r b b' u :
  encode_produce_batch r b = (Ok u, b') ->
  b' = b ++ frame (wire_produce_batch r) /\ encodable (RProduceBatch r).
Proof.
  unfold encode_produce_batch. intros Hrun. run_inv.
  match goal with H : encode_batch_records _ _ = _ |- _ =>
    apply encode_batch_records_inv in H as (? & ? & ?); subst end.
  match goal with H : (match pb_compression r with _ => _ end) ?b = (Ok ?e, ?c) |- _ =>
    assert (e = wire_compressed r /\ c = b /\ (pb_compression r = CompressionZstd ->
       exists c, zstd_compress (wire_batch (pb_records r)) = Some c)) as (? & ? & Hz) end.
  { unfold wire_compressed. destruct (pb_compression r); run_inv; [done|].
    match goal with H : zstd_compress _ = _ |- _ => rewrite H end. eauto. }
  subst. run_inv. close_frames.
  match goal with |- b ++ frame ?w = _ /\ _ =>
    change w with (wire_produce_batch r) in *; set (body := wire_produce_batch r) in * end.
  split; [done|]. split; [|done]. fold body.
  match goal with H : (_ <? _) = false |- _ => revert H end.
  clearbody body. unfold frame, FRAME_HEADER_SIZE. autorewrite with blen.
  intros ?%Z.ltb_ge. lia.
Qed.

(** Every request that is encoded is written as its frame. *)
Lemma encode_request_layout `{!Zstd} r b b' u :
  encode_request r b = (Ok u, b') -> wf_request r ->
  b' = b ++ frame (wire_request r) /\ encodable r.
Proof.
  destruct r; cbn [encode_request]; intros Hrun Hwf.
  1: { by apply encode_produce_inv in Hrun. }
  1: { by apply encode_produce_batch_inv in Hrun. }
  1: { by apply encode_fetch_inv in Hrun. }
  all: unfold encode_group_member, encode_group_generation, encode_commit_offset,
    encode_fetch_committed, encode_group_fetch, encode_create_topic,
    encode_leadership_request in Hrun; run_inv; close_frames;
    cbn [wire_request encodable wf_request] in *.
  all: try match goal with H : FetchRequest_new _ _ _ _ _ _ = _ |- _ =>
    apply FetchRequest_new_inv in H as (? & ? & ? & ->); [|tauto] end.
  all: try (change (PROMOTE_LEADER =? APPLY_LEADERSHIP) with false in *);
    try (change (APPLY_LEADERSHIP =? APPLY_LEADERSHIP) with true in *);
    cbv iota in *; run_inv; close_frames.
  all: rewrite <- ?app_assoc; split_and?; try done; lia.
Qed.
