(* ===== verification/RoundTrip.v ===== *)
(** * RoundTrip: what an encoder of [Protocol] wrote, the decoder reads back. *)

From stdpp Require Import base numbers list strings gmap.
From Stdlib Require Import ZArith Lia.
From S2P Require Import Prelude Text Runs Protocol Wire ProtocolFacts.

#[export] Hint Resolve FetchRequest_new_ok validate_topic_ok validate_identifier_ok
  Compression_code_ok AckMode_code_ok : codec.

Lemma topic_ok_u16 t : topic_ok t -> str_len t <= U16_MAX.
Proof. unfold topic_ok, MAX_TOPIC_NAME, U16_MAX. lia. Qed.
Lemma id_ok_u16 t : id_ok t -> str_len t <= U16_MAX.
Proof. unfold id_ok, MAX_TOPIC_NAME, U16_MAX. lia. Qed.
#[export] Hint Resolve topic_ok_u16 id_ok_u16 : codec.

Lemma topic_ok_nonempty t : topic_ok t -> is_empty t = false.
Proof. intros [? _]. apply is_empty_false. lia. Qed.
Lemma AckMode_code_u8 a : is_u8 (AckMode_code a).
Proof. by destruct a. Qed.
Lemma Compression_code_u8 c : is_u8 (Compression_code c).
Proof. by destruct c. Qed.
Lemma bool_u8_range b : is_u8 (bool_u8 b).
Proof. by destruct b. Qed.
#[export] Hint Resolve topic_ok_nonempty AckMode_code_u8 Compression_code_u8 bool_u8_range : codec.

Lemma wire_strings_cons x l : wire_strings (x :: l) = wire_string x ++ wire_strings l.
Proof. done. Qed.
Lemma wire_strings_nil : wire_strings [] = [].
Proof. done. Qed.
Create Rewrite HintDb wire.
#[export] Hint Rewrite wire_strings_cons wire_strings_nil : wire.

(** Lay the fields out one after the other. *)
Ltac flatten :=
  autorewrite with wire; rewrite <- ?app_assoc, ?app_nil_l;
  rewrite ?Forall_cons in *; destruct_and?.

Lemma FetchRequest_bind {A} t p o mb mw (k : FetchRequest -> codec A) b :
  wf_fetch t p o mb mw ->
  bind (FetchRequest_new t p o mb mw) k b =
  k {| fr_topic := t; fr_partition := p; fr_offset := o; fr_max_bytes := mb;
       fr_max_wait_ms := mw |} b.
Proof. intros. apply bind_Ok. by apply FetchRequest_new_ok. Qed.

Section requests.
Context `{!Zstd}.

Lemma decode_request_frame_app r :
  wf_request r -> encodable r ->
  match r with RProduce _ | RProduceBatch _ | RFetch _ => False | _ => True end ->
  decode_request_frame (wire_request r ++ []) = (Ok r, []).
Proof.
  intros Hwf He Hr. unfold decode_request_frame.
  destruct r; try done; cbn [wire_request wf_request encodable] in *;
    unfold wf_leadership, wire_leadership in *; flatten; run_all.
  all: unfold decode_group_member, decode_group_generation, decode_commit_offset,
    decode_fetch_committed, decode_group_fetch, decode_create_topic, decode_promote_leader,
    decode_apply_leadership, decode_leadership_fields; run_all.
  all: lazymatch goal with
       | |- context [FetchRequest_new] =>
           rewrite FetchRequest_bind by (unfold wf_fetch; split_and?; first [assumption|range])
       | |- _ => idtac
       end.
  all: first [ reflexivity | by destruct r | by destruct r as [? []] ].
Qed.

Lemma decode_topic_name_app t rest :
  is_str t -> topic_ok t -> decode_topic_name (wire_string t ++ rest) = (Ok t, rest).
Proof.
  intros. unfold decode_topic_name, wire_string. flatten.
  assert (str_len t <= MAX_TOPIC_NAME) by (unfold topic_ok in *; tauto).
  assert (str_len t <= U16_MAX) by auto with codec.
  run_all. auto with codec.
Qed.
Hint Resolve decode_topic_name_app : codec.

Lemma decode_fetch_frame_app r :
  wf_request (RFetch r) ->
  decode_request_frame (wire_fetch r ++ []) = (Ok (RFetch r), []).
Proof.
  intros Hwf. pose proof Hwf as (? & ? & ? & ? & ? & ?).
  unfold decode_request_frame, wire_fetch, MAX_FETCH_WAIT_MS, MAX_FETCH_BYTES in *.
  flatten. run_all.
  unfold decode_fetch; run_all. by destruct r.
Qed.

Lemma ProduceRequest_new_ok {S} r (s : S) :
  wf_produce r ->
  ProduceRequest_new (pr_topic r) (pr_key r) (pr_payload r) (pr_ack_mode r) (pr_producer r) s =
  (Ok {| pr_topic := pr_topic r; pr_key := pr_key r; pr_payload := pr_payload r;
         pr_ack_mode := pr_ack_mode r; pr_producer := pr_producer r;
         pr_partition := None |}, s).
Proof.
  intros (? & ? & ? & ? & Hp & _). unfold ProduceRequest_new.
  do 3 (erewrite bind_Ok by eauto with codec nocore).
  destruct (pr_producer r) as [p|]; [|done].
  destruct Hp. by erewrite bind_Ok by eauto with codec nocore.
Qed.

(** The optional partition at the end of the produce requests. *)
Lemma partition_bind {A} o (k : Z -> Z -> codec A) rest :
  opt_u32 o ->
  (ensure_remaining 5 ;;;
   has_partition <- get_u8 ;;
   partition <- get_u32 ;;
   reject_if (1 <? has_partition) InvalidFrame ;;;
   k has_partition partition) (wire_option o ++ rest) =
  k (bool_u8 (bool_decide (is_Some o))) (default 0 o) rest.
Proof.
  intros. unfold wire_option. flatten. assert (is_u32 (default 0 o)) by (destruct o; done).
  run_all. destruct o; done.
Qed.

Lemma producer_bind {A} p (k : option ProducerIdentity -> codec A) rest :
  wf_producer p ->
  (producer_len <- read_u16_len ;;
   producer <-
     (if producer_len =? 0 then
        ensure_remaining 8 ;;; _u <- get_u64 ;; ret None
      else
        id <- read_bytes producer_len ;;
        id <- ok_or (from_utf8 id) InvalidProducerId ;;
        ensure_remaining 8 ;;;
        sequence <- get_u64 ;;
        ret (Some {| pi_id := id; pi_sequence := sequence |})) ;;
   k producer) (wire_producer p ++ rest) = k p rest.
Proof.
  destruct p as [[id sequence]|]; unfold wire_producer, wire_string; flatten;
    cbn [wf_producer pi_id pi_sequence].
  - intros [Hid ?]. pose proof Hid as [? Hb]. apply forallb_id_is_str in Hb.
    assert (str_len id <= U16_MAX) by auto with codec. run_all.
    destruct (Z.eqb_spec (str_len id) 0); [lia|]. run_all. done.
  - intros _. run_all. done.
Qed.

Lemma decode_produce_frame_app r :
  wf_request (RProduce r) ->
  decode_request_frame (wire_produce r ++ []) = (Ok (RProduce r), []).
Proof.
  intros Hwf. pose proof Hwf as (? & ? & ? & ? & Hp & Ho).
  pose proof (blen_nonneg (pr_key r)). pose proof (blen_nonneg (pr_payload r)).
  assert (is_u16 (blen (pr_key r))) by (unfold MAX_KEY_SIZE in *; range).
  assert (is_u32 (blen (pr_payload r))) by (unfold MAX_MESSAGE_SIZE in *; range).
  unfold decode_request_frame, wire_produce. flatten. run_all.
  erewrite bind_Ok; [reflexivity|]. unfold decode_produce. run_all.
  rewrite producer_bind, partition_bind by done. run_all.
  rewrite (bind_Ok _ _ _ _ _ (ProduceRequest_new_ok r [] Hwf)). unfold ret.
  destruct r as [? ? ? ? ? []]; done.
Qed.

Lemma decode_batch_record_app x rest :
  wf_batch_record x -> decode_batch_record (wire_batch_record x ++ rest) = (Ok x, rest).
Proof.
  intros [? ?]. pose proof (blen_nonneg (br_key x)). pose proof (blen_nonneg (br_payload x)).
  assert (is_u16 (blen (br_key x))) by (unfold MAX_KEY_SIZE in *; range).
  assert (is_u32 (blen (br_payload x))) by (unfold MAX_MESSAGE_SIZE in *; range).
  unfold decode_batch_record, wire_batch_record. flatten. run_all. by destruct x.
Qed.

Lemma decode_batch_records_app xs :
  0 < list_len xs <= MAX_BATCH_MESSAGES -> Forall wf_batch_record xs ->
  fst (decode_batch_records (wire_batch xs)) = Ok xs.
Proof.
  intros Hlen HF. unfold decode_batch_records, wire_batch, MAX_BATCH_MESSAGES in *.
  rewrite <- (app_nil_r (xs ≫= _)). run_all.
  unfold list_len at 1. rewrite Nat2Z.id.
  rewrite (bind_Ok _ _ _ [] xs); [done|]. apply repeat_m_app.
  eapply Forall_impl; [done|]. intros x Hx rest. by apply decode_batch_record_app.
Qed.

Lemma ProduceBatchRequest_new_ok {S} r (s : S) :
  wf_batch r ->
  ProduceBatchRequest_new (pb_topic r) (pb_records r) (pb_ack_mode r) (pb_compression r) s =
  (Ok {| pb_topic := pb_topic r; pb_records := pb_records r; pb_ack_mode := pb_ack_mode r;
         pb_compression := pb_compression r; pb_partition := None |}, s).
Proof.
  intros (? & ? & ? & ? & Hsize & _). unfold ProduceBatchRequest_new.
  unfold wire_batch in Hsize. rewrite blen_app, blen_be in Hsize.
  unfold MAX_UNCOMPRESSED_BATCH_SIZE, list_len in *.
  erewrite bind_Ok by eauto with codec nocore.
  erewrite bind_Ok.
  2:{ apply reject_if_false. rewrite bool_decide_eq_false_2; [simpl; lia|].
      destruct (pb_records r); simpl in *; [lia|done]. }
  erewrite bind_Ok by (apply batch_encoded_size_ok; [done|range]).
  by erewrite bind_Ok by (apply validate_size_ok; lia).
Qed.

Lemma decode_produce_batch_frame_app `{!ZstdOk} r :
  wf_request (RProduceBatch r) -> encodable (RProduceBatch r) ->
  decode_request_frame (wire_produce_batch r ++ []) = (Ok (RProduceBatch r), []).
Proof.
  intros Hwf [Hframe Hz]. pose proof Hwf as (? & ? & Hl & HF & Hs & Ho).
  pose proof (blen_nonneg (wire_batch (pb_records r))).
  pose proof (blen_nonneg (wire_compressed r)).
  unfold MAX_UNCOMPRESSED_BATCH_SIZE in *.
  assert (is_u32 (blen (wire_compressed r))).
  { unfold wire_produce_batch in Hframe. autorewrite with blen in Hframe.
    pose proof (blen_nonneg (wire_string (pb_topic r))).
    pose proof (blen_nonneg (wire_option (pb_partition r))).
    unfold MAX_FRAME_SIZE in *. range. }
  unfold decode_request_frame, wire_produce_batch. flatten. run_all.
  erewrite bind_Ok; [reflexivity|]. unfold decode_produce_batch, MAX_UNCOMPRESSED_BATCH_SIZE.
  run_all. rewrite partition_bind by done. run_all.
  erewrite bind_Ok.
  2:{ instantiate (2 := wire_batch (pb_records r)). unfold wire_compressed.
      destruct (pb_compression r); [done|]. destruct (Hz eq_refl) as [c Hc]. rewrite Hc.
      apply ok_or_Some. by eapply zstd_decompress_compress. }
  cbv beta. rewrite Z.eqb_refl. run_all.
  unfold on_frame, lift. rewrite decode_batch_records_app by done.
  rewrite (bind_Ok _ _ _ _ _ (eq_refl _)). cbv beta.
  rewrite (bind_Ok _ _ _ _ _ (ProduceBatchRequest_new_ok r [] Hwf)). unfold ret.
  destruct r as [? ? ? ? []]; done.
Qed.

Lemma decode_request_frame_ok `{!ZstdOk} r :
  wf_request r -> encodable r ->
  fst (decode_request_frame (wire_request r)) = Ok r.
Proof.
  intros Hwf He. rewrite <- (app_nil_r (wire_request r)). destruct r.
  1: exact (f_equal fst (decode_produce_frame_app r Hwf)).
  1: exact (f_equal fst (decode_produce_batch_frame_app r Hwf He)).
  1: exact (f_equal fst (decode_fetch_frame_app r Hwf)).
  all: by rewrite decode_request_frame_app.
Qed.

Lemma wire_producer_size p : wf_producer p -> blen (wire_producer p) <= 2 + MAX_TOPIC_NAME + 8.
Proof.
  destruct p as [[id sequence]|]; unfold wire_producer, wire_string, MAX_TOPIC_NAME;
    cbn [wf_producer pi_id pi_sequence]; [|intros; blia].
  intros [[? _] _]. unfold MAX_TOPIC_NAME in *. blia.
Qed.

Lemma wire_request_size r :
  wf_request r -> encodable r -> 1 <= blen (wire_request r) <= MAX_FRAME_SIZE.
Proof.
  intros Hwf He.
  destruct r; cbn [wire_request wf_request encodable] in *;
    unfold wf_produce, wf_fetch, wf_leadership in *; destruct_and?;
    rewrite ?Forall_cons in *; destruct_and?;
    repeat match goal with
    | H : topic_ok _ |- _ => apply topic_ok_u16 in H
    | H : wf_producer _ |- _ => apply wire_producer_size in H
    end.
  2: { split; [|lia]. unfold wire_produce_batch. blia. }
  1: unfold wire_produce, wire_option.
  2: unfold wire_fetch.
  all: unfold wire_leadership; autorewrite with wire; unfold wire_string.
  all: unfold MAX_FRAME_SIZE, MAX_TOPIC_NAME, MAX_KEY_SIZE, MAX_MESSAGE_SIZE in *; blia.
Qed.

(** The buffer after a decoder saw a whole encoded request. *)
Lemma decode_request_wire `{!ZstdOk} r rest :
  wf_request r -> encodable r ->
  decode_request (frame (wire_request r) ++ rest) = (Ok (Some r), rest).
Proof.
  intros Hwf He. unfold decode_request.
  rewrite (bind_Ok _ _ _ _ _ (take_frame_app _ rest (wire_request_size r Hwf He))).
  unfold on_frame, lift, bind. by rewrite decode_request_frame_ok.
Qed.
End requests.

(* ------------------------------------------------------------------ *)
(** ** Encoding an encodable request succeeds                           *)
(* ------------------------------------------------------------------ *)

Lemma buffer_len_run b : buffer_len b = (Ok (blen b), b).
Proof. done. Qed.
Lemma start_frame_run opcode b :
  start_frame opcode b = (Ok (blen b), b ++ be 4 0 ++ be 1 opcode).
Proof. unfold start_frame, buffer_len. rewrite (app_assoc b). done. Qed.
#[export] Hint Resolve buffer_len_run start_frame_run : codec.

Lemma overwrite_u32_run b x v body :
  length x = 4%nat ->
  overwrite_u32 (blen b) v (b ++ x ++ body) = (Ok tt, b ++ be 4 v ++ body).
Proof.
  intros Hx. unfold overwrite_u32, blen. rewrite !length_app, Hx.
  destruct (Z.ltb_spec (Z.of_nat (length b + (4 + length body))) (Z.of_nat (length b) + 4));
    [lia|]. f_equal.
  replace (Z.to_nat (Z.of_nat (length b))) with (length b) by lia.
  replace (Z.to_nat (Z.of_nat (length b) + 4)) with (length b + length x)%nat by lia.
  by rewrite take_app_length, <- drop_drop, !drop_app_length.
Qed.

Lemma set_frame_len_run b x body :
  length x = 4%nat -> blen body <= U32_MAX ->
  set_frame_len (blen b) (b ++ x ++ body) = (Ok tt, b ++ frame body).
Proof.
  intros Hx Hb. unfold set_frame_len, FRAME_HEADER_SIZE.
  assert (blen (b ++ x ++ body) = blen b + 4 + blen body) as Hlen.
  { unfold blen. rewrite !length_app, Hx. lia. }
  pose proof (blen_nonneg body).
  erewrite bind_Ok by apply buffer_len_run. cbv beta. rewrite Hlen.
  destruct (Z.ltb_spec (blen b + 4 + blen body) (blen b + 4)); [lia|].
  replace (blen b + 4 + blen body - blen b - 4) with (blen body) by lia.
  erewrite bind_Ok by by apply try_from_run. by apply overwrite_u32_run.
Qed.

Lemma encode_string_run s b :
  str_len s <= U16_MAX -> encode_string s b = (Ok tt, b ++ wire_string s).
Proof.
  intros. unfold encode_string, wire_string. run_all. by rewrite put_slice_run, <- app_assoc.
Qed.
#[export] Hint Resolve encode_string_run : codec.

Lemma encode_string_request_run opcode vs b :
  Forall (fun s => str_len s <= U16_MAX) vs -> (length vs <= 3)%nat ->
  encode_string_request opcode vs b =
  (Ok (blen b), b ++ frame (be 1 opcode ++ wire_strings vs)).
Proof.
  intros HF Hl. unfold encode_string_request. run_all.
  rewrite (bind_Ok _ _ _ _ _ (for_each_run _ wire_string _ _
    ltac:(intros; apply encode_string_run; by eapply Forall_forall in HF))).
  rewrite <- !app_assoc. erewrite bind_Ok; [reflexivity|].
  apply set_frame_len_run; [apply length_be|]. rewrite blen_app, blen_be.
  assert (blen (vs ≫= wire_string) <= Z.of_nat (length vs) * (2 + U16_MAX)) as Hb.
  { clear Hl. induction HF as [|x xs Hx _ IH]; [done|].
    rewrite bind_cons, blen_app. unfold wire_string at 1.
    autorewrite with blen. unfold str_len, U16_MAX in *. cbn [length]. lia. }
  unfold wire_strings, U16_MAX, U32_MAX in *. lia.
Qed.

Lemma encode_batch_record_run x b :
  wf_batch_record x -> encode_batch_record x b = (Ok tt, b ++ wire_batch_record x).
Proof.
  intros [? ?]. unfold MAX_KEY_SIZE, MAX_MESSAGE_SIZE in *.
  unfold encode_batch_record, wire_batch_record. run_all.
  by rewrite put_slice_run, <- !app_assoc.
Qed.

Lemma encode_batch_records_run xs b :
  list_len xs <= U32_MAX -> Forall wf_batch_record xs ->
  encode_batch_records xs b = (Ok (wire_batch xs), b).
Proof.
  intros Hl HF. unfold encode_batch_records, lift. f_equal.
  change (Z.of_nat (length xs)) with (list_len xs). run_all.
  rewrite (bind_Ok _ _ _ _ _ (for_each_run encode_batch_record wire_batch_record xs _
    ltac:(intros; apply encode_batch_record_run; by eapply Forall_forall in HF))).
  done.
Qed.

Lemma close_frame_run b body b' :
  b' = b ++ be 4 0 ++ body -> blen body <= U32_MAX ->
  set_frame_len (blen b) b' = (Ok tt, b ++ frame body).
Proof. intros ->. apply set_frame_len_run, length_be. Qed.
Lemma reclose_frame_run b body more b' :
  b' = b ++ frame body ++ more -> blen (body ++ more) <= U32_MAX ->
  set_frame_len (blen b) b' = (Ok tt, b ++ frame (body ++ more)).
Proof.
  intros ->. unfold frame at 1. rewrite <- app_assoc. apply set_frame_len_run, length_be.
Qed.

Lemma string_request_close opcode vs more b b' :
  b' = b ++ frame (be 1 opcode ++ wire_strings vs) ++ more ->
  blen (be 1 opcode ++ wire_strings vs ++ more) <= U32_MAX ->
  set_frame_len (blen b) b' = (Ok tt, b ++ frame (be 1 opcode ++ wire_strings vs ++ more)).
Proof. rewrite (app_assoc (be 1 opcode)). apply reclose_frame_run. Qed.

Lemma topic_ok_singleton t : topic_ok t -> Forall (fun s => str_len s <= U16_MAX) [t].
Proof. intros. apply Forall_singleton. auto with codec. Qed.
#[export] Hint Resolve topic_ok_singleton : codec.

Section encode.
Context `{!Zstd}.

Definition producer_len (p : option ProducerIdentity) : Z :=
  match p with Some p => str_len (pi_id p) | None => 0 end.

Lemma encode_producer_run p b :
  (match p with
   | Some p => put_slice (as_bytes (pi_id p)) ;;; put_u64 (pi_sequence p)
   | None => put_u64 0
   end : codec unit) (b ++ be 2 (producer_len p)) = (Ok tt, b ++ wire_producer p).
Proof.
  destruct p as [[i q]|]; unfold wire_producer, wire_string; run_all;
    by rewrite put_u64_run, <- ?app_assoc.
Qed.

Lemma producer_len_ok p :
  wf_producer p ->
  blen (wire_producer p) = 2 + producer_len p + 8 /\ 0 <= producer_len p <= MAX_TOPIC_NAME.
Proof.
  destruct p as [[i q]|]; [|done]. intros [[? _] _].
  unfold wire_producer, wire_string. cbn [producer_len pi_id] in *. split; [blia|lia].
Qed.

Lemma encode_produce_run r b :
  wf_produce r -> encode_produce r b = (Ok tt, b ++ frame (wire_produce r)).
Proof.
  intros (? & ? & ? & ? & [Hw ?]%producer_len_ok & ?). unfold encode_produce.
  fold (producer_len (pr_producer r)).
  assert (str_len (pr_topic r) <= U16_MAX) by auto with codec.
  unfold MAX_KEY_SIZE, MAX_MESSAGE_SIZE, MAX_TOPIC_NAME in *. run_all.
  rewrite (bind_Ok _ _ _ _ _ (encode_producer_run _ _)). run_all. rewrite put_u32_run.
  f_equal. rewrite <- !app_assoc. f_equal. unfold frame.
  f_equal. f_equal. unfold wire_produce, wire_string, wire_option. blia.
Qed.

Lemma encode_fetch_run r b :
  topic_ok (fr_topic r) -> encode_fetch r b = (Ok tt, b ++ frame (wire_fetch r)).
Proof.
  intros Ht. assert (str_len (fr_topic r) <= U16_MAX) by auto with codec.
  destruct Ht as [[_ ?] _]. unfold MAX_TOPIC_NAME, encode_fetch in *. run_all.
  rewrite put_u32_run. f_equal. rewrite <- !app_assoc. f_equal.
  unfold frame, wire_fetch, wire_string. f_equal. f_equal. blia.
Qed.

Lemma encode_produce_batch_run r b :
  wf_batch r -> encodable (RProduceBatch r) ->
  encode_produce_batch r b = (Ok tt, b ++ frame (wire_produce_batch r)).
Proof.
  intros (? & ? & Hl & HF & Hs & Ho) [Hf Hz]. unfold encode_produce_batch.
  unfold MAX_BATCH_MESSAGES, MAX_UNCOMPRESSED_BATCH_SIZE, MAX_FRAME_SIZE in *.
  rewrite (bind_Ok _ _ _ _ _ (encode_batch_records_run (pb_records r) b
    ltac:(range) HF)).
  erewrite bind_Ok.
  2:{ instantiate (2 := wire_compressed r). unfold wire_compressed.
      destruct (pb_compression r); [done|]. destruct (Hz eq_refl) as [c Hc]. rewrite Hc.
      by apply ok_or_Some. }
  assert (str_len (pb_topic r) <= U16_MAX) by auto with codec.
  assert (blen (wire_compressed r) <= U32_MAX).
  { unfold wire_produce_batch in Hf. revert Hf. blia. }
  run_all.
  erewrite bind_Ok.
  2:{ rewrite <- !app_assoc. apply close_frame_run; [reflexivity|].
      match goal with |- blen ?w <= _ => change w with (wire_produce_batch r) end. range. }
  cbv beta. run_all. apply validate_size_ok.
  revert Hf. unfold wire_produce_batch, wire_string, wire_option, frame, FRAME_HEADER_SIZE. blia.
Qed.

Lemma encode_request_run r b :
  wf_request r -> encodable r ->
  encode_request r b = (Ok tt, b ++ frame (wire_request r)).
Proof.
  intros Hwf He. pose proof (wire_request_size r Hwf He) as [_ Hsize].
  assert (blen (wire_request r) <= U32_MAX) as Hmax by (unfold MAX_FRAME_SIZE in *; range).
  clear Hsize.
  destruct r; cbn [wire_request wf_request encodable encode_request] in *.
  { by apply encode_produce_run. }
  { by apply encode_produce_batch_run. }
  { apply encode_fetch_run, Hwf. }
  all: unfold encode_group_member, encode_group_generation, encode_commit_offset,
    encode_fetch_committed, encode_group_fetch, encode_create_topic,
    encode_leadership_request, wf_leadership in *; destruct_and?.
  all: rewrite ?FetchRequest_bind by (unfold wf_fetch; split_and?; first [assumption|range]).
  all: repeat (erewrite (bind_Ok (validate_topic _)) by by apply validate_topic_ok).
  all: run_all; try erewrite (bind_Ok (encode_string_request _ _)) by
    (apply encode_string_request_run; [auto with codec|simpl; lia]).
  all: run_all; rewrite ?put_u8_run, <- ?app_assoc; try done; unfold wire_leadership in *.
  all: lazymatch goal with
       | |- context [wire_strings] => apply string_request_close
       | _ => apply close_frame_run
       end; [reflexivity|exact Hmax].
Qed.
End encode.
