(* ===== verification/ResponseTrip.v ===== *)
(** * ResponseTrip: responses and replication frames, written and read back. *)

From stdpp Require Import base numbers list strings gmap.
From Stdlib Require Import ZArith Lia.
From S2P Require Import Prelude Text Runs Protocol Wire ProtocolFacts RoundTrip.

(* ------------------------------------------------------------------ *)
(** ** Invariants of the response types                                 *)
(* ------------------------------------------------------------------ *)

Definition short (s : string) : Prop := is_str s /\ str_len s <= U16_MAX.
Definition wf_ack (a : ProduceAck) : Prop := is_u32 (pa_partition a) /\ is_u64 (pa_offset a).
Definition wf_fetched (r : FetchedRecord) : Prop :=
  is_u64 (fd_offset r) /\ is_u64 (fd_timestamp_ms r) /\
  match fd_key r with Some k => blen k <= I32_MAX | None => True end /\
  blen (fd_value r) <= U32_MAX.
(** A topic lists no leader or one per partition, with its epoch and mark. *)
Definition wf_topic (t : TopicMetadata) : Prop :=
  short (tm_topic t) /\ 0 < tm_partitions t <= U32_MAX /\
  (tm_leaders t = [] \/ list_len (tm_leaders t) = tm_partitions t) /\
  length (tm_leader_epochs t) = length (tm_leaders t) /\
  length (tm_high_watermarks t) = length (tm_leaders t) /\
  Forall is_u32 (tm_leaders t) /\ Forall is_u64 (tm_leader_epochs t) /\
  Forall is_u64 (tm_high_watermarks t).
Definition wf_node (n : ClusterNode) : Prop :=
  is_u32 (cn_id n) /\ short (cn_host n) /\ is_u16 (cn_port n) /\ is_u16 (cn_admin_port n) /\
  is_u16 (cn_replication_port n).
Definition opt_u64 (o : option Z) : Prop := match o with Some p => is_u64 p | None => True end.

Definition wf_response (p : Response) : Prop :=
  match p with
  | PProduceAck a => wf_ack a
  | PProduceBatchAck acks => 0 < list_len acks <= MAX_BATCH_MESSAGES /\ Forall wf_ack acks
  | PFetch r => Forall wf_fetched (fp_records r)
  | PJoinGroup r => is_u64 (jg_generation r) /\ Forall is_u32 (jg_partitions r)
  | PGroupAck => True
  | PCommittedOffset o => opt_u64 o
  | PTopics ts => Forall wf_topic ts
  | PClusterMetadata m =>
      is_u32 (cm_responding_broker_id m) /\ 0 < list_len (cm_nodes m) <= MAX_CLUSTER_NODES /\
      Forall wf_node (cm_nodes m)
  | PLeadershipChanged l => wf_leadership l
  | PPartitionStatus o => is_u64 o
  | PError m => short m
  end.

Definition wf_replicate (r : ReplicateRecord) : Prop :=
  is_str (rr_topic r) /\ topic_ok (rr_topic r) /\ is_u32 (rr_partition r) /\
  is_u64 (rr_offset r) /\ is_u64 (rr_timestamp_ms r) /\
  match rr_key r with Some k => blen k <= MAX_KEY_SIZE | None => True end /\
  blen (rr_value r) <= MAX_MESSAGE_SIZE /\ is_u32 (rr_leader_id r) /\ is_u64 (rr_leader_epoch r).

(* ------------------------------------------------------------------ *)
(** ** Lengths                                                          *)
(* ------------------------------------------------------------------ *)

Lemma list_len_nonneg {A} (l : list A) : 0 <= list_len l.
Proof. unfold list_len. lia. Qed.

(** Elements of at least [k] bytes. *)
Lemma blen_concat_ge {A} (f : A -> bytes) k xs :
  (forall x, k <= blen (f x)) -> k * list_len xs <= blen (xs ≫= f).
Proof.
  intros Hf. unfold list_len. induction xs as [|x xs IH]; [change (k * 0 <= 0); lia|].
  rewrite bind_cons, blen_app. specialize (Hf x). cbn [length].
  rewrite Nat2Z.inj_succ, Z.mul_succ_r. lia.
Qed.
Lemma blen_concat_eq {A} (f : A -> bytes) k xs :
  (forall x, blen (f x) = k) -> blen (xs ≫= f) = k * list_len xs.
Proof.
  intros Hf. unfold list_len. induction xs as [|x xs IH]; [change (0 = k * 0); lia|].
  rewrite bind_cons, blen_app, Hf. cbn [length].
  rewrite Nat2Z.inj_succ, Z.mul_succ_r. lia.
Qed.
Lemma blen_be_concat n xs : blen (xs ≫= be n) = Z.of_nat n * list_len xs.
Proof. apply blen_concat_eq. intros. apply blen_be. Qed.
Lemma blen_wire_acks xs : blen (xs ≫= wire_ack) = 12 * list_len xs.
Proof. apply blen_concat_eq. intros. unfold wire_ack. blia. Qed.
#[export] Hint Rewrite blen_be_concat blen_wire_acks : blen.
Lemma blen_fetched_ge xs : 24 * list_len xs <= blen (xs ≫= wire_fetched).
Proof. apply blen_concat_ge. intros. unfold wire_fetched. blia. Qed.
Lemma blen_topics_ge xs : 10 * list_len xs <= blen (xs ≫= wire_topic).
Proof.
  apply blen_concat_ge. intros t. unfold wire_topic, wire_string.
  pose proof (list_len_nonneg (tm_leaders t)). pose proof (list_len_nonneg (tm_leader_epochs t)).
  pose proof (list_len_nonneg (tm_high_watermarks t)). blia.
Qed.

(* ------------------------------------------------------------------ *)
(** ** Reading lists back                                               *)
(* ------------------------------------------------------------------ *)

Lemma repeat_m_list {A} (dec : codec A) (f : A -> bytes) (P : A -> Prop) xs n r :
  n = list_len xs -> Forall P xs -> (forall x r, P x -> dec (f x ++ r) = (Ok x, r)) ->
  repeat_m (Z.to_nat n) dec ((xs ≫= f) ++ r) = (Ok xs, r).
Proof.
  intros -> HF Hdec. unfold list_len. rewrite Nat2Z.id. apply repeat_m_app.
  eapply Forall_impl; [done|]. auto.
Qed.

Lemma decode_produce_ack_app a r :
  wf_ack a -> decode_produce_ack (wire_ack a ++ r) = (Ok a, r).
Proof. intros [? ?]. unfold decode_produce_ack, wire_ack. flatten. run_all. by destruct a. Qed.

Lemma decode_fetched_record_app x r :
  wf_fetched x -> decode_fetched_record (wire_fetched x ++ r) = (Ok x, r).
Proof.
  intros (? & ? & Hk & ?). pose proof (blen_nonneg (fd_value x)).
  assert (-1 <= wire_key_len (fd_key x) <= I32_MAX).
  { destruct (fd_key x) as [k|]; simpl in *; [pose proof (blen_nonneg k)|]; range. }
  unfold decode_fetched_record, wire_fetched. flatten. run_all.
  erewrite bind_Ok.
  2:{ instantiate (2 := fd_key x). destruct (fd_key x) as [k|]; cbn [wire_key_len default].
      - pose proof (blen_nonneg k). destruct (Z.eqb_spec (blen k) (-1)); [lia|].
        destruct (Z.leb_spec 0 (blen k)); [|lia]. cbn [from_option id]. run_all. done.
      - done. }
  cbv beta. run_all. by destruct x.
Qed.

Lemma decode_topic_metadata_app t r :
  wf_topic t -> decode_topic_metadata (wire_topic t ++ r) = (Ok t, r).
Proof.
  intros ([? ?] & [? ?] & Hl & He & Hw & ? & ? & ?).
  assert (list_len (tm_leader_epochs t) = list_len (tm_leaders t)) as Hel
    by (unfold list_len; by rewrite He).
  assert (list_len (tm_high_watermarks t) = list_len (tm_leaders t)) as Hwl
    by (unfold list_len; by rewrite Hw).
  assert (0 <= list_len (tm_leaders t) <= tm_partitions t) as Hle.
  { destruct Hl as [-> | ->]; [|lia]. change (list_len (A:=Z) []) with 0. lia. }
  assert (list_len (tm_leaders t) = 0 \/ list_len (tm_leaders t) = tm_partitions t) as Hor.
  { destruct Hl as [->|]; auto. }
  unfold decode_topic_metadata, wire_topic. flatten. run_all.
  erewrite bind_Ok by (by eapply repeat_m_list; [..|intros; apply get_u32_app]).
  cbv beta. run_all.
  erewrite bind_Ok by (by eapply repeat_m_list; [..|intros; apply get_u64_app]).
  cbv beta. run_all.
  erewrite bind_Ok by (by eapply repeat_m_list; [..|intros; apply get_u64_app]).
  by destruct t.
Qed.

Lemma decode_cluster_node_app n r :
  wf_node n -> decode_cluster_node (wire_node n ++ r) = (Ok n, r).
Proof.
  intros (? & [? ?] & ? & ? & ?). unfold decode_cluster_node, wire_node. flatten. run_all.
  by destruct n.
Qed.

(* ------------------------------------------------------------------ *)
(** ** Responses                                                        *)
(* ------------------------------------------------------------------ *)

Lemma decode_lists_app p :
  wf_response p -> blen (wire_response p) <= MAX_FRAME_SIZE ->
  match p with
  | PFetch _ | PTopics _ | PClusterMetadata _ | PJoinGroup _ | PProduceBatchAck _ => True
  | _ => False end ->
  fst ((opcode <- get_u8 ;; decode_response_frame opcode) (wire_response p ++ [])) = Ok p.
Proof.
  intros Hwf Hsize Hp. unfold MAX_FRAME_SIZE in *.
  destruct p; try done; cbn [wire_response wf_response] in *; flatten; unfold decode_response_frame.
  - pose proof (list_len_nonneg acks). unfold MAX_BATCH_MESSAGES in *. run_all.
    erewrite bind_Ok; [|by eapply repeat_m_list; [..|intros; by apply decode_produce_ack_app]].
    done.
  - pose proof (blen_fetched_ge (fp_records r)). pose proof (list_len_nonneg (fp_records r)).
    assert (is_u32 (list_len (fp_records r))) by (revert Hsize; blia). run_all.
    unfold decode_fetch_response. run_all.
    erewrite bind_Ok; [|by eapply repeat_m_list; [..|intros; by apply decode_fetched_record_app]].
    by destruct r.
  - pose proof (list_len_nonneg (jg_partitions r)).
    assert (is_u32 (list_len (jg_partitions r))) by (revert Hsize; blia). run_all.
    erewrite bind_Ok; [|by eapply repeat_m_list; [..|intros; by apply get_u32_app]].
    cbv beta. run_all. by destruct r.
  - pose proof (blen_topics_ge topics). pose proof (list_len_nonneg topics).
    assert (is_u32 (list_len topics)) by (revert Hsize; blia). run_all.
    unfold decode_topics_response. run_all.
    erewrite bind_Ok; [|by eapply repeat_m_list; [..|intros; by apply decode_topic_metadata_app]].
    done.
  - run_all. unfold decode_cluster_metadata, MAX_CLUSTER_NODES in *. run_all.
    erewrite bind_Ok; [|by eapply repeat_m_list; [..|intros; by apply decode_cluster_node_app]].
    cbv beta. run_all. by destruct m.
Qed.

Lemma decode_response_frame_ok p :
  wf_response p -> blen (wire_response p) <= MAX_FRAME_SIZE ->
  fst ((opcode <- get_u8 ;; decode_response_frame opcode) (wire_response p)) = Ok p.
Proof.
  intros Hwf Hsize. rewrite <- (app_nil_r (wire_response p)).
  destruct p; try by apply decode_lists_app.
  all: clear Hsize; cbn [wire_response wf_response] in *;
    unfold decode_response_frame, wf_ack, wf_leadership, wire_leadership, opt_u64, short in *;
    flatten.
  - run_all. rewrite (bind_Ok _ _ _ _ _ (decode_produce_ack_app a [] ltac:(split; done))). done.
  - run_all. done.
  - assert (is_u64 (default 0 offset)) by (by destruct offset).
    run_all. erewrite bind_Ok by (by destruct offset). by destruct offset.
  - run_all. autorewrite with blen. run_all. unfold decode_leadership_fields. run_all. by destruct l.
  - run_all. autorewrite with blen. run_all. done.
  - run_all. done.
Qed.

Lemma wire_response_pos p : 1 <= blen (wire_response p).
Proof.
  destruct p; cbn [wire_response]; try rewrite blen_app; rewrite blen_be;
    try match goal with |- 1 <= _ + blen ?x => pose proof (blen_nonneg x) end; lia.
Qed.

Lemma decode_response_wire p rest :
  wf_response p -> blen (wire_response p) <= MAX_FRAME_SIZE ->
  decode_response (frame (wire_response p) ++ rest) = (Ok (Some p), rest).
Proof.
  intros Hwf Hsize. unfold decode_response, take_response_frame. pose proof (wire_response_pos p).
  rewrite (bind_Ok _ _ _ _ _ (take_frame_app _ rest (conj H Hsize))).
  unfold on_frame, lift, bind at 1. by rewrite decode_response_frame_ok.
Qed.

(** ** Writing responses *)

Lemma encode_fetched_record_run x b :
  wf_fetched x -> encode_fetched_record x b = (Ok tt, b ++ wire_fetched x).
Proof.
  intros (? & ? & Hk & ?). unfold encode_fetched_record, wire_fetched. run_all.
  destruct (fd_key x) as [k|]; run_all; rewrite put_slice_run, <- ?app_assoc; done.
Qed.

Lemma encode_topic_metadata_run t b :
  wf_topic t -> encode_topic_metadata t b = (Ok tt, b ++ wire_topic t).
Proof.
  intros ([? ?] & [? ?] & Hl & He & Hw & ? & ? & ?). unfold encode_topic_metadata.
  assert (list_len (tm_leader_epochs t) = list_len (tm_leaders t)) as Hel
    by (unfold list_len; by rewrite He).
  assert (list_len (tm_high_watermarks t) = list_len (tm_leaders t)) as Hwl
    by (unfold list_len; by rewrite Hw).
  rewrite Hel, Hwl, !Z.eqb_refl. cbn [negb].
  erewrite bind_Ok.
  2:{ apply reject_if_false. destruct Hl as [-> | ->].
      - rewrite bool_decide_eq_true_2 by done. cbn [negb andb orb]. lia.
      - rewrite Z.eqb_refl. cbn [negb]. rewrite andb_false_r. lia. }
  assert (list_len (tm_leaders t) <= U32_MAX).
  { destruct Hl as [-> | ->]; [by vm_compute|lia]. }
  unfold wire_topic. cbv beta. run_all.
  erewrite bind_Ok by (apply (for_each_run _ (be 4)); intros; apply put_u32_run). cbv beta.
  erewrite bind_Ok by (apply (for_each_run _ (be 8)); intros; apply put_u64_run). cbv beta.
  erewrite (for_each_run _ (be 8)) by (intros; apply put_u64_run). by rewrite <- !app_assoc.
Qed.

Lemma encode_cluster_node_run n b :
  wf_node n -> encode_cluster_node n b = (Ok tt, b ++ wire_node n).
Proof.
  intros (? & [? ?] & ? & ? & ?). unfold encode_cluster_node, wire_node. run_all.
  by rewrite put_u16_run, <- !app_assoc.
Qed.

Lemma encode_produce_ack_run a b : encode_produce_ack a b = (Ok tt, b ++ wire_ack a).
Proof. unfold encode_produce_ack, wire_ack. run_all. by rewrite put_u64_run, <- app_assoc. Qed.

Lemma encode_fetch_response_run r b :
  Forall wf_fetched (fp_records r) -> blen (wire_response (PFetch r)) <= MAX_FRAME_SIZE ->
  encode_fetch_response r b = (Ok tt, b ++ frame (wire_response (PFetch r))).
Proof.
  intros HF Hsize. cbn [wire_response] in *.
  pose proof (blen_fetched_ge (fp_records r)). pose proof (list_len_nonneg (fp_records r)).
  assert (list_len (fp_records r) <= U32_MAX) by (revert Hsize; unfold MAX_FRAME_SIZE; blia).
  unfold encode_fetch_response. run_all.
  erewrite bind_Ok by (apply (for_each_run _ wire_fetched); intros ? ? Hx; apply encode_fetched_record_run;
    by eapply Forall_forall in HF). cbv beta. run_all.
  rewrite <- !app_assoc. autorewrite with blen in *. unfold FRAME_HEADER_SIZE.
  rewrite (proj2 (Z.ltb_ge _ _)) by lia.
  erewrite bind_Ok by (apply try_from_run; unfold MAX_FRAME_SIZE in *; range). cbv beta.
  rewrite overwrite_u32_run by done. unfold frame. do 4 f_equal. blia.
Qed.

Lemma encode_response_run p b :
  wf_response p -> blen (wire_response p) <= MAX_FRAME_SIZE ->
  encode_response p b = (Ok tt, b ++ frame (wire_response p)).
Proof.
  intros Hwf Hsize. assert (blen (wire_response p) <= U32_MAX) as Hmax
    by (unfold MAX_FRAME_SIZE in *; range).
  destruct p; cbn [encode_response wf_response] in *.
  3: by apply encode_fetch_response_run.
  all: cbn [wire_response] in *; unfold MAX_FRAME_SIZE, wf_leadership, wire_leadership, short in *; flatten.
  - run_all. rewrite encode_produce_ack_run. unfold frame, wire_ack. by rewrite <- !app_assoc.
  - unfold MAX_BATCH_MESSAGES in *. run_all.
    erewrite bind_Ok by (apply (for_each_run _ wire_ack); intros; apply encode_produce_ack_run).
    rewrite <- !app_assoc. by apply close_frame_run.
  - pose proof (list_len_nonneg (jg_partitions r)).
    assert (list_len (jg_partitions r) <= U32_MAX) by (revert Hsize; blia).
    run_all. rewrite (proj2 (Z.ltb_ge _ _)) by (revert Hmax; blia). run_all.
    erewrite (for_each_run _ (be 4)) by (intros; apply put_u32_run).
    rewrite <- !app_assoc. unfold frame. do 4 f_equal. blia.
  - run_all. rewrite put_u8_run. by rewrite <- !app_assoc.
  - run_all. rewrite put_u64_run. by rewrite <- !app_assoc.
  - pose proof (blen_topics_ge topics). pose proof (list_len_nonneg topics).
    assert (list_len topics <= U32_MAX) by (revert Hsize; blia).
    unfold encode_topics_response. run_all.
    erewrite bind_Ok by (apply (for_each_run _ wire_topic); intros ? ? Hx;
      apply encode_topic_metadata_run; by eapply Forall_forall in Hwf).
    rewrite <- !app_assoc. by apply close_frame_run.
  - unfold encode_cluster_metadata, MAX_CLUSTER_NODES in *.
    erewrite bind_Ok.
    2:{ apply reject_if_false. rewrite bool_decide_eq_false_2; [simpl; lia|].
        destruct (cm_nodes m); [unfold list_len in *; simpl in *; lia|done]. }
    cbv beta. run_all.
    erewrite bind_Ok by (apply (for_each_run _ wire_node); intros ? ? Hx;
      apply encode_cluster_node_run;
      by match goal with HF : Forall wf_node _ |- _ => eapply Forall_forall in HF end).
    rewrite <- !app_assoc. by apply close_frame_run.
  - run_all. rewrite put_u64_run. by rewrite <- !app_assoc.
  - run_all. rewrite put_u64_run. by rewrite <- !app_assoc.
  - unfold encode_string_response. run_all. rewrite <- !app_assoc. by apply close_frame_run.
Qed.

(* ------------------------------------------------------------------ *)
(** ** Replication frames                                               *)
(* ------------------------------------------------------------------ *)

(** An empty key and a missing key have the same bytes. *)
Definition norm_key (k : option bytes) : option bytes :=
  match k with Some [] => None | _ => k end.
Definition norm_replicate (r : ReplicateRecord) : ReplicateRecord :=
  {| rr_topic := rr_topic r; rr_partition := rr_partition r; rr_offset := rr_offset r;
     rr_timestamp_ms := rr_timestamp_ms r; rr_key := norm_key (rr_key r);
     rr_value := rr_value r; rr_durable := rr_durable r; rr_leader_id := rr_leader_id r;
     rr_leader_epoch := rr_leader_epoch r |}.

Lemma wire_replicate_size r :
  wf_replicate r -> 1 <= blen (wire_replicate r) <= MAX_FRAME_SIZE.
Proof.
  intros (? & Ht%topic_ok_u16 & ? & ? & ? & Hk & ? & ?).
  assert (blen (default [] (rr_key r)) <= MAX_KEY_SIZE).
  { destruct (rr_key r); [done|by vm_compute]. }
  unfold wire_replicate, wire_string, MAX_FRAME_SIZE, MAX_KEY_SIZE, MAX_MESSAGE_SIZE in *. blia.
Qed.

Lemma put_key_run {E} k b :
  (match k with Some k => put_slice k | None => ret tt end : SM bytes E unit) b =
  (Ok tt, b ++ default [] k).
Proof. destruct k; [done|]. cbn [default]. by rewrite app_nil_r. Qed.

Lemma encode_replicate_record_run r b :
  wf_replicate r ->
  encode_replicate_record r b = (Ok tt, b ++ frame (wire_replicate r)).
Proof.
  intros Hwf. pose proof (wire_replicate_size r Hwf) as [_ Hsize].
  destruct Hwf as (? & ? & ? & ? & ? & Hk & ? & ?). unfold encode_replicate_record.
  replace (match rr_key r with Some k => blen k | None => 0 end)
    with (blen (default [] (rr_key r))) by (by destruct (rr_key r)).
  assert (blen (default [] (rr_key r)) <= MAX_KEY_SIZE).
  { destruct (rr_key r); [done|by vm_compute]. }
  unfold MAX_KEY_SIZE, MAX_MESSAGE_SIZE, MAX_FRAME_SIZE in *. cbv zeta.
  assert (str_len (rr_topic r) <= U16_MAX) by auto with codec. run_all.
  rewrite (bind_Ok _ _ _ _ _ (put_key_run _ _)).
  run_all. rewrite <- !app_assoc. apply close_frame_run; [reflexivity|].
  change (blen (wire_replicate r) <= U32_MAX). range.
Qed.

Lemma decode_replicate_record_wire r rest :
  wf_replicate r ->
  decode_replicate_record (frame (wire_replicate r) ++ rest) =
  (Ok (Some (norm_replicate r)), rest).
Proof.
  intros Hwf. unfold decode_replicate_record.
  rewrite (bind_Ok _ _ _ _ _ (take_frame_app _ rest (wire_replicate_size r Hwf))).
  destruct Hwf as (? & ? & ? & ? & ? & Hk & ? & ? & ?).
  assert (blen (default [] (rr_key r)) <= MAX_KEY_SIZE).
  { destruct (rr_key r); [done|by vm_compute]. }
  unfold on_frame, lift. erewrite bind_Ok; [reflexivity|]. do 2 f_equal.
  enough (decode_replicate_record_frame (wire_replicate r ++ []) = (Ok (norm_replicate r), []))
    as Hf by (rewrite app_nil_r in Hf; by rewrite Hf).
  unfold decode_replicate_record_frame, wire_replicate, MAX_KEY_SIZE, MAX_MESSAGE_SIZE in *.
  pose proof (blen_nonneg (default [] (rr_key r))). pose proof (blen_nonneg (rr_value r)).
  assert (str_len (rr_topic r) <= U16_MAX) by auto with codec. flatten. run_all.
  erewrite bind_Ok by (apply reject_if_false; by destruct (rr_durable r)). cbv beta. run_all.
  unfold ret, norm_replicate. do 2 f_equal.
  destruct r as [t p o ts key v durable l e]; cbn [rr_key rr_durable rr_topic rr_partition rr_offset
    rr_timestamp_ms rr_value rr_leader_id rr_leader_epoch norm_key] in *.
  f_equal; [|by destruct durable]. destruct key as [[|x k]|]; [done| |done].
  pose proof (blen_nonneg k). unfold default, from_option, id.
  rewrite blen_cons. destruct (Z.eqb_spec (1 + blen k) 0); [lia|done].
Qed.

Lemma encode_replicate_ack_run a b :
  encode_replicate_ack a b =
  (Ok tt, b ++ frame (be 1 REPLICATE_ACK ++ be 4 (ra_partition a) ++ be 8 (ra_next_offset a))).
Proof.
  unfold encode_replicate_ack. run_all. rewrite <- !app_assoc.
  apply close_frame_run; [reflexivity|]. blia.
Qed.

Lemma decode_replicate_ack_wire a rest :
  is_u32 (ra_partition a) -> is_u64 (ra_next_offset a) ->
  decode_replicate_ack
    (frame (be 1 REPLICATE_ACK ++ be 4 (ra_partition a) ++ be 8 (ra_next_offset a)) ++ rest) =
  (Ok (Some a), rest).
Proof.
  intros. unfold decode_replicate_ack.
  erewrite bind_Ok by (apply take_frame_app; unfold MAX_FRAME_SIZE; blia).
  unfold on_frame, lift. erewrite bind_Ok; [reflexivity|]. do 2 f_equal.
  rewrite <- (app_nil_r (be 8 _)).
  unfold decode_replicate_ack_frame. run_all. autorewrite with blen. run_all. by destruct a.
Qed.
