(* ===== verification/CodecSafety.v ===== *)
(** * CodecSafety: the decoders of [Protocol] on arbitrary input.

    No input makes a decoder panic; an incomplete frame is left in the buffer;
    a decoded value meets the invariant of its type. *)

From stdpp Require Import base numbers list strings gmap.
From Stdlib Require Import ZArith Lia.
From S2P Require Import Prelude Text Runs Protocol Wire ProtocolFacts ResponseTrip.

(* ------------------------------------------------------------------ *)
(** ** Weakest preconditions of the readers                             *)
(* ------------------------------------------------------------------ *)

Section readers.
Context (b : bytes).
Abbreviation post A := (A -> bytes -> Prop).
Abbreviation epost := (ProtocolError -> bytes -> Prop).

Lemma wp_ensure_remaining n (Q : post unit) :
  (n <= blen b -> Q tt b) -> wp (ensure_remaining n) Q any_err b.
Proof.
  intros HQ. unfold ensure_remaining. wp_step. wp_step. wp_step; [done|].
  apply HQ. by apply Z.ltb_ge.
Qed.
Lemma wp_ensure_empty (Q : post unit) : (b = [] -> Q tt b) -> wp ensure_empty Q any_err b.
Proof.
  intros HQ. unfold ensure_empty. wp_step. wp_step. wp_step; [done|].
  apply HQ, blen_zero_nil. apply negb_false_iff, Z.eqb_eq in H. done.
Qed.
Lemma wp_read_u16_len (Q : post Z) :
  (forall v b', is_u16 v -> blen b' = blen b - 2 -> Q v b') -> wp read_u16_len Q any_err b.
Proof. intros. unfold read_u16_len. wp_step. apply wp_ensure_remaining. intros. wp_step; auto. Qed.
Lemma wp_read_u32_len (Q : post Z) :
  (forall v b', is_u32 v -> blen b' = blen b - 4 -> Q v b') -> wp read_u32_len Q any_err b.
Proof. intros. unfold read_u32_len. wp_step. apply wp_ensure_remaining. intros. wp_step; auto. Qed.
Lemma wp_read_bytes n (Q : post bytes) :
  0 <= n -> (forall d b', blen d = n -> blen b' = blen b - n -> Q d b') ->
  wp (read_bytes n) Q any_err b.
Proof.
  intros. unfold read_bytes. wp_step. apply wp_ensure_remaining. intros.
  apply wp_split_to; [lia|]. auto.
Qed.
Lemma wp_validate_size n m e (Q : post unit) :
  (n <= m -> Q tt b) -> wp (validate_size n m e) Q any_err b.
Proof. intros HQ. unfold validate_size. wp_step; [done|]. apply HQ. by apply Z.ltb_ge. Qed.
Lemma wp_utf8 d (e : ProtocolError) (Q : post string) :
  (forall s, is_str s -> as_bytes s = d -> Q s b) -> wp (ok_or (from_utf8 d) e) Q any_err b.
Proof. intros HQ. wp_step; [done|]. apply from_utf8_Some in H as [? ?]. by apply HQ. Qed.
Lemma wp_validate_topic t (Q : post unit) :
  (topic_ok t -> Q tt b) -> wp (validate_topic t) Q any_err b.
Proof.
  intros HQ. unfold wp. destruct (validate_topic t b) as [[u|e|] b'] eqn:E; [|done|].
  - destruct u. apply validate_topic_inv in E as [? ->]. auto.
  - revert E. unfold validate_topic, validate_size, reject_if, bind.
    repeat (match goal with |- context [if ?c then _ else _] => destruct c end; cbn); done.
Qed.
End readers.

Lemma wp_decode_string b (Q : string -> bytes -> Prop) :
  (forall s b', short s -> blen b' <= blen b -> Q s b') -> wp decode_string Q any_err b.
Proof.
  intros HQ. unfold decode_string. wp_step. apply wp_read_u16_len. intros n b1 Hn ?.
  wp_step. apply wp_read_bytes; [by destruct Hn|]. intros d b2 Hd ?. apply wp_utf8.
  intros s Hs <-. apply HQ; [|unfold in_range in *; lia]. split; [done|].
  unfold str_len. destruct Hn. lia.
Qed.

Lemma wp_on_frame {S A} f (m : codec A) (Q : A -> S -> Prop) (s : S) :
  wp m (fun a _ => Q a s) any_err f -> wp (on_frame f m) Q any_err s.
Proof. unfold wp, on_frame, lift. by destruct (m f) as [[] ?]. Qed.

(** One step of a decoder on arbitrary input. *)
Ltac safe_step :=
  lazymatch goal with
  | |- wp (ensure_remaining _) _ _ _ => apply wp_ensure_remaining; intros
  | |- wp ensure_empty _ _ _ => apply wp_ensure_empty; intros
  | |- wp read_u16_len _ _ _ => apply wp_read_u16_len; intros
  | |- wp read_u32_len _ _ _ => apply wp_read_u32_len; intros
  | |- wp (read_bytes _) _ _ _ =>
      apply wp_read_bytes; [unfold in_range in *; lia|intros]
  | |- wp (validate_size _ _ _) _ _ _ => apply wp_validate_size; intros
  | |- wp (validate_topic _) _ _ _ => apply wp_validate_topic; intros
  | |- wp (ok_or (from_utf8 _) _) _ _ _ => apply wp_utf8; intros
  | |- wp decode_string _ _ _ => apply wp_decode_string; intros
  | |- wp (on_frame _ _) _ _ _ => apply wp_on_frame
  | |- wp (match ?p with _ => _ end) _ _ _ => destruct p; simplify_eq
  | |- _ => wp_step
  end.
Ltac safe := repeat (safe_step; try done).

(** A take of a frame: nothing happens, or a non-empty frame is removed. *)
Lemma wp_take_frame b (Q : option bytes -> bytes -> Prop) :
  Q None b ->
  (forall f b', b = frame f ++ b' -> 1 <= blen f <= MAX_FRAME_SIZE -> Q (Some f) b') ->
  wp take_frame Q any_err b.
Proof.
  intros HN HS. unfold take_frame. wp_step. unfold wp at 1, get.
  wp_step; [done|]. wp_step; [done|]. wp_step; [done|]. wp_step; [done|].
  repeat match goal with H : (_ <? _) = false |- _ => apply Z.ltb_ge in H end.
  unfold FRAME_HEADER_SIZE in *. rename H0 into Hz.
  set (n := be_val (take (Z.to_nat 4) b)) in *.
  pose proof (be_val_range (take (Z.to_nat 4) b)).
  wp_step. apply wp_advance; [lia|]. intros d b1 Hb Hd Hb1.
  wp_step. apply wp_split_to; [subst n; lia|]. intros f b2 Hb' Hf ?. wp_step. subst b b1.
  assert (n = blen f /\ d = be 4 (blen f)) as [Hn Hdf].
  { subst n. rewrite take_app_length' in * by (unfold blen in Hd; lia). split; [lia|].
    rewrite Hf. assert (length d = 4%nat) as <- by (unfold blen in Hd; lia).
    by rewrite be_be_val. }
  apply HS; [unfold frame; by rewrite <- app_assoc, Hdf|].
  apply Z.eqb_neq in Hz. lia.
Qed.

(* ------------------------------------------------------------------ *)
(** ** Requests                                                         *)
(* ------------------------------------------------------------------ *)

(** What decoding checks beyond the types. *)
Definition checked (r : Request) : Prop :=
  match r with
  | RCreateTopic r => topic_ok (ct_topic r) /\ ct_partitions r <> 0
  | RDescribeTopic t => topic_ok t
  | RGroupFetch r =>
      wf_fetch (gf_topic r) (gf_partition r) (gf_offset r) (gf_max_bytes r) (gf_max_wait_ms r)
  | _ => True
  end.

Lemma wp_FetchRequest_new {S} t p o mb mw (Q : FetchRequest -> S -> Prop) (s : S) :
  is_str t -> is_u32 p -> is_u64 o -> is_u32 mb -> is_u32 mw ->
  (wf_fetch t p o mb mw ->
   Q {| fr_topic := t; fr_partition := p; fr_offset := o; fr_max_bytes := mb;
        fr_max_wait_ms := mw |} s) ->
  wp (FetchRequest_new t p o mb mw) Q any_err s.
Proof.
  intros ????? HQ. unfold wp. destruct (FetchRequest_new t p o mb mw s) as [[r|e|] s'] eqn:E.
  - pose proof E as E'. apply FetchRequest_new_inv in E' as (? & ? & ? & ->); [|done].
    assert (wf_fetch t p o mb mw) as Hwf by (unfold wf_fetch; split_and?; first [done|range]).
    rewrite FetchRequest_new_ok in E by done. injection E as <-. auto.
  - done.
  - revert E. unfold FetchRequest_new, validate_topic, validate_size, reject_if, bind.
    repeat (match goal with |- context [if ?c then _ else _] => destruct c end; cbn); done.
Qed.

Lemma wp_decode_topic_name b (Q : string -> bytes -> Prop) :
  (forall t b', is_str t -> str_len t <= MAX_TOPIC_NAME -> Q t b') ->
  wp decode_topic_name Q any_err b.
Proof.
  intros HQ. unfold decode_topic_name. safe. apply HQ; [done|]. unfold str_len. congruence.
Qed.

Lemma wp_AckMode (Q : AckMode -> bytes -> Prop) code b :
  (forall a, Q a b) -> wp (AckMode_from_code code) Q any_err b.
Proof. unfold AckMode_from_code. intros; safe; auto. Qed.
Lemma wp_Compression (Q : Compression -> bytes -> Prop) code b :
  (forall c, Q c b) -> wp (Compression_from_code code) Q any_err b.
Proof. unfold Compression_from_code. intros; safe; auto. Qed.

Lemma wp_ProduceRequest_new t k v a p (Q : ProduceRequest -> bytes -> Prop) b :
  (topic_ok t -> blen k <= MAX_KEY_SIZE -> blen v <= MAX_MESSAGE_SIZE ->
   match p with Some p => id_ok (pi_id p) | None => True end ->
   Q {| pr_topic := t; pr_key := k; pr_payload := v; pr_ack_mode := a; pr_producer := p;
        pr_partition := None |} b) ->
  wp (ProduceRequest_new t k v a p) Q any_err b.
Proof.
  intros HQ. unfold ProduceRequest_new. safe; [|by apply HQ].
  unfold validate_identifier. safe. apply HQ; try done.
  apply (validate_identifier_inv (S:=unit) _ tt tt tt). unfold validate_identifier. by rewrite H2.
Qed.

Ltac code_step :=
  lazymatch goal with
  | |- wp (AckMode_from_code _) _ _ _ => apply wp_AckMode; intros
  | |- wp (Compression_from_code _) _ _ _ => apply wp_Compression; intros
  | |- wp decode_topic_name _ _ _ => apply wp_decode_topic_name; intros
  | |- wp (FetchRequest_new _ _ _ _ _) _ _ _ => apply wp_FetchRequest_new; intros
  | |- wp (ProduceRequest_new _ _ _ _ _) _ _ _ => apply wp_ProduceRequest_new; intros
  | |- _ => safe_step
  end.
Ltac decode := repeat (code_step; try done).

Lemma wp_producer len b (Q : option ProducerIdentity -> bytes -> Prop) :
  is_u16 len ->
  (forall p b', match p with Some p => is_u64 (pi_sequence p) | None => True end -> Q p b') ->
  wp (if len =? 0 then ensure_remaining 8 ;;; _u <- get_u64 ;; ret None
      else
        id <- read_bytes len ;;
        id <- ok_or (from_utf8 id) InvalidProducerId ;;
        ensure_remaining 8 ;;;
        sequence <- get_u64 ;;
        ret (Some {| pi_id := id; pi_sequence := sequence |}) : codec _) Q any_err b.
Proof. intros ? HQ. decode; by apply HQ. Qed.

Lemma opt_u32_with (has p : Z) : is_u32 p -> opt_u32 (if has =? 1 then Some p else None).
Proof. by destruct (has =? 1). Qed.

Lemma wp_decode_produce b : wp decode_produce (fun r _ => wf_produce r) any_err b.
Proof.
  unfold decode_produce.
  repeat (lazymatch goal with
          | |- wp (if _ =? 0 then _ else _) _ _ _ => apply wp_producer; [done|intros p bx Hp]
          | _ => code_step
          end; try done).
  match goal with |- context [?h =? 1] => destruct (h =? 1) end;
    unfold wf_produce, ProduceRequest_with_partition; cbn; split_and?; try done;
    by destruct p.
Qed.

Lemma wp_decode_fetch b :
  wp decode_fetch (fun r _ => wf_request (RFetch r)) any_err b.
Proof. unfold decode_fetch. decode. Qed.

Lemma wp_decode_group_fetch b :
  wp decode_group_fetch (fun r _ => wf_request (RGroupFetch r) /\ checked (RGroupFetch r)) any_err b.
Proof.
  unfold decode_group_fetch. decode; unfold short in *; destruct_and?; try done.
Qed.

Lemma wp_batch_encoded_size xs n b (Q : Z -> bytes -> Prop) :
  (forall m, Forall wf_batch_record xs -> m = n + blen (xs ≫= wire_batch_record) -> Q m b) ->
  wp (batch_encoded_size xs n) Q any_err b.
Proof.
  intros HQ.
  assert (wp (batch_encoded_size xs n) (fun _ _ => True) any_err b) as Hs.
  { clear HQ. revert n. induction xs as [|x xs IH]; intros n; cbn [batch_encoded_size]; decode. }
  unfold wp in *. destruct (batch_encoded_size xs n b) as [[m|e|] b'] eqn:E; [|done..].
  apply batch_encoded_size_inv in E as (? & ? & ->). auto.
Qed.

Lemma wp_ProduceBatchRequest_new t xs a c (Q : ProduceBatchRequest -> bytes -> Prop) b :
  (topic_ok t -> 0 < list_len xs <= MAX_BATCH_MESSAGES -> Forall wf_batch_record xs ->
   blen (wire_batch xs) <= MAX_UNCOMPRESSED_BATCH_SIZE ->
   Q {| pb_topic := t; pb_records := xs; pb_ack_mode := a; pb_compression := c;
        pb_partition := None |} b) ->
  wp (ProduceBatchRequest_new t xs a c) Q any_err b.
Proof.
  intros HQ. unfold ProduceBatchRequest_new. decode. apply wp_batch_encoded_size. intros m HF ->.
  decode. apply HQ; try done.
  - match goal with H : _ || _ = false |- _ =>
      apply orb_false_iff in H as [?%bool_decide_eq_false ?%Z.ltb_ge] end.
    unfold list_len. destruct xs; [done|]. cbn [length] in *. lia.
  - unfold wire_batch. by rewrite blen_app, blen_be.
Qed.

Lemma wp_decode_batch_records b : wp decode_batch_records (fun _ _ => True) any_err b.
Proof.
  unfold decode_batch_records. decode.
  eapply wp_mono; [apply (wp_repeat_m _ (fun _ _ => True) (fun _ => True)); [done|]|
                   intros; decode|done].
  intros. unfold decode_batch_record. decode.
Qed.

Lemma wp_decode_produce_batch `{!Zstd} b :
  wp decode_produce_batch (fun r _ => wf_batch r) any_err b.
Proof.
  unfold decode_produce_batch. decode.
  all: eapply wp_mono; [apply wp_decode_batch_records| |done]; intros xs bx _; decode.
  all: apply wp_ProduceBatchRequest_new; intros; decode.
  all: match goal with |- context [?h =? 1] => destruct (h =? 1) end;
    unfold wf_batch, ProduceBatchRequest_with_partition; cbn; split_and?; done || lia.
Qed.

Ltac sub L := eapply wp_mono; [apply L|intros|done]; cbn beta in *; destruct_and?.

Lemma wp_decode_request_frame `{!Zstd} b :
  1 <= blen b ->
  wp decode_request_frame (fun r _ => wf_request r /\ checked r) any_err b.
Proof.
  intros Hb. unfold decode_request_frame. wp_step. wp_step. wp_step. wp_step. intros.
  apply wp_if; intros _; [wp_step; sub wp_decode_produce; by wp_step|].
  apply wp_if; intros _; [wp_step; sub @wp_decode_produce_batch; by wp_step|].
  apply wp_if; intros _; [wp_step; sub wp_decode_fetch; by wp_step|].
  all: unfold decode_group_member, decode_group_generation, decode_commit_offset,
    decode_fetch_committed, decode_create_topic, decode_promote_leader,
    decode_apply_leadership, decode_leadership_fields.
  all: repeat first
    [ lazymatch goal with
      | |- wp (bind decode_group_fetch _) _ _ _ =>
          apply wp_bind; sub wp_decode_group_fetch; by apply wp_ret
      | |- wp (if _ then _ else _) _ _ _ => apply wp_if; intros _
      end
    | code_step ].
  all: unfold short in *; destruct_and?; cbn; split_and?; try done.
  by apply Z.eqb_neq.
Qed.

Lemma wp_decode_request `{!Zstd} b :
  wp decode_request
    (fun o b' => match o with
                 | None => b' = b
                 | Some r => wf_request r /\ checked r /\
                     exists f, b = frame f ++ b' /\ 1 <= blen f <= MAX_FRAME_SIZE
                 end) any_err b.
Proof.
  unfold decode_request. wp_step. apply wp_take_frame; [done|]. intros f b' ? ?.
  wp_step. apply wp_on_frame. sub @wp_decode_request_frame. { lia. } wp_step. eauto 6.
Qed.

(* ------------------------------------------------------------------ *)
(** ** Responses                                                        *)
(* ------------------------------------------------------------------ *)

(** A fixed number of elements of [k] bytes whose room has been checked. *)
Lemma wp_repeat_fixed {A} (body : codec A) (P : A -> Prop) n k b
    (Q : list A -> bytes -> Prop) :
  0 <= n -> n * k <= blen b -> 0 <= k ->
  (forall s, k <= blen s -> wp body (fun x s' => P x /\ blen s' = blen s - k) any_err s) ->
  (forall xs b', list_len xs = n -> Forall P xs -> Q xs b') ->
  wp (repeat_m (Z.to_nat n) body) Q any_err b.
Proof.
  intros Hn Hb Hk Hbody HQ.
  eapply wp_mono; [apply (wp_repeat_m _ (fun j s => Z.of_nat j * k <= blen s) P)| |done].
  - lia.
  - intros j s Hs. eapply wp_mono; [apply Hbody; nia| |done].
    intros x s' [? ?]. split; [done|]. nia.
  - intros xs s' (Hl & ? & _). apply HQ; [|done]. unfold list_len. lia.
Qed.

(** Elements that check their own room. *)
Lemma wp_repeat_any {A} (body : codec A) (P : A -> Prop) n b (Q : list A -> bytes -> Prop) :
  0 <= n -> (forall s, wp body (fun x _ => P x) any_err s) ->
  (forall xs b', list_len xs = n -> Forall P xs -> Q xs b') ->
  wp (repeat_m (Z.to_nat n) body) Q any_err b.
Proof.
  intros Hn Hbody HQ.
  eapply wp_mono; [apply (wp_repeat_m _ (fun _ _ => True) P); [done|]| |done].
  - intros j s _. eapply wp_mono; [apply Hbody| |done]. auto.
  - intros xs s' (Hl & ? & _). apply HQ; [|done]. unfold list_len. lia.
Qed.

Lemma wp_get_u32_fixed s :
  4 <= blen s -> wp (get_u32 : codec Z) (fun x s' => is_u32 x /\ blen s' = blen s - 4) any_err s.
Proof. intros. by apply wp_get_u32. Qed.
Lemma wp_get_u64_fixed s :
  8 <= blen s -> wp (get_u64 : codec Z) (fun x s' => is_u64 x /\ blen s' = blen s - 8) any_err s.
Proof. intros. by apply wp_get_u64. Qed.
Lemma wp_decode_produce_ack s :
  12 <= blen s ->
  wp decode_produce_ack (fun x s' => wf_ack x /\ blen s' = blen s - 12) any_err s.
Proof. intros. unfold decode_produce_ack. safe. split; [done|lia]. Qed.

Lemma wp_decode_fetched_record s : wp decode_fetched_record (fun x _ => wf_fetched x) any_err s.
Proof.
  unfold decode_fetched_record. do 11 safe_step.
  apply (wp_mono _ (fun k _ => match k with Some k => blen k <= I32_MAX | None => True end)
           _ any_err); [| |done].
  - apply wp_if; intros _; [by wp_step|].
    apply wp_if; intros Hv; [apply Z.leb_le in Hv|by wp_step].
    wp_step. apply wp_read_bytes; [done|]. intros d b Hd _. wp_step. lia.
  - intros k bx Hk. safe. unfold wf_fetched. cbn. split_and?; try done. range.
Qed.

Lemma wp_decode_fetch_response b :
  wp decode_fetch_response (fun r _ => Forall wf_fetched (fp_records r)) any_err b.
Proof.
  unfold decode_fetch_response. do 5 safe_step.
  eapply wp_repeat_any; [by destruct H0|apply wp_decode_fetched_record|]. intros. safe.
Qed.

Lemma wp_decode_topic_metadata b : wp decode_topic_metadata (fun t _ => wf_topic t) any_err b.
Proof.
  unfold decode_topic_metadata. do 9 safe_step. safe_step; [done|].
  rename v0 into n. match goal with H : is_u32 n |- _ => destruct H as [Hn _] end.
  do 2 safe_step. safe_step. eapply (wp_repeat_fixed _ is_u32 n 4);
    [done|lia|done|apply wp_get_u32_fixed|]. intros ls ? Hls ?.
  do 2 safe_step. safe_step. eapply (wp_repeat_fixed _ is_u64 n 8);
    [done|lia|done|apply wp_get_u64_fixed|]. intros es ? Hes ?.
  do 2 safe_step. safe_step. eapply (wp_repeat_fixed _ is_u64 n 8);
    [done|lia|done|apply wp_get_u64_fixed|]. intros ws ? Hws ?.
  safe_step. unfold wf_topic. cbn.
  match goal with H : _ || _ = false |- _ =>
    apply orb_false_iff in H as [Hp%Z.eqb_neq Hor%andb_false_iff] end.
  unfold list_len in *. split_and?; try done; try range; try lia.
  destruct Hor as [Hz%negb_false_iff%Z.eqb_eq|Hz%negb_false_iff%Z.eqb_eq]; [left|right; lia].
  destruct ls; [done|]. cbn in *. lia.
Qed.

Lemma wp_decode_cluster_node b : wp decode_cluster_node (fun n _ => wf_node n) any_err b.
Proof. unfold decode_cluster_node. safe. Qed.

Lemma wp_decode_response_frame op b :
  is_u8 op -> wp (decode_response_frame op) (fun p _ => wf_response p) any_err b.
Proof.
  intros Hop. unfold decode_response_frame. do 2 wp_step.
  apply wp_if; intros _.
  { do 2 safe_step; [done|]. safe_step.
    match goal with H : negb _ = false |- _ => apply negb_false_iff, Z.eqb_eq in H end.
    sub wp_decode_produce_ack; [lia|]. by wp_step. }
  apply wp_if; intros _.
  { do 6 safe_step; [done|]. do 3 safe_step.
    match goal with H : _ || _ = false |- _ =>
      apply orb_false_iff in H as [?%Z.eqb_neq ?%Z.ltb_ge] end.
    eapply (wp_repeat_fixed _ wf_ack _ 12);
      [by match goal with H : is_u32 _ |- _ => destruct H end|lia|done|
       apply wp_decode_produce_ack|].
    intros. safe. cbn. split; [range|done]. }
  apply wp_if; intros _.
  { safe_step. sub wp_decode_fetch_response. by wp_step. }
  apply wp_if; intros _.
  { do 8 safe_step. safe_step.
    eapply (wp_repeat_fixed _ is_u32 _ 4);
      [by match goal with H : is_u32 _ |- _ => destruct H end|lia|done|
       apply wp_get_u32_fixed|].
    intros. safe. }
  apply wp_if; intros _; [by wp_step|].
  apply wp_if; intros _.
  { safe. by match goal with |- context [?h =? 1] => destruct (h =? 1) end. }
  apply wp_if; intros _.
  { unfold decode_topics_response. do 6 safe_step.
    eapply wp_repeat_any; [by match goal with H : is_u32 _ |- _ => destruct H end
      |apply wp_decode_topic_metadata|]. intros. safe. }
  apply wp_if; intros _.
  { unfold decode_cluster_metadata. do 9 safe_step; [done|]. safe_step.
    match goal with H : _ || _ = false |- _ =>
      apply orb_false_iff in H as [?%Z.eqb_neq ?%Z.ltb_ge] end.
    eapply wp_repeat_any; [by match goal with H : is_u32 _ |- _ => destruct H end
      |apply wp_decode_cluster_node|].
    intros. safe. cbn. split_and?; try done; range. }
  apply wp_if; intros Hl.
  { apply andb_true_iff in Hl as [_ Hleft%Z.eqb_eq]. unfold decode_leadership_fields. safe. }
  apply wp_if; intros Hop2.
  { apply andb_true_iff in Hop2 as [_ Hleft%Z.eqb_eq]. safe. }
  apply wp_if; intros _; [safe|by wp_step].
Qed.

Lemma wp_decode_response b :
  wp decode_response
    (fun o b' => match o with
                 | None => b' = b
                 | Some p => wf_response p /\
                     exists f, b = frame f ++ b' /\ 1 <= blen f <= MAX_FRAME_SIZE
                 end) any_err b.
Proof.
  unfold decode_response, take_response_frame. wp_step. apply wp_take_frame; [done|]. intros f b' ? ?.
  wp_step. apply wp_on_frame. wp_step. wp_step. sub wp_decode_response_frame; [done|].
  wp_step. eauto.
Qed.

(* ------------------------------------------------------------------ *)
(** ** Replication frames                                               *)
(* ------------------------------------------------------------------ *)

(** Decoding does not check the topic name, and keys are not empty. *)
Definition decoded_replicate (r : ReplicateRecord) : Prop :=
  short (rr_topic r) /\ is_u32 (rr_partition r) /\
  is_u64 (rr_offset r) /\ is_u64 (rr_timestamp_ms r) /\
  match rr_key r with Some k => 0 < blen k <= MAX_KEY_SIZE | None => True end /\
  blen (rr_value r) <= MAX_MESSAGE_SIZE /\ is_u32 (rr_leader_id r) /\ is_u64 (rr_leader_epoch r).

Lemma wp_decode_replicate_record b :
  wp decode_replicate_record
    (fun o b' => match o with
                 | None => b' = b
                 | Some r => decoded_replicate r /\ exists f, b = frame f ++ b'
                 end) any_err b.
Proof.
  unfold decode_replicate_record. wp_step. apply wp_take_frame; [done|]. intros f b' ? ?.
  unfold decode_replicate_record_frame. safe. split; [|eauto].
  unfold decoded_replicate, MAX_KEY_SIZE. cbn. split_and?; try done.
  - match goal with |- context [?n =? 0] => destruct (Z.eqb_spec n 0) end; [done|].
    match goal with |- _ < blen ?d <= _ => pose proof (blen_nonneg d) end. range.
  - lia.
Qed.

Lemma wp_decode_replicate_ack b :
  wp decode_replicate_ack
    (fun o b' => match o with
                 | None => b' = b
                 | Some a => is_u32 (ra_partition a) /\ is_u64 (ra_next_offset a) /\
                             exists f, b = frame f ++ b'
                 end) any_err b.
Proof.
  unfold decode_replicate_ack. wp_step. apply wp_take_frame; [done|]. intros f b' ? ?.
  wp_step. apply wp_on_frame. unfold decode_replicate_ack_frame. do 4 wp_step; [done|].
  match goal with H : negb _ = false |- _ => apply negb_false_iff, Z.eqb_eq in H end.
  safe. split_and?; eauto.
Qed.
