(* ===== verification/Codec.v ===== *)
(** * Codec: what the wire protocol of [crates/protocol] promises.

    The properties of the codec, each a short consequence of the lemmas of
    [ProtocolFacts], [RoundTrip], [ResponseTrip] and [CodecSafety]. *)

From stdpp Require Import base numbers list strings gmap.
From Stdlib Require Import ZArith Lia.
From S2P Require Import Prelude Text Runs Protocol Wire ProtocolFacts RoundTrip ResponseTrip CodecSafety.

(** A codec of the [zstd] crate to run examples with: a stored block that
    starts with one marker byte. *)
Definition stored_zstd : Zstd :=
  {| zstd_compress b := Some (Byte.x28 :: b);
     zstd_decompress b cap :=
       match b with
       | m :: b' => if (Z_of_byte m =? 40) && (blen b' <=? cap) then Some b' else None
       | [] => None
       end |}.

#[local] Instance stored_zstd_ok : @ZstdOk stored_zstd.
Proof.
  intros b c cap H Hcap. injection H as <-. cbn.
  destruct (Z.leb_spec (blen b) cap); [done|lia].
Qed.

(** Concrete values for the witnesses. *)
Definition sample_produce : ProduceRequest :=
  {| pr_topic := "orders"; pr_key := as_bytes "k"; pr_payload := as_bytes "hello";
     pr_ack_mode := AckDurable; pr_producer := Some {| pi_id := "p1"; pi_sequence := 7 |};
     pr_partition := Some 3 |}.
Definition sample_batch : ProduceBatchRequest :=
  {| pb_topic := "orders"; pb_records := [{| br_key := []; br_payload := as_bytes "hi" |}];
     pb_ack_mode := AckLeader; pb_compression := CompressionZstd; pb_partition := None |}.
Definition sample_topic : TopicMetadata :=
  {| tm_topic := "orders"; tm_partitions := 2; tm_leaders := [1; 2]; tm_leader_epochs := [0; 5];
     tm_high_watermarks := [9; 0] |}.
Definition sample_replicate : ReplicateRecord :=
  {| rr_topic := "orders"; rr_partition := 1; rr_offset := 4; rr_timestamp_ms := 1000;
     rr_key := Some (as_bytes "k"); rr_value := as_bytes "v"; rr_durable := true;
     rr_leader_id := 1; rr_leader_epoch := 2 |}.

(** Ranges and lengths of closed values. *)
Ltac closed := repeat (split || constructor); vm_compute; (reflexivity || discriminate || auto).

(* ------------------------------------------------------------------ *)
(** ** Requests                                                         *)
(* ------------------------------------------------------------------ *)

(** C22 Round trip of requests: whatever [encode_request] appends to the output
    buffer for a request (any of the sixteen, with or without compression),
    [decode_request] takes off the front of an input buffer, gives the same
    request back and leaves the bytes that follow. *)
Theorem request_roundtrip `{!Zstd} `{!ZstdOk} r out out' u :
  wf_request r -> encode_request r out = (Ok u, out') ->
  exists w, out' = out ++ w /\ forall rest, decode_request (w ++ rest) = (Ok (Some r), rest).
Proof.
  intros Hwf Henc. apply encode_request_layout in Henc as [-> He]; [|done].
  eexists. split; [done|]. intros rest. by apply decode_request_wire.
Qed.

Lemma request_roundtrip_witness :
  exists w, snd (@encode_request stored_zstd (RProduceBatch sample_batch) []) = w /\
    exists w', w = [] ++ w' /\
    forall rest, @decode_request stored_zstd (w' ++ rest) = (Ok (Some (RProduceBatch sample_batch)), rest).
Proof.
  eexists. split; [reflexivity|].
  apply (@request_roundtrip stored_zstd stored_zstd_ok (RProduceBatch sample_batch) [] _ tt).
  - closed.
  - vm_compute. reflexivity.
Defined.

(** C24 The encoder accepts exactly the encodable requests: a request of the
    types' invariant is written, as one length-prefixed frame after what the
    buffer holds, if and only if its names, sizes and counts are within the
    protocol's limits (and the compressor succeeds). *)
Theorem encode_request_exact `{!Zstd} r out :
  wf_request r ->
  (encodable r <-> exists out', encode_request r out = (Ok tt, out')) /\
  (encodable r -> encode_request r out = (Ok tt, out ++ frame (wire_request r)) /\
                  1 <= blen (wire_request r) <= MAX_FRAME_SIZE).
Proof.
  intros Hwf. split; [split|].
  - intros He. eexists. by apply encode_request_run.
  - intros [out' Henc]. by apply encode_request_layout in Henc as [_ ?].
  - intros He. split; [by apply encode_request_run|by apply wire_request_size].
Qed.

Lemma encode_request_exact_witness :
  (@encodable stored_zstd (RProduce sample_produce) <->
   exists out', @encode_request stored_zstd (RProduce sample_produce) [] = (Ok tt, out')) /\
  @encodable stored_zstd (RProduce sample_produce).
Proof.
  split; [|exact I].
  apply (@encode_request_exact stored_zstd (RProduce sample_produce) []). closed.
Defined.

(** C23 Decoding of untrusted input: on every input buffer [decode_request]
    returns (it never aborts the connection's task); it waits and leaves the
    buffer untouched, or rejects the frame, or takes exactly one frame of at
    most 4 MiB off the front and gives a request that meets the invariant of
    its type and the checks on topic names, partition counts and fetch limits. *)
Theorem decode_request_safe `{!Zstd} b :
  match decode_request b with
  | (Ok None, b') => b' = b
  | (Ok (Some r), b') =>
      wf_request r /\ checked r /\ exists f, b = frame f ++ b' /\ 1 <= blen f <= MAX_FRAME_SIZE
  | (Err _, _) => True
  | (Panic, _) => False
  end.
Proof.
  pose proof (wp_decode_request b) as Hs. unfold wp in Hs.
  by destruct (decode_request b) as [[[r|]|e|] b'].
Qed.

(** Incremental reading: as long as some bytes of an encoded request are
    missing, [decode_request] asks for more and consumes nothing. *)
Theorem decode_request_waits `{!Zstd} r out w p q :
  wf_request r -> encode_request r out = (Ok tt, out ++ w) -> w = p ++ q -> q <> [] ->
  decode_request p = (Ok None, p).
Proof.
  intros Hwf Henc Hw Hq. apply encode_request_layout in Henc as [Hout He]; [|done].
  apply app_inv_head in Hout as ->. unfold decode_request.
  erewrite bind_Ok; [|eapply take_frame_incomplete; [|done..]; by apply wire_request_size].
  done.
Qed.

Lemma decode_request_waits_witness :
  @decode_request stored_zstd (take 11 (snd (@encode_request stored_zstd (RProduce sample_produce) [])))
  = (Ok None, take 11 (snd (@encode_request stored_zstd (RProduce sample_produce) []))).
Proof.
  apply (@decode_request_waits stored_zstd (RProduce sample_produce) []
           (snd (@encode_request stored_zstd (RProduce sample_produce) [])) _
           (drop 11 (snd (@encode_request stored_zstd (RProduce sample_produce) [])))).
  - closed.
  - vm_compute. reflexivity.
  - vm_compute. reflexivity.
  - vm_compute. discriminate.
Defined.

(* ------------------------------------------------------------------ *)
(** ** Responses                                                        *)
(* ------------------------------------------------------------------ *)

(** Round trip of responses: a response whose fields are in range and whose
    frame is at most 4 MiB is written after what the buffer holds, and the
    client's [decode_response] gives it back and leaves the bytes that follow. *)
Theorem response_roundtrip p out rest :
  wf_response p -> blen (wire_response p) <= MAX_FRAME_SIZE ->
  exists w, encode_response p out = (Ok tt, out ++ w) /\
            decode_response (w ++ rest) = (Ok (Some p), rest).
Proof.
  intros. eexists. split; [by apply encode_response_run|by apply decode_response_wire].
Qed.

Lemma response_roundtrip_witness :
  exists w, encode_response (PTopics [sample_topic]) [] = (Ok tt, [] ++ w) /\
            decode_response (w ++ []) = (Ok (Some (PTopics [sample_topic])), []).
Proof.
  apply (response_roundtrip (PTopics [sample_topic]) [] []).
  - constructor; [|constructor]. unfold wf_topic, short.
    split_and?; first [right; reflexivity | reflexivity | closed].
  - vm_compute. discriminate.
Defined.

(** Decoding of responses from an untrusted server: on every buffer
    [decode_response] waits without consuming, rejects, or takes one frame and
    gives a response that meets the invariant of its type - at least one and at
    most 1000 acknowledgements, a leader, epoch and high watermark for every
    partition or for none, between 1 and 1024 nodes; it never panics. *)
Theorem decode_response_safe b :
  match decode_response b with
  | (Ok None, b') => b' = b
  | (Ok (Some p), b') =>
      wf_response p /\ exists f, b = frame f ++ b' /\ 1 <= blen f <= MAX_FRAME_SIZE
  | (Err _, _) => True
  | (Panic, _) => False
  end.
Proof.
  pose proof (wp_decode_response b) as Hs. unfold wp in Hs.
  by destruct (decode_response b) as [[[r|]|e|] b'].
Qed.

(* ------------------------------------------------------------------ *)
(** ** Replication                                                      *)
(* ------------------------------------------------------------------ *)

(** The replication stream: a record the leader sends is received as it was,
    except that an empty key arrives as no key, and the acknowledgement comes
    back unchanged; both leave the bytes that follow in the buffer. *)
Theorem replication_roundtrip r a out rest :
  wf_replicate r -> is_u32 (ra_partition a) -> is_u64 (ra_next_offset a) ->
  (exists w, encode_replicate_record r out = (Ok tt, out ++ w) /\
             decode_replicate_record (w ++ rest) = (Ok (Some (norm_replicate r)), rest)) /\
  (exists w, encode_replicate_ack a out = (Ok tt, out ++ w) /\
             decode_replicate_ack (w ++ rest) = (Ok (Some a), rest)).
Proof.
  intros. split; eexists; (split; [|]).
  - by apply encode_replicate_record_run.
  - by apply decode_replicate_record_wire.
  - by apply encode_replicate_ack_run.
  - by apply decode_replicate_ack_wire.
Qed.

Lemma replication_roundtrip_witness :
  (exists w, encode_replicate_record sample_replicate [] = (Ok tt, [] ++ w) /\
             decode_replicate_record (w ++ []) = (Ok (Some (norm_replicate sample_replicate)), [])) /\
  (exists w, encode_replicate_ack {| ra_partition := 1; ra_next_offset := 5 |} [] = (Ok tt, [] ++ w) /\
             decode_replicate_ack (w ++ []) = (Ok (Some {| ra_partition := 1; ra_next_offset := 5 |}), [])).
Proof.
  apply (replication_roundtrip sample_replicate {| ra_partition := 1; ra_next_offset := 5 |} [] []);
    closed.
Defined.

(** Replication input from the network: a follower never panics on a record
    frame, nor a leader on an acknowledgement, and what they accept has its
    numbers in range, its value within 1 MiB and its key within 65535 bytes. *)
Theorem decode_replication_safe b :
  match decode_replicate_record b with
  | (Ok None, b') => b' = b
  | (Ok (Some r), b') => decoded_replicate r /\ exists f, b = frame f ++ b'
  | (Err _, _) => True
  | (Panic, _) => False
  end /\
  match decode_replicate_ack b with
  | (Ok None, b') => b' = b
  | (Ok (Some a), b') =>
      is_u32 (ra_partition a) /\ is_u64 (ra_next_offset a) /\ exists f, b = frame f ++ b'
  | (Err _, _) => True
  | (Panic, _) => False
  end.
Proof.
  split.
  - pose proof (wp_decode_replicate_record b) as Hs. unfold wp in Hs.
    by destruct (decode_replicate_record b) as [[[r|]|e|] b'].
  - pose proof (wp_decode_replicate_ack b) as Hs. unfold wp in Hs.
    by destruct (decode_replicate_ack b) as [[[r|]|e|] b'].
Qed.
