(* ===== verification/Record.v ===== *)
(** * Record: the on-disk record of [crates/storage].

    [Record], [StoredRecord], [StorageError] and the codec [encode_record] /
    [decode_record]: a length, a checksum and a versioned body.  The checksum
    of the [crc32fast] crate is a parameter ([Crc32]). *)

From stdpp Require Import base numbers list strings gmap.
From Stdlib Require Import ZArith Lia.
From S2P Require Import Prelude Text.

(* ------------------------------------------------------------------ *)
(** ** Constants                                                        *)
(* ------------------------------------------------------------------ *)

Definition MAX_RECORD_SIZE : Z := 16 * 1024 * 1024.
Definition RECORD_VERSION_V1 : Z := 1.
Definition RECORD_VERSION : Z := 2.
Definition LENGTH_SIZE : Z := 4.
Definition CRC_SIZE : Z := 4.
Definition BODY_FIXED_SIZE : Z := 1 + 8 * 3 + 4 * 2 + 4.
Definition V1_BODY_FIXED_SIZE : Z := 1 + 8 * 2 + 4 + 4.
Definition MIN_RECORD_SIZE : Z := CRC_SIZE + V1_BODY_FIXED_SIZE.
Definition INDEX_ENTRY_SIZE : Z := 8 * 2.

(* ------------------------------------------------------------------ *)
(** ** Data                                                             *)
(* ------------------------------------------------------------------ *)

(** [storage::ProducerIdentity] *)
Record Producer := { producer_id : string; producer_sequence : Z }.
(** [storage::Record] *)
Record LogRecord := {
  rec_key : option bytes;
  rec_value : bytes;
  rec_timestamp_ms : Z;
  rec_producer : option Producer
}.
Definition Record_new (key : option bytes) (value : bytes) (timestamp_ms : Z) : LogRecord :=
  {| rec_key := key; rec_value := value; rec_timestamp_ms := timestamp_ms; rec_producer := None |}.
Definition with_producer (record : LogRecord) (producer : Producer) : LogRecord :=
  {| rec_key := rec_key record; rec_value := rec_value record;
     rec_timestamp_ms := rec_timestamp_ms record; rec_producer := Some producer |}.
Record StoredRecord := {
  sr_offset : Z;
  sr_timestamp_ms : Z;
  sr_key : option bytes;
  sr_value : bytes;
  sr_producer : option Producer
}.

Inductive StorageError : Type :=
| Io
| InvalidRecord
| RecordTooLarge
| ChecksumMismatch
| UnsupportedVersion (v : Z)
| SInvalidTopic
| TopicAlreadyExists
| UnknownTopic
| SInvalidProducerId
| UnexpectedProducerSequence (id : string) (expected actual : Z)
| OffsetOverflow
| UnexpectedOffset (expected actual : Z)
| ReplicaDiverged (offset : Z)
| InvalidSegmentLimit
| InvalidIndexInterval
| MissingActiveSegment
| InvalidSegmentName
| InvalidPartitionName
| UnexpectedSegmentBase (expected actual : Z)
| IncompleteClosedSegment (base : Z)
| InvalidTimestamp
| InvalidReadLimit
| UnknownPartition (partition : Z).

(** [crc32fast::hash] *)
Class Crc32 := crc32 : bytes -> Z.
Class Crc32Ok `{!Crc32} : Prop := crc32_range : forall b, is_u32 (crc32 b).

(* ------------------------------------------------------------------ *)
(** ** Validation                                                       *)
(* ------------------------------------------------------------------ *)

Definition storage_validate_topic {S} (topic : string) : SM S StorageError unit :=
  reject_if (is_empty topic || starts_with "__" topic ||
             negb (forallb id_byte (as_bytes topic))) SInvalidTopic.
Definition validate_producer_id {S} (id : string) : SM S StorageError unit :=
  reject_if (is_empty id || (249 <? str_len id) ||
             negb (forallb id_byte (as_bytes id))) SInvalidProducerId.

(* ------------------------------------------------------------------ *)
(** ** Encoding                                                         *)
(* ------------------------------------------------------------------ *)

Definition option_len (b : option bytes) : Z :=
  match b with Some b => blen b | None => 0 end.
Definition producer_id_len (p : option Producer) : Z :=
  match p with Some p => str_len (producer_id p) | None => 0 end.

(** The fields of [body] in [encode_record]. *)
Definition encode_body (record : LogRecord) (offset : Z) : SM bytes StorageError unit :=
  put_u8 RECORD_VERSION ;;;
  put_u64 offset ;;;
  put_u64 (rec_timestamp_ms record) ;;;
  match rec_producer record with
  | Some producer =>
      validate_producer_id (producer_id producer) ;;;
      len <- try_from I32_MAX (str_len (producer_id producer)) RecordTooLarge ;;
      put_i32 len ;;;
      put_u64 (producer_sequence producer)
  | None => put_i32 (-1) ;;; put_u64 0
  end ;;;
  match rec_key record with
  | Some key => len <- try_from I32_MAX (blen key) RecordTooLarge ;; put_i32 len
  | None => put_i32 (-1)
  end ;;;
  len <- try_from U32_MAX (blen (rec_value record)) RecordTooLarge ;;
  put_u32 len ;;;
  match rec_producer record with
  | Some producer => put_slice (as_bytes (producer_id producer))
  | None => ret tt
  end ;;;
  match rec_key record with Some key => put_slice key | None => ret tt end ;;;
  put_slice (rec_value record).

(** A buffer that is built from nothing and returned. *)
Definition build {S E} (m : SM bytes E unit) : SM S E bytes :=
  fun s => match m [] with
           | (Ok _, b) => (Ok b, s)
           | (Err e, _) => (Err e, s)
           | (Panic, _) => (Panic, s)
           end.

Definition encode_record `{!Crc32} {S} (record : LogRecord) (offset : Z)
  : SM S StorageError bytes :=
  let body_len := BODY_FIXED_SIZE + producer_id_len (rec_producer record) +
                  option_len (rec_key record) + blen (rec_value record) in
  let record_len := CRC_SIZE + body_len in
  reject_if (MAX_RECORD_SIZE <? record_len) RecordTooLarge ;;;
  body <- build (encode_body record offset) ;;
  build (len <- try_from U32_MAX record_len RecordTooLarge ;;
         put_u32 len ;;;
         put_u32 (crc32 body) ;;;
         put_slice body).

(* ------------------------------------------------------------------ *)
(** ** Decoding                                                         *)
(* ------------------------------------------------------------------ *)

Abbreviation reader A := (SM bytes StorageError A).

Definition storage_read_bytes (len : Z) : reader bytes :=
  n <- remaining ;;
  reject_if (n <? len) InvalidRecord ;;;
  split_to len.

(** The producer's length and sequence of a version 2 body. *)
Definition decode_producer_header (version : Z) : reader (option (Z * Z)) :=
  if version =? RECORD_VERSION then
    n <- remaining ;;
    reject_if (n <? 4 + 8) InvalidRecord ;;;
    producer_len <- get_i32 ;;
    sequence <- get_u64 ;;
    if producer_len =? -1 then ret None
    else if 0 <=? producer_len then ret (Some (producer_len, sequence))
    else throw InvalidRecord
  else ret None.

Definition decode_producer_id (header : option (Z * Z)) : reader (option Producer) :=
  match header with
  | None => ret None
  | Some (len, sequence) =>
      id <- storage_read_bytes len ;;
      id <- ok_or (from_utf8 id) SInvalidProducerId ;;
      ret (Some {| producer_id := id; producer_sequence := sequence |})
  end.

Definition decode_key (key_len : Z) : reader (option bytes) :=
  if key_len =? -1 then ret None
  else if 0 <=? key_len then key <- storage_read_bytes key_len ;; ret (Some key)
  else throw InvalidRecord.

(** The part of [decode_record] that works on the split-off record. *)
Definition decode_body `{!Crc32} : reader StoredRecord :=
  expected_crc <- get_u32 ;;
  encoded <- get ;;
  reject_if (negb (crc32 encoded =? expected_crc)) ChecksumMismatch ;;;
  version <- get_u8 ;;
  reject_if (negb ((version =? RECORD_VERSION_V1) || (version =? RECORD_VERSION)))
            (UnsupportedVersion version) ;;;
  offset <- get_u64 ;;
  timestamp_ms <- get_u64 ;;
  header <- decode_producer_header version ;;
  n <- remaining ;;
  reject_if (n <? 4 + 4) InvalidRecord ;;;
  key_len <- get_i32 ;;
  value_len <- get_u32 ;;
  producer <- decode_producer_id header ;;
  key <- decode_key key_len ;;
  value <- storage_read_bytes value_len ;;
  n <- remaining ;;
  reject_if (negb (n =? 0)) InvalidRecord ;;;
  ret {| sr_offset := offset; sr_timestamp_ms := timestamp_ms; sr_key := key;
         sr_value := value; sr_producer := producer |}.

Definition decode_record `{!Crc32} : reader (option StoredRecord) :=
  buffer <- get ;;
  if blen buffer <? LENGTH_SIZE then ret None
  else
    let record_len := be_val (take (Z.to_nat LENGTH_SIZE) buffer) in
    reject_if (record_len <? MIN_RECORD_SIZE) InvalidRecord ;;;
    reject_if (MAX_RECORD_SIZE <? record_len) RecordTooLarge ;;;
    if blen buffer <? LENGTH_SIZE + record_len then ret None
    else
      advance LENGTH_SIZE ;;;
      encoded <- split_to record_len ;;
      record <- on_frame encoded decode_body ;;
      ret (Some record).

(* ------------------------------------------------------------------ *)
(** ** The layout                                                       *)
(* ------------------------------------------------------------------ *)

(** The record at an offset of the log. *)
Definition stored (offset : Z) (r : LogRecord) : StoredRecord :=
  {| sr_offset := offset; sr_timestamp_ms := rec_timestamp_ms r; sr_key := rec_key r;
     sr_value := rec_value r; sr_producer := rec_producer r |}.

Definition wire_body (offset : Z) (r : LogRecord) : bytes :=
  be 1 RECORD_VERSION ++ be 8 offset ++ be 8 (rec_timestamp_ms r) ++
  match rec_producer r with
  | Some p => be 4 (str_len (producer_id p)) ++ be 8 (producer_sequence p)
  | None => be 4 (-1) ++ be 8 0
  end ++
  be 4 (match rec_key r with Some k => blen k | None => -1 end) ++ be 4 (blen (rec_value r)) ++
  match rec_producer r with Some p => as_bytes (producer_id p) | None => [] end ++
  default [] (rec_key r) ++ rec_value r.
Definition wire_record `{!Crc32} (offset : Z) (r : LogRecord) : bytes :=
  let body := wire_body offset r in
  be 4 (4 + blen body) ++ be 4 (crc32 body) ++ body.

(** The producer checks of [validate_producer_id]. *)
Definition producer_ok (p : Producer) : Prop :=
  0 < str_len (producer_id p) <= 249 /\ forallb id_byte (as_bytes (producer_id p)) = true /\
  is_u64 (producer_sequence p).
(** The records that the log accepts. *)
Definition record_len (r : LogRecord) : Z :=
  CRC_SIZE + (BODY_FIXED_SIZE + producer_id_len (rec_producer r) + option_len (rec_key r) +
              blen (rec_value r)).
Definition record_ok (r : LogRecord) : Prop :=
  record_len r <= MAX_RECORD_SIZE /\ is_u64 (rec_timestamp_ms r) /\
  match rec_producer r with Some p => producer_ok p | None => True end.
(** What the types of a record guarantee. *)
Definition record_typed (r : LogRecord) : Prop :=
  is_u64 (rec_timestamp_ms r) /\
  match rec_producer r with Some p => is_u64 (producer_sequence p) | None => True end.

(* ------------------------------------------------------------------ *)
(** ** Facts                                                            *)
(* ------------------------------------------------------------------ *)

Lemma blen_wire_body o r : blen (wire_body o r) = record_len r - CRC_SIZE.
Proof.
  unfold wire_body, record_len, BODY_FIXED_SIZE, CRC_SIZE, producer_id_len, option_len, str_len.
  destruct (rec_producer r), (rec_key r); autorewrite with blen; cbn [default from_option id];
    rewrite ?blen_nil; lia.
Qed.
Lemma record_len_ge r : 41 <= record_len r.
Proof.
  unfold record_len, BODY_FIXED_SIZE, CRC_SIZE, producer_id_len, option_len, str_len.
  pose proof (blen_nonneg (rec_value r)).
  destruct (rec_producer r) as [p|], (rec_key r) as [k|];
    try pose proof (blen_nonneg (as_bytes (producer_id p))); try pose proof (blen_nonneg k); lia.
Qed.
Lemma blen_wire_record `{!Crc32} o r : blen (wire_record o r) = 4 + record_len r.
Proof.
  unfold wire_record. rewrite !blen_app, !blen_be, blen_wire_body. unfold CRC_SIZE. lia.
Qed.
