(* ===== verification/Crc.v ===== *)
(** * Crc: the checksum of a record, and what it promises.

    The code calls [crc32fast::hash], a library: the models take it as the
    parameter [Crc32].  [Crc32Detects] is the documented property of a CRC that
    the log relies on: two inputs that differ in one byte have different
    checksums.  [ieee_crc32] is a concrete checksum with that property, the
    CRC-32 of IEEE 802.3 (reflected, initial value and final mask all ones), bit
    by bit; the models run on it. *)

From stdpp Require Import base numbers list strings gmap.
From Stdlib Require Import ZArith Lia.
From S2P Require Import Prelude Text Record.

Class Crc32Detects `{!Crc32} : Prop :=
  crc32_detects : forall p x y q, x <> y -> crc32 (p ++ x :: q) <> crc32 (p ++ y :: q).

(* ------------------------------------------------------------------ *)
(** ** CRC-32                                                           *)
(* ------------------------------------------------------------------ *)

Definition POLYNOMIAL : Z := 3988292384.
(** One bit through the shift register. *)
Definition crc_bit (s : Z) : Z :=
  if Z.odd s then Z.lxor (Z.shiftr s 1) POLYNOMIAL else Z.shiftr s 1.
Definition crc_byte (s : Z) (b : byte) : Z := Nat.iter 8 crc_bit (Z.lxor s (Z_of_byte b)).
Definition ieee_crc32 : Crc32 := fun b => Z.lxor (fold_left crc_byte b U32_MAX) U32_MAX.

(** The check value of the CRC catalogues. *)
Example ieee_crc32_check : ieee_crc32 (as_bytes "123456789") = 3421780262.
Proof. vm_compute. reflexivity. Qed.
Example ieee_crc32_empty : ieee_crc32 [] = 0.
Proof. vm_compute. reflexivity. Qed.

(* ------------------------------------------------------------------ *)
(** ** Its values are 32 bits                                           *)
(* ------------------------------------------------------------------ *)

Lemma u32_bits z : is_u32 z <-> 0 <= z /\ Z.log2 z < 32.
Proof.
  unfold in_range, U32_MAX. split.
  - intros [H0 Hz]. split; [done|]. destruct (decide (z = 0)) as [->|]; [done|].
    apply Z.log2_lt_pow2; lia.
  - intros [H0 Hz]. destruct (decide (z = 0)) as [->|]; [lia|].
    apply Z.log2_lt_pow2 in Hz; lia.
Qed.
Lemma lxor_u32 a b : is_u32 a -> is_u32 b -> is_u32 (Z.lxor a b).
Proof.
  rewrite !u32_bits. intros [? ?] [? ?]. split; [by apply Z.lxor_nonneg|].
  pose proof (Z.log2_lxor a b). lia.
Qed.
Lemma shiftr1_u32 s : is_u32 s -> 0 <= Z.shiftr s 1 <= 2147483647.
Proof.
  unfold in_range, U32_MAX. rewrite Z.shiftr_div_pow2 by done. change (2 ^ 1) with 2. intros.
  split; [apply Z.div_pos; lia|]. apply Z.lt_succ_r, Z.div_lt_upper_bound; lia.
Qed.
Lemma crc_bit_u32 s : is_u32 s -> is_u32 (crc_bit s).
Proof.
  intros Hs%shiftr1_u32. unfold crc_bit.
  destruct (Z.odd s); [apply lxor_u32|]; unfold POLYNOMIAL; range.
Qed.
Lemma byte_u32 b : is_u32 (Z_of_byte b).
Proof. pose proof (Z_of_byte_range b). range. Qed.
Lemma crc_bits_u32 n s : is_u32 s -> is_u32 (Nat.iter n crc_bit s).
Proof. intros. induction n as [|n IH]; [done|]. cbn. by apply crc_bit_u32. Qed.
Lemma crc_byte_u32 s b : is_u32 s -> is_u32 (crc_byte s b).
Proof. intros. apply crc_bits_u32, lxor_u32; [done|apply byte_u32]. Qed.
Lemma crc_bytes_u32 b s : is_u32 s -> is_u32 (fold_left crc_byte b s).
Proof. revert s. induction b as [|x b IH]; intros s Hs; [done|]. by apply IH, crc_byte_u32. Qed.
#[export] Hint Resolve lxor_u32 byte_u32 crc_byte_u32 crc_bits_u32 crc_bytes_u32 : crc.

Lemma ones_u32 : is_u32 U32_MAX.
Proof. range. Qed.
#[export] Hint Resolve ones_u32 : crc.

#[export] Instance ieee_crc32_ok : @Crc32Ok ieee_crc32.
Proof. intros b. unfold crc32, ieee_crc32. auto with crc. Qed.

(* ------------------------------------------------------------------ *)
(** ** It tells two inputs apart that differ in one byte                *)
(* ------------------------------------------------------------------ *)

Lemma lxor_cancel_r a b m : Z.lxor a m = Z.lxor b m -> a = b.
Proof.
  intros H. apply (f_equal (fun z => Z.lxor z m)) in H.
  by rewrite !Z.lxor_assoc, Z.lxor_nilpotent, !Z.lxor_0_r in H.
Qed.

(** The top bit of the result is the bit that was shifted out. *)
Lemma crc_bit_top s : is_u32 s -> Z.testbit (crc_bit s) 31 = Z.odd s.
Proof.
  intros Hs%shiftr1_u32.
  assert (Z.testbit (Z.shiftr s 1) 31 = false) as Ht.
  { destruct (decide (Z.shiftr s 1 = 0)) as [->|]; [done|].
    apply Z.bits_above_log2; [lia|]. apply Z.log2_lt_pow2; lia. }
  unfold crc_bit. destruct (Z.odd s); [|done]. by rewrite Z.lxor_spec, Ht.
Qed.
Lemma crc_bit_inj s t : is_u32 s -> is_u32 t -> crc_bit s = crc_bit t -> s = t.
Proof.
  intros Hs Ht Heq. pose proof (crc_bit_top s Hs) as Hos. rewrite Heq, crc_bit_top in Hos by done.
  unfold crc_bit in Heq. rewrite Hos in Heq.
  assert (Z.shiftr s 1 = Z.shiftr t 1) as Hsh
    by (destruct (Z.odd s); [by apply lxor_cancel_r in Heq|done]).
  rewrite <- !Z.div2_spec in Hsh. rewrite (Z.div2_odd s), (Z.div2_odd t), Hsh. congruence.
Qed.
Lemma crc_bits_inj n s t :
  is_u32 s -> is_u32 t -> Nat.iter n crc_bit s = Nat.iter n crc_bit t -> s = t.
Proof.
  intros Hs Ht. induction n as [|n IH]; [done|].
  rewrite !Nat.iter_succ. intros Heq%crc_bit_inj; auto with crc.
Qed.
Lemma crc_byte_inj s t b : is_u32 s -> is_u32 t -> crc_byte s b = crc_byte t b -> s = t.
Proof. intros Hs Ht Heq%crc_bits_inj; auto with crc. by apply lxor_cancel_r in Heq. Qed.
Lemma crc_bytes_inj b s t :
  is_u32 s -> is_u32 t -> fold_left crc_byte b s = fold_left crc_byte b t -> s = t.
Proof.
  revert s t. induction b as [|x b IH]; intros s t Hs Ht; [done|]. cbn [fold_left].
  intros Heq%IH; auto with crc. by apply crc_byte_inj in Heq.
Qed.
Lemma Z_of_byte_inj x y : Z_of_byte x = Z_of_byte y -> x = y.
Proof. intros H. by rewrite <- (byte_of_Z_of_byte x), H, byte_of_Z_of_byte. Qed.

#[export] Instance ieee_crc32_detects : @Crc32Detects ieee_crc32.
Proof.
  intros p x y q Hne Heq. apply Hne, Z_of_byte_inj. unfold crc32, ieee_crc32 in Heq.
  apply lxor_cancel_r in Heq. rewrite !fold_left_app in Heq. cbn [fold_left] in Heq.
  apply crc_bytes_inj in Heq; auto with crc.
  apply crc_bits_inj in Heq; auto 6 with crc.
  rewrite !(Z.lxor_comm (fold_left _ _ _)) in Heq. by apply lxor_cancel_r in Heq.
Qed.
