(* ===== verification/RecordFacts.v ===== *)
(** * RecordFacts: the record codec of [Record] against its layout. *)

From stdpp Require Import base numbers list strings gmap.
From Stdlib Require Import ZArith Lia.
From S2P Require Import Prelude Text Runs Record.

#[export] Hint Resolve from_utf8_as_bytes : codec.

Lemma validate_producer_id_ok {S} p (s : S) :
  producer_ok p -> validate_producer_id (producer_id p) s = (Ok tt, s).
Proof.
  intros [Hl [Hs _]]. apply reject_if_false. rewrite Hs.
  assert (is_empty (producer_id p) = false) as -> by (apply is_empty_false; lia).
  simpl. lia.
Qed.
Lemma validate_producer_id_inv {S} id (s s' : S) u :
  validate_producer_id id s = (Ok u, s') ->
  0 < str_len id <= 249 /\ forallb id_byte (as_bytes id) = true /\ s' = s.
Proof.
  intros H. apply reject_if_inv in H as [H ->].
  rewrite !orb_false_iff in H. destruct H as [[?%is_empty_false ?%Z.ltb_ge] ?%negb_false_iff].
  split_and?; [lia..|done|done].
Qed.
#[export] Hint Resolve validate_producer_id_ok : codec.

Lemma record_ok_lens r :
  record_ok r ->
  blen (rec_value r) <= MAX_RECORD_SIZE /\ option_len (rec_key r) <= MAX_RECORD_SIZE.
Proof.
  intros [Hl _]. unfold record_len, BODY_FIXED_SIZE, CRC_SIZE, producer_id_len, str_len in Hl.
  pose proof (blen_nonneg (rec_value r)). unfold option_len in *.
  destruct (rec_key r) as [k|]; [pose proof (blen_nonneg k)|];
    destruct (rec_producer r) as [p|]; try pose proof (blen_nonneg (as_bytes (producer_id p))); lia.
Qed.

Lemma build_run {S E} (m : SM bytes E unit) b (s : S) :
  m [] = (Ok tt, b) -> build m s = (Ok b, s).
Proof. unfold build. by intros ->. Qed.
Lemma build_inv {S E} (m : SM bytes E unit) b (s s' : S) :
  build m s = (Ok b, s') -> m [] = (Ok tt, b) /\ s' = s.
Proof. unfold build. destruct (m []) as [[[]| |] ?]; naive_solver. Qed.

Lemma encode_body_run o r b : record_ok r -> encode_body r o b = (Ok tt, b ++ wire_body o r).
Proof.
  intros Hr. pose proof (record_ok_lens r Hr) as [Hv Hk]. destruct Hr as (_ & ? & Hp).
  unfold MAX_RECORD_SIZE, encode_body, wire_body in *.
  destruct (rec_producer r) as [p|], (rec_key r) as [k|]; cbn [option_len default from_option id] in *;
    try (pose proof Hp as [[_ ?] _]); run_all; rewrite ?put_slice_run, <- ?app_assoc; done.
Qed.

Lemma storage_read_bytes_run n d r :
  blen d = n -> storage_read_bytes n (d ++ r) = (Ok d, r).
Proof. intros. unfold storage_read_bytes. run_all. by apply split_to_app. Qed.
#[export] Hint Resolve storage_read_bytes_run : codec.

(** The producer of a record, in front of the other lengths and behind them. *)
Definition wire_header (p : option Producer) : bytes :=
  match p with
  | Some p => be 4 (str_len (producer_id p)) ++ be 8 (producer_sequence p)
  | None => be 4 (-1) ++ be 8 0
  end.
Definition header_of (p : option Producer) : option (Z * Z) :=
  p ← p; Some (str_len (producer_id p), producer_sequence p).
Definition wire_id (p : option Producer) : bytes :=
  match p with Some p => as_bytes (producer_id p) | None => [] end.
Definition producer_fine (p : option Producer) : Prop :=
  match p with Some p => producer_ok p | None => True end.

Lemma decode_producer_header_run p rest :
  producer_fine p ->
  decode_producer_header RECORD_VERSION (wire_header p ++ rest) = (Ok (header_of p), rest).
Proof.
  intros Hp. unfold decode_producer_header, wire_header, header_of. rewrite Z.eqb_refl.
  destruct p as [p|]; rewrite <- !app_assoc; [destruct Hp as ([? ?] & _ & ?)|]; run_all; [|done].
  destruct (Z.eqb_spec (str_len (producer_id p)) (-1)); [lia|].
  destruct (Z.leb_spec 0 (str_len (producer_id p))); [done|lia].
Qed.

Lemma decode_producer_id_run p rest :
  producer_fine p -> decode_producer_id (header_of p) (wire_id p ++ rest) = (Ok p, rest).
Proof.
  destruct p as [p|]; [|done]. intros (? & Hb%forallb_id_is_str & _).
  unfold decode_producer_id, wire_id, header_of. cbn [mbind option_bind]. run_all. by destruct p.
Qed.

Definition wire_key_length (k : option bytes) : Z :=
  match k with Some k => blen k | None => -1 end.
Lemma wire_body_eq o r :
  wire_body o r =
  be 1 RECORD_VERSION ++ be 8 o ++ be 8 (rec_timestamp_ms r) ++ wire_header (rec_producer r) ++
  be 4 (wire_key_length (rec_key r)) ++ be 4 (blen (rec_value r)) ++ wire_id (rec_producer r) ++
  default [] (rec_key r) ++ rec_value r.
Proof. done. Qed.

Lemma decode_key_run k rest :
  option_len k <= MAX_RECORD_SIZE ->
  decode_key (wire_key_length k) (default [] k ++ rest) =
  (Ok k, rest).
Proof.
  destruct k as [k|]; [|done]. cbn [option_len default from_option id]. intros _.
  unfold decode_key, wire_key_length. pose proof (blen_nonneg k).
  destruct (Z.eqb_spec (blen k) (-1)); [lia|]. destruct (Z.leb_spec 0 (blen k)); [|lia].
  by run_all.
Qed.

Section crc.
Context `{!Crc32}.

Lemma encode_record_run {S} o r (s : S) :
  record_ok r -> encode_record r o s = (Ok (wire_record o r), s).
Proof.
  intros Hr. unfold encode_record. pose proof Hr as [Hl _]. fold (record_len r).
  change (CRC_SIZE + (BODY_FIXED_SIZE + producer_id_len (rec_producer r) +
    option_len (rec_key r) + blen (rec_value r))) with (record_len r).
  unfold MAX_RECORD_SIZE in *. run_all.
  erewrite bind_Ok by (apply build_run, (encode_body_run o r []), Hr).
  cbn [app]. apply build_run. run_all. rewrite put_slice_run. unfold wire_record.
  rewrite blen_wire_body, <- !app_assoc. unfold CRC_SIZE.
  by replace (4 + (record_len r - 4)) with (record_len r) by lia.
Qed.

(** A record that is encoded is within the limits. *)
Lemma encode_record_inv {S} o r b (s s' : S) :
  encode_record r o s = (Ok b, s') -> record_typed r ->
  record_ok r /\ b = wire_record o r /\ s' = s.
Proof.
  intros He Hr. pose proof He as Hrun. unfold encode_record in He.
  apply bind_inv in He as (u & s1 & [Hlen ->]%reject_if_inv & He).
  apply bind_inv in He as (body & s2 & [Hbody ->]%build_inv & _).
  assert (record_ok r) as Hok.
  { apply Z.ltb_ge in Hlen. destruct Hr as [Hts Hp].
    split; [done|]. split; [done|].
    unfold encode_body in Hbody. destruct (rec_producer r) as [p|]; [|done].
    run_inv0. match goal with H : validate_producer_id _ _ = _ |- _ =>
      apply validate_producer_id_inv in H as (? & ? & _) end.
    done. }
  split; [done|]. rewrite (encode_record_run o r s Hok) in Hrun. naive_solver.
Qed.

Lemma decode_record_wire `{!Crc32Ok} o r rest :
  record_ok r -> is_u64 o ->
  decode_record (wire_record o r ++ rest) = (Ok (Some (stored o r)), rest).
Proof.
  intros Hr Ho. pose proof (blen_wire_body o r) as Hb. pose proof (record_len_ge r).
  pose proof Hr as [Hl _]. unfold CRC_SIZE in *. unfold decode_record.
  erewrite bind_Ok by done. cbv beta. rewrite blen_app, blen_wire_record.
  pose proof (blen_nonneg rest). unfold LENGTH_SIZE.
  destruct (Z.ltb_spec (4 + record_len r + blen rest) 4); [lia|].
  replace (take (Z.to_nat 4) (wire_record o r ++ rest)) with (be 4 (record_len r)).
  2:{ unfold wire_record. rewrite <- app_assoc.
      replace (4 + blen (wire_body o r)) with (record_len r) by lia.
      symmetry. apply take_app_length'. by rewrite length_be. }
  unfold MAX_RECORD_SIZE, MIN_RECORD_SIZE, CRC_SIZE, V1_BODY_FIXED_SIZE in *.
  rewrite be_val_be_small by (change (256 ^ Z.of_nat 4) with 4294967296; lia).
  cbv zeta. run_all.
  destruct (Z.ltb_spec (4 + record_len r + blen rest) (4 + record_len r)); [lia|].
  unfold wire_record. rewrite <- !app_assoc.
  unfold advance. run_all. rewrite (app_assoc (be 4 (crc32 _))).
  erewrite bind_Ok by (apply split_to_app; rewrite blen_app, blen_be; lia).
  unfold on_frame, lift. erewrite bind_Ok; [reflexivity|]. f_equal.
  enough (decode_body ((be 4 (crc32 (wire_body o r)) ++ wire_body o r) ++ []) =
          (Ok (stored o r), [])) as Hf by (rewrite app_nil_r in Hf; by rewrite Hf).
  unfold decode_body. rewrite <- app_assoc. pose proof (crc32_range (wire_body o r)).
  run_all. erewrite bind_Ok by apply get_run. cbv beta.
  erewrite bind_Ok by (apply reject_if_false; by rewrite app_nil_r, Z.eqb_refl).
  cbv beta. rewrite (wire_body_eq o r), <- !app_assoc.
  pose proof (record_ok_lens r Hr) as [? ?]. unfold MAX_RECORD_SIZE in *.
  destruct Hr as (_ & ? & Hp). fold (producer_fine (rec_producer r)) in Hp.
  assert (-1 <= wire_key_length (rec_key r) <= I32_MAX).
  { unfold wire_key_length, option_len in *. destruct (rec_key r) as [k|];
      [pose proof (blen_nonneg k)|]; range. }
  run_all.
  erewrite bind_Ok by (by apply decode_producer_header_run). cbv beta. run_all.
  erewrite bind_Ok by (by apply decode_producer_id_run). cbv beta.
  erewrite bind_Ok by (by apply decode_key_run). cbv beta. run_all.
  by destruct r.
Qed.

(** A record whose last bytes are missing is waited for. *)
Lemma decode_record_incomplete o r p q :
  record_ok r -> wire_record o r = p ++ q -> q <> [] -> decode_record p = (Ok None, p).
Proof.
  intros [Hl _] Hpq Hq. pose proof (record_len_ge r). unfold decode_record, LENGTH_SIZE.
  erewrite bind_Ok by apply get_run. cbv beta zeta.
  destruct (Z.ltb_spec (blen p) 4) as [|Hp]; [done|].
  assert (blen p < 4 + record_len r).
  { pose proof (blen_wire_record o r) as Hw. rewrite Hpq, blen_app in Hw.
    pose proof (blen_nonneg q).
    destruct (decide (blen q = 0)) as [?%blen_zero_nil|]; [done|lia]. }
  replace (take (Z.to_nat 4) p) with (be 4 (record_len r)).
  2:{ transitivity (take (Z.to_nat 4) (wire_record o r)).
      - unfold wire_record. rewrite blen_wire_body. unfold CRC_SIZE.
        replace (4 + (record_len r - 4)) with (record_len r) by lia.
        symmetry. apply take_app_length'. by rewrite length_be.
      - rewrite Hpq. apply take_app_le. unfold blen in Hp. lia. }
  unfold MAX_RECORD_SIZE, MIN_RECORD_SIZE, CRC_SIZE, V1_BODY_FIXED_SIZE in *.
  rewrite be_val_be_small by (change (256 ^ Z.of_nat 4) with 4294967296; lia). run_all.
  destruct (Z.ltb_spec (blen p) (4 + record_len r)); [done|lia].
Qed.

Lemma wp_storage_read_bytes n b (Q : bytes -> bytes -> Prop) :
  0 <= n -> (forall d b', blen d = n -> blen b' = blen b - n -> Q d b') ->
  wp (storage_read_bytes n) Q any_err b.
Proof.
  intros Hn HQ. unfold storage_read_bytes. wp_step. wp_step. wp_step. wp_step; [done|].
  match goal with H : (_ <? _) = false |- _ => apply Z.ltb_ge in H end.
  apply wp_split_to; [lia|]. auto.
Qed.

Lemma wp_decode_body b :
  MIN_RECORD_SIZE <= blen b ->
  wp decode_body
    (fun r b' => b' = [] /\ is_u64 (sr_offset r) /\ is_u64 (sr_timestamp_ms r)) any_err b.
Proof.
  unfold MIN_RECORD_SIZE, CRC_SIZE, V1_BODY_FIXED_SIZE. intros Hb. unfold decode_body.
  do 3 wp_step. unfold wp at 1, get. do 2 wp_step; [done|]. do 4 wp_step; [done|]. do 5 wp_step.
  apply (wp_mono _ (fun h _ => match h with Some (l, _) => 0 <= l | None => True end) _ any_err);
    [|intros h bh Hh|done].
  { unfold decode_producer_header. wp_step; [|by wp_step]. do 4 wp_step; [done|].
    match goal with H : (_ <? _) = false |- _ => apply Z.ltb_ge in H end. do 4 wp_step.
    wp_step; [by wp_step|]. wp_step; [|done]. wp_step. by apply Z.leb_le. }
  do 4 wp_step; [done|].
  match goal with H : (_ <? _) = false |- _ => apply Z.ltb_ge in H end. do 5 wp_step.
  apply (wp_mono _ (fun _ _ => True) _ any_err); [|intros p bp _|done].
  { destruct h as [[l q]|]; [|done]. unfold decode_producer_id. wp_step.
    apply wp_storage_read_bytes; [done|]. intros. do 2 wp_step; [done|]. by wp_step. }
  wp_step. apply (wp_mono _ (fun _ _ => True) _ any_err); [|intros k bk _|done].
  { unfold decode_key. wp_step; [done|]. wp_step; [|done]. wp_step.
    apply wp_storage_read_bytes; [by apply Z.leb_le|]. intros. by wp_step. }
  wp_step. apply wp_storage_read_bytes; [by match goal with H : is_u32 _ |- _ => destruct H end|].
  intros. do 4 wp_step; [done|]. wp_step. split_and?; try done. apply blen_zero_nil.
  match goal with H : negb _ = false |- _ => apply negb_false_iff, Z.eqb_eq in H end. lia.
Qed.

(** Any input: no panic; what is accepted takes at least 33 bytes. *)
Lemma wp_decode_record b :
  wp decode_record
    (fun o b' => match o with
                 | None => b' = b
                 | Some r => is_u64 (sr_offset r) /\ is_u64 (sr_timestamp_ms r) /\
                     exists d, b = d ++ b' /\ LENGTH_SIZE + MIN_RECORD_SIZE <= blen d
                               <= LENGTH_SIZE + MAX_RECORD_SIZE
                 end) any_err b.
Proof.
  unfold decode_record. wp_step. unfold wp at 1, get. wp_step; [done|].
  wp_step. wp_step; [done|]. wp_step. wp_step; [done|]. wp_step; [done|].
  repeat match goal with H : (_ <? _) = false |- _ => apply Z.ltb_ge in H end.
  set (n := be_val (take (Z.to_nat LENGTH_SIZE) b)) in *.
  unfold LENGTH_SIZE, MIN_RECORD_SIZE, CRC_SIZE, V1_BODY_FIXED_SIZE in *.
  wp_step. apply wp_advance; [lia|]. intros d b1 Hb Hd Hb1.
  wp_step. apply wp_split_to; [lia|]. intros f b2 Hf Hlf Hb2.
  wp_step. unfold on_frame, lift, wp at 1.
  assert (wp decode_body (fun r b' => b' = [] /\ is_u64 (sr_offset r) /\
    is_u64 (sr_timestamp_ms r)) any_err f) as Hwp.
  { apply wp_decode_body. unfold MIN_RECORD_SIZE, CRC_SIZE, V1_BODY_FIXED_SIZE. lia. }
  unfold wp in Hwp. destruct (decode_body f) as [[r|e|] bf]; cbn [fst]; [|done..].
  destruct Hwp as (_ & ? & ?). wp_step. split_and?; try done. exists (d ++ f).
  subst b b1. rewrite blen_app, app_assoc. split; [done|lia].
Qed.
End crc.
