(* ===== verification/Log.v ===== *)
(** * Log: the partition log of [crates/storage].

    A partition directory is a finite map from file names to contents.  The
    methods of [PartitionLog] run on the directory and the in-memory log
    ([Part]); [discover_segments], [recover_segment] and [open] run on the
    directory alone.  Errors of the file system are those the code can cause
    itself: creating a file that exists, opening or removing one that does not. *)

From stdpp Require Import base numbers list strings gmap sorting.
From Stdlib Require Import ZArith Lia.
From S2P Require Import Prelude Text Files Record.

(* ------------------------------------------------------------------ *)
(** ** File names and directories                                       *)
(* ------------------------------------------------------------------ *)

Abbreviation producers := (gmap string (Z * Z)).

Definition log_name (base : Z) : string := of_bytes (as_bytes (pad20 base) ++ as_bytes ".log").
Definition index_path (log_path : string) : string := with_extension log_path "idx".

Section files.
Abbreviation F A := (SM Dir StorageError A).

(** [OpenOptions::new().write(true).create_new(true)] *)
Definition create_new (name : string) : F unit :=
  d <- get ;;
  match d !! name with Some _ => throw Io | None => put (<[name := []]> d) end.
(** [OpenOptions::new().read(true).append(true)] and its [write_all]. *)
Definition open_append (name : string) : F string :=
  d <- get ;;
  match d !! name with Some _ => ret name | None => throw Io end.
Definition write_all (file : string) (data : bytes) : F unit :=
  modify (alter (fun c => c ++ data) file).
Definition read_file (name : string) : F bytes := d <- get ;; ok_or (d !! name) Io.
Definition remove_file (name : string) : F unit :=
  d <- get ;;
  match d !! name with Some _ => put (delete name d) | None => throw Io end.
(** [File::create]: an empty file, whether it existed or not. *)
Definition create_file (name : string) : F unit := modify (<[name := []]>).
Definition set_len (name : string) (len : Z) : F unit :=
  d <- get ;;
  match d !! name with
  | Some c => put (<[name := take (Z.to_nat len) c]> d)
  | None => throw Io
  end.
End files.

(* ------------------------------------------------------------------ *)
(** ** Segments                                                         *)
(* ------------------------------------------------------------------ *)

Record IndexEntry := { ie_offset : Z; ie_position : Z }.
Record SegmentMetadata := {
  sg_base_offset : Z;
  sg_path : string;
  sg_len : Z;
  sg_index : list IndexEntry
}.
Definition segment_is_empty (s : SegmentMetadata) : bool := sg_len s =? 0.

Definition encode_index_entry (e : IndexEntry) : bytes :=
  be 8 (ie_offset e) ++ be 8 (ie_position e).

Definition create_segment (base_offset : Z) : SM Dir StorageError SegmentMetadata :=
  let path := log_name base_offset in
  create_new path ;;;
  create_new (index_path path) ;;;
  ret {| sg_base_offset := base_offset; sg_path := path; sg_len := 0; sg_index := [] |}.

Definition rewrite_index (segment : SegmentMetadata) : SM Dir StorageError unit :=
  let path := index_path (sg_path segment) in
  create_file path ;;;
  for_each (sg_index segment) (fun e => write_all path (encode_index_entry e)).

(** One directory entry in [discover_segments]. *)
Definition segment_entry (entry : string * bytes)
  : outcome StorageError (option SegmentMetadata) :=
  let '(path, contents) := entry in
  if negb (bool_decide (extension path = Some (as_bytes "log"))) then Ok None
  else
    match from_utf8 (file_stem path) with
    | None => Err InvalidSegmentName
    | Some stem =>
        if negb (str_len stem =? 20) || negb (forallb is_ascii_digit (as_bytes stem))
        then Err InvalidSegmentName
        else
          match parse_uint U64_MAX stem with
          | None => Err InvalidSegmentName
          | Some base =>
              Ok (Some {| sg_base_offset := base; sg_path := path; sg_len := blen contents;
                          sg_index := [] |})
          end
    end.
Fixpoint segment_entries (entries : list (string * bytes))
  : outcome StorageError (list SegmentMetadata) :=
  match entries with
  | [] => Ok []
  | e :: es =>
      obind (segment_entry e) (fun s =>
      obind (segment_entries es) (fun ss =>
      Ok (match s with Some s => s :: ss | None => ss end)))
  end.
Definition base_le (s t : SegmentMetadata) : Prop := sg_base_offset s <= sg_base_offset t.
#[global] Instance base_le_dec : RelDecision base_le.
Proof. intros s t. unfold base_le. apply _. Defined.

Definition discover_segments : SM Dir StorageError (list SegmentMetadata) :=
  d <- get ;;
  segments <- lift (segment_entries (map_to_list d)) ;;
  ret (merge_sort base_le segments).

(* ------------------------------------------------------------------ *)
(** ** Recovery                                                         *)
(* ------------------------------------------------------------------ *)

(** The sequence number must continue the producer's last one. *)
Definition check_sequence {S} (state : producers) (p : Producer) : SM S StorageError unit :=
  match state !! producer_id p with
  | Some (sequence, _) =>
      reject_if (negb (producer_sequence p =? saturating_add sequence 1))
        (UnexpectedProducerSequence (producer_id p) (saturating_add sequence 1)
           (producer_sequence p))
  | None =>
      reject_if (negb (producer_sequence p =? 0))
        (UnexpectedProducerSequence (producer_id p) 0 (producer_sequence p))
  end.

(** [index.last().is_none_or(|entry| position - entry.position >= interval)] *)
Definition should_index (index : list IndexEntry) (position interval : Z) : bool :=
  match last index with
  | None => true
  | Some entry => interval <=? saturating_sub position (ie_position entry)
  end.

Section recovery.
Context `{!Crc32} (interval : Z).

(** The loop of [recover_segment]; [fuel] bounds the records of the file. *)
Fixpoint recover_loop (fuel : nat) (total_len : Z) (buffer : bytes) (next_offset : Z)
    (index : list IndexEntry) (state : producers)
  : outcome StorageError (Z * Z * list IndexEntry * producers) :=
  match fuel with
  | O => Panic
  | Datatypes.S fuel =>
      let position := total_len - blen buffer in
      match decode_record buffer with
      | (Err e, _) => Err e
      | (Panic, _) => Panic
      | (Ok None, buffer) => Ok (next_offset, total_len - blen buffer, index, state)
      | (Ok (Some record), buffer) =>
          if negb (sr_offset record =? next_offset) then
            Err (UnexpectedOffset next_offset (sr_offset record))
          else
            let checked :=
              match sr_producer record with
              | None => Ok state
              | Some p =>
                  fst ((validate_producer_id (producer_id p) ;;;
                        check_sequence state p ;;;
                        ret (<[producer_id p := (producer_sequence p, sr_offset record)]> state)) tt)
              end in
            obind checked (fun state =>
            let index :=
              if should_index index position interval
              then index ++ [{| ie_offset := sr_offset record; ie_position := position |}]
              else index in
            match checked_add next_offset 1 with
            | None => Err OffsetOverflow
            | Some next_offset => recover_loop fuel total_len buffer next_offset index state
            end)
      end
  end.

Definition recover_segment (path : string) (next_offset : Z) (state : producers)
  : SM Dir StorageError (Z * Z * list IndexEntry * producers) :=
  contents <- read_file path ;;
  lift (recover_loop (Datatypes.S (length contents)) (blen contents) contents next_offset [] state).
End recovery.

(* ------------------------------------------------------------------ *)
(** ** The log                                                          *)
(* ------------------------------------------------------------------ *)

Record PartitionLog := {
  lg_next_offset : Z;
  lg_max_segment_bytes : Z;
  lg_index_interval_bytes : Z;
  lg_segments : list SegmentMetadata;
  lg_active_file : string;
  lg_active_index_file : string;
  lg_producer_state : producers
}.

(** The state a method of [PartitionLog] works on. *)
Record Part := { pt_dir : Dir; pt_log : PartitionLog }.

Abbreviation log A := (SM Part StorageError A).

Definition on_dir {A} (m : SM Dir StorageError A) : log A :=
  fun p => let '(o, d) := m (pt_dir p) in (o, {| pt_dir := d; pt_log := pt_log p |}).
Definition log_get : log PartitionLog := gets pt_log.
Definition log_put (l : PartitionLog) : log unit :=
  modify (fun p => {| pt_dir := pt_dir p; pt_log := l |}).

Definition set_segments (l : PartitionLog) (segments : list SegmentMetadata) : PartitionLog :=
  {| lg_next_offset := lg_next_offset l; lg_max_segment_bytes := lg_max_segment_bytes l;
     lg_index_interval_bytes := lg_index_interval_bytes l; lg_segments := segments;
     lg_active_file := lg_active_file l; lg_active_index_file := lg_active_index_file l;
     lg_producer_state := lg_producer_state l |}.
Definition set_files (l : PartitionLog) (file index_file : string) : PartitionLog :=
  {| lg_next_offset := lg_next_offset l; lg_max_segment_bytes := lg_max_segment_bytes l;
     lg_index_interval_bytes := lg_index_interval_bytes l; lg_segments := lg_segments l;
     lg_active_file := file; lg_active_index_file := index_file;
     lg_producer_state := lg_producer_state l |}.
Definition set_next_offset (l : PartitionLog) (next_offset : Z) : PartitionLog :=
  {| lg_next_offset := next_offset; lg_max_segment_bytes := lg_max_segment_bytes l;
     lg_index_interval_bytes := lg_index_interval_bytes l; lg_segments := lg_segments l;
     lg_active_file := lg_active_file l; lg_active_index_file := lg_active_index_file l;
     lg_producer_state := lg_producer_state l |}.
Definition set_producer_state (l : PartitionLog) (state : producers) : PartitionLog :=
  {| lg_next_offset := lg_next_offset l; lg_max_segment_bytes := lg_max_segment_bytes l;
     lg_index_interval_bytes := lg_index_interval_bytes l; lg_segments := lg_segments l;
     lg_active_file := lg_active_file l; lg_active_index_file := lg_active_index_file l;
     lg_producer_state := state |}.

Section log.
Context `{!Crc32}.

(** The loop over the discovered segments in [open]. *)
Fixpoint open_segments (interval : Z) (segments : list SegmentMetadata) (next_offset : Z)
    (state : producers) : SM Dir StorageError (list SegmentMetadata * Z * producers) :=
  match segments with
  | [] => ret ([], next_offset, state)
  | segment :: rest =>
      reject_if (negb (sg_base_offset segment =? next_offset))
        (UnexpectedSegmentBase next_offset (sg_base_offset segment)) ;;;
      let is_active := bool_decide (rest = []) in
      let* (recovered_offset, valid_len, recovered_index, state) :=
        recover_segment interval (sg_path segment) next_offset state in
      (if valid_len <? sg_len segment then
         reject_if (negb is_active) (IncompleteClosedSegment (sg_base_offset segment)) ;;;
         set_len (sg_path segment) valid_len
       else ret tt) ;;;
      let segment :=
        {| sg_base_offset := sg_base_offset segment; sg_path := sg_path segment;
           sg_len := if valid_len <? sg_len segment then valid_len else sg_len segment;
           sg_index := recovered_index |} in
      rewrite_index segment ;;;
      let* (rest, next_offset, state) :=
        open_segments interval rest recovered_offset state in
      ret (segment :: rest, next_offset, state)
  end.

Definition open (topic : string) (max_segment_bytes index_interval_bytes : Z)
  : SM Dir StorageError PartitionLog :=
  storage_validate_topic topic ;;;
  reject_if (max_segment_bytes =? 0) InvalidSegmentLimit ;;;
  reject_if (index_interval_bytes =? 0) InvalidIndexInterval ;;;
  segments <- discover_segments ;;
  segments <- (if bool_decide (segments = []) then s <- create_segment 0 ;; ret [s]
               else ret segments) ;;
  let* (segments, next_offset, state) :=
    open_segments index_interval_bytes segments 0 ∅ in
  active <- ok_or (last segments) MissingActiveSegment ;;
  active_file <- open_append (sg_path active) ;;
  active_index_file <- open_append (index_path (sg_path active)) ;;
  ret {| lg_next_offset := next_offset; lg_max_segment_bytes := max_segment_bytes;
         lg_index_interval_bytes := index_interval_bytes; lg_segments := segments;
         lg_active_file := active_file; lg_active_index_file := active_index_file;
         lg_producer_state := state |}.

Definition rotate : log unit :=
  l <- log_get ;;
  segment <- on_dir (create_segment (lg_next_offset l)) ;;
  active_file <- on_dir (open_append (sg_path segment)) ;;
  active_index_file <- on_dir (open_append (index_path (sg_path segment))) ;;
  log_put (set_segments (set_files l active_file active_index_file)
                        (lg_segments l ++ [segment])).

(** Replace the active (last) segment. *)
Definition set_active (segments : list SegmentMetadata) (s : SegmentMetadata) :=
  removelast segments ++ [s].

(** The end of [append]: the encoded record goes to the active segment. *)
Definition write_encoded (record : LogRecord) (offset : Z) (encoded : bytes) : log Z :=
  l <- log_get ;;
  active <- ok_or (last (lg_segments l)) MissingActiveSegment ;;
  let position := sg_len active in
  let should := should_index (sg_index active) position (lg_index_interval_bytes l) in
  let entry := {| ie_offset := offset; ie_position := position |} in
  (if should then on_dir (write_all (lg_active_index_file l) (encode_index_entry entry))
   else ret tt) ;;;
  on_dir (write_all (lg_active_file l) encoded) ;;;
  len <- ok_or (checked_add (sg_len active) (blen encoded)) RecordTooLarge ;;
  let active :=
    {| sg_base_offset := sg_base_offset active; sg_path := sg_path active; sg_len := len;
       sg_index := if should then sg_index active ++ [entry] else sg_index active |} in
  log_put (set_segments l (set_active (lg_segments l) active)) ;;;
  l <- log_get ;;
  next_offset <- ok_or (checked_add (lg_next_offset l) 1) OffsetOverflow ;;
  log_put (set_next_offset l next_offset) ;;;
  match rec_producer record with
  | Some p =>
      l <- log_get ;;
      log_put (set_producer_state l
        (<[producer_id p := (producer_sequence p, offset)]> (lg_producer_state l)))
  | None => ret tt
  end ;;;
  ret offset.

(** The part of [append] after the producer checks. *)
Definition append_encoded (record : LogRecord) : log Z :=
  l <- log_get ;;
  let offset := lg_next_offset l in
  encoded <- encode_record record offset ;;
  active <- ok_or (last (lg_segments l)) MissingActiveSegment ;;
  (if negb (segment_is_empty active) &&
      (lg_max_segment_bytes l <? saturating_add (sg_len active) (blen encoded))
   then rotate else ret tt) ;;;
  write_encoded record offset encoded.

Definition append (record : LogRecord) : log Z :=
  match rec_producer record with
  | None => append_encoded record
  | Some p =>
      validate_producer_id (producer_id p) ;;;
      l <- log_get ;;
      match lg_producer_state l !! producer_id p with
      | Some (sequence, offset) =>
          if sequence =? producer_sequence p then ret offset
          else check_sequence (lg_producer_state l) p ;;; append_encoded record
      | None => check_sequence (lg_producer_state l) p ;;; append_encoded record
      end
  end.

(** The decoding loop of [read] on one segment: the records and bytes so
    far, and whether the limit ended the read. *)
Fixpoint read_loop (fuel : nat) (buffer : bytes) (offset max_bytes : Z)
    (records : list StoredRecord) (bytes_read : Z)
  : outcome StorageError (bool * list StoredRecord * Z) :=
  match fuel with
  | O => Panic
  | Datatypes.S fuel =>
      if bool_decide (buffer = []) then Ok (false, records, bytes_read)
      else
        let before := blen buffer in
        match decode_record buffer with
        | (Err e, _) => Err e
        | (Panic, _) => Panic
        | (Ok None, _) => Err InvalidRecord
        | (Ok (Some record), buffer) =>
            let encoded_size := before - blen buffer in
            if sr_offset record <? offset then
              read_loop fuel buffer offset max_bytes records bytes_read
            else if negb (bool_decide (records = [])) &&
                    (max_bytes <? saturating_add bytes_read encoded_size)
            then Ok (true, records, bytes_read)
            else read_loop fuel buffer offset max_bytes (records ++ [record])
                           (saturating_add bytes_read encoded_size)
        end
  end.

(** [slice::partition_point]: the length of the prefix that satisfies [p]. *)
Fixpoint partition_point {A} (p : A -> bool) (l : list A) : nat :=
  match l with
  | [] => O
  | x :: l' => if p x then Datatypes.S (partition_point p l') else O
  end.
Definition seek_position (index : list IndexEntry) (offset : Z) : Z :=
  match partition_point (fun e => ie_offset e <=? offset) index with
  | O => 0
  | Datatypes.S i => default 0 (ie_position <$> index !! i)
  end.

Fixpoint read_segments (dir : Dir) (segments : list SegmentMetadata) (offset max_bytes : Z)
    (records : list StoredRecord) (bytes_read : Z) : outcome StorageError (list StoredRecord) :=
  match segments with
  | [] => Ok records
  | segment :: rest =>
      let skip := match rest with
                  | next :: _ => sg_base_offset next <=? offset
                  | [] => false
                  end in
      if skip then read_segments dir rest offset max_bytes records bytes_read
      else
        match dir !! sg_path segment with
        | None => Err Io
        | Some file =>
            let contents := drop (Z.to_nat (seek_position (sg_index segment) offset)) file in
            match read_loop (Datatypes.S (length contents)) contents offset max_bytes
                            records bytes_read with
            | Ok (true, records, _) => Ok records
            | Ok (false, records, bytes_read) =>
                read_segments dir rest offset max_bytes records bytes_read
            | Err e => Err e
            | Panic => Panic
            end
        end
  end.

Definition read (offset max_bytes : Z) : log (list StoredRecord) :=
  reject_if (max_bytes =? 0) InvalidReadLimit ;;;
  p <- get ;;
  lift (read_segments (pt_dir p) (lg_segments (pt_log p)) offset max_bytes [] 0).

Definition append_replica (offset : Z) (record : LogRecord) : log Z :=
  l <- log_get ;;
  if offset <? lg_next_offset l then
    records <- read offset MAX_RECORD_SIZE ;;
    existing <- ok_or (List.find (fun existing => sr_offset existing =? offset) records)
                      (ReplicaDiverged offset) ;;
    if (sr_timestamp_ms existing =? rec_timestamp_ms record) &&
       bool_decide (sr_key existing = rec_key record) &&
       bool_decide (sr_value existing = rec_value record)
    then ret offset
    else throw (ReplicaDiverged offset)
  else
    reject_if (negb (offset =? lg_next_offset l)) (UnexpectedOffset (lg_next_offset l) offset) ;;;
    append record.

(** The record that [truncate_to] appends again. *)
Definition record_of_stored (s : StoredRecord) : LogRecord :=
  {| rec_key := sr_key s; rec_value := sr_value s; rec_timestamp_ms := sr_timestamp_ms s;
     rec_producer := sr_producer s |}.

Definition truncate_to (offset : Z) : log unit :=
  l <- log_get ;;
  if lg_next_offset l <? offset then throw (UnexpectedOffset (lg_next_offset l) offset)
  else if offset =? lg_next_offset l then ret tt
  else
    records <- read 0 U64_MAX ;;
    let retained := filter (fun r => sr_offset r < offset) records in
    for_each (lg_segments l) (fun segment =>
      on_dir (remove_file (index_path (sg_path segment))) ;;;
      on_dir (remove_file (sg_path segment))) ;;;
    segment <- on_dir (create_segment 0) ;;
    active_file <- on_dir (open_append (sg_path segment)) ;;
    active_index_file <- on_dir (open_append (index_path (sg_path segment))) ;;
    log_put (set_producer_state (set_next_offset
               (set_segments (set_files l active_file active_index_file) [segment]) 0) ∅) ;;;
    for_each retained (fun stored => _o <- append (record_of_stored stored) ;; ret tt).

(** The file that is written to; the directory of the partition has no name
    in itself. *)
Definition active_path (l : PartitionLog) : string :=
  default EmptyString (sg_path <$> last (lg_segments l)).
Definition log_size_bytes (l : PartitionLog) : Z :=
  foldr (fun s acc => sg_len s + acc) 0 (lg_segments l).
Definition low_watermark (l : PartitionLog) : Z :=
  match lg_segments l with s :: _ => sg_base_offset s | [] => lg_next_offset l end.

(** The loop of [apply_retention] while more than one segment is left.
    [max_age]: which files have reached the age limit, if there is one. *)
Fixpoint retention_loop (max_bytes : option Z) (max_age : option (string -> bool))
    (segments : list SegmentMetadata) (total_bytes removed : Z) : log Z :=
  match segments with
  | segment :: ((_ :: _) as rest) =>
      let over_size := match max_bytes with Some limit => limit <? total_bytes | None => false end in
      expired <-
        match max_age with
        | Some reached => _c <- on_dir (read_file (sg_path segment)) ;; ret (reached (sg_path segment))
        | None => ret false
        end ;;
      if negb over_size && negb expired then ret removed
      else
        on_dir (remove_file (index_path (sg_path segment))) ;;;
        on_dir (remove_file (sg_path segment)) ;;;
        l <- log_get ;;
        log_put (set_segments l rest) ;;;
        retention_loop max_bytes max_age rest (saturating_sub total_bytes (sg_len segment))
                       (removed + 1)
  | _ => ret removed
  end.
Definition apply_retention (max_bytes : option Z) (max_age : option (string -> bool)) : log Z :=
  l <- log_get ;;
  retention_loop max_bytes max_age (lg_segments l) (log_size_bytes l) 0.
End log.
