(* ===== verification/LogRep.v ===== *)
(** * LogRep: the abstract state of a partition log and its representation.

    A log is a sequence of chunks (base offset and records), one per segment
    file, and the last sequence number of each producer.  [part_of] gives the
    directory and the [PartitionLog] that represent it, byte for byte. *)

From stdpp Require Import base numbers list strings gmap sorting.
From Stdlib Require Import ZArith Lia.
From S2P Require Import Prelude Text Files Runs Record RecordFacts Log.

Abbreviation chunk := (Z * list LogRecord)%type.

Record ALog := { al_chunks : list chunk; al_producers : producers }.

(** The settings of an open log. *)
Record Config := { cf_max_segment_bytes : Z; cf_index_interval_bytes : Z }.
Definition config_ok (c : Config) : Prop :=
  0 < cf_max_segment_bytes c < U64_MAX /\ 0 < cf_index_interval_bytes c <= U64_MAX.

Definition clen (rs : list LogRecord) : Z := Z.of_nat (length rs).

(** The records with their offsets. *)
Fixpoint number (o : Z) (rs : list LogRecord) : list (Z * LogRecord) :=
  match rs with
  | [] => []
  | r :: rs => (o, r) :: number (o + 1) rs
  end.

Definition flat (cs : list chunk) : list LogRecord := cs ≫= snd.
Definition low (cs : list chunk) : Z := match cs with (b, _) :: _ => b | [] => 0 end.
Definition next (cs : list chunk) : Z := low cs + clen (flat cs).

Section rep.
Context `{!Crc32}.

Fixpoint chunk_bytes (o : Z) (rs : list LogRecord) : bytes :=
  match rs with
  | [] => []
  | r :: rs => wire_record o r ++ chunk_bytes (o + 1) rs
  end.

Definition add_entry (interval : Z) (index : list IndexEntry) (o pos : Z) : list IndexEntry :=
  if should_index index pos interval
  then index ++ [{| ie_offset := o; ie_position := pos |}] else index.
Fixpoint index_from (interval o pos : Z) (rs : list LogRecord) (index : list IndexEntry)
  : list IndexEntry :=
  match rs with
  | [] => index
  | r :: rs => index_from interval (o + 1) (pos + (4 + record_len r)) rs
                          (add_entry interval index o pos)
  end.
Definition chunk_index (interval : Z) (c : chunk) : list IndexEntry :=
  index_from interval c.1 0 c.2 [].

Definition chunk_file (c : chunk) : bytes := chunk_bytes c.1 c.2.
Definition segment_of (cf : Config) (c : chunk) : SegmentMetadata :=
  {| sg_base_offset := c.1; sg_path := log_name c.1; sg_len := blen (chunk_file c);
     sg_index := chunk_index (cf_index_interval_bytes cf) c |}.
Definition idx_name (base : Z) : string := index_path (log_name base).
Definition index_file (cf : Config) (c : chunk) : bytes :=
  chunk_index (cf_index_interval_bytes cf) c ≫= encode_index_entry.

Fixpoint dir_of (cf : Config) (cs : list chunk) : Dir :=
  match cs with
  | [] => ∅
  | c :: cs => <[log_name c.1 := chunk_file c]>
               (<[idx_name c.1 := index_file cf c]> (dir_of cf cs))
  end.
Definition active_base (cs : list chunk) : Z := default 0 (fst <$> last cs).
Definition log_of (cf : Config) (a : ALog) : PartitionLog :=
  {| lg_next_offset := next (al_chunks a);
     lg_max_segment_bytes := cf_max_segment_bytes cf;
     lg_index_interval_bytes := cf_index_interval_bytes cf;
     lg_segments := segment_of cf <$> al_chunks a;
     lg_active_file := log_name (active_base (al_chunks a));
     lg_active_index_file := idx_name (active_base (al_chunks a));
     lg_producer_state := al_producers a |}.
Definition part_of (cf : Config) (a : ALog) : Part :=
  {| pt_dir := dir_of cf (al_chunks a); pt_log := log_of cf a |}.

(** Appending to the abstract log: to the last chunk, or to a new one when
    the last is not empty and the record does not fit. *)
Definition rotates (cf : Config) (c : chunk) (r : LogRecord) : bool :=
  negb (bool_decide (c.2 = [])) &&
  (cf_max_segment_bytes cf <? blen (chunk_file c) + (4 + record_len r)).
Definition push (cf : Config) (cs : list chunk) (r : LogRecord) : list chunk :=
  match last cs with
  | Some c => if rotates cf c r then cs ++ [(next cs, [r])]
              else removelast cs ++ [(c.1, c.2 ++ [r])]
  | None => cs
  end.
Definition record_producer (st : producers) (o : Z) (r : LogRecord) : producers :=
  match rec_producer r with
  | Some p => <[producer_id p := (producer_sequence p, o)]> st
  | None => st
  end.
Definition a_push (cf : Config) (a : ALog) (r : LogRecord) : ALog :=
  {| al_chunks := push cf (al_chunks a) r;
     al_producers := record_producer (al_producers a) (next (al_chunks a)) r |}.

(** The specification of [append]: a repeated number of a producer gives the
    offset of the first attempt again and changes nothing; a number out of
    sequence or a record out of limits is refused and changes nothing; any
    other record gets the next offset. *)
Definition a_append (cf : Config) (a : ALog) (r : LogRecord) : outcome StorageError Z * ALog :=
  let accept := if MAX_RECORD_SIZE <? record_len r then (Err RecordTooLarge, a)
                else (Ok (next (al_chunks a)), a_push cf a r) in
  match rec_producer r with
  | None => accept
  | Some p =>
      if is_empty (producer_id p) || (249 <? str_len (producer_id p)) ||
         negb (forallb id_byte (as_bytes (producer_id p)))
      then (Err SInvalidProducerId, a)
      else
        let refuse expected :=
          (Err (UnexpectedProducerSequence (producer_id p) expected (producer_sequence p)), a) in
        match al_producers a !! producer_id p with
        | Some (s, o) =>
            if s =? producer_sequence p then (Ok o, a)
            else if producer_sequence p =? s + 1 then accept
            else refuse (saturating_add s 1)
        | None => if producer_sequence p =? 0 then accept else refuse 0
        end
  end.
End rep.

(** The specification of [read]: the records from an offset on, up to the
    first that does not fit the limit; the first is always taken. *)
Fixpoint budget (max_bytes : Z) (started : bool) (used : Z) (rs : list (Z * LogRecord))
  : list StoredRecord :=
  match rs with
  | [] => []
  | (o, r) :: rs =>
      let total := saturating_add used (4 + record_len r) in
      if started && (max_bytes <? total) then []
      else stored o r :: budget max_bytes true total rs
  end.
Definition from_offset (offset : Z) (cs : list chunk) : list (Z * LogRecord) :=
  filter (fun x => offset <= x.1) (number (low cs) (flat cs)).
Definition a_read (a : ALog) (offset max_bytes : Z) : outcome StorageError (list StoredRecord) :=
  if max_bytes =? 0 then Err InvalidReadLimit
  else Ok (budget max_bytes false 0 (from_offset offset (al_chunks a))).

(** The record at an offset. *)
Definition record_at (cs : list chunk) (offset : Z) : option LogRecord :=
  if offset <? low cs then None else flat cs !! Z.to_nat (offset - low cs).

Section more_spec.
Context `{!Crc32}.

(** The specification of [append_replica]: a record the log has is accepted
    when its timestamp, key and value agree; the next record is appended. *)
Definition a_append_replica (cf : Config) (a : ALog) (offset : Z) (r : LogRecord)
  : outcome StorageError Z * ALog :=
  if offset <? next (al_chunks a) then
    match record_at (al_chunks a) offset with
    | Some r' =>
        if (rec_timestamp_ms r' =? rec_timestamp_ms r) &&
           bool_decide (rec_key r' = rec_key r) && bool_decide (rec_value r' = rec_value r)
        then (Ok offset, a) else (Err (ReplicaDiverged offset), a)
    | None => (Err (ReplicaDiverged offset), a)
    end
  else if offset =? next (al_chunks a) then a_append cf a r
  else (Err (UnexpectedOffset (next (al_chunks a)) offset), a).

(** The specification of [apply_retention]: whole segments from the front,
    while the log is over its size or the segment is old enough; never the
    last one. *)
Fixpoint retain (max_bytes : option Z) (max_age : option (string -> bool)) (cs : list chunk)
    (total : Z) : list chunk :=
  match cs with
  | c :: ((_ :: _) as rest) =>
      let over := match max_bytes with Some limit => limit <? total | None => false end in
      let old := match max_age with Some reached => reached (log_name c.1) | None => false end in
      if over || old
      then retain max_bytes max_age rest (saturating_sub total (blen (chunk_file c)))
      else cs
  | _ => cs
  end.
Definition a_size (cs : list chunk) : Z :=
  foldr (fun c n => blen (chunk_file c) + n) 0 cs.
Definition a_retain (max_bytes : option Z) (max_age : option (string -> bool)) (a : ALog) : ALog :=
  {| al_chunks := retain max_bytes max_age (al_chunks a) (a_size (al_chunks a));
     al_producers := al_producers a |}.

(** A log without records, and records appended one after the other. *)
Definition empty_log : ALog := {| al_chunks := [(0, [])]; al_producers := ∅ |}.
Definition a_appends (cf : Config) (a : ALog) (rs : list LogRecord) : ALog :=
  fold_left (a_push cf) rs a.
End more_spec.

(** A producer may send its next number: 0 at first, then one more each time. *)
Definition sequence_ok (st : producers) (r : LogRecord) : Prop :=
  match rec_producer r with
  | None => True
  | Some p =>
      match st !! producer_id p with
      | Some (s, _) => producer_sequence p = s + 1
      | None => producer_sequence p = 0
      end
  end.
Fixpoint replay (st : producers) (o : Z) (rs : list LogRecord) : producers :=
  match rs with
  | [] => st
  | r :: rs => replay (record_producer st o r) (o + 1) rs
  end.
Fixpoint sequences_ok (st : producers) (o : Z) (rs : list LogRecord) : Prop :=
  match rs with
  | [] => True
  | r :: rs => sequence_ok st r /\ sequences_ok (record_producer st o r) (o + 1) rs
  end.

(** ** The invariant *)

(** Chunks follow each other; only the last may be empty. *)
Fixpoint contiguous (b : Z) (cs : list chunk) : Prop :=
  match cs with
  | [] => True
  | c :: cs => c.1 = b /\ (cs <> [] -> c.2 <> []) /\ contiguous (b + clen c.2) cs
  end.
Definition wf_chunks (cs : list chunk) : Prop :=
  cs <> [] /\ 0 <= low cs /\ next cs <= U64_MAX /\ contiguous (low cs) cs /\
  Forall record_ok (flat cs).
Definition wf_log (a : ALog) : Prop := wf_chunks (al_chunks a).
(** Nothing was removed, and the producers' state is that of the records. *)
Definition complete (a : ALog) : Prop :=
  low (al_chunks a) = 0 /\ sequences_ok ∅ 0 (flat (al_chunks a)) /\
  al_producers a = replay ∅ 0 (flat (al_chunks a)).
(** No segment exceeds the limit unless it holds a single record. *)
Definition segments_fit `{!Crc32} (cf : Config) (cs : list chunk) : Prop :=
  Forall (fun c => blen (chunk_file c) <= cf_max_segment_bytes cf \/ (length c.2 <= 1)%nat) cs.

(* ------------------------------------------------------------------ *)
(** ** Names                                                            *)
(* ------------------------------------------------------------------ *)

Lemma split_log_name b :
  0 <= b -> split_name (log_name b) = (as_bytes (pad20 b), Some (as_bytes "log")).
Proof.
  intros Hb. unfold log_name. change (as_bytes ".log") with (DOT :: as_bytes "log").
  apply split_name_dot; [|by repeat constructor].
  destruct (pad20_digits b Hb) as [Hl _]. by destruct (as_bytes (pad20 b)).
Qed.
Lemma idx_name_eq b : 0 <= b -> idx_name b = of_bytes (as_bytes (pad20 b) ++ DOT :: as_bytes "idx").
Proof. intros. unfold idx_name, index_path, with_extension, file_stem. by rewrite split_log_name. Qed.
Lemma split_idx_name b :
  0 <= b -> split_name (idx_name b) = (as_bytes (pad20 b), Some (as_bytes "idx")).
Proof.
  intros Hb. rewrite idx_name_eq by done. apply split_name_dot; [|by repeat constructor].
  destruct (pad20_digits b Hb) as [Hl _]. by destruct (as_bytes (pad20 b)).
Qed.

Lemma log_name_inj a b : is_u64 a -> is_u64 b -> log_name a = log_name b -> a = b.
Proof.
  intros [Ha ?] [Hb ?] Hn. apply (f_equal split_name) in Hn.
  rewrite !split_log_name in Hn by done. injection Hn as Hn%as_bytes_inj. by apply pad20_inj.
Qed.
Lemma idx_name_inj a b : is_u64 a -> is_u64 b -> idx_name a = idx_name b -> a = b.
Proof.
  intros [Ha ?] [Hb ?] Hn. apply (f_equal split_name) in Hn.
  rewrite !split_idx_name in Hn by done. injection Hn as Hn%as_bytes_inj. by apply pad20_inj.
Qed.
Lemma log_idx_name a b : 0 <= a -> 0 <= b -> log_name a <> idx_name b.
Proof.
  intros Ha Hb H. apply (f_equal split_name) in H.
  by rewrite split_log_name, split_idx_name in H.
Qed.
