(* ===== verification/LogFacts.v ===== *)
(** * LogFacts: lemmas on the representation of a partition log. *)

From stdpp Require Import base numbers list strings gmap sorting.
From Stdlib Require Import ZArith Lia.
From S2P Require Import Prelude Text Files Runs Record RecordFacts Log LogRep.

(* ------------------------------------------------------------------ *)
(** ** Records with offsets                                             *)
(* ------------------------------------------------------------------ *)

Lemma clen_app a b : clen (a ++ b) = clen a + clen b.
Proof. unfold clen. rewrite length_app. lia. Qed.
Lemma clen_cons r b : clen (r :: b) = 1 + clen b.
Proof. unfold clen. cbn [length]. lia. Qed.
Lemma clen_nonneg a : 0 <= clen a.
Proof. unfold clen. lia. Qed.
Lemma clen_nil : clen [] = 0.
Proof. done. Qed.

Lemma number_app o a b : number o (a ++ b) = number o a ++ number (o + clen a) b.
Proof.
  revert o. induction a as [|r a IH]; intros o; cbn [number app].
  { by rewrite clen_nil, Z.add_0_r. }
  rewrite IH, clen_cons. do 3 f_equal. lia.
Qed.
Lemma number_bounds o rs : Forall (fun x => o <= x.1 < o + clen rs) (number o rs).
Proof.
  revert o. induction rs as [|r rs IH]; intros o; cbn [number]; [constructor|].
  rewrite clen_cons. pose proof (clen_nonneg rs). constructor; [cbn; lia|].
  eapply Forall_impl; [apply IH|]. cbn. intros [x ?] ?. cbn in *. lia.
Qed.

Lemma flat_app a b : flat (a ++ b) = flat a ++ flat b.
Proof. apply bind_app. Qed.
Lemma flat_cons c b : flat (c :: b) = c.2 ++ flat b.
Proof. done. Qed.
Lemma flat_nil : flat [] = [].
Proof. done. Qed.
Lemma flat_snoc a c : flat (a ++ [c]) = flat a ++ c.2.
Proof. rewrite flat_app, flat_cons, flat_nil. by rewrite app_nil_r. Qed.

Lemma low_app a b : a <> [] -> low (a ++ b) = low a.
Proof. by destruct a as [|[? ?] ?]. Qed.

Section chunks.
Context `{!Crc32}.

Lemma chunk_bytes_app o a b :
  chunk_bytes o (a ++ b) = chunk_bytes o a ++ chunk_bytes (o + clen a) b.
Proof.
  revert o. induction a as [|r a IH]; intros o; cbn [chunk_bytes app].
  { by rewrite clen_nil, Z.add_0_r. }
  rewrite IH, clen_cons, <- app_assoc. do 3 f_equal. lia.
Qed.
Lemma chunk_bytes_snoc o a r :
  chunk_bytes o (a ++ [r]) = chunk_bytes o a ++ wire_record (o + clen a) r.
Proof. rewrite chunk_bytes_app. cbn [chunk_bytes]. by rewrite app_nil_r. Qed.

Lemma index_from_app i o p a b idx :
  index_from i o p (a ++ b) idx =
  index_from i (o + clen a) (p + blen (chunk_bytes o a)) b (index_from i o p a idx).
Proof.
  revert o p idx. induction a as [|r a IH]; intros o p idx; cbn [index_from app chunk_bytes].
  { by rewrite clen_nil, blen_nil, !Z.add_0_r. }
  rewrite IH, clen_cons, blen_app, blen_wire_record. f_equal; lia.
Qed.
Lemma chunk_index_snoc i b rs r :
  chunk_index i (b, rs ++ [r]) =
  add_entry i (chunk_index i (b, rs)) (b + clen rs) (blen (chunk_bytes b rs)).
Proof. unfold chunk_index. cbn [fst snd]. by rewrite index_from_app. Qed.

(** Every index entry is the position of the record at its offset. *)
Lemma index_from_entries i o p rs idx (P : IndexEntry -> Prop) :
  Forall P idx ->
  (forall k, (k < length rs)%nat ->
     P {| ie_offset := o + Z.of_nat k;
          ie_position := p + blen (chunk_bytes o (take k rs)) |}) ->
  Forall P (index_from i o p rs idx).
Proof.
  revert o p idx. induction rs as [|r rs IH]; intros o p idx HF HP; [done|].
  cbn [index_from]. apply IH.
  - unfold add_entry. destruct (should_index _ _ _); [|done]. apply Forall_app. split; [done|].
    constructor; [|done]. specialize (HP O ltac:(simpl; lia)).
    cbn [take chunk_bytes] in HP. rewrite blen_nil, !Z.add_0_r in HP. done.
  - intros k Hk. specialize (HP (Datatypes.S k) ltac:(simpl; lia)).
    cbn [take chunk_bytes] in HP. rewrite blen_app, blen_wire_record in HP.
    replace (o + 1 + Z.of_nat k) with (o + Z.of_nat (Datatypes.S k)) by lia.
    replace (p + (4 + record_len r) + blen (chunk_bytes (o + 1) (take k rs)))
      with (p + (4 + record_len r + blen (chunk_bytes (o + 1) (take k rs)))) by lia. done.
Qed.
Lemma chunk_index_entries i c e :
  e ∈ chunk_index i c ->
  exists k, (k < length c.2)%nat /\ ie_offset e = c.1 + Z.of_nat k /\
            ie_position e = blen (chunk_bytes c.1 (take k c.2)).
Proof.
  unfold chunk_index. revert e. apply Forall_forall.
  apply index_from_entries; [constructor|]. intros k Hk. exists k. cbn. auto with lia.
Qed.

(** ** Chunks that follow each other *)

Lemma contiguous_app b a cs :
  cs <> [] ->
  contiguous b (a ++ cs) <->
  contiguous b a /\ Forall (fun c => c.2 <> []) a /\ contiguous (b + clen (flat a)) cs.
Proof.
  intros Hcs. revert b. induction a as [|c a IH]; intros b; cbn [app contiguous].
  { rewrite flat_nil, clen_nil, Z.add_0_r. split; [auto|tauto]. }
  rewrite IH, flat_cons, clen_app, Z.add_assoc, Forall_cons.
  assert (a ++ cs <> []) by (destruct a; [by destruct cs|done]). tauto.
Qed.

Lemma contiguous_bases b cs :
  contiguous b cs -> Forall (fun c => b <= c.1 <= b + clen (flat cs)) cs.
Proof.
  revert b. induction cs as [|c cs IH]; intros b; cbn [contiguous]; [constructor|].
  intros (<- & _ & Hc). rewrite flat_cons, clen_app.
  pose proof (clen_nonneg c.2). pose proof (clen_nonneg (flat cs)).
  constructor; [lia|]. eapply Forall_impl; [by apply IH|]. cbn. intros; lia.
Qed.

(** The bases before a chunk are smaller than its own. *)
Lemma contiguous_before b a c :
  contiguous b (a ++ [c]) ->
  c.1 = b + clen (flat a) /\ Forall (fun d => b <= d.1 < c.1) a.
Proof.
  intros (Ha & Hne & Hc & _)%contiguous_app; [|done]. split; [done|]. rewrite Hc. clear Hc.
  revert b Ha. induction Hne as [|d a Hd Hne IH]; intros b Ha; [constructor|].
  cbn [contiguous] in Ha. destruct Ha as (<- & _ & Ha). rewrite flat_cons, clen_app.
  assert (0 < clen d.2) by (unfold clen; destruct d.2; [done|cbn [length]; lia]).
  pose proof (clen_nonneg (flat a)).
  constructor; [lia|]. eapply Forall_impl; [by apply IH|]. cbn. intros; lia.
Qed.

Lemma wf_snoc cs :
  wf_chunks cs -> exists a b rs, cs = a ++ [(b, rs)] /\ b = low cs + clen (flat a) /\
    is_u64 b /\ Forall (fun d => is_u64 d.1 /\ d.1 <> b) a.
Proof.
  intros (Hne & Hlo & Hhi & Hc & _). destruct (exists_last Hne) as (a & [b rs] & ->).
  exists a, b, rs. split; [done|]. pose proof (contiguous_before _ _ _ Hc) as [Hb Hlt].
  cbn [fst] in *. unfold next in Hhi. rewrite flat_snoc, clen_app in Hhi. cbn [snd] in Hhi.
  pose proof (clen_nonneg rs). pose proof (clen_nonneg (flat a)).
  split; [done|]. split; [range|]. eapply Forall_impl; [done|]. cbn. intros. split; [range|lia].
Qed.

(** ** The directory *)

Lemma dir_of_fresh cf cs b :
  is_u64 b -> Forall (fun d => is_u64 d.1 /\ d.1 <> b) cs ->
  dir_of cf cs !! log_name b = None /\ dir_of cf cs !! idx_name b = None.
Proof.
  intros Hb. induction 1 as [|c cs [Hc Hne] _ IH]; [done|]. destruct IH as [IHl IHi].
  cbn [dir_of]. assert (0 <= b /\ 0 <= c.1) as [? ?] by range.
  rewrite !lookup_insert_ne; [done|..]; try (intros Heq);
    first [ by apply log_name_inj in Heq | by apply idx_name_inj in Heq
          | by apply log_idx_name in Heq | by symmetry in Heq; apply log_idx_name in Heq ].
Qed.

Lemma dir_of_snoc cf cs c :
  is_u64 c.1 -> Forall (fun d => is_u64 d.1 /\ d.1 <> c.1) cs ->
  dir_of cf (cs ++ [c]) =
  <[log_name c.1 := chunk_file c]> (<[idx_name c.1 := index_file cf c]> (dir_of cf cs)).
Proof.
  intros Hc. induction 1 as [|d cs [Hd Hne] _ IH]; [done|]. cbn [dir_of app]. rewrite IH.
  assert (0 <= c.1 /\ 0 <= d.1) as [? ?] by range.
  assert (log_name d.1 <> log_name c.1) by (intros Heq; by apply log_name_inj in Heq).
  assert (idx_name d.1 <> idx_name c.1) by (intros Heq; by apply idx_name_inj in Heq).
  assert (log_name d.1 <> idx_name c.1) by by apply log_idx_name.
  assert (idx_name d.1 <> log_name c.1) by (apply not_eq_sym; by apply log_idx_name).
  rewrite (insert_insert_ne _ (idx_name d.1)) by done.
  rewrite (insert_insert_ne _ (idx_name d.1) (idx_name c.1)) by done.
  rewrite (insert_insert_ne _ (log_name d.1)) by done.
  by rewrite (insert_insert_ne _ (log_name d.1) (idx_name c.1)) by done.
Qed.
End chunks.
