(* ===== verification/LogAppend.v ===== *)
(** * LogAppend: [append] and [rotate] implement the abstract append. *)

From stdpp Require Import base numbers list strings gmap sorting.
From Stdlib Require Import ZArith Lia.
From S2P Require Import Prelude Text Files Runs Record RecordFacts Log LogRep LogFacts.

Section append.
Context `{!Crc32}.
Implicit Types (p : Part) (cf : Config) (a : ALog) (r : LogRecord).

(* ---------------------------------------------------------------- *)
(** ** Running the steps                                             *)
(* ---------------------------------------------------------------- *)

Lemma log_get_run p : log_get p = (Ok (pt_log p), p).
Proof. done. Qed.
Lemma log_put_run l p : log_put l p = (Ok tt, {| pt_dir := pt_dir p; pt_log := l |}).
Proof. done. Qed.
Lemma on_dir_run {A} (m : SM Dir StorageError A) p x d :
  m (pt_dir p) = (Ok x, d) -> on_dir m p = (Ok x, {| pt_dir := d; pt_log := pt_log p |}).
Proof. unfold on_dir. by intros ->. Qed.

Lemma create_segment_run b (d : Dir) :
  0 <= b -> d !! log_name b = None -> d !! idx_name b = None ->
  create_segment b d =
  (Ok {| sg_base_offset := b; sg_path := log_name b; sg_len := 0; sg_index := [] |},
   <[idx_name b := []]> (<[log_name b := []]> d)).
Proof.
  intros Hb Hl Hi. unfold create_segment, create_new. rewrite bind_assoc.
  erewrite bind_Ok by apply get_run. cbv beta. rewrite Hl.
  erewrite bind_Ok by done. cbv beta. rewrite bind_assoc.
  erewrite bind_Ok by apply get_run. cbv beta. fold (idx_name b).
  rewrite lookup_insert_ne, Hi by by apply log_idx_name. done.
Qed.
Lemma open_append_run n (d : Dir) c : d !! n = Some c -> open_append n d = (Ok n, d).
Proof. intros Hn. unfold open_append. erewrite bind_Ok by apply get_run. cbv beta. by rewrite Hn. Qed.

(** The chunks with an empty one at the end. *)
Definition rotated (a : ALog) : ALog :=
  {| al_chunks := al_chunks a ++ [(next (al_chunks a), [])]; al_producers := al_producers a |}.

Lemma active_base_snoc cs c : active_base (cs ++ [c]) = c.1.
Proof. unfold active_base. by rewrite last_snoc. Qed.

Lemma next_snoc cs b rs :
  b = low cs + clen (flat cs) -> cs <> [] -> next (cs ++ [(b, rs)]) = b + clen rs.
Proof.
  intros -> Hne. unfold next. rewrite low_app by done. rewrite flat_snoc, clen_app. cbn [snd]. lia.
Qed.

Lemma wf_fresh cs :
  wf_chunks cs -> Forall (fun c => c.2 <> []) cs ->
  is_u64 (next cs) /\ Forall (fun d => is_u64 d.1 /\ d.1 <> next cs) cs.
Proof.
  intros (Hne & Hlo & Hhi & Hc & _) HF.
  assert (contiguous (low cs) (cs ++ [(next cs, [])])) as Hcs.
  { apply contiguous_app; [done|]. split_and?; [done|done|]. cbn. auto. }
  apply contiguous_before in Hcs as [_ Hb]. cbn [fst] in Hb.
  pose proof (clen_nonneg (flat cs)). unfold next in *. split; [range|].
  eapply Forall_impl; [done|]. cbn. intros. split; [range|lia].
Qed.

Lemma rotate_run cf a :
  wf_log a -> Forall (fun c => c.2 <> []) (al_chunks a) ->
  rotate (part_of cf a) = (Ok tt, part_of cf (rotated a)).
Proof.
  intros Hwf HF. pose proof (wf_fresh _ Hwf HF) as [Hn Hne].
  pose proof (dir_of_fresh cf _ _ Hn Hne) as [Hl Hi].
  assert (0 <= next (al_chunks a)) by range.
  unfold rotate. erewrite bind_Ok by apply log_get_run. cbv beta.
  erewrite bind_Ok by (apply on_dir_run; by apply create_segment_run). cbv beta.
  cbn [sg_path pt_log pt_dir part_of log_of lg_next_offset].
  assert (log_name (next (al_chunks a)) <> idx_name (next (al_chunks a)))
    by by apply log_idx_name.
  erewrite bind_Ok by (apply on_dir_run; eapply open_append_run; cbn [pt_dir];
    rewrite lookup_insert_ne by done; apply lookup_insert_eq). cbv beta.
  fold (idx_name (next (al_chunks a))).
  erewrite bind_Ok by (apply on_dir_run; eapply open_append_run; cbn [pt_dir];
    apply lookup_insert_eq). cbv beta.
  rewrite log_put_run. cbn [pt_dir pt_log]. unfold part_of, rotated, log_of.
  cbn [al_chunks al_producers]. f_equal. f_equal.
  - rewrite dir_of_snoc by done. rewrite insert_insert_ne by done. done.
  - rewrite active_base_snoc, fmap_app. cbn [fst fmap list_fmap].
    unfold set_segments, set_files. cbn. f_equal.
    unfold next. rewrite low_app by apply Hwf. rewrite flat_snoc, app_nil_r. done.
Qed.

Lemma set_active_snoc l s s' : set_active (l ++ [s]) s' = l ++ [s'].
Proof. unfold set_active. by rewrite removelast_last. Qed.

(** The record written to the active segment. *)
Definition grown cf a r : ALog :=
  {| al_chunks := match last (al_chunks a) with
                  | Some c => removelast (al_chunks a) ++ [(c.1, c.2 ++ [r])]
                  | None => al_chunks a
                  end;
     al_producers := record_producer (al_producers a) (next (al_chunks a)) r |}.

Lemma blen_snoc_file b rs r :
  blen (chunk_file (b, rs ++ [r])) = blen (chunk_file (b, rs)) + (4 + record_len r).
Proof. unfold chunk_file. cbn [fst snd]. by rewrite chunk_bytes_snoc, blen_app, blen_wire_record. Qed.

Lemma segment_snoc cf b rs r :
  segment_of cf (b, rs ++ [r]) =
  {| sg_base_offset := b; sg_path := log_name b;
     sg_len := blen (chunk_file (b, rs)) + (4 + record_len r);
     sg_index := add_entry (cf_index_interval_bytes cf)
                   (chunk_index (cf_index_interval_bytes cf) (b, rs)) (b + clen rs)
                   (blen (chunk_file (b, rs))) |}.
Proof. unfold segment_of. rewrite blen_snoc_file, chunk_index_snoc. done. Qed.

Lemma write_all_alter n data (d : Dir) :
  write_all n data d = (Ok tt, alter (fun c => c ++ data) n d).
Proof. done. Qed.

Lemma write_if_run (c : bool) n data p :
  (if c then on_dir (write_all n data) else ret tt) p =
  (Ok tt, {| pt_dir := alter (fun x => x ++ (if c then data else [])) n (pt_dir p);
             pt_log := pt_log p |}).
Proof.
  destruct c; [done|]. unfold ret. rewrite alter_id; [by destruct p|].
  intros. by rewrite app_nil_r.
Qed.

Lemma store_producer_run r o p :
  match rec_producer r with
  | Some pr =>
      l <- log_get ;;
      log_put (set_producer_state l
        (<[producer_id pr := (producer_sequence pr, o)]> (lg_producer_state l)))
  | None => ret tt
  end p =
  (Ok tt, {| pt_dir := pt_dir p;
             pt_log := set_producer_state (pt_log p)
                         (record_producer (lg_producer_state (pt_log p)) o r) |}).
Proof.
  unfold record_producer. destruct (rec_producer r); [done|]. by destruct p as [d []].
Qed.

Lemma write_encoded_run cf a r :
  wf_log a -> record_ok r -> next (al_chunks a) < U64_MAX ->
  (forall c, last (al_chunks a) = Some c ->
             blen (chunk_file c) + (4 + record_len r) <= U64_MAX) ->
  write_encoded r (next (al_chunks a)) (wire_record (next (al_chunks a)) r) (part_of cf a) =
  (Ok (next (al_chunks a)), part_of cf (grown cf a r)).
Proof.
  intros Hwf Hr Hmax Hlen. pose proof (wf_snoc _ Hwf) as (i & b & rs & Hcs & Hb & Hub & Hne).
  destruct a as [cs st]. cbn [al_chunks] in *. subst cs.
  specialize (Hlen (b, rs) (last_snoc _ _)).
  assert (next (i ++ [(b, rs)]) = b + clen rs) as Hnext.
  { unfold next. rewrite flat_snoc, clen_app. cbn [snd]. lia. }
  rewrite Hnext in *. assert (0 <= b) by range.
  assert (log_name b <> idx_name b) by by apply log_idx_name.
  unfold write_encoded. erewrite bind_Ok by apply log_get_run. cbv beta.
  cbn [pt_log part_of log_of lg_segments al_chunks].
  rewrite fmap_app. cbn [fmap list_fmap]. rewrite last_snoc.
  erewrite bind_Ok by by apply ok_or_Some. cbv beta.
  unfold lg_index_interval_bytes, lg_active_index_file, lg_active_file, log_of. cbn [al_chunks].
  rewrite active_base_snoc. cbn [fst segment_of sg_len sg_index].
  set (should := should_index _ _ _).
  erewrite bind_Ok by apply write_if_run. cbv beta.
  erewrite bind_Ok by (apply on_dir_run, write_all_alter). cbv beta. cbn [pt_dir pt_log].
  rewrite blen_wire_record. unfold checked_add at 1.
  destruct (Z.leb_spec (blen (chunk_file (b, rs)) + (4 + record_len r)) U64_MAX); [|lia].
  erewrite bind_Ok by by apply ok_or_Some. cbv beta.
  erewrite bind_Ok by apply log_put_run. cbv beta.
  erewrite bind_Ok by apply log_get_run. cbv beta. cbn [pt_dir pt_log].
  unfold checked_add. cbn [lg_next_offset set_segments part_of log_of pt_log].
  cbn [al_chunks]. rewrite Hnext.
  destruct (Z.leb_spec (b + clen rs + 1) U64_MAX); [|lia].
  erewrite bind_Ok by by apply ok_or_Some. cbv beta.
  erewrite bind_Ok by apply log_put_run. cbv beta. cbn [pt_dir pt_log].
  erewrite bind_Ok by apply store_producer_run. cbv beta. cbn [pt_dir pt_log].
  unfold ret. f_equal. unfold part_of, grown. cbn [al_chunks al_producers].
  rewrite last_snoc, removelast_last. cbn [fst snd]. f_equal.
  - cbn [pt_dir part_of al_chunks]. rewrite !dir_of_snoc by done.
    rewrite alter_insert_ne, alter_insert_eq, alter_insert_eq by done.
    f_equal; [unfold chunk_file; cbn [fst snd]; by rewrite chunk_bytes_snoc|]. f_equal.
    unfold index_file. rewrite chunk_index_snoc. unfold add_entry.
    fold (chunk_file (b, rs)). change (chunk_bytes b rs) with (chunk_file (b, rs)).
    unfold should. destruct (should_index _ _ _); cbv iota; [|by rewrite app_nil_r].
    rewrite bind_app, bind_cons. by rewrite app_nil_r.
  - unfold log_of. cbn [al_chunks al_producers]. rewrite fmap_app, Hnext, active_base_snoc.
    assert (next (i ++ [(b, rs ++ [r])]) = b + clen rs + 1) as ->.
    { unfold next in *. rewrite flat_snoc, clen_app in *. cbn [snd] in *.
      rewrite clen_app, clen_cons, clen_nil.
      assert (low (i ++ [(b, rs ++ [r])]) = low (i ++ [(b, rs)])) as -> by by destruct i as [|[]].
      lia. }
    rewrite fmap_app. cbn [fmap list_fmap fst]. rewrite segment_snoc, set_active_snoc.
    unfold set_producer_state, set_next_offset, set_segments, add_entry. cbn.
    change (chunk_bytes b rs) with (chunk_file (b, rs)). unfold should.
    by destruct (should_index _ _ _).
Qed.

(* ---------------------------------------------------------------- *)
(** ** The whole append                                              *)
(* ---------------------------------------------------------------- *)

Lemma chunk_bytes_empty o rs : (blen (chunk_bytes o rs) =? 0) = bool_decide (rs = []).
Proof.
  destruct rs as [|r rs]; [done|]. cbn [chunk_bytes]. rewrite bool_decide_eq_false_2 by done.
  rewrite blen_app, blen_wire_record. pose proof (record_len_ge r).
  pose proof (blen_nonneg (chunk_bytes (o + 1) rs)). apply Z.eqb_neq. lia.
Qed.

Lemma rotates_eq cf c r :
  config_ok cf -> record_ok r ->
  negb (segment_is_empty (segment_of cf c)) &&
  (cf_max_segment_bytes cf <? saturating_add (sg_len (segment_of cf c)) (4 + record_len r)) =
  rotates cf c r.
Proof.
  intros [[_ Hcf] _] _. unfold rotates, segment_is_empty. cbn [sg_len segment_of].
  unfold chunk_file. rewrite chunk_bytes_empty. f_equal. unfold saturating_add.
  set (n := blen (chunk_bytes c.1 c.2) + (4 + record_len r)).
  destruct (Z.ltb_spec (cf_max_segment_bytes cf) n); [apply Z.ltb_lt|apply Z.ltb_ge]; lia.
Qed.

Lemma push_cases cf cs r :
  cs <> [] ->
  (exists c, last cs = Some c /\ rotates cf c r = true /\
             push cf cs r = cs ++ [(next cs, [r])]) \/
  (exists c, last cs = Some c /\ rotates cf c r = false /\
             push cf cs r = removelast cs ++ [(c.1, c.2 ++ [r])]).
Proof.
  intros (i & c & ->)%exists_last. unfold push. rewrite last_snoc.
  destruct (rotates cf c r) eqn:E; eauto 6.
Qed.

(** No rotation leaves an empty chunk before the last. *)
Lemma rotates_full cf i c r :
  contiguous (low (i ++ [c])) (i ++ [c]) -> rotates cf c r = true ->
  Forall (fun d => d.2 <> []) (i ++ [c]).
Proof.
  intros (_ & HF & _)%contiguous_app Hr; [|done]. apply Forall_app. split; [done|].
  constructor; [|done]. unfold rotates in Hr.
  apply andb_true_iff in Hr as [Hr _]. by apply negb_true_iff, bool_decide_eq_false in Hr.
Qed.

Lemma flat_push cf cs r : cs <> [] -> flat (push cf cs r) = flat cs ++ [r].
Proof.
  intros Hne. destruct (push_cases cf cs r Hne) as [(c & Hl & _ & ->)|(c & Hl & _ & ->)].
  - by rewrite flat_snoc.
  - apply last_Some in Hl as [i ->]. by rewrite removelast_last, !flat_snoc, <- app_assoc.
Qed.
Lemma low_push cf cs r : cs <> [] -> low (push cf cs r) = low cs.
Proof.
  intros Hne. destruct (push_cases cf cs r Hne) as [(c & Hl & _ & ->)|(c & Hl & _ & ->)].
  - by rewrite low_app.
  - apply last_Some in Hl as [i ->]. rewrite removelast_last. by destruct i as [|[]]; destruct c.
Qed.
Lemma next_push cf cs r : cs <> [] -> next (push cf cs r) = next cs + 1.
Proof.
  intros Hne. unfold next. rewrite low_push, flat_push, clen_app, clen_cons, clen_nil by done. lia.
Qed.

Lemma wf_push cf cs r :
  wf_chunks cs -> record_ok r -> next cs < U64_MAX -> wf_chunks (push cf cs r).
Proof.
  intros (Hne & Hlo & Hhi & Hc & HF) Hr Hmax. unfold wf_chunks.
  rewrite next_push, low_push, flat_push by done. split_and?; try lia.
  - destruct (push_cases cf cs r Hne) as [(c & _ & _ & ->)|(c & _ & _ & ->)]; by apply app_not_nil_r || (intros []%app_eq_nil).
  - destruct (push_cases cf cs r Hne) as [(c & Hl & Hr' & ->)|(c & Hl & _ & ->)];
      apply last_Some in Hl as [i ->].
    + apply contiguous_app; [done|]. split_and?; [done|by eapply rotates_full|].
      cbn. split_and?; [|done..]. unfold next in *. done.
    + rewrite removelast_last. apply contiguous_app in Hc as (? & ? & Hc); [|done].
      apply contiguous_app; [done|]. split_and?; [done|done|]. cbn in *. tauto.
  - apply Forall_app. auto.
Qed.

Lemma fit_push cf cs r :
  cs <> [] -> segments_fit cf cs -> segments_fit cf (push cf cs r).
Proof.
  intros Hne Hf. unfold segments_fit in *.
  destruct (push_cases cf cs r Hne) as [(c & Hl & _ & ->)|(c & Hl & Hr & ->)];
    apply last_Some in Hl as [i ->].
  - apply Forall_app. split; [done|]. constructor; [right; cbn; lia|done].
  - rewrite removelast_last. apply Forall_app in Hf as [? _]. apply Forall_app. split; [done|].
    constructor; [|done]. destruct c as [b rs]. cbn [fst snd].
    unfold rotates in Hr. cbn [snd] in Hr. apply andb_false_iff in Hr as [Hr|Hr].
    + apply negb_false_iff, bool_decide_eq_true in Hr as ->. right. cbn. lia.
    + left. rewrite blen_snoc_file. by apply Z.ltb_ge in Hr.
Qed.

Lemma append_encoded_run cf a r :
  config_ok cf -> wf_log a -> segments_fit cf (al_chunks a) -> record_ok r ->
  next (al_chunks a) < U64_MAX ->
  append_encoded r (part_of cf a) = (Ok (next (al_chunks a)), part_of cf (a_push cf a r)).
Proof.
  intros Hcf Hwf Hfit Hr Hmax. unfold append_encoded.
  erewrite bind_Ok by apply log_get_run. cbv beta zeta.
  cbn [pt_log part_of lg_next_offset log_of lg_segments lg_max_segment_bytes].
  erewrite bind_Ok by by apply encode_record_run. cbv beta. rewrite blen_wire_record.
  pose proof Hwf as (Hne & _ & _ & Hc & _). destruct (exists_last Hne) as (i & c & Hcs).
  erewrite bind_Ok by (apply ok_or_Some; rewrite Hcs, fmap_app; cbn; apply last_snoc). cbv beta.
  rewrite rotates_eq by done.
  unfold a_push. destruct (push_cases cf (al_chunks a) r Hne) as
    [(c' & Hl & Hrot & ->)|(c' & Hl & Hrot & ->)];
    rewrite Hcs, last_snoc in Hl; injection Hl as <-; rewrite Hrot.
  - assert (Forall (fun d => d.2 <> []) (al_chunks a)) as HF.
    { rewrite Hcs in *. by eapply rotates_full. }
    erewrite bind_Ok by by apply rotate_run. cbv beta.
    assert (next (al_chunks (rotated a)) = next (al_chunks a)) as Hnx.
    { unfold rotated, next. cbn [al_chunks]. rewrite low_app by done.
      rewrite flat_snoc. cbn [snd]. by rewrite app_nil_r. }
    rewrite <- Hnx. rewrite write_encoded_run.
    + unfold grown, rotated. cbn [al_chunks al_producers].
      rewrite last_snoc, removelast_last. cbn [fst snd app]. f_equal.
      unfold rotated in Hnx. cbn [al_chunks] in Hnx. by rewrite Hnx.
    + unfold wf_log, wf_chunks. rewrite Hnx. unfold rotated. cbn [al_chunks].
      rewrite low_app by done. rewrite flat_snoc. cbn [snd]. rewrite app_nil_r.
      destruct Hwf as (? & ? & ? & ? & ?). split_and?; try done; [by intros []%app_eq_nil|].
      apply contiguous_app; [done|]. split_and?; [done|done|]. by cbn.
    + done.
    + by rewrite Hnx.
    + intros d. unfold rotated. cbn [al_chunks]. rewrite last_snoc. intros [= <-].
      unfold chunk_file. cbn [fst snd chunk_bytes]. rewrite blen_nil.
      destruct Hr as [Hr _]. unfold MAX_RECORD_SIZE in Hr. range.
  - erewrite bind_Ok by done. cbv beta. rewrite write_encoded_run; try done.
    + unfold grown. rewrite Hcs, last_snoc. done.
    + intros d Hd. rewrite Hcs, last_snoc in Hd. injection Hd as <-.
      unfold rotates in Hrot. apply andb_false_iff in Hrot as [Hrot|Hrot].
      * apply negb_false_iff, bool_decide_eq_true in Hrot. unfold chunk_file. rewrite Hrot.
        cbn [chunk_bytes]. rewrite blen_nil. destruct Hr as [Hr _]. unfold MAX_RECORD_SIZE in Hr.
        range.
      * apply Z.ltb_ge in Hrot. destruct Hcf as [[_ ?] _]. lia.
Qed.

(** The numbers in the producers' state are 64-bit numbers. *)
Definition producers_ok (st : producers) : Prop :=
  map_Forall (fun _ v => is_u64 v.1) st.

Lemma record_producer_ok st o r :
  producers_ok st -> record_typed r -> producers_ok (record_producer st o r).
Proof.
  intros Hst [_ Hr]. unfold record_producer. destruct (rec_producer r) as [p|]; [|done].
  by apply map_Forall_insert_2.
Qed.

Lemma append_too_large r p :
  MAX_RECORD_SIZE < record_len r -> append_encoded r p = (Err RecordTooLarge, p).
Proof.
  intros Hl. unfold append_encoded. erewrite bind_Ok by apply log_get_run. cbv beta zeta.
  erewrite bind_Err; [done|]. unfold encode_record. erewrite bind_Err; [done|].
  fold (record_len r). unfold reject_if.
  change (CRC_SIZE + (BODY_FIXED_SIZE + producer_id_len (rec_producer r) +
    option_len (rec_key r) + blen (rec_value r))) with (record_len r).
  destruct (Z.ltb_spec MAX_RECORD_SIZE (record_len r)); [done|lia].
Qed.

Lemma append_encoded_spec cf a r :
  config_ok cf -> wf_log a -> segments_fit cf (al_chunks a) -> record_typed r ->
  match rec_producer r with Some p => producer_ok p | None => True end ->
  next (al_chunks a) < U64_MAX ->
  append_encoded r (part_of cf a) =
  let '(o, a') := if MAX_RECORD_SIZE <? record_len r then (Err RecordTooLarge, a)
                  else (Ok (next (al_chunks a)), a_push cf a r) in
  (o, part_of cf a').
Proof.
  intros ??? [? _] ??. destruct (Z.ltb_spec MAX_RECORD_SIZE (record_len r)).
  - by apply append_too_large.
  - by apply append_encoded_run.
Qed.

Lemma check_sequence_spec st (p : Producer) (s : Part) v :
  st !! producer_id p = v ->
  check_sequence st p s =
  let expected := match v with Some (n, _) => saturating_add n 1 | None => 0 end in
  if producer_sequence p =? expected then (Ok tt, s)
  else (Err (UnexpectedProducerSequence (producer_id p) expected (producer_sequence p)), s).
Proof.
  intros Hv. unfold check_sequence, reject_if. rewrite Hv.
  by destruct v as [[n o]|]; cbn; destruct (_ =? _).
Qed.

Lemma append_spec cf a r :
  config_ok cf -> wf_log a -> segments_fit cf (al_chunks a) -> producers_ok (al_producers a) ->
  record_typed r -> next (al_chunks a) < U64_MAX ->
  append r (part_of cf a) = let '(o, a') := a_append cf a r in (o, part_of cf a').
Proof.
  intros Hcf Hwf Hfit Hst Hr Hmax. unfold append, a_append.
  destruct (rec_producer r) as [p|] eqn:Hp.
  2:{ apply append_encoded_spec; try done. by rewrite Hp. }
  pose proof Hr as [_ Hseq]. rewrite Hp in Hseq.
  unfold validate_producer_id at 1, reject_if.
  destruct (is_empty (producer_id p) || (249 <? str_len (producer_id p)) ||
    negb (forallb id_byte (as_bytes (producer_id p)))) eqn:Hid; [done|].
  assert (producer_ok p) as Hpok.
  { rewrite !orb_false_iff in Hid.
    destruct Hid as [[?%is_empty_false ?%Z.ltb_ge] ?%negb_false_iff].
    unfold producer_ok. split_and?; done || lia. }
  erewrite bind_Ok by done. cbv beta. erewrite bind_Ok by apply log_get_run. cbv beta.
  cbn [pt_log part_of log_of lg_producer_state].
  assert (append_encoded r (part_of cf a) =
    let '(o, a') := if MAX_RECORD_SIZE <? record_len r then (Err RecordTooLarge, a)
                    else (Ok (next (al_chunks a)), a_push cf a r) in
    (o, part_of cf a')) as Happ.
  { apply append_encoded_spec; try done. by rewrite Hp. }
  destruct (al_producers a !! producer_id p) as [[s o]|] eqn:Hs.
  - destruct (Z.eqb_spec s (producer_sequence p)) as [|Hne]; [done|].
    unfold bind at 1. rewrite (check_sequence_spec _ _ _ _ Hs). cbv zeta.
    assert (is_u64 s) as [? ?] by (exact (Hst _ _ Hs)).
    assert ((producer_sequence p =? saturating_add s 1) = (producer_sequence p =? s + 1)) as ->.
    { unfold saturating_add. destruct (Z.eqb_spec (producer_sequence p) (s + 1)) as [Heq|].
      - apply Z.eqb_eq. range.
      - apply Z.eqb_neq. range. }
    destruct (producer_sequence p =? s + 1); [exact Happ|done].
  - unfold bind at 1. rewrite (check_sequence_spec _ _ _ _ Hs). cbv zeta.
    destruct (producer_sequence p =? 0); [exact Happ|done].
Qed.

(** ** The invariants *)

Lemma replay_app st o (xs ys : list LogRecord) : replay st o (xs ++ ys) = replay (replay st o xs) (o + clen xs) ys.
Proof.
  revert st o. induction xs as [|r xs IH]; intros st o; cbn [app replay].
  { by rewrite clen_nil, Z.add_0_r. }
  rewrite IH, clen_cons. f_equal. lia.
Qed.
Lemma sequences_ok_app st o (xs ys : list LogRecord) :
  sequences_ok st o (xs ++ ys) <->
  sequences_ok st o xs /\ sequences_ok (replay st o xs) (o + clen xs) ys.
Proof.
  revert st o. induction xs as [|r xs IH]; intros st o; cbn [app replay sequences_ok].
  { rewrite clen_nil, Z.add_0_r. tauto. }
  rewrite IH, clen_cons. replace (o + 1 + clen xs) with (o + (1 + clen xs)) by lia. tauto.
Qed.

Definition a_inv cf a : Prop :=
  wf_log a /\ segments_fit cf (al_chunks a) /\ producers_ok (al_producers a).

Lemma a_append_cases cf a r :
  snd (a_append cf a r) = a \/
  (a_append cf a r = (Ok (next (al_chunks a)), a_push cf a r) /\
   record_len r <= MAX_RECORD_SIZE /\
   match rec_producer r with
   | Some p => (0 < str_len (producer_id p) <= 249 /\
                forallb id_byte (as_bytes (producer_id p)) = true) /\
               sequence_ok (al_producers a) r
   | None => True
   end).
Proof.
  unfold a_append, sequence_ok.
  destruct (Z.ltb_spec MAX_RECORD_SIZE (record_len r)) as [|Hl].
  - left. destruct (rec_producer r) as [p|]; [|done].
    destruct (_ || _); [done|]. destruct (al_producers a !! _) as [[s o]|];
      repeat (destruct (_ =? _); try done).
  - destruct (rec_producer r) as [p|]; [|auto].
    destruct (_ || _) eqn:Hid; [by left|].
    rewrite !orb_false_iff in Hid.
    destruct Hid as [[?%is_empty_false ?%Z.ltb_ge] ?%negb_false_iff].
    destruct (al_producers a !! _) as [[s o]|].
    + destruct (s =? _); [by left|]. destruct (Z.eqb_spec (producer_sequence p) (s + 1)); auto 10.
    + destruct (Z.eqb_spec (producer_sequence p) 0); auto 10.
Qed.

Lemma push_nonempty cf cs r : cs <> [] -> push cf cs r <> [].
Proof.
  intros Hne. destruct (push_cases cf cs r Hne) as [(c & _ & _ & ->)|(c & _ & _ & ->)]; intros Hnil%app_nil; by destruct Hnil.
Qed.
Lemma append_complete cf a r :
  al_chunks a <> [] -> complete a -> complete (snd (a_append cf a r)).
Proof.
  intros Hne (Hlow & Hsq & Hrep). destruct (a_append_cases cf a r) as [->|(-> & Hl & Hp)]; [done|]. cbn [snd].
  unfold complete. cbn [al_chunks al_producers a_push].
  rewrite low_push, flat_push, replay_app, sequences_ok_app by done.
  split_and?; try done; cbn [sequences_ok replay]; rewrite <- Hrep.
  - split; [|done]. unfold sequence_ok in *. destruct (rec_producer r); [tauto|done].
  - unfold next. by rewrite Hlow.
Qed.
Lemma a_append_inv cf a r :
  a_inv cf a -> record_typed r -> next (al_chunks a) < U64_MAX ->
  a_inv cf (snd (a_append cf a r)) /\
  (complete a -> complete (snd (a_append cf a r))).
Proof.
  intros (Hwf & Hfit & Hst) Hr Hmax. pose proof Hwf as [Hne _]. split; [|by apply append_complete].
  destruct (a_append_cases cf a r) as [->|(-> & Hl & Hp)]; [done|]. cbn [snd].
  assert (record_ok r) as Hok.
  { destruct Hr as [? Hseq]. split; [done|]. split; [done|]. destruct (rec_producer r); [|done].
    unfold producer_ok. tauto. }
  split; [by apply wf_push|split; [by apply fit_push|by apply record_producer_ok]].
Qed.
End append.
