(* ===== verification/LogRead.v ===== *)
(** * LogRead: [read] returns what a scan of all records would.

    The sparse index and the choice of segments only skip records below the
    requested offset. *)

From stdpp Require Import base numbers list strings gmap sorting.
From Stdlib Require Import ZArith Lia.
From S2P Require Import Prelude Text Files Runs Record RecordFacts Log LogRep LogFacts LogAppend.

(** The reading loop on numbered records. *)
Fixpoint scan (offset max_bytes : Z) (rs : list (Z * LogRecord)) (records : list StoredRecord)
    (used : Z) : bool * list StoredRecord * Z :=
  match rs with
  | [] => (false, records, used)
  | (o, r) :: rs =>
      if o <? offset then scan offset max_bytes rs records used
      else
        let total := saturating_add used (4 + record_len r) in
        if negb (bool_decide (records = [])) && (max_bytes <? total) then (true, records, used)
        else scan offset max_bytes rs (records ++ [stored o r]) total
  end.

Lemma scan_app offset m a b recs used :
  scan offset m (a ++ b) recs used =
  match scan offset m a recs used with
  | (false, recs, used) => scan offset m b recs used
  | stop => stop
  end.
Proof.
  revert recs used. induction a as [|[o r] a IH]; intros recs used; cbn [scan app]; [done|].
  destruct (o <? offset); [apply IH|]. destruct (_ && _); [done|]. apply IH.
Qed.

Lemma scan_below offset m rs recs used :
  Forall (fun x => x.1 < offset) rs -> scan offset m rs recs used = (false, recs, used).
Proof.
  induction 1 as [|[o r] rs Ho _ IH]; cbn [scan]; [done|]. cbn in Ho.
  destruct (Z.ltb_spec o offset); [done|lia].
Qed.

Lemma scan_budget offset m rs recs used :
  (scan offset m rs recs used).1.2 =
  recs ++ budget m (negb (bool_decide (recs = []))) used (filter (fun x => offset <= x.1) rs).
Proof.
  revert recs used. induction rs as [|[o r] rs IH]; intros recs used; cbn [scan].
  { cbn. by rewrite app_nil_r. }
  destruct (Z.ltb_spec o offset).
  { rewrite filter_cons_False by (cbn; lia). apply IH. }
  rewrite filter_cons_True by (cbn; lia). cbn [budget]. destruct (_ && _).
  { cbn. by rewrite app_nil_r. }
  rewrite IH. rewrite bool_decide_eq_false_2 by (by destruct recs). cbn [negb].
  by rewrite <- app_assoc.
Qed.

Section read.
Context `{!Crc32} `{!Crc32Ok}.

Lemma chunk_bytes_len_ge o rs : (length rs <= length (chunk_bytes o rs))%nat.
Proof.
  revert o. induction rs as [|r rs IH]; intros o; cbn [chunk_bytes length]; [lia|].
  rewrite length_app. specialize (IH (o + 1)).
  pose proof (blen_wire_record o r) as Hl. pose proof (record_len_ge r). unfold blen in Hl. lia.
Qed.

Lemma wire_record_nonempty o r rest : wire_record o r ++ rest <> [].
Proof.
  intros Heq. apply (f_equal blen) in Heq. rewrite blen_app, blen_wire_record, blen_nil in Heq.
  pose proof (record_len_ge r). pose proof (blen_nonneg rest). lia.
Qed.

Lemma read_loop_scan fuel o rs offset m recs used :
  (length rs < fuel)%nat -> Forall record_ok rs -> 0 <= o -> o + clen rs <= U64_MAX + 1 ->
  read_loop fuel (chunk_bytes o rs) offset m recs used =
  Ok (scan offset m (number o rs) recs used).
Proof.
  revert fuel o recs used. induction rs as [|r rs IH]; intros fuel o recs used Hf HF Ho Hn;
    (destruct fuel as [|fuel]; [simpl in Hf; lia|]); cbn [read_loop chunk_bytes number scan].
  { done. }
  apply Forall_cons in HF as [Hr HF]. rewrite clen_cons in Hn. pose proof (clen_nonneg rs).
  rewrite bool_decide_eq_false_2 by apply wire_record_nonempty.
  rewrite decode_record_wire by (done || range). cbv beta iota zeta. cbn [sr_offset stored].
  rewrite blen_app, blen_wire_record.
  replace (4 + record_len r + blen (chunk_bytes (o + 1) rs) - blen (chunk_bytes (o + 1) rs))
    with (4 + record_len r) by lia.
  cbn [length] in Hf.
  destruct (o <? offset); [apply IH; (done || lia)|].
  destruct (_ && _); [done|]. apply IH; done || lia.
Qed.

(** The position the index gives starts a record at or below the offset. *)
Lemma seek_position_spec i c offset :
  exists k, seek_position (chunk_index i c) offset = blen (chunk_bytes c.1 (take k c.2)) /\
            (k <= length c.2)%nat /\ (k = O \/ c.1 + Z.of_nat k <= offset).
Proof.
  unfold seek_position. set (l := chunk_index i c). set (f := fun e => ie_offset e <=? offset).
  assert (forall j, partition_point f l = Datatypes.S j ->
            exists e, l !! j = Some e /\ f e = true) as Hpp.
  { clearbody l. clear. induction l as [|e l IH]; cbn [partition_point]; [done|].
    destruct (f e) eqn:He; [|done]. intros j [= Hj]. destruct j as [|j]; [by exists e|].
    by apply IH. }
  destruct (partition_point f l) as [|j] eqn:E.
  { exists O. split_and?; [done|lia|by left]. }
  destruct (Hpp j eq_refl) as (e & He & Hfe). rewrite He. cbn.
  pose proof (chunk_index_entries i c e (list_elem_of_lookup_2 _ _ _ He)) as (k & Hk & Ho & Hp).
  exists k. split_and?; [done|lia|]. right. unfold f in Hfe. apply Z.leb_le in Hfe. lia.
Qed.

Lemma read_segment_scan cf c offset m recs used :
  Forall record_ok c.2 -> 0 <= c.1 -> c.1 + clen c.2 <= U64_MAX + 1 ->
  let contents := drop (Z.to_nat (seek_position (sg_index (segment_of cf c)) offset))
                       (chunk_file c) in
  read_loop (Datatypes.S (length contents)) contents offset m recs used =
  Ok (scan offset m (number c.1 c.2) recs used).
Proof.
  intros HF Hb Hn. cbv zeta. cbn [sg_index segment_of].
  destruct (seek_position_spec (cf_index_interval_bytes cf) c offset) as (k & -> & Hk & Hko).
  destruct c as [b rs]. cbn [fst snd] in *. unfold chunk_file. cbn [fst snd].
  assert (exists xs ys, rs = xs ++ ys /\ take k rs = xs /\ clen xs = Z.of_nat k)
    as (xs & ys & -> & -> & Hck).
  { exists (take k rs), (drop k rs). rewrite take_drop. split_and?; [done..|].
    unfold clen. rewrite length_take. lia. }
  rewrite clen_app in Hn. apply Forall_app in HF as [_ HF]. pose proof (clen_nonneg ys).
  rewrite chunk_bytes_app, number_app, Hck.
  replace (Z.to_nat (blen (chunk_bytes b xs))) with (length (chunk_bytes b xs))
    by (unfold blen; lia).
  rewrite drop_app_length. rewrite scan_app, scan_below.
  2:{ destruct Hko as [->|Hko].
      { destruct xs; [constructor|]. unfold clen in Hck. cbn in Hck. lia. }
      eapply Forall_impl; [apply number_bounds|]. cbn. rewrite Hck. intros; lia. }
  apply read_loop_scan; try done; try lia.
  pose proof (chunk_bytes_len_ge (b + Z.of_nat k) ys). lia.
Qed.

Lemma dir_lookup_chunk cf b0 cs c :
  contiguous b0 cs -> 0 <= b0 -> b0 + clen (flat cs) <= U64_MAX -> c ∈ cs ->
  dir_of cf cs !! log_name c.1 = Some (chunk_file c).
Proof.
  revert b0. induction cs as [|d cs IH]; intros b0 Hc Hb Hn Hin; [by apply not_elem_of_nil in Hin|].
  cbn [contiguous] in Hc. destruct Hc as (<- & Hne & Hc). rewrite flat_cons, clen_app in Hn.
  pose proof (clen_nonneg d.2). pose proof (clen_nonneg (flat cs)).
  apply elem_of_cons in Hin as [->|Hin]; [apply lookup_insert_eq|]. cbn [dir_of].
  pose proof (contiguous_bases _ _ Hc) as Hbs.
  rewrite Forall_forall in Hbs. specialize (Hbs c Hin). cbn in Hbs.
  assert (0 < clen d.2).
  { unfold clen. destruct d.2; [|cbn [length]; lia]. exfalso. apply Hne; [|done].
    intros ->. by apply not_elem_of_nil in Hin. }
  rewrite !lookup_insert_ne.
  - eapply IH; [done|lia|lia|done].
  - intros Heq. symmetry in Heq. apply log_idx_name in Heq; [done|lia|lia].
  - intros Heq. apply log_name_inj in Heq; range.
Qed.

Lemma read_segments_scan cf dir b0 cs offset m recs used :
  contiguous b0 cs -> 0 <= b0 -> b0 + clen (flat cs) <= U64_MAX -> Forall record_ok (flat cs) ->
  (forall c, c ∈ cs -> dir !! log_name c.1 = Some (chunk_file c)) ->
  read_segments dir (segment_of cf <$> cs) offset m recs used =
  Ok (scan offset m (number b0 (flat cs)) recs used).1.2.
Proof.
  revert b0 recs used. induction cs as [|c cs IH]; intros b0 recs used Hc Hb Hn HF Hdir; [done|].
  cbn [contiguous] in Hc. destruct Hc as (<- & Hne & Hc). rewrite flat_cons in *.
  rewrite clen_app in Hn. apply Forall_app in HF as [HFc HF].
  pose proof (clen_nonneg c.2). pose proof (clen_nonneg (flat cs)).
  cbn [fmap list_fmap read_segments]. rewrite number_app, scan_app.
  assert (forall recs used,
    read_segments dir (segment_of cf <$> cs) offset m recs used =
    Ok (scan offset m (number (c.1 + clen c.2) (flat cs)) recs used).1.2) as IH'.
  { intros. apply IH; try done; try lia. intros d Hd. apply Hdir. by right. }
  match goal with |- context [if ?skip then _ else _] => destruct skip eqn:Hskip end.
  - destruct cs as [|d cs]; [done|]. cbn [fmap list_fmap] in Hskip.
    cbn [sg_base_offset segment_of] in Hskip. apply Z.leb_le in Hskip.
    cbn [contiguous] in Hc. destruct Hc as (Hd & _).
    rewrite (scan_below _ _ (number c.1 c.2)); [apply IH'|].
    eapply Forall_impl; [apply number_bounds|]. cbn. intros; lia.
  - cbn [sg_path segment_of]. rewrite (Hdir c) by left.
    rewrite read_segment_scan by (done || lia).
    destruct (scan offset m (number c.1 c.2) recs used) as [[[] recs'] used']; [done|].
    apply IH'.
Qed.

Lemma read_spec cf a offset m :
  wf_log a -> read offset m (part_of cf a) = (a_read a offset m, part_of cf a).
Proof.
  intros (Hne & Hlo & Hhi & Hc & HF). unfold read, a_read, reject_if.
  destruct (m =? 0); [done|]. erewrite bind_Ok by done. cbv beta.
  erewrite bind_Ok by apply get_run. cbv beta. unfold lift. f_equal.
  cbn [pt_dir pt_log part_of log_of lg_segments].
  erewrite read_segments_scan; try done.
  - rewrite scan_budget. done.
  - intros c Hin. eapply dir_lookup_chunk; try done.
Qed.

(* ---------------------------------------------------------------- *)
(** ** What a read contains                                          *)
(* ---------------------------------------------------------------- *)

Definition total_len (rs : list (Z * LogRecord)) : Z :=
  foldr (fun x n => 4 + record_len x.2 + n) 0 rs.
Definition stored_of (x : Z * LogRecord) : StoredRecord := stored x.1 x.2.

Lemma budget_prefix m started used rs :
  0 <= used ->
  exists taken left, rs = taken ++ left /\ budget m started used rs = stored_of <$> taken /\
    (started = false -> taken = [] -> rs = []) /\
    (m < U64_MAX -> used + total_len taken <= m \/
                    (if started then taken = [] else (length taken <= 1)%nat)).
Proof.
  revert started used. induction rs as [|[o r] rs IH]; intros started used Hu; cbn [budget].
  { exists [], []. split_and?; try done. intros _. right. by destruct started; [|cbn; lia]. }
  pose proof (record_len_ge r).
  destruct (started && _) eqn:E.
  { apply andb_true_iff in E as [-> _]. exists [], ((o, r) :: rs). split_and?; try done.
    by right. }
  destruct (IH true (saturating_add used (4 + record_len r))) as (t & l & -> & -> & _ & Hm).
  { unfold saturating_add. range. }
  exists ((o, r) :: t), l. split_and?; try done.
  intros Hmax. specialize (Hm Hmax). cbn [total_len foldr snd]. fold (total_len t).
  assert (0 <= total_len t).
  { clear. induction t as [|[o' r'] t IH]; [done|]. cbn [total_len foldr snd].
    fold (total_len t). pose proof (record_len_ge r'). lia. }
  destruct started; cbn [andb] in E.
  - apply Z.ltb_ge in E. unfold saturating_add in *. left. destruct Hm as [Hm|Hm]; [lia|].
    subst t. cbn. lia.
  - destruct Hm as [Hm| ->]; [|right; cbn; lia]. left. unfold saturating_add in *. lia.
Qed.
End read.
