(* ===== verification/LogOpen.v ===== *)
(** * LogOpen: [open] rebuilds the log from the directory.

    The segments are found and ordered whatever order the directory lists
    them in; a torn record at the end of the last file is cut off; index
    files are rebuilt. *)

From stdpp Require Import base numbers list strings gmap sorting.
From Stdlib Require Import ZArith Lia.
From S2P Require Import Prelude Text Files Runs Record RecordFacts Log LogRep LogFacts LogAppend LogRead.

(** A part of a record, too short to be read. *)
Definition torn `{!Crc32} (t : bytes) : Prop :=
  t = [] \/ exists o r q, record_ok r /\ wire_record o r = t ++ q /\ q <> [].

(** The directory after a crash: the files of all segments, bytes of an
    unfinished record behind the last one, and any index files. *)
Definition crashed `{!Crc32} (cf : Config) (cs : list chunk) (t : bytes) (d : Dir) : Prop :=
  (forall i c, cs = i ++ [c] -> d !! log_name c.1 = Some (chunk_file c ++ t)) /\
  (forall i c j, cs = i ++ c :: j -> j <> [] -> d !! log_name c.1 = Some (chunk_file c)) /\
  (forall n, is_Some (d !! n) -> is_Some (dir_of cf cs !! n)).

(* ------------------------------------------------------------------ *)
(** ** Ordering                                                         *)
(* ------------------------------------------------------------------ *)

#[export] Instance base_le_trans : Transitive base_le.
Proof. unfold base_le. intros x y z. lia. Qed.
#[export] Instance base_le_total : Total base_le.
Proof. unfold base_le. intros x y. lia. Qed.

Definition base_lt (s t : SegmentMetadata) : Prop := sg_base_offset s < sg_base_offset t.

(** There is one way to sort segments with different bases. *)
Lemma sorted_by_base l l' :
  StronglySorted base_lt l -> StronglySorted base_le l' -> l' ≡ₚ l -> l' = l.
Proof.
  revert l'. induction l as [|m l IH]; intros l' Hl Hl' Hp.
  { by apply Permutation_nil_r in Hp. }
  destruct l' as [|x l']; [by apply Permutation_nil_l in Hp|].
  inversion Hl as [|? ? Hl1 Hm]; subst. inversion Hl' as [|? ? Hl2 Hx]; subst.
  assert (x = m) as ->.
  { assert (m ∈ x :: l') as Hin by (rewrite Hp; left).
    assert (x ∈ m :: l) as Hin' by (rewrite <- Hp; left).
    apply elem_of_cons in Hin as [|Hin]; [done|].
    apply elem_of_cons in Hin' as [|Hin']; [done|].
    rewrite Forall_forall in Hm, Hx. specialize (Hm x Hin'). specialize (Hx m Hin).
    unfold base_lt, base_le in *. lia. }
  f_equal. apply IH; [done..|]. by eapply Permutation_cons_inv.
Qed.

Lemma NoDup_omap_key {A B K} (f : A -> option B) (key : A -> K) (g : B -> K) (l : list A) :
  (forall a b, f a = Some b -> g b = key a) -> NoDup (key <$> l) -> NoDup (g <$> omap f l).
Proof.
  intros Hf Hl. eapply sublist_NoDup; [done|]. clear Hl.
  induction l as [|a l IH]; [done|]. cbn. destruct (f a) as [b|] eqn:E.
  - cbn. rewrite (Hf _ _ E). by apply sublist_skip.
  - by apply sublist_cons.
Qed.

(* ------------------------------------------------------------------ *)
(** ** Finding the segments                                             *)
(* ------------------------------------------------------------------ *)

Section discover.
Context `{!Crc32}.

Definition meta_of (b : Z) (contents : bytes) : SegmentMetadata :=
  {| sg_base_offset := b; sg_path := log_name b; sg_len := blen contents; sg_index := [] |}.

Lemma segment_entry_log b contents :
  is_u64 b -> segment_entry (log_name b, contents) = Ok (Some (meta_of b contents)).
Proof.
  intros Hb. assert (0 <= b) as Hb0 by range. unfold segment_entry, extension, file_stem.
  rewrite split_log_name by done. cbn [fst snd].
  rewrite bool_decide_eq_true_2 by done. cbn [negb].
  destruct (pad20_digits b Hb0) as [Hl HF].
  assert (is_str (pad20 b)) as Hs.
  { apply utf8_valid_ascii. eapply Forall_impl; [done|].
    unfold is_ascii_digit. intros x ?%between_true. lia. }
  rewrite from_utf8_as_bytes by done. unfold str_len at 1, blen. rewrite Hl.
  replace (forallb is_ascii_digit (as_bytes (pad20 b))) with true.
  2:{ symmetry. apply forallb_forall. intros x Hx%list_elem_of_In.
      by eapply Forall_forall in HF. }
  change (negb (Z.of_nat 20 =? 20) || negb true) with false. cbv iota.
  by rewrite parse_pad20.
Qed.
Lemma segment_entry_idx b contents :
  0 <= b -> segment_entry (idx_name b, contents) = Ok None.
Proof.
  intros Hb. unfold segment_entry, extension. rewrite split_idx_name by done. cbn [snd].
  by rewrite bool_decide_eq_false_2.
Qed.

Definition entry_meta (e : string * bytes) : option SegmentMetadata :=
  match segment_entry e with Ok m => m | _ => None end.

Lemma segment_entries_omap l :
  Forall (fun e => is_ok (segment_entry e) = true) l ->
  segment_entries l = Ok (omap entry_meta l).
Proof.
  induction 1 as [|e l He _ IH]; [done|]. cbn [segment_entries]. rewrite IH.
  change (omap entry_meta (e :: l)) with
    (match entry_meta e with Some m => m :: omap entry_meta l | None => omap entry_meta l end).
  assert (forall o, entry_meta e = match o with Ok m => m | _ => None end ->
    is_ok o = true -> obind o (fun s => Ok (match s with Some m => m :: omap entry_meta l
      | None => omap entry_meta l end)) = Ok (E := StorageError) (match entry_meta e with
      Some m => m :: omap entry_meta l | None => omap entry_meta l end)) as Ho
    by (intros [m| |] Heq Hok; [by rewrite Heq|done..]).
  by apply Ho.
Qed.

Lemma entry_meta_path e m : entry_meta e = Some m -> sg_path m = e.1.
Proof.
  unfold entry_meta, segment_entry. destruct e as [n c]. cbn [fst].
  repeat (case_match; try done); simplify_eq/=; by intros [= <-].
Qed.

(** The names in a directory that a log uses. *)
Lemma dir_of_names cf cs n :
  is_Some (dir_of cf cs !! n) -> exists c, c ∈ cs /\ (n = log_name c.1 \/ n = idx_name c.1).
Proof.
  induction cs as [|c cs IH]; cbn [dir_of].
  { rewrite lookup_empty. by intros []. }
  rewrite !lookup_insert_is_Some'. intros [<-|[<-|H']].
  - exists c. split; [left|auto].
  - exists c. split; [left|auto].
  - destruct (IH H') as (d & ? & ?). exists d. split; [by right|done].
Qed.

(** The contents of the file of each segment. *)
Definition tail_of (t : bytes) (rest : list chunk) : bytes :=
  if bool_decide (rest = []) then t else [].
Fixpoint metas_of (t : bytes) (cs : list chunk) : list SegmentMetadata :=
  match cs with
  | [] => []
  | c :: cs => meta_of c.1 (chunk_file c ++ tail_of t cs) :: metas_of t cs
  end.

Lemma crashed_lookup cf cs t d i c j :
  crashed cf cs t d -> cs = i ++ c :: j ->
  d !! log_name c.1 = Some (chunk_file c ++ tail_of t j).
Proof.
  intros (Hlast & Hin & _) ->. unfold tail_of. destruct j as [|e j].
  - rewrite bool_decide_eq_true_2 by done. by eapply Hlast.
  - rewrite bool_decide_eq_false_2, app_nil_r by done. by eapply Hin.
Qed.

Lemma metas_sorted b t cs :
  contiguous b cs -> StronglySorted base_lt (metas_of t cs) /\
  (forall m, m ∈ metas_of t cs <->
     exists i c j, cs = i ++ c :: j /\ m = meta_of c.1 (chunk_file c ++ tail_of t j)).
Proof.
  revert b. induction cs as [|c cs IH]; intros b; cbn [contiguous metas_of].
  { intros _. split; [constructor|]. intros m. split; [by intros ?%not_elem_of_nil|].
    intros (i & c & j & Heq & _). by destruct i. }
  intros (<- & Hne & Hc). destruct (IH _ Hc) as [IHs IHm]. split.
  - constructor; [done|]. apply Forall_forall. intros m (i & e & j & -> & ->)%IHm.
    pose proof (contiguous_bases _ _ Hc) as Hb. rewrite Forall_forall in Hb.
    specialize (Hb e ltac:(apply elem_of_app; right; left)).
    assert (0 < clen c.2); [|unfold base_lt; cbn in *; lia].
    unfold clen. destruct c.2; [|cbn [length]; lia]. exfalso. apply Hne; [by destruct i|done].
  - intros m. rewrite elem_of_cons, IHm. split.
    + intros [->|(i & e & j & -> & ->)]; [by exists [], c, cs|by exists (c :: i), e, j].
    + intros (i & e & j & Heq & ->). destruct i as [|x i]; cbn in Heq; simplify_eq; [by left|].
      right. by exists i, e, j.
Qed.

Lemma wf_base cs i c j : wf_chunks cs -> cs = i ++ c :: j -> is_u64 c.1.
Proof.
  intros (_ & Hlo & Hhi & Hc & _) ->.
  pose proof (contiguous_bases _ _ Hc) as Hb. rewrite Forall_forall in Hb.
  specialize (Hb c ltac:(apply elem_of_app; right; left)). cbn in Hb. unfold next in Hhi. range.
Qed.

Lemma discover_spec cf cs t d :
  wf_chunks cs -> crashed cf cs t d -> discover_segments d = (Ok (metas_of t cs), d).
Proof.
  intros Hwf Hd. pose proof Hwf as (_ & _ & _ & Hc & _).
  assert (forall c, c ∈ cs -> is_u64 c.1) as Hu.
  { intros c (i & j & ->)%list_elem_of_split. by eapply wf_base. }
  unfold discover_segments. erewrite bind_Ok by apply get_run. cbv beta.
  assert (Forall (fun e => is_ok (segment_entry e) = true) (map_to_list d)) as HF.
  { apply Forall_forall. intros [n c] Hin%elem_of_map_to_list.
    destruct Hd as (_ & _ & Hdom). destruct (dir_of_names cf cs n) as (e & He & [->| ->]); [eauto|..].
    - by rewrite segment_entry_log by by apply Hu.
    - rewrite segment_entry_idx; [done|]. specialize (Hu e He). range. }
  unfold lift. rewrite segment_entries_omap by done. erewrite bind_Ok by done. cbv beta.
  unfold ret. do 2 f_equal. destruct (metas_sorted _ t _ Hc) as [Hs Hm].
  apply sorted_by_base; [done|apply StronglySorted_merge_sort; apply _|].
  rewrite merge_sort_Permutation. apply NoDup_Permutation.
  - apply (NoDup_fmap_1 sg_path), (NoDup_omap_key _ fst);
      [apply entry_meta_path|apply NoDup_fst_map_to_list].
  - clear -Hs. induction Hs as [|m l Hs IH Hm]; constructor; [|done].
    intros Hin. rewrite Forall_forall in Hm. specialize (Hm m Hin). unfold base_lt in Hm. lia.
  - intros m. rewrite Hm, list_elem_of_omap. split.
    + intros ([n c] & Hin%elem_of_map_to_list & He).
      pose proof Hd as (_ & _ & Hdom).
      destruct (dir_of_names cf cs n) as (e & Hin' & [->| ->]); [eauto|..].
      * apply list_elem_of_split in Hin' as (i & j & ->).
        pose proof (crashed_lookup _ _ _ _ i e j Hd eq_refl) as Hl.
        rewrite Hl in Hin. injection Hin as <-.
        exists i, e, j. split; [done|]. unfold entry_meta in He.
        rewrite segment_entry_log in He by by eapply wf_base. by injection He.
      * unfold entry_meta in He. rewrite segment_entry_idx in He; [done|].
        specialize (Hu e Hin'). range.
    + intros (i & c & j & -> & ->). exists (log_name c.1, chunk_file c ++ tail_of t j).
      split; [by apply elem_of_map_to_list; eapply crashed_lookup|].
      unfold entry_meta. by rewrite segment_entry_log by by eapply wf_base.
Qed.
End discover.

(* ------------------------------------------------------------------ *)
(** ** Recovering a segment                                             *)
(* ------------------------------------------------------------------ *)

Section recover.
Context `{!Crc32} `{!Crc32Ok}.

Lemma decode_torn t : torn t -> decode_record t = (Ok None, t).
Proof.
  intros [->|(o & r & q & Hr & Hw & Hq)]; [done|]. by eapply decode_record_incomplete.
Qed.

Lemma recover_producer st o r :
  record_ok r -> sequence_ok st r ->
  match rec_producer r with
  | None => Ok st
  | Some p =>
      fst ((validate_producer_id (producer_id p) ;;;
            check_sequence st p ;;;
            ret (<[producer_id p := (producer_sequence p, o)]> st)) tt)
  end = Ok (record_producer st o r).
Proof.
  intros (_ & _ & Hp) Hs. unfold sequence_ok, record_producer in *.
  destruct (rec_producer r) as [p|]; [|done].
  erewrite bind_Ok by by apply validate_producer_id_ok. cbv beta.
  unfold check_sequence, reject_if. destruct Hp as (_ & _ & ? & ?).
  destruct (st !! producer_id p) as [[s o']|].
  - assert (saturating_add s 1 = producer_sequence p) as -> by (unfold saturating_add; range).
    by rewrite Z.eqb_refl.
  - by rewrite Hs.
Qed.

Lemma recover_loop_spec interval fuel total o rs t idx st :
  (length rs < fuel)%nat -> Forall record_ok rs -> 0 <= o -> o + clen rs <= U64_MAX ->
  sequences_ok st o rs -> torn t ->
  recover_loop interval fuel total (chunk_bytes o rs ++ t) o idx st =
  Ok (o + clen rs, total - blen t,
      index_from interval o (total - blen (chunk_bytes o rs ++ t)) rs idx, replay st o rs).
Proof.
  revert fuel o idx st. induction rs as [|r rs IH]; intros fuel o idx st Hf HF Ho Hn Hs Ht;
    (destruct fuel as [|fuel]; [simpl in Hf; lia|]); cbn [recover_loop chunk_bytes app].
  { rewrite decode_torn by done. by rewrite clen_nil, Z.add_0_r. }
  apply Forall_cons in HF as [Hr HF]. rewrite clen_cons in *. pose proof (clen_nonneg rs).
  cbn [length] in Hf. destruct Hs as [Hs1 Hs].
  rewrite <- app_assoc. rewrite decode_record_wire by (done || range). cbv beta iota zeta.
  cbn [sr_offset sr_producer stored]. rewrite Z.eqb_refl. cbn [negb].
  rewrite recover_producer by done. cbn [obind]. unfold checked_add.
  destruct (Z.leb_spec (o + 1) U64_MAX); [|lia].
  rewrite IH by (done || lia). cbn [replay index_from]. unfold add_entry.
  rewrite (blen_app (wire_record o r)), blen_wire_record.
  set (n := blen (chunk_bytes (o + 1) rs ++ t)).
  replace (total - (4 + record_len r + n) + (4 + record_len r)) with (total - n) by lia.
  replace (o + 1 + clen rs) with (o + (1 + clen rs)) by lia. done.
Qed.

Lemma recover_segment_spec interval (d : Dir) c t st :
  d !! log_name c.1 = Some (chunk_file c ++ t) -> Forall record_ok c.2 -> 0 <= c.1 ->
  c.1 + clen c.2 <= U64_MAX -> sequences_ok st c.1 c.2 -> torn t ->
  recover_segment interval (log_name c.1) c.1 st d =
  (Ok (c.1 + clen c.2, blen (chunk_file c), chunk_index interval c, replay st c.1 c.2), d).
Proof.
  intros Hd HF Hb Hn Hs Ht. unfold recover_segment, read_file.
  rewrite bind_assoc. erewrite bind_Ok by apply get_run. cbv beta. rewrite Hd.
  erewrite bind_Ok by by apply ok_or_Some. unfold lift, chunk_file. f_equal.
  rewrite recover_loop_spec; try done.
  - unfold chunk_index. rewrite blen_app, Z.sub_diag.
    do 4 f_equal. lia.
  - pose proof (chunk_bytes_len_ge c.1 c.2). rewrite length_app. lia.
Qed.

(* ---------------------------------------------------------------- *)
(** ** Opening                                                       *)
(* ---------------------------------------------------------------- *)

Lemma write_entries n es (d : Dir) x :
  d !! n = Some x ->
  for_each es (fun e => write_all n (encode_index_entry e)) d =
  (Ok tt, <[n := x ++ (es ≫= encode_index_entry)]> d).
Proof.
  revert d x. induction es as [|e es IH]; intros d x Hx; cbn [for_each].
  { change ([] ≫= encode_index_entry) with ([] : bytes). by rewrite app_nil_r, insert_id. }
  erewrite bind_Ok by apply write_all_alter. cbv beta.
  rewrite (IH _ (x ++ encode_index_entry e)) by (rewrite lookup_alter_eq, Hx; done).
  rewrite bind_cons, app_assoc. f_equal. apply map_eq. intros k.
  destruct (decide (k = n)) as [->|].
  - by rewrite !lookup_insert_eq.
  - by rewrite !lookup_insert_ne, lookup_alter_ne by done.
Qed.

Lemma rewrite_index_spec cf c s (d : Dir) :
  sg_path s = log_name c.1 -> sg_index s = chunk_index (cf_index_interval_bytes cf) c ->
  rewrite_index s d = (Ok tt, <[idx_name c.1 := index_file cf c]> d).
Proof.
  intros Hp Hi. unfold rewrite_index. rewrite Hp, Hi. fold (idx_name c.1).
  erewrite bind_Ok by done. cbv beta. rewrite (write_entries _ _ _ []).
  - by rewrite insert_insert_eq.
  - apply lookup_insert_eq.
Qed.

(** The files of a segment: the torn bytes are cut off, the index is new. *)
Lemma open_one c t rest (d : Dir) s :
  s = meta_of c.1 (chunk_file c ++ tail_of t rest) ->
  d !! log_name c.1 = Some (chunk_file c ++ tail_of t rest) ->
  (if blen (chunk_file c) <? sg_len s then
     reject_if (negb (bool_decide (metas_of t rest = []))) (IncompleteClosedSegment (sg_base_offset s)) ;;;
     set_len (sg_path s) (blen (chunk_file c))
   else ret tt) d = (Ok tt, <[log_name c.1 := chunk_file c]> d) /\
  (if blen (chunk_file c) <? sg_len s then blen (chunk_file c) else sg_len s) =
    blen (chunk_file c).
Proof.
  intros -> Hd. cbn [sg_len meta_of sg_path sg_base_offset]. rewrite blen_app.
  pose proof (blen_nonneg (tail_of t rest)).
  destruct (Z.ltb_spec (blen (chunk_file c)) (blen (chunk_file c) + blen (tail_of t rest)))
    as [Hlt|Hge].
  - split; [|done]. unfold tail_of in *. destruct rest as [|e rest].
    2:{ rewrite bool_decide_eq_false_2, blen_nil in Hlt by done. lia. }
    cbn [metas_of]. rewrite bool_decide_eq_true_2 in * by done.
    erewrite bind_Ok by done. cbv beta. unfold set_len.
    erewrite bind_Ok by apply get_run. cbv beta. rewrite Hd. unfold put. do 3 f_equal.
    unfold blen. rewrite Nat2Z.id. apply take_app_length.
  - assert (tail_of t rest = []) as Hnil by (apply blen_zero_nil; lia).
    rewrite Hnil, app_nil_r in Hd. rewrite insert_id by done. split; [done|].
    rewrite Hnil, blen_nil. lia.
Qed.

Lemma open_segments_spec cf b cs t st (d : Dir) :
  contiguous b cs -> 0 <= b -> b + clen (flat cs) <= U64_MAX -> Forall record_ok (flat cs) ->
  sequences_ok st b (flat cs) -> torn t ->
  (forall i c j, cs = i ++ c :: j -> d !! log_name c.1 = Some (chunk_file c ++ tail_of t j)) ->
  open_segments (cf_index_interval_bytes cf) (metas_of t cs) b st d =
  (Ok (segment_of cf <$> cs, b + clen (flat cs), replay st b (flat cs)), dir_of cf cs ∪ d).
Proof.
  revert b st d. induction cs as [|c cs IH]; intros b st d Hc Hb Hn HF Hs Ht Hd.
  { cbn. rewrite Z.add_0_r. by rewrite (left_id_L ∅ (∪)). }
  cbn [contiguous] in Hc. destruct Hc as (<- & Hne & Hc).
  rewrite flat_cons, clen_app in *. apply Forall_app in HF as [HFc HF].
  apply sequences_ok_app in Hs as [Hsc Hs].
  pose proof (clen_nonneg c.2). pose proof (clen_nonneg (flat cs)).
  cbn [metas_of open_segments].
  set (s := meta_of c.1 (chunk_file c ++ tail_of t cs)).
  pose proof (Hd [] c cs eq_refl) as Hdc.
  change (sg_base_offset s) with c.1 at 1. rewrite Z.eqb_refl.
  erewrite bind_Ok by done. cbv beta zeta. change (sg_path s) with (log_name c.1) at 1.
  assert (torn (tail_of t cs)) by (unfold tail_of; destruct (bool_decide _); [done|by left]).
  erewrite bind_Ok by (eapply recover_segment_spec; [exact Hdc|done|done|lia|done|done]).
  cbv beta iota.
  destruct (open_one c t cs d s eq_refl Hdc) as [Hset ->].
  erewrite bind_Ok by exact Hset. cbv beta.
  erewrite bind_Ok by (eapply (rewrite_index_spec cf c); done). cbv beta.
  assert (is_u64 c.1) as Hcu by range.
  assert (Forall (fun e => is_u64 e.1 /\ e.1 <> c.1) cs) as Hfr.
  { apply Forall_forall. intros e He.
    pose proof (contiguous_bases _ _ Hc) as Hbs. rewrite Forall_forall in Hbs.
    specialize (Hbs e He). cbn in Hbs.
    assert (0 < clen c.2).
    { unfold clen. destruct c.2; [|cbn [length]; lia]. exfalso. apply Hne; [|done].
      intros ->. by apply not_elem_of_nil in He. }
    split; [range|lia]. }
  pose proof (dir_of_fresh cf cs c.1 Hcu Hfr) as [Hfl Hfi].
  erewrite bind_Ok.
  2:{ apply IH; try done; try lia. intros i e j ->.
      rewrite !lookup_insert_ne; [by eapply (Hd (c :: i))|..].
      - intros Heq. apply Forall_app in Hfr as [_ Hfr]. apply Forall_cons in Hfr as [[??] _].
        by apply log_name_inj in Heq.
      - intros Heq. symmetry in Heq.
        apply Forall_app in Hfr as [_ Hfr]. apply Forall_cons in Hfr as [[??] _].
        apply log_idx_name in Heq; range. }
  cbv beta iota. unfold ret. f_equal.
  - rewrite replay_app, Z.add_assoc. done.
  - cbn [dir_of]. rewrite <- !insert_union_r by done.
    rewrite insert_insert_ne by (apply not_eq_sym, log_idx_name; range).
    by rewrite !insert_union_l.
Qed.

Definition settings (mx iv : Z) : Config :=
  {| cf_max_segment_bytes := mx; cf_index_interval_bytes := iv |}.
Definition topic_name_ok (topic : string) : Prop :=
  is_empty topic || starts_with "__" topic || negb (forallb id_byte (as_bytes topic)) = false.

Lemma union_covered (m d : Dir) :
  (forall n, is_Some (d !! n) -> is_Some (m !! n)) -> m ∪ d = m.
Proof.
  intros Hd. apply map_eq. intros n. rewrite lookup_union.
  destruct (m !! n) as [x|] eqn:Hm, (d !! n) as [y|] eqn:Hn; try done.
  exfalso. destruct (Hd n) as [z Hz]; [eauto|]. congruence.
Qed.

Lemma dir_of_last cf cs :
  wf_chunks cs ->
  dir_of cf cs !! log_name (active_base cs) <> None /\
  dir_of cf cs !! idx_name (active_base cs) <> None.
Proof.
  intros Hwf. pose proof (wf_snoc _ Hwf) as (i & b & rs & -> & _ & Hu & Hne).
  rewrite active_base_snoc. cbn [fst]. rewrite dir_of_snoc by done. cbn [fst].
  rewrite lookup_insert_eq, lookup_insert_ne, lookup_insert_eq by (apply log_idx_name; range).
  done.
Qed.

Lemma metas_nonempty t cs : cs <> [] -> metas_of t cs <> [].
Proof. by destruct cs. Qed.

(** The last steps of [open]. *)
Lemma open_active cf cs (d : Dir) n st :
  wf_chunks cs -> d = dir_of cf cs ->
  (active <- ok_or (last (segment_of cf <$> cs)) MissingActiveSegment ;;
   active_file <- open_append (sg_path active) ;;
   active_index_file <- open_append (index_path (sg_path active)) ;;
   ret {| lg_next_offset := n; lg_max_segment_bytes := cf_max_segment_bytes cf;
          lg_index_interval_bytes := cf_index_interval_bytes cf;
          lg_segments := segment_of cf <$> cs; lg_active_file := active_file;
          lg_active_index_file := active_index_file; lg_producer_state := st |}) d =
  (Ok {| lg_next_offset := n; lg_max_segment_bytes := cf_max_segment_bytes cf;
         lg_index_interval_bytes := cf_index_interval_bytes cf;
         lg_segments := segment_of cf <$> cs; lg_active_file := log_name (active_base cs);
         lg_active_index_file := idx_name (active_base cs); lg_producer_state := st |}, d).
Proof.
  intros Hwf ->. pose proof (dir_of_last cf cs Hwf) as [Hl Hi].
  destruct Hwf as [Hne _]. destruct (exists_last Hne) as (i & c & ->).
  rewrite active_base_snoc in *. rewrite fmap_app. cbn [fmap list_fmap]. rewrite last_snoc.
  erewrite bind_Ok by by apply ok_or_Some. cbv beta. cbn [sg_path segment_of].
  destruct (dir_of cf (i ++ [c]) !! log_name c.1) as [x|] eqn:Hx; [|done].
  erewrite bind_Ok by by eapply open_append_run. cbv beta. fold (idx_name c.1).
  destruct (dir_of cf (i ++ [c]) !! idx_name c.1) as [y|] eqn:Hy; [|done].
  erewrite bind_Ok by by eapply open_append_run. done.
Qed.

Lemma open_spec topic mx iv cs t (d : Dir) :
  topic_name_ok topic -> mx <> 0 -> iv <> 0 ->
  wf_chunks cs -> low cs = 0 -> sequences_ok ∅ 0 (flat cs) -> torn t ->
  crashed (settings mx iv) cs t d ->
  open topic mx iv d =
  (Ok (log_of (settings mx iv) {| al_chunks := cs; al_producers := replay ∅ 0 (flat cs) |}),
   dir_of (settings mx iv) cs).
Proof.
  intros Htopic Hmx Hiv Hwf Hlow Hs Ht Hd. unfold open.
  erewrite bind_Ok by by apply reject_if_false. cbv beta.
  do 2 (erewrite bind_Ok by (apply reject_if_false; by apply Z.eqb_neq); cbv beta).
  erewrite bind_Ok by by eapply discover_spec. cbv beta.
  pose proof Hwf as (Hne & _ & Hn & Hc & HF). unfold next in Hn. rewrite Hlow in *.
  rewrite bool_decide_eq_false_2 by by apply metas_nonempty.
  erewrite bind_Ok by done. cbv beta.
  erewrite bind_Ok.
  2:{ apply (open_segments_spec (settings mx iv) 0 cs t); try done.
      intros. by eapply crashed_lookup. }
  cbv beta iota. rewrite union_covered by apply Hd.
  rewrite (open_active (settings mx iv) cs) by done. unfold log_of, next.
  cbn [al_chunks al_producers]. by rewrite Hlow.
Qed.

(** A directory without segments becomes an empty log. *)
Lemma wf_empty : wf_log empty_log.
Proof. by repeat split. Qed.

Lemma open_empty topic mx iv :
  topic_name_ok topic -> mx <> 0 -> iv <> 0 ->
  open topic mx iv ∅ = (Ok (log_of (settings mx iv) empty_log), dir_of (settings mx iv) [(0, [])]).
Proof.
  intros Htopic Hmx Hiv. unfold open.
  erewrite bind_Ok by by apply reject_if_false. cbv beta.
  do 2 (erewrite bind_Ok by (apply reject_if_false; by apply Z.eqb_neq); cbv beta).
  erewrite bind_Ok by reflexivity. cbv beta. rewrite bool_decide_eq_true_2 by done.
  rewrite bind_assoc.
  erewrite bind_Ok by (apply create_segment_run; [done|apply lookup_empty|apply lookup_empty]).
  cbv beta. rewrite bind_ret_l.
  erewrite bind_Ok.
  2:{ apply (open_segments_spec (settings mx iv) 0 [(0, [])] []); try done.
      - by left.
      - intros i c j Heq. destruct i as [|x i]; [|by destruct i]. injection Heq as <- <-.
        rewrite lookup_insert_ne, lookup_insert_eq; [done|].
        by apply not_eq_sym, log_idx_name. }
  cbv beta iota. rewrite union_covered.
  - rewrite (open_active (settings mx iv) [(0, [])]); [done|apply wf_empty|done].
  - intros n. cbn [dir_of fst]. rewrite !lookup_insert_is_Some', lookup_empty. tauto.
Qed.

(** The intact directory is a crashed one that lost nothing. *)
Lemma intact cf cs : wf_chunks cs -> crashed cf cs [] (dir_of cf cs).
Proof.
  intros (Hne & Hlo & Hhi & Hc & _). unfold crashed.
  assert (forall i c j, cs = i ++ c :: j -> dir_of cf cs !! log_name c.1 = Some (chunk_file c))
    as Hl.
  { intros i c j ->. eapply dir_lookup_chunk; [exact Hc|done|done|].
    apply elem_of_app. right. left. }
  split_and?; [|by eauto|done]. intros i c ->. rewrite app_nil_r. by eapply Hl.
Qed.
End recover.
