(* ===== verification/Damage.v ===== *)
(** * Damage: a log whose bytes have changed is not opened.

    [damaged o r w]: the bytes [w] stand where the record [r] was written at
    offset [o], and one of them, behind the length, has changed.  [decode_record]
    refuses them, and with it the recovery of the segment and [open]. *)

From stdpp Require Import base numbers list strings gmap sorting.
From Stdlib Require Import ZArith Lia.
From S2P Require Import Prelude Text Files Runs Record Crc RecordFacts Log LogRep LogFacts LogAppend LogRead LogOpen.

Definition damaged `{!Crc32} (o : Z) (r : LogRecord) (w : bytes) : Prop :=
  exists p x y q, wire_record o r = p ++ x :: q /\ w = p ++ y :: q /\ x <> y /\ 4 <= blen p.

Lemma blen_change (p : bytes) x y q : blen (p ++ x :: q) = blen (p ++ y :: q).
Proof. by rewrite !blen_app, !blen_cons. Qed.
Lemma be_val_change (p : bytes) x y q : x <> y -> be_val (p ++ x :: q) <> be_val (p ++ y :: q).
Proof.
  intros Hne Heq. apply Hne.
  assert (length (p ++ x :: q) = length (p ++ y :: q)) as Hl by by rewrite !length_app.
  apply (f_equal (be (length (p ++ x :: q)))) in Heq. rewrite be_be_val, Hl, be_be_val in Heq.
  by apply app_inv_head in Heq as [= ->].
Qed.

Section damage.
Context `{!Crc32} `{!Crc32Ok} `{!Crc32Detects}.

Lemma blen_damaged o r w : damaged o r w -> blen w = 4 + record_len r.
Proof.
  intros (p & x & y & q & Hw & -> & _). by rewrite <- (blen_change p x), <- Hw, blen_wire_record.
Qed.

Lemma decode_body_mismatch c b :
  blen c = 4 -> be_val c <> crc32 b -> decode_body (c ++ b) = (Err ChecksumMismatch, b).
Proof.
  intros Hc Hne. unfold decode_body, get_u32, get_uint. rewrite bind_assoc.
  erewrite bind_Ok by by apply split_to_app. cbv beta. rewrite bind_ret_l.
  erewrite bind_Ok by apply get_run. cbv beta.
  apply Z.eqb_neq in Hne. unfold reject_if. rewrite Z.eqb_sym, Hne. by erewrite bind_Err.
Qed.

(** The checksum and the body no longer fit. *)
Lemma damaged_split o r w :
  record_ok r -> damaged o r w ->
  exists c b, w = be 4 (record_len r) ++ c ++ b /\ blen c = 4 /\ be_val c <> crc32 b.
Proof.
  intros Hr (p & x & y & q & Hw & -> & Hne & Hp). unfold wire_record in Hw.
  rewrite blen_wire_body in Hw. unfold CRC_SIZE in Hw.
  replace (4 + (record_len r - 4)) with (record_len r) in Hw by lia.
  apply app_eq_inv in Hw as [(k & Hk & Hq)|(k & -> & Hw)].
  { assert (k = []) as ->.
    { apply blen_zero_nil. apply (f_equal blen) in Hk. rewrite blen_app, blen_be in Hk.
      pose proof (blen_nonneg k). lia. }
    rewrite app_nil_r in Hk. subst p. cbn [app] in Hq.
    exists (y :: drop 1 (be 4 (crc32 (wire_body o r)))), (wire_body o r).
    destruct (be 4 (crc32 (wire_body o r))) as [|z l] eqn:Hb; [done|].
    injection Hq as <- ->. cbn [drop]. rewrite drop_0. split; [done|]. assert (blen (x :: l) = 4) as Hl by (rewrite <- Hb; apply blen_be).
    split; [done|]. pose proof (crc32_range (wire_body o r)).
    rewrite <- (be_val_be_small 4 (crc32 (wire_body o r))), Hb
      by (change (256 ^ Z.of_nat 4) with 4294967296; range).
    by apply (be_val_change []), not_eq_sym. }
  assert (be_val (be 4 (crc32 (wire_body o r))) = crc32 (wire_body o r)) as Hcrc.
  { pose proof (crc32_range (wire_body o r)). apply be_val_be_small.
    change (256 ^ Z.of_nat 4) with 4294967296. range. }
  apply app_eq_inv in Hw as [(l & Hl & Hq)|(l & -> & Hw)].
  - destruct l as [|z l].
    + rewrite app_nil_r in Hl. subst k. exists (be 4 (crc32 (wire_body o r))), (y :: q).
      rewrite <- !app_assoc. split; [done|]. rewrite blen_be. split; [done|].
      rewrite Hcrc. cbn [app] in Hq. rewrite <- Hq. by apply (crc32_detects [] x y q).
    + injection Hq as <- ->. exists (k ++ y :: l), (wire_body o r).
      rewrite <- !app_assoc. cbn [app]. split; [done|].
      rewrite <- (blen_change k x), <- Hl, blen_be. split; [done|].
      rewrite <- Hcrc, Hl. by apply be_val_change, not_eq_sym.
  - exists (be 4 (crc32 (wire_body o r))), (l ++ y :: q). rewrite <- !app_assoc. cbn [app].
    split; [done|]. rewrite blen_be. split; [done|]. rewrite Hcrc, Hw. by apply crc32_detects.
Qed.

Lemma decode_record_damaged o r w rest :
  record_ok r -> damaged o r w ->
  fst (decode_record (w ++ rest)) = Err ChecksumMismatch.
Proof.
  intros Hr Hd. pose proof (blen_damaged _ _ _ Hd) as Hlen. pose proof (record_len_ge r).
  pose proof (blen_nonneg rest). destruct (damaged_split _ _ _ Hr Hd) as (c & b & -> & Hc & Hne).
  destruct Hr as [Hl _]. unfold decode_record. erewrite bind_Ok by apply get_run. cbv beta zeta.
  rewrite (blen_app _ rest), Hlen. unfold LENGTH_SIZE.
  destruct (Z.ltb_spec (4 + record_len r + blen rest) 4); [lia|]. rewrite <- app_assoc.
  rewrite (take_app_length' (be 4 (record_len r))) by by rewrite length_be.
  unfold MAX_RECORD_SIZE, MIN_RECORD_SIZE, CRC_SIZE, V1_BODY_FIXED_SIZE in *.
  rewrite be_val_be_small by (change (256 ^ Z.of_nat 4) with 4294967296; lia). run_all.
  destruct (Z.ltb_spec (4 + record_len r + blen rest) (4 + record_len r)); [lia|].
  unfold advance. run_all.
  erewrite bind_Ok by (apply split_to_app; rewrite !blen_app, blen_be in Hlen; rewrite blen_app; lia).
  unfold on_frame, lift. rewrite decode_body_mismatch by done. by erewrite bind_Err.
Qed.

(* ------------------------------------------------------------------ *)
(** ** Recovery                                                         *)
(* ------------------------------------------------------------------ *)

Lemma recover_loop_damaged interval fuel total o rs r w rest idx st :
  (length rs < fuel)%nat -> Forall record_ok (rs ++ [r]) -> 0 <= o -> o + clen rs <= U64_MAX ->
  sequences_ok st o rs -> damaged (o + clen rs) r w ->
  recover_loop interval fuel total (chunk_bytes o rs ++ w ++ rest) o idx st =
  Err ChecksumMismatch.
Proof.
  revert fuel o idx st. induction rs as [|r0 rs IH]; intros fuel o idx st Hf HF Ho Hn Hs Hw;
    (destruct fuel as [|fuel]; [simpl in Hf; lia|]); cbn [recover_loop chunk_bytes app].
  { apply Forall_cons in HF as [Hr _].
    pose proof (decode_record_damaged _ _ _ rest Hr Hw) as Hd.
    destruct (decode_record (w ++ rest)) as [[| |] ?]; by simplify_eq/=. }
  apply Forall_cons in HF as [Hr HF]. rewrite clen_cons in *. pose proof (clen_nonneg rs).
  cbn [length] in Hf. destruct Hs as [Hs1 Hs].
  rewrite <- app_assoc. rewrite decode_record_wire by (done || range). cbv beta iota zeta.
  cbn [sr_offset sr_producer stored]. rewrite Z.eqb_refl. cbn [negb].
  rewrite recover_producer by done. cbn [obind]. unfold checked_add.
  destruct (Z.leb_spec (o + 1) U64_MAX); [|lia].
  apply IH; try done; [lia..|]. by replace (o + 1 + clen rs) with (o + (1 + clen rs)) by lia.
Qed.

(** The file of a segment in which the record [r], behind [rs], is damaged. *)
Definition damaged_file (b : Z) (rs : list LogRecord) (w : bytes) (rest : list LogRecord)
  : bytes := chunk_bytes b rs ++ w ++ chunk_bytes (b + clen rs + 1) rest.

Lemma recover_segment_damaged interval (d : Dir) b rs r w rest st :
  d !! log_name b = Some (damaged_file b rs w rest) -> Forall record_ok (rs ++ [r]) -> 0 <= b ->
  b + clen rs <= U64_MAX -> sequences_ok st b rs -> damaged (b + clen rs) r w ->
  recover_segment interval (log_name b) b st d = (Err ChecksumMismatch, d).
Proof.
  intros Hd HF Hb Hn Hs Hw. unfold recover_segment, read_file.
  rewrite bind_assoc. erewrite bind_Ok by apply get_run. cbv beta. rewrite Hd.
  erewrite bind_Ok by by apply ok_or_Some. unfold lift, damaged_file.
  rewrite (recover_loop_damaged _ _ _ _ _ r); try done.
  pose proof (chunk_bytes_len_ge b rs). rewrite length_app. lia.
Qed.

Lemma open_segments_damaged cf b i c j rs r w rest st (d : Dir) :
  contiguous b (i ++ c :: j) -> 0 <= b -> b + clen (flat (i ++ c :: j)) <= U64_MAX ->
  Forall record_ok (flat (i ++ c :: j)) -> sequences_ok st b (flat (i ++ c :: j)) ->
  (forall e, e ∈ i -> d !! log_name e.1 = Some (chunk_file e) /\
                      d !! idx_name e.1 = Some (index_file cf e)) ->
  c.2 = rs ++ r :: rest -> damaged (c.1 + clen rs) r w ->
  d !! log_name c.1 = Some (damaged_file c.1 rs w rest) ->
  open_segments (cf_index_interval_bytes cf) (metas_of [] (i ++ c :: j)) b st d =
  (Err ChecksumMismatch, d).
Proof.
  revert b st. induction i as [|e i IH]; intros b st Hc Hb Hn HF Hs Hi Hrs Hw Hd.
  - cbn [app] in *. destruct Hc as (<- & _ & _). rewrite flat_cons, Hrs in HF, Hs, Hn.
    rewrite cons_middle, !app_assoc in HF, Hs, Hn.
    rewrite !clen_app in Hn. pose proof (clen_nonneg rest). pose proof (clen_nonneg (flat j)).
    pose proof (clen_nonneg [r]).
    apply Forall_app in HF as [HF _]. apply Forall_app in HF as [HF _].
    apply sequences_ok_app in Hs as [Hs _]. apply sequences_ok_app in Hs as [Hs _].
    apply sequences_ok_app in Hs as [Hs _]. cbn [metas_of open_segments].
    change (sg_base_offset (meta_of _ _)) with c.1 at 1. rewrite Z.eqb_refl.
    erewrite bind_Ok by done. cbv beta zeta. change (sg_path (meta_of _ _)) with (log_name c.1) at 1.
    erewrite bind_Err; [done|]. eapply recover_segment_damaged; try done; lia.
  - cbn [app] in *. cbn [contiguous] in Hc. destruct Hc as (<- & Hne & Hc).
    rewrite flat_cons, ?clen_app in *. apply Forall_app in HF as [HFc HF].
    apply sequences_ok_app in Hs as [Hsc Hs].
    pose proof (clen_nonneg e.2). pose proof (clen_nonneg (flat (i ++ c :: j))).
    destruct (Hi e) as [Hlog Hidx]; [left|].
    cbn [metas_of open_segments].
    set (s := meta_of e.1 (chunk_file e ++ tail_of [] (i ++ c :: j))).
    assert (tail_of [] (i ++ c :: j) = []) as Ht by (unfold tail_of; by case_match).
    assert (d !! log_name e.1 = Some (chunk_file e ++ tail_of [] (i ++ c :: j))) as Hdc
      by by rewrite Ht, app_nil_r.
    change (sg_base_offset s) with e.1 at 1. rewrite Z.eqb_refl.
    erewrite bind_Ok by done. cbv beta zeta. change (sg_path s) with (log_name e.1) at 1.
    erewrite bind_Ok by (eapply recover_segment_spec; [exact Hdc|done|done|lia|done|
      rewrite Ht; by left]).
    cbv beta iota. destruct (open_one e [] (i ++ c :: j) d s eq_refl Hdc) as [Hset ->].
    erewrite bind_Ok by exact Hset. cbv beta. rewrite insert_id by done.
    erewrite bind_Ok by (eapply (rewrite_index_spec cf e); done). cbv beta.
    rewrite insert_id by done. erewrite bind_Err; [done|].
    apply IH; try done; [lia..|]. intros e' He'. apply Hi. by right.
Qed.

(* ------------------------------------------------------------------ *)
(** ** Opening                                                          *)
(* ------------------------------------------------------------------ *)

Lemma segment_entries_inv l ms :
  segment_entries l = Ok ms -> Forall (fun e => is_ok (segment_entry e) = true) l /\
  ms = omap entry_meta l.
Proof.
  revert ms. induction l as [|e l IH]; intros ms; [by intros [= <-]|]. cbn [segment_entries].
  destruct (segment_entry e) as [m| |] eqn:He; [|done..]. cbn [obind].
  destruct (segment_entries l) as [ms'| |]; [|done..]. destruct (IH ms' eq_refl) as [HF ->].
  intros [= <-]. split; [by constructor; [rewrite He|]|].
  assert (entry_meta e = m) as Hm by (unfold entry_meta; by rewrite He).
  cbn. by rewrite Hm.
Qed.
Lemma segment_entry_len n x x' :
  blen x = blen x' -> segment_entry (n, x) = segment_entry (n, x').
Proof. intros Hl. unfold segment_entry. by rewrite Hl. Qed.

(** The segments that are found depend on the names and the lengths of the
    files. *)
Lemma discover_changed (d : Dir) n x x' ms :
  d !! n = Some x -> blen x = blen x' -> StronglySorted base_lt ms ->
  discover_segments d = (Ok ms, d) ->
  discover_segments (<[n := x']> d) = (Ok ms, <[n := x']> d).
Proof.
  intros Hn Hl Hms Hd. unfold discover_segments in *.
  erewrite bind_Ok in Hd by apply get_run. erewrite bind_Ok by apply get_run. cbv beta in *.
  unfold lift in *. destruct (segment_entries (map_to_list d)) as [l| |] eqn:Hs; [|done..].
  apply segment_entries_inv in Hs as [HF ->].
  erewrite bind_Ok in Hd by done. unfold ret in Hd. injection Hd as Hsort.
  pose proof (map_to_list_insert (delete n d) n x (lookup_delete_eq _ _)) as Hp.
  rewrite insert_delete_eq, insert_id in Hp by done.
  pose proof (map_to_list_insert (delete n d) n x' (lookup_delete_eq _ _)) as Hp'.
  rewrite insert_delete_eq in Hp'.
  assert (Forall (fun e => is_ok (segment_entry e) = true) (map_to_list (<[n := x']> d))) as HF'.
  { rewrite Hp'. rewrite Hp in HF. apply Forall_cons in HF as [He HF]. constructor; [|done].
    by rewrite <- (segment_entry_len n x x'). }
  rewrite segment_entries_omap by done. erewrite bind_Ok by done. unfold ret. do 2 f_equal.
  apply sorted_by_base; [done|apply StronglySorted_merge_sort; apply _|].
  rewrite <- Hsort, !merge_sort_Permutation, Hp, Hp'. cbn.
  assert (entry_meta (n, x) = entry_meta (n, x')) as -> by (by unfold entry_meta; rewrite (segment_entry_len n x x')).
  done.
Qed.

Lemma blen_damaged_file o r w b rs rest :
  damaged o r w -> blen (chunk_bytes b (rs ++ r :: rest)) = blen (damaged_file b rs w rest).
Proof.
  intros Hw. unfold damaged_file. rewrite chunk_bytes_app. cbn [chunk_bytes].
  by rewrite !blen_app, (blen_damaged _ _ _ Hw), blen_wire_record.
Qed.

(** The files of a chunk that does not come last. *)
Lemma dir_lookup_before cf b i c j e :
  contiguous b (i ++ c :: j) -> 0 <= b -> b + clen (flat (i ++ c :: j)) <= U64_MAX -> e ∈ i ->
  e.1 < c.1 /\ 0 <= e.1 /\ c.1 <= U64_MAX /\
  dir_of cf (i ++ c :: j) !! idx_name e.1 = Some (index_file cf e).
Proof.
  revert b. induction i as [|d i IH]; intros b Hc Hb Hn Hin; [by apply not_elem_of_nil in Hin|].
  cbn [app] in *. destruct Hc as (<- & Hne & Hc). rewrite flat_cons, clen_app in Hn.
  assert (0 < clen d.2).
  { unfold clen. destruct d.2; [|cbn [length]; lia]. exfalso. apply Hne; [by destruct i|done]. }
  pose proof (contiguous_bases _ _ Hc) as Hbs. rewrite Forall_forall in Hbs. cbn in Hbs.
  assert (forall x, x ∈ i ++ c :: j -> d.1 < x.1 <= U64_MAX) as Hlt
    by (intros x Hx; specialize (Hbs x Hx); lia).
  destruct (Hlt c) as [Hdc Hcu]; [apply elem_of_app; right; left|].
  cbn [dir_of]. apply elem_of_cons in Hin as [->|Hin].
  - split_and?; [done..|]. rewrite lookup_insert_ne by (apply log_idx_name; lia).
    apply lookup_insert_eq.
  - assert (d.1 < e.1 <= U64_MAX) as Hde by (apply Hlt, elem_of_app; by left).
    destruct (IH _ Hc) as (? & ? & ? & Hl); [lia|lia|done|]. split_and?; [done..|].
    rewrite lookup_insert_ne by (apply log_idx_name; lia).
    rewrite lookup_insert_ne; [done|]. intros Heq. apply idx_name_inj in Heq; range.
Qed.

Lemma open_damaged topic mx iv i c j rs r w rest :
  let cs := i ++ c :: j in
  let d := <[log_name c.1 := damaged_file c.1 rs w rest]> (dir_of (settings mx iv) cs) in
  topic_name_ok topic -> mx <> 0 -> iv <> 0 ->
  wf_chunks cs -> low cs = 0 -> sequences_ok ∅ 0 (flat cs) ->
  c.2 = rs ++ r :: rest -> damaged (c.1 + clen rs) r w ->
  open topic mx iv d = (Err ChecksumMismatch, d).
Proof.
  intros cs d Htopic Hmx Hiv Hwf Hlow Hs Hc2 Hw. unfold open.
  erewrite bind_Ok by by apply reject_if_false. cbv beta.
  do 2 (erewrite bind_Ok by (apply reject_if_false; by apply Z.eqb_neq); cbv beta).
  pose proof Hwf as (Hne & Hlo & Hn & Hc & HF). unfold next in Hn. rewrite Hlow in *.
  assert (dir_of (settings mx iv) cs !! log_name c.1 = Some (chunk_file c)) as Hlog.
  { eapply dir_lookup_chunk; [exact Hc|done|done|]. apply elem_of_app. right. left. }
  erewrite bind_Ok.
  2:{ eapply discover_changed; [exact Hlog| | |by apply (discover_spec (settings mx iv) cs []), intact].
      - unfold chunk_file. rewrite Hc2. by eapply blen_damaged_file.
      - by eapply metas_sorted. }
  cbv beta. rewrite bool_decide_eq_false_2 by by apply metas_nonempty.
  erewrite bind_Ok by done. cbv beta. erewrite bind_Err; [done|].
  eapply (open_segments_damaged (settings mx iv)); try done; [|apply lookup_insert_eq].
  intros e He.
  destruct (dir_lookup_before (settings mx iv) 0 i c j e) as (? & ? & ? & Hidx); [done..|].
  unfold d. rewrite !lookup_insert_ne.
  - split; [|done]. eapply dir_lookup_chunk; [exact Hc|done|done|]. apply elem_of_app. by left.
  - by apply log_idx_name; lia.
  - intros Heq. apply log_name_inj in Heq; range.
Qed.
End damage.

(* ------------------------------------------------------------------ *)
(** ** The property                                                     *)
(* ------------------------------------------------------------------ *)

(** C39 A log with a changed byte is refused: when, in any segment of an intact
    log, one byte behind the length of any record has changed (in the checksum
    or in the body), decoding that record reports the checksum whatever follows,
    and [open] reports it too and leaves every file of the directory as it is. *)
Theorem damaged_log_is_refused `{!Crc32} `{!Crc32Ok} `{!Crc32Detects} topic mx iv i c j rs r w rest :
  let cs := i ++ c :: j in
  let d := <[log_name c.1 := damaged_file c.1 rs w rest]> (dir_of (settings mx iv) cs) in
  topic_name_ok topic -> mx <> 0 -> iv <> 0 ->
  wf_chunks cs -> low cs = 0 -> sequences_ok ∅ 0 (flat cs) ->
  c.2 = rs ++ r :: rest -> damaged (c.1 + clen rs) r w ->
  (forall more, fst (decode_record (w ++ more)) = Err ChecksumMismatch) /\
  open topic mx iv d = (Err ChecksumMismatch, d).
Proof.
  intros cs d Htopic Hmx Hiv Hwf Hlow Hs Hc Hw. split; [|by eapply open_damaged].
  intros more. eapply decode_record_damaged; [|done]. destruct Hwf as (_ & _ & _ & _ & HF).
  subst cs. rewrite flat_app, flat_cons, Hc in HF.
  apply Forall_app in HF as [_ [[_ [HF _]%Forall_cons]%Forall_app _]%Forall_app]. done.
Qed.

(** A byte of a record, changed. *)
Lemma damaged_at `{!Crc32} o r k x y :
  wire_record o r !! k = Some x -> x <> y -> (4 <= k)%nat ->
  damaged o r (<[k := y]> (wire_record o r)).
Proof.
  intros Hk Hne H4. pose proof (lookup_lt_Some _ _ _ Hk) as Hlt.
  exists (take k (wire_record o r)), x, y, (drop (S k) (wire_record o r)).
  split; [by rewrite take_drop_middle|]. rewrite insert_take_drop by done.
  split_and?; [done..|]. unfold blen. rewrite length_take. lia.
Qed.

(** Two segments; the value of the middle record is damaged. *)
Definition plain (v : string) : LogRecord :=
  {| rec_key := None; rec_value := as_bytes v; rec_timestamp_ms := 1; rec_producer := None |}.
Definition flipped : bytes := <[45%nat := byte_of_Z 120]> (wire_record (H := ieee_crc32) 1 (plain "one")).

Lemma damaged_log_is_refused_witness :
  let cs := [(0, [plain "zero"]); (1, [plain "one"; plain "two"])] in
  let d := <[log_name 1 := damaged_file (H := ieee_crc32) 1 [] flipped [plain "two"]]>
             (dir_of (H := ieee_crc32) (settings 110 64) cs) in
  (forall more, fst (decode_record (H := ieee_crc32) (flipped ++ more)) = Err ChecksumMismatch) /\
  open (H := ieee_crc32) "payments" 110 64 d = (Err ChecksumMismatch, d).
Proof.
  apply (damaged_log_is_refused (H := ieee_crc32) "payments" 110 64 [(0, [plain "zero"])]
           (1, [plain "one"; plain "two"]) [] [] (plain "one"));
    [| | | | | | |apply (damaged_at _ _ _ (byte_of_Z 111)); [vm_compute; reflexivity|done|lia]];
    repeat (split || constructor); try (vm_compute; (reflexivity || discriminate)).
Defined.

(** The length of a record is not covered by the checksum: one that has grown
    makes the rest of the active segment look like a torn tail.  Here the length
    of the second of three records has changed; [open] cuts the two last records
    off without an error. *)
Definition three : bytes :=
  chunk_bytes (H := ieee_crc32) 0 [plain "zero"; plain "one"; plain "two"].
Definition longer : bytes := <[51%nat := byte_of_Z 1]> three.

Lemma damaged_length_truncates :
  blen three = 145 /\ blen longer = 145 /\
  match open (H := ieee_crc32) "payments" 1024 64 {[log_name 0 := longer]} with
  | (Ok l, d) => lg_next_offset l = 1 /\ d !! log_name 0 = Some (wire_record (H := ieee_crc32) 0 (plain "zero"))
  | _ => False
  end.
Proof. vm_compute. repeat split. Qed.
