(* ===== verification/LogShrink.v ===== *)
(** * LogShrink: retention, truncation and replica appends. *)

From stdpp Require Import base numbers list strings gmap sorting.
From Stdlib Require Import ZArith Lia.
From S2P Require Import Prelude Text Files Runs Record RecordFacts Log LogRep LogFacts LogAppend LogRead.

Definition seg_count (cs : list chunk) : Z := Z.of_nat (length cs).

Section shrink.
Context `{!Crc32}.

(* ---------------------------------------------------------------- *)
(** ** Removing segments                                             *)
(* ---------------------------------------------------------------- *)

Lemma read_file_run n (d : Dir) c : d !! n = Some c -> read_file n d = (Ok c, d).
Proof. intros Hn. unfold read_file. erewrite bind_Ok by apply get_run. cbv beta. by rewrite Hn. Qed.
Lemma remove_file_run n (d : Dir) c : d !! n = Some c -> remove_file n d = (Ok tt, delete n d).
Proof. intros Hn. unfold remove_file. erewrite bind_Ok by apply get_run. cbv beta. by rewrite Hn. Qed.

Lemma contiguous_fresh b c cs :
  contiguous b (c :: cs) -> 0 <= b -> b + clen (flat (c :: cs)) <= U64_MAX ->
  is_u64 c.1 /\ Forall (fun e => is_u64 e.1 /\ e.1 <> c.1) cs.
Proof.
  cbn [contiguous]. intros (<- & Hne & Hc) Hb Hn. rewrite flat_cons, clen_app in Hn.
  pose proof (clen_nonneg c.2). pose proof (clen_nonneg (flat cs)). split; [range|].
  apply Forall_forall. intros e He. pose proof (contiguous_bases _ _ Hc) as Hbs.
  rewrite Forall_forall in Hbs. specialize (Hbs e He). cbn in Hbs.
  assert (0 < clen c.2).
  { unfold clen. destruct c.2; [|cbn [length]; lia]. exfalso. apply Hne; [|done].
    intros ->. by apply not_elem_of_nil in He. }
  split; [range|lia].
Qed.

Lemma remove_segment cf c cs :
  is_u64 c.1 -> Forall (fun e => is_u64 e.1 /\ e.1 <> c.1) cs ->
  remove_file (idx_name c.1) (dir_of cf (c :: cs)) =
    (Ok tt, <[log_name c.1 := chunk_file c]> (dir_of cf cs)) /\
  remove_file (log_name c.1) (<[log_name c.1 := chunk_file c]> (dir_of cf cs)) =
    (Ok tt, dir_of cf cs).
Proof.
  intros Hu Hfr. pose proof (dir_of_fresh cf cs c.1 Hu Hfr) as [Hl Hi]. cbn [dir_of].
  assert (log_name c.1 <> idx_name c.1) by (apply log_idx_name; range). split.
  - erewrite remove_file_run by (rewrite lookup_insert_ne by done; apply lookup_insert_eq).
    rewrite delete_insert_ne by done. by rewrite delete_insert_id.
  - erewrite remove_file_run by apply lookup_insert_eq. by rewrite delete_insert_id.
Qed.

Lemma contiguous_tail b c cs :
  contiguous b (c :: cs) -> cs <> [] -> contiguous (low cs) cs /\ low cs = c.1 + clen c.2.
Proof.
  cbn [contiguous]. intros (<- & _ & Hc) Hne. destruct cs as [|[b' rs] cs]; [done|].
  pose proof Hc as [Hb _]. cbn [fst] in Hb. subst b'. done.
Qed.
Lemma wf_tail c cs : wf_chunks (c :: cs) -> cs <> [] -> wf_chunks cs /\ next cs = next (c :: cs).
Proof.
  intros (_ & Hlo & Hhi & Hc & HF) Hne. destruct (contiguous_tail _ _ _ Hc Hne) as [Hc' Hl].
  destruct c as [b rs]. unfold next in *. cbn [low fst snd] in *.
  rewrite flat_cons, clen_app in *. cbn [snd] in *. apply Forall_app in HF as [_ HF].
  pose proof (clen_nonneg rs). unfold wf_chunks, next. rewrite Hl in *.
  split_and?; try done; lia.
Qed.

Lemma active_base_cons c cs : cs <> [] -> active_base (c :: cs) = active_base cs.
Proof. unfold active_base. by destruct cs. Qed.

Definition over_limit (mb : option Z) (total : Z) : bool :=
  match mb with Some limit => limit <? total | None => false end.
Definition over_age (age : option (string -> bool)) (n : string) : bool :=
  match age with Some reached => reached n | None => false end.
Lemma retain_cons mb age c cs total :
  cs <> [] ->
  retain mb age (c :: cs) total =
  if over_limit mb total || over_age age (log_name c.1)
  then retain mb age cs (saturating_sub total (blen (chunk_file c))) else c :: cs.
Proof. by destruct cs. Qed.

Lemma retention_loop_cons mb age s ss total removed :
  ss <> [] ->
  retention_loop mb age (s :: ss) total removed =
  (expired <-
     match age with
     | Some reached => _c <- on_dir (read_file (sg_path s)) ;; ret (reached (sg_path s))
     | None => ret false
     end ;;
   if negb (over_limit mb total) && negb expired then ret removed
   else
     on_dir (remove_file (index_path (sg_path s))) ;;;
     on_dir (remove_file (sg_path s)) ;;;
     l <- log_get ;;
     log_put (set_segments l ss) ;;;
     retention_loop mb age ss (saturating_sub total (sg_len s)) (removed + 1)).
Proof. by destruct ss. Qed.

Lemma retention_loop_spec cf mb age cs st total removed :
  wf_chunks cs ->
  retention_loop mb age (segment_of cf <$> cs) total removed
    (part_of cf {| al_chunks := cs; al_producers := st |}) =
  (Ok (removed + (seg_count cs - seg_count (retain mb age cs total))),
   part_of cf {| al_chunks := retain mb age cs total; al_producers := st |}).
Proof.
  revert total removed. induction cs as [|c cs IH]; intros total removed Hwf;
    [by destruct Hwf|]. destruct cs as [|c' cs].
  { cbn. unfold ret. do 2 f_equal. lia. }
  set (rest := c' :: cs) in *. assert (rest <> []) as Hne by done.
  destruct (wf_tail _ _ Hwf Hne) as [Hwf' Hnext].
  pose proof Hwf as (_ & Hlo & Hhi & Hc & _).
  destruct (contiguous_fresh _ _ _ Hc Hlo Hhi) as [Hu Hfr].
  rewrite (retain_cons mb age c rest total Hne).
  rewrite fmap_cons, retention_loop_cons by (by destruct rest).
  erewrite bind_Ok.
  2:{ instantiate (2 := over_age age (log_name c.1)). destruct age as [reached|]; [|reflexivity].
      erewrite bind_Ok; [reflexivity|]. apply on_dir_run, read_file_run.
      cbn [pt_dir part_of al_chunks]. apply lookup_insert_eq. }
  destruct (over_limit mb total || over_age age (log_name c.1)) eqn:E.
  2:{ apply orb_false_iff in E as [-> ->]. cbn [negb andb]. unfold ret. do 2 f_equal. lia. }
  replace (negb (over_limit mb total) && negb (over_age age (log_name c.1))) with false
    by (by rewrite <- negb_orb, E).
  destruct (remove_segment cf c rest Hu Hfr) as [Hr1 Hr2].
  cbn [sg_path segment_of]. fold (idx_name c.1).
  erewrite bind_Ok by (apply on_dir_run; cbn [pt_dir part_of al_chunks]; destruct age; apply Hr1).
  cbv beta. erewrite bind_Ok by (apply on_dir_run; cbn [pt_dir]; apply Hr2).
  cbv beta. erewrite bind_Ok by apply log_get_run. cbv beta.
  erewrite bind_Ok by apply log_put_run. cbv beta. cbn [pt_dir pt_log sg_len segment_of].
  specialize (IH (saturating_sub total (blen (chunk_file c))) (removed + 1) Hwf').
  match goal with |- retention_loop _ _ _ _ _ ?p = _ =>
    replace p with (part_of cf {| al_chunks := rest; al_producers := st |}) end.
  - rewrite IH. do 2 f_equal. unfold seg_count. cbn [length]. lia.
  - unfold part_of, log_of, set_segments. cbn [al_chunks al_producers]. f_equal.
    rewrite Hnext, active_base_cons by done. by destruct age.
Qed.

Lemma log_size_eq cf cs st :
  log_size_bytes (log_of cf {| al_chunks := cs; al_producers := st |}) = a_size cs.
Proof.
  unfold log_size_bytes, a_size. cbn [lg_segments log_of al_chunks].
  induction cs as [|c cs IH]; [done|]. cbn. by rewrite IH.
Qed.

Lemma apply_retention_spec cf mb age a :
  wf_log a ->
  apply_retention mb age (part_of cf a) =
  (Ok (seg_count (al_chunks a) - seg_count (al_chunks (a_retain mb age a))),
   part_of cf (a_retain mb age a)).
Proof.
  intros Hwf. unfold apply_retention. erewrite bind_Ok by apply log_get_run. cbv beta.
  destruct a as [cs st]. cbn [pt_log part_of lg_segments log_of al_chunks].
  rewrite (log_size_eq cf cs st), retention_loop_spec by done. done.
Qed.

(** What is left are the last chunks, at least one of them. *)
Lemma retain_suffix mb age cs total :
  cs <> [] -> exists gone, cs = gone ++ retain mb age cs total /\ retain mb age cs total <> [].
Proof.
  revert total. induction cs as [|c cs IH]; intros total Hne; [done|].
  destruct (decide (cs = [])) as [->|Hcs]; [by exists []|].
  rewrite retain_cons by done. destruct (_ || _); [|by exists []].
  destruct (IH (saturating_sub total (blen (chunk_file c))) Hcs) as (gone & Heq & Hr).
  exists (c :: gone). cbn [app]. by rewrite <- Heq.
Qed.
Lemma wf_suffix gone cs : wf_chunks (gone ++ cs) -> cs <> [] -> wf_chunks cs /\ next cs = next (gone ++ cs).
Proof.
  intros Hwf Hne. revert Hwf. induction gone as [|c gone IH]; intros Hwf; [done|].
  cbn [app] in *. destruct (wf_tail _ _ Hwf) as [Hwf' Hn]; [by destruct gone|].
  destruct (IH Hwf') as [? ?]. split; [done|]. congruence.
Qed.

(* ---------------------------------------------------------------- *)
(** ** Appending many records                                        *)
(* ---------------------------------------------------------------- *)

Lemma record_of_stored_of x : record_of_stored (stored_of x) = x.2.
Proof. by destruct x as [o []]. Qed.

Lemma a_append_accepts cf a r :
  record_ok r -> sequence_ok (al_producers a) r ->
  a_append cf a r = (Ok (next (al_chunks a)), a_push cf a r).
Proof.
  intros (Hl & _ & Hp) Hs. unfold a_append, sequence_ok in *.
  destruct (Z.ltb_spec MAX_RECORD_SIZE (record_len r)); [lia|].
  destruct (rec_producer r) as [p|]; [|done]. destruct Hp as ([? ?] & Hb & _). rewrite Hb.
  assert (is_empty (producer_id p) = false) as -> by (apply is_empty_false; lia).
  destruct (Z.ltb_spec 249 (str_len (producer_id p))); [lia|]. cbn [orb negb].
  destruct (al_producers a !! producer_id p) as [[s o]|].
  - rewrite Hs, Z.eqb_refl. destruct (Z.eqb_spec s (s + 1)); [lia|done].
  - by rewrite Hs.
Qed.

Lemma record_ok_typed r : record_ok r -> record_typed r.
Proof. intros (_ & ? & Hp). split; [done|]. destruct (rec_producer r); [|done]. by destruct Hp as (_ & _ & ?). Qed.

Lemma appends_spec cf a o rs :
  config_ok cf -> a_inv cf a -> Forall record_ok rs ->
  sequences_ok (al_producers a) (next (al_chunks a)) rs ->
  next (al_chunks a) + clen rs <= U64_MAX ->
  for_each (stored_of <$> number o rs)
    (fun s => _o <- append (record_of_stored s) ;; ret tt) (part_of cf a) =
  (Ok tt, part_of cf (a_appends cf a rs)) /\
  a_inv cf (a_appends cf a rs) /\
  low (al_chunks (a_appends cf a rs)) = low (al_chunks a) /\
  flat (al_chunks (a_appends cf a rs)) = flat (al_chunks a) ++ rs /\
  al_producers (a_appends cf a rs) = replay (al_producers a) (next (al_chunks a)) rs.
Proof.
  intros Hcf. revert a o. induction rs as [|r rs IH]; intros a o Hinv HF Hs Hn.
  { cbn. rewrite app_nil_r. done. }
  apply Forall_cons in HF as [Hr HF]. destruct Hs as [Hs1 Hs]. rewrite clen_cons in Hn.
  pose proof (clen_nonneg rs). pose proof Hinv as (Hwf & Hfit & Hst). pose proof Hwf as [Hne _].
  pose proof (a_append_accepts cf a r Hr Hs1) as Hacc.
  assert (next (al_chunks (a_push cf a r)) = next (al_chunks a) + 1) as Hnp
    by by apply next_push.
  assert (a_inv cf (a_push cf a r)) as Hinv'.
  { pose proof (a_append_inv cf a r Hinv (record_ok_typed r Hr) ltac:(lia)) as [Hi _].
    by rewrite Hacc in Hi. }
  destruct (IH (a_push cf a r) (o + 1) Hinv' HF) as (Hrun & Hi & Hlow & Hflat & Hrep).
  { by rewrite Hnp. }
  { rewrite Hnp. lia. }
  cbn [number fmap list_fmap for_each]. rewrite record_of_stored_of, bind_assoc. cbn [snd].
  erewrite bind_Ok by (rewrite append_spec by (done || apply record_ok_typed, Hr || lia);
    rewrite Hacc; reflexivity). cbv beta. rewrite bind_ret_l. rewrite Hnp in *.
  split; [exact Hrun|]. split; [done|]. change (a_appends cf a (r :: rs)) with
    (a_appends cf (a_push cf a r) rs). rewrite Hlow, Hflat, Hrep. cbn [al_chunks a_push].
  rewrite low_push, flat_push, <- app_assoc by done. done.
Qed.

(* ---------------------------------------------------------------- *)
(** ** Truncation                                                    *)
(* ---------------------------------------------------------------- *)

Lemma budget_all started used xs : budget U64_MAX started used xs = stored_of <$> xs.
Proof.
  revert started used. induction xs as [|[o r] xs IH]; intros started used; [done|].
  cbn [budget]. replace (started && (U64_MAX <? saturating_add used (4 + record_len r)))
    with false.
  - cbn. by rewrite IH.
  - symmetry. apply andb_false_iff. right. apply Z.ltb_ge. unfold saturating_add. lia.
Qed.

Lemma filter_all {A} (P : A -> Prop) `{!forall x, Decision (P x)} l :
  Forall P l -> filter P l = l.
Proof. induction 1 as [|x l Hx HF IH]; [done|]. by rewrite filter_cons_True, IH. Qed.

Lemma number_ge o rs : filter (fun x => 0 <= x.1) (number o rs) = number o rs \/ o < 0.
Proof.
  destruct (decide (o < 0)) as [|Ho]; [by right|left].
  assert (Forall (fun x : Z * LogRecord => 0 <= x.1) (number o rs)) as HF.
  { eapply Forall_impl; [apply number_bounds|]. cbn. intros; lia. }
  by apply filter_all.
Qed.

Lemma filter_below o n rs :
  filter (fun s => sr_offset s < n) (stored_of <$> number o rs) =
  stored_of <$> number o (take (Z.to_nat (n - o)) rs).
Proof.
  revert o. induction rs as [|r rs IH]; intros o; [by rewrite take_nil|].
  cbn [number fmap list_fmap]. destruct (decide (o < n)).
  - rewrite filter_cons_True by done. rewrite IH.
    replace (Z.to_nat (n - o)) with (Datatypes.S (Z.to_nat (n - (o + 1)))) by lia. done.
  - rewrite filter_cons_False by done. rewrite IH.
    by replace (Z.to_nat (n - o)) with O by lia; replace (Z.to_nat (n - (o + 1))) with O by lia.
Qed.

Lemma remove_all cf b cs l :
  contiguous b cs -> 0 <= b -> b + clen (flat cs) <= U64_MAX ->
  for_each (segment_of cf <$> cs) (fun segment =>
    on_dir (remove_file (index_path (sg_path segment))) ;;;
    on_dir (remove_file (sg_path segment))) {| pt_dir := dir_of cf cs; pt_log := l |} =
  (Ok tt, {| pt_dir := ∅; pt_log := l |}).
Proof.
  revert b. induction cs as [|c cs IH]; intros b Hc Hb Hn; [done|].
  destruct (contiguous_fresh _ _ _ Hc Hb Hn) as [Hu Hfr].
  destruct (remove_segment cf c cs Hu Hfr) as [Hr1 Hr2].
  rewrite fmap_cons. cbn [for_each]. rewrite bind_assoc. cbn [sg_path segment_of].
  fold (idx_name c.1). erewrite bind_Ok by (apply on_dir_run; apply Hr1). cbv beta.
  erewrite bind_Ok by (apply on_dir_run; cbn [pt_dir]; apply Hr2). cbv beta. cbn [pt_log].
  destruct Hc as (<- & _ & Hc). rewrite flat_cons, clen_app in Hn.
  pose proof (clen_nonneg c.2). eapply IH; [done|lia|lia].
Qed.

Lemma inv_empty cf : a_inv cf empty_log.
Proof.
  split; [by repeat split|]. split; [|apply map_Forall_empty].
  constructor; [right; cbn; lia|constructor].
Qed.

(** The records below the new end are appended to an empty log. *)
Definition kept (a : ALog) (offset : Z) : list LogRecord :=
  take (Z.to_nat (offset - low (al_chunks a))) (flat (al_chunks a)).

Lemma read_all a :
  0 <= low (al_chunks a) ->
  a_read a 0 U64_MAX = Ok (stored_of <$> number (low (al_chunks a)) (flat (al_chunks a))).
Proof.
  intros Hlo. unfold a_read, from_offset. rewrite budget_all.
  destruct (number_ge (low (al_chunks a)) (flat (al_chunks a))) as [->|]; [done|lia].
Qed.

Lemma truncate_steps `{!Crc32Ok} cf a offset :
  wf_log a -> 0 <= offset < next (al_chunks a) ->
  truncate_to offset (part_of cf a) =
  for_each (stored_of <$> number (low (al_chunks a)) (kept a offset))
    (fun s => _o <- append (record_of_stored s) ;; ret tt) (part_of cf empty_log).
Proof.
  intros Hwf Ho. pose proof Hwf as (Hne & Hlo & Hhi & Hc & _).
  unfold truncate_to. erewrite bind_Ok by apply log_get_run. cbv beta.
  cbn [pt_log part_of log_of lg_next_offset].
  destruct (Z.ltb_spec (next (al_chunks a)) offset); [lia|].
  destruct (Z.eqb_spec offset (next (al_chunks a))); [lia|].
  erewrite bind_Ok by (rewrite read_spec, read_all by done; reflexivity). cbv beta zeta.
  rewrite filter_below. fold (kept a offset).
  cbn [lg_segments]. unfold part_of at 1.
  erewrite bind_Ok by by eapply remove_all. cbv beta.
  assert (log_name 0 <> idx_name 0) by by apply log_idx_name.
  erewrite bind_Ok by (apply on_dir_run, create_segment_run; cbn [pt_dir];
    [done|apply lookup_empty..]). cbv beta. cbn [pt_dir pt_log sg_path].
  erewrite bind_Ok by (apply on_dir_run; eapply open_append_run; cbn [pt_dir];
    rewrite lookup_insert_ne by done; apply lookup_insert_eq). cbv beta.
  fold (idx_name 0). erewrite bind_Ok by (apply on_dir_run; eapply open_append_run;
    cbn [pt_dir]; apply lookup_insert_eq). cbv beta.
  erewrite bind_Ok by apply log_put_run. cbv beta. cbn [pt_dir pt_log].
  match goal with |- for_each _ _ ?p = for_each _ _ ?q => replace p with q; [done|] end.
  unfold part_of, log_of. cbn [al_chunks al_producers empty_log dir_of fst]. f_equal.
Qed.

Lemma next_kept a offset :
  wf_log a -> low (al_chunks a) <= offset <= next (al_chunks a) ->
  clen (kept a offset) = offset - low (al_chunks a) /\ Forall record_ok (kept a offset).
Proof.
  intros (_ & Hlo & Hhi & _ & HF) Ho. split; [|by apply Forall_take].
  unfold kept, clen, next in *. rewrite length_take. unfold clen in *. lia.
Qed.

Lemma truncate_spec `{!Crc32Ok} cf a offset :
  config_ok cf -> a_inv cf a ->
  low (al_chunks a) <= offset < next (al_chunks a) -> sequences_ok ∅ 0 (kept a offset) ->
  let a' := a_appends cf empty_log (kept a offset) in
  truncate_to offset (part_of cf a) = (Ok tt, part_of cf a') /\
  a_inv cf a' /\ complete a' /\ flat (al_chunks a') = kept a offset /\
  next (al_chunks a') = offset - low (al_chunks a).
Proof.
  intros Hcf Hinv Ho Hs. pose proof Hinv as (Hwf & _ & _).
  pose proof Hwf as (_ & Hlo & Hhi & _).
  destruct (next_kept a offset Hwf) as [Hlen HF]; [lia|].
  destruct (appends_spec cf empty_log (low (al_chunks a)) (kept a offset))
    as (Hrun & Hi & Hlow & Hflat & Hrep); try done; [apply inv_empty| |].
  { change (next (al_chunks empty_log)) with 0. lia. }
  cbn zeta. unfold complete. split_and?; try done.
  - rewrite truncate_steps by (done || lia). exact Hrun.
  - by rewrite Hflat.
  - rewrite Hrep, Hflat. done.
  - unfold next. rewrite Hlow, Hflat. change (0 + clen (kept a offset) = offset - low (al_chunks a)). lia.
Qed.

(* ---------------------------------------------------------------- *)
(** ** Replica appends                                               *)
(* ---------------------------------------------------------------- *)

Lemma from_offset_spec cs offset :
  low cs <= offset -> from_offset offset cs = number offset (drop (Z.to_nat (offset - low cs)) (flat cs)).
Proof.
  unfold from_offset. generalize (flat cs) as rs, (low cs) as o. intros rs o Ho.
  revert o Ho. induction rs as [|r rs IH]; intros o Ho; [by rewrite drop_nil|].
  cbn [number]. destruct (decide (o = offset)) as [->|Hne].
  - rewrite Z.sub_diag. change (Z.to_nat 0) with O. cbn [drop number].
    rewrite filter_cons_True by (cbn; lia).
    f_equal.
    assert (Forall (fun x : Z * LogRecord => offset <= x.1) (number (offset + 1) rs)) as HF.
    { eapply Forall_impl; [apply number_bounds|]. cbn. intros; lia. }
    by apply filter_all.
  - rewrite filter_cons_False by (cbn; lia). rewrite IH by lia.
    by replace (Z.to_nat (offset - o)) with (Datatypes.S (Z.to_nat (offset - (o + 1)))) by lia.
Qed.

Lemma find_below offset m started used o rs :
  offset < o ->
  List.find (fun e => sr_offset e =? offset) (budget m started used (number o rs)) = None.
Proof.
  revert started used o. induction rs as [|r rs IH]; intros started used o Ho; [done|].
  cbn [number budget]. destruct (_ && _); [done|]. cbn [List.find sr_offset stored].
  destruct (Z.eqb_spec o offset); [lia|]. apply IH. lia.
Qed.

Lemma find_record a offset :
  wf_log a -> 0 <= offset < next (al_chunks a) ->
  List.find (fun e => sr_offset e =? offset)
    (budget MAX_RECORD_SIZE false 0 (from_offset offset (al_chunks a))) =
  stored offset <$> record_at (al_chunks a) offset.
Proof.
  intros _ Ho. unfold record_at. destruct (Z.ltb_spec offset (low (al_chunks a))) as [Hlt|Hge].
  - unfold from_offset.
    assert (filter (fun x => offset <= x.1) (number (low (al_chunks a)) (flat (al_chunks a))) =
            number (low (al_chunks a)) (flat (al_chunks a))) as ->; [|by apply find_below].
    assert (Forall (fun x : Z * LogRecord => offset <= x.1)
      (number (low (al_chunks a)) (flat (al_chunks a)))) as HF.
    { eapply Forall_impl; [apply number_bounds|]. cbn. intros; lia. }
    by apply filter_all.
  - rewrite from_offset_spec by done. unfold next, clen in Ho.
    set (k := Z.to_nat (offset - low (al_chunks a))).
    destruct (flat (al_chunks a) !! k) as [r|] eqn:Hr.
    + rewrite (drop_S _ _ _ Hr). cbn [number budget andb List.find sr_offset stored].
      by rewrite Z.eqb_refl.
    + apply lookup_ge_None in Hr. lia.
Qed.

Lemma append_replica_spec `{!Crc32Ok} cf a offset r :
  config_ok cf -> a_inv cf a -> record_typed r -> 0 <= offset ->
  next (al_chunks a) < U64_MAX ->
  append_replica offset r (part_of cf a) =
  let '(o, a') := a_append_replica cf a offset r in (o, part_of cf a').
Proof.
  intros Hcf (Hwf & Hfit & Hst) Hr Ho Hmax. unfold append_replica, a_append_replica.
  erewrite bind_Ok by apply log_get_run. cbv beta. cbn [pt_log part_of log_of lg_next_offset].
  destruct (Z.ltb_spec offset (next (al_chunks a))).
  - erewrite bind_Ok by (rewrite read_spec by done; reflexivity). cbv beta.
    rewrite find_record by done.
    destruct (record_at (al_chunks a) offset) as [r'|]; cbn [fmap option_fmap option_map]; [|done].
    erewrite bind_Ok by done. cbv beta. cbn [sr_timestamp_ms sr_key sr_value stored].
    by destruct (_ && _).
  - unfold reject_if. destruct (Z.eqb_spec offset (next (al_chunks a))); [|done].
    erewrite bind_Ok by done. by apply append_spec.
Qed.
End shrink.
