(* ===== verification/Storage.v ===== *)
(** * Storage: what the partition log of [crates/storage] promises. *)

From stdpp Require Import base numbers list strings gmap sorting.
From Stdlib Require Import ZArith Lia.
From S2P Require Import Prelude Text Files Runs Record RecordFacts Log LogRep LogFacts LogAppend LogRead LogOpen LogShrink.

(** A checksum to run examples with. *)
Definition length_crc : Crc32 := fun b => blen b mod 4294967296.
#[local] Instance length_crc_ok : @Crc32Ok length_crc.
Proof.
  intros b. unfold crc32, length_crc, in_range, U32_MAX.
  pose proof (Z.mod_pos_bound (blen b) 4294967296 eq_refl). lia.
Qed.

(** The directory after the active file lost everything past byte [n]. *)
Definition cut `{!Crc32} (cf : Config) (a : ALog) (n : nat) : Dir :=
  alter (take n) (log_name (active_base (al_chunks a))) (dir_of cf (al_chunks a)).
(** The log that lost the last records of its active segment. *)
Definition shortened (a : ALog) (k : nat) : ALog :=
  let cs := match last (al_chunks a) with
            | Some c => removelast (al_chunks a) ++ [(c.1, take k c.2)]
            | None => []
            end in
  {| al_chunks := cs; al_producers := replay ∅ 0 (flat cs) |}.
Definition active_records (a : ALog) : list LogRecord := default [] (snd <$> last (al_chunks a)).
Definition active_len `{!Crc32} (a : ALog) (k : nat) : nat :=
  length (chunk_bytes (active_base (al_chunks a)) (take k (active_records a))).

Definition sample_cfg : Config := settings 100 16.
Definition sample_record (s : Z) : LogRecord :=
  {| rec_key := Some (as_bytes "k"); rec_value := as_bytes "value"; rec_timestamp_ms := 5;
     rec_producer := Some {| producer_id := "p"; producer_sequence := s |} |}.
Definition plain_record : LogRecord :=
  {| rec_key := None; rec_value := as_bytes "value"; rec_timestamp_ms := 5; rec_producer := None |}.
Definition sample_log `{!Crc32} : ALog :=
  a_appends sample_cfg empty_log [sample_record 0; sample_record 1; sample_record 2].
Definition plain_log `{!Crc32} : ALog :=
  a_appends sample_cfg empty_log [plain_record; plain_record; plain_record].

(* ------------------------------------------------------------------ *)
(** ** Helpers                                                          *)
(* ------------------------------------------------------------------ *)

Section helpers.
Context `{!Crc32}.

(** Every prefix of a segment file is some whole records and a torn one. *)
Lemma cut_bytes n b rs :
  Forall record_ok rs ->
  exists k t, take n (chunk_bytes b rs) = chunk_bytes b (take k rs) ++ t /\ torn t /\
    (k <= length rs)%nat /\ (length (chunk_bytes b (take k rs)) <= n \/ rs = [])%nat /\
    ((k < length rs)%nat -> (n < length (chunk_bytes b (take (Datatypes.S k) rs)))%nat).
Proof.
  intros HF. revert n b. induction HF as [|r rs Hr HF IH]; intros n b.
  { exists O, []. cbn. rewrite take_nil. split_and?; [done|by left|lia|by right|lia]. }
  cbn [chunk_bytes]. set (w := wire_record b r).
  destruct (decide (length w <= n)%nat) as [Hle|Hgt].
  - destruct (IH (n - length w)%nat (b + 1)) as (k & t & Heq & Ht & Hk & Hlen & Hmax).
    exists (Datatypes.S k), t. cbn [take chunk_bytes]. fold w.
    rewrite take_app_ge by done. rewrite Heq, app_assoc, !length_app.
    split_and?; try done; cbn [length]; try lia.
    + left. destruct Hlen as [? | ->]; [lia|]. rewrite take_nil. cbn [chunk_bytes length]. lia.
  - exists O, (take n w). cbn [take chunk_bytes app]. rewrite take_app_le by lia.
    split_and?; cbn [length]; try lia; try done.
    + right. exists b, r, (drop n w). split_and?; [done|by rewrite take_drop|].
      intros Hnil. apply (f_equal length) in Hnil. rewrite length_drop in Hnil. cbn [length] in Hnil. lia.
    + intros _. rewrite take_0. cbn [chunk_bytes]. rewrite app_nil_r. fold w. lia.
Qed.

Lemma dir_of_same_names cf i b rs rs' n :
  Forall (fun d => is_u64 d.1 /\ d.1 <> b) i -> is_u64 b ->
  is_Some (dir_of cf (i ++ [(b, rs)]) !! n) -> is_Some (dir_of cf (i ++ [(b, rs')]) !! n).
Proof. intros Hi Hb. rewrite !dir_of_snoc by done. cbn [fst]. by rewrite !lookup_insert_is_Some'. Qed.

Lemma crashed_cut cf i b rs k t n :
  wf_chunks (i ++ [(b, rs)]) -> Forall (fun d => is_u64 d.1 /\ d.1 <> b) i -> is_u64 b ->
  take n (chunk_bytes b rs) = chunk_bytes b (take k rs) ++ t ->
  crashed cf (i ++ [(b, take k rs)]) t
    (alter (take n) (log_name b) (dir_of cf (i ++ [(b, rs)]))).
Proof.
  intros (_ & Hlo & Hhi & Hc & _) Hi Hb Hcut. unfold crashed. split_and?.
  - intros i' c Heq. apply app_inj_tail in Heq as [<- <-]. cbn [fst].
    rewrite lookup_alter_eq, dir_of_snoc by done. cbn [fst].
    rewrite lookup_insert_eq. cbn. by rewrite <- Hcut.
  - intros i' c j Heq Hj. destruct (exists_last Hj) as (j' & x & ->).
    rewrite app_comm_cons, app_assoc in Heq. apply app_inj_tail in Heq as [-> _].
    apply Forall_app in Hi as [_ Hi]. apply Forall_cons in Hi as [[Hcu Hcb] _].
    rewrite lookup_alter_ne by (intros Hn; apply log_name_inj in Hn; done).
    eapply dir_lookup_chunk; [exact Hc|done|done|].
    rewrite !elem_of_app. left. right. left.
  - intros m. destruct (decide (m = log_name b)) as [->|].
    + intros _. eapply (dir_of_same_names cf i b rs); [done|done|].
      rewrite dir_of_snoc by done. by rewrite lookup_insert_eq.
    + rewrite lookup_alter_ne by done. by apply dir_of_same_names.
Qed.

Lemma wf_shorter i b rs k : wf_chunks (i ++ [(b, rs)]) -> wf_chunks (i ++ [(b, take k rs)]).
Proof.
  intros (_ & Hlo & Hhi & Hc & HF). unfold wf_chunks, next in *.
  assert (low (i ++ [(b, take k rs)]) = low (i ++ [(b, rs)])) as -> by by destruct i as [|[]].
  rewrite flat_snoc in *. cbn [snd] in *. rewrite clen_app in *.
  apply contiguous_app in Hc as (? & ? & Hc); [|done].
  split_and?; try done.
  - by intros []%app_eq_nil.
  - unfold clen in *. rewrite length_take. lia.
  - apply contiguous_app; [done|]. split_and?; try done. cbn in *. tauto.
  - apply Forall_app in HF as [? ?]. apply Forall_app. split; [done|]. by apply Forall_take.
Qed.

Lemma sequences_shorter i b rs k :
  sequences_ok ∅ 0 (flat (i ++ [(b, rs)])) -> sequences_ok ∅ 0 (flat (i ++ [(b, take k rs)])).
Proof.
  rewrite !flat_snoc. cbn [snd]. rewrite <- (take_drop k rs) at 1. rewrite app_assoc.
  by intros [? _]%sequences_ok_app.
Qed.

Lemma a_append_result cf a r :
  wf_log a ->
  match fst (a_append cf a r) with
  | Ok v => (v = next (al_chunks a) /\
             flat (al_chunks (snd (a_append cf a r))) = flat (al_chunks a) ++ [r]) \/
            snd (a_append cf a r) = a
  | Err _ => snd (a_append cf a r) = a
  | Panic => False
  end.
Proof.
  intros [Hne _]. destruct (a_append_cases cf a r) as [Hs|(-> & _)].
  - rewrite Hs. destruct (fst (a_append cf a r)) eqn:E; auto. revert E. unfold a_append.
    repeat (case_match; try done).
  - cbn. left. by rewrite flat_push.
Qed.

Lemma a_append_retry cf a r p v a' :
  rec_producer r = Some p -> a_append cf a r = (Ok v, a') -> a_append cf a' r = (Ok v, a').
Proof.
  intros Hp Ha. pose proof (a_append_cases cf a r) as Hc. rewrite Ha in Hc. cbn [snd] in Hc.
  destruct Hc as [-> |(Heq & Hl & Hok)]; [done|]. injection Heq as -> ->.
  rewrite Hp in Hok. destruct Hok as [[[Hlo Hhi] Hid] _].
  unfold a_append. rewrite Hp, Hid.
  assert (is_empty (producer_id p) = false) as -> by (apply is_empty_false; lia).
  destruct (Z.ltb_spec 249 (str_len (producer_id p))); [lia|]. cbn [orb negb a_push al_producers].
  unfold record_producer. by rewrite Hp, lookup_insert_eq, Z.eqb_refl.
Qed.

(** The read stops at the first record that does not fit. *)
Lemma budget_stops m started used rs taken x left :
  0 <= used -> m < U64_MAX -> rs = taken ++ x :: left ->
  budget m started used rs = stored_of <$> taken -> (started = true \/ taken <> []) ->
  m < used + total_len taken + (4 + record_len x.2).
Proof.
  intros Hu Hm. revert started used rs Hu.
  induction taken as [|[o r] taken IH]; intros started used rs Hu -> Hb Hs.
  - destruct Hs as [-> |]; [|done]. destruct x as [o r]. cbn [app fmap list_fmap budget] in Hb.
    destruct (_ && _) eqn:E; [|done]. apply andb_true_iff in E as [_ E%Z.ltb_lt].
    unfold saturating_add in E. cbn [total_len foldr snd]. lia.
  - cbn [app fmap list_fmap budget] in Hb. destruct (_ && _); [done|].
    injection Hb as Hb. pose proof (record_len_ge r).
    apply IH in Hb; [|unfold saturating_add; range|done|by left].
    cbn [total_len foldr snd]. fold (total_len taken). unfold saturating_add in Hb. lia.
Qed.

Lemma from_offset_start cs offset :
  let start := Z.max (low cs) offset in
  from_offset offset cs = number start (drop (Z.to_nat (start - low cs)) (flat cs)).
Proof.
  cbv zeta. destruct (Z.max_spec (low cs) offset) as [[? ->]|[? ->]];
    [apply from_offset_spec; lia|].
  rewrite Z.sub_diag. change (Z.to_nat 0) with O. cbn [drop]. unfold from_offset.
  apply filter_all. eapply Forall_impl; [apply number_bounds|]. cbn. intros. lia.
Qed.

Lemma number_length o rs : length (number o rs) = length rs.
Proof. revert o. induction rs as [|r rs IH]; intros o; [done|]. cbn [number length]. by rewrite IH. Qed.

Lemma number_split o rs taken left :
  number o rs = taken ++ left ->
  taken = number o (take (length taken) rs) /\ length left = (length rs - length taken)%nat.
Proof.
  revert o rs. induction taken as [|x taken IH]; intros o rs Hn.
  - cbn [length take number app] in *. rewrite <- Hn, number_length. split; [done|lia].
  - destruct rs as [|r rs]; [done|]. cbn [number app length take] in *.
    injection Hn as <- Hn. destruct (IH _ _ Hn) as [Ht Hl]. split; [by rewrite <- Ht|]. lia.
Qed.

(** A log of which the active segment lost its end. *)
Lemma shortened_snoc i b rs st k :
  shortened {| al_chunks := i ++ [(b, rs)]; al_producers := st |} k =
  {| al_chunks := i ++ [(b, take k rs)]; al_producers := replay ∅ 0 (flat (i ++ [(b, take k rs)])) |}.
Proof. unfold shortened. cbn [al_chunks]. by rewrite last_snoc, removelast_last. Qed.

Lemma low_shorter (i : list chunk) b rs rs' : low (i ++ [(b, rs)]) = low (i ++ [(b, rs')]).
Proof. by destruct i as [|[]]. Qed.

(** Dropping the first chunks. *)
Lemma suffix_low gone cs :
  wf_chunks (gone ++ cs) -> cs <> [] -> low cs = low (gone ++ cs) + clen (flat gone).
Proof.
  intros (_ & _ & _ & Hc & _) Hne. apply contiguous_app in Hc as (_ & _ & Hc); [|done].
  destruct cs as [|[b rs] cs]; [done|]. cbn [contiguous fst low] in Hc |- *. tauto.
Qed.

Lemma low_suffix gone cs :
  wf_chunks (gone ++ cs) -> cs <> [] -> gone <> [] -> low cs <> 0.
Proof.
  intros Hwf Hne Hg. rewrite (suffix_low gone cs) by done.
  destruct Hwf as (_ & Hlo & _ & Hc & _). apply contiguous_app in Hc as (_ & Hfull & _); [|done].
  destruct gone as [|[b rs] gone]; [done|]. apply Forall_cons in Hfull as [Hrs _].
  rewrite flat_cons, clen_app. cbn [snd] in *. pose proof (clen_nonneg (flat gone)).
  unfold clen in *. destruct rs; [done|]. cbn [length]. lia.
Qed.

Lemma record_at_suffix gone cs all o :
  wf_chunks all -> all = gone ++ cs -> cs <> [] -> low cs <= o -> record_at cs o = record_at all o.
Proof.
  intros Hwf -> Hne Ho. pose proof (suffix_low gone cs Hwf Hne) as Hlow.
  pose proof (clen_nonneg (flat gone)). unfold record_at.
  destruct (Z.ltb_spec o (low cs)); [lia|]. destruct (Z.ltb_spec o (low (gone ++ cs))); [lia|].
  unfold flat. rewrite bind_app, lookup_app_r; fold (flat gone); unfold clen in *; [|lia].
  f_equal. lia.
Qed.

(** A directory whose first segment does not start at 0 is not opened. *)
Lemma open_gap topic cf cs :
  topic_name_ok topic -> config_ok cf -> wf_chunks cs -> low cs <> 0 ->
  open topic (cf_max_segment_bytes cf) (cf_index_interval_bytes cf) (dir_of cf cs) =
  (Err (UnexpectedSegmentBase 0 (low cs)), dir_of cf cs).
Proof.
  intros Ht [Hmx Hiv] Hwf Hlow. unfold open.
  erewrite bind_Ok by by apply reject_if_false. cbv beta.
  do 2 (erewrite bind_Ok by (apply reject_if_false; apply Z.eqb_neq; lia); cbv beta).
  erewrite bind_Ok by (apply (discover_spec cf cs []); [done|by apply intact]). cbv beta.
  pose proof Hwf as (Hne & _). rewrite bool_decide_eq_false_2 by by apply metas_nonempty.
  erewrite bind_Ok by done. cbv beta. apply bind_Err.
  destruct cs as [|[b rs] cs]; [done|]. cbn [low] in *. cbn [metas_of open_segments].
  apply bind_Err. unfold reject_if. cbn [sg_base_offset meta_of fst].
  by rewrite (proj2 (Z.eqb_neq b 0) Hlow).
Qed.

Lemma retained_inv cf mb age a : a_inv cf a -> a_inv cf (a_retain mb age a).
Proof.
  intros (Hwf & Hfit & Hst). pose proof Hwf as [Hne _].
  destruct (retain_suffix mb age (al_chunks a) (a_size (al_chunks a)) Hne) as (gone & Heq & Hr).
  change (retain _ _ _ _) with (al_chunks (a_retain mb age a)) in Heq, Hr.
  unfold wf_log in Hwf. rewrite Heq in Hwf, Hfit. apply wf_suffix in Hwf as [? _]; [|done].
  apply Forall_app in Hfit as [_ ?]. done.
Qed.

Lemma no_producers st o rs :
  Forall (fun r => rec_producer r = None) rs -> sequences_ok st o rs.
Proof.
  intros HF. revert st o. induction HF as [|r rs Hr _ IH]; intros st o; [done|].
  cbn [sequences_ok]. split; [|apply IH]. unfold sequence_ok. by rewrite Hr.
Qed.

Lemma a_append_first cf r p :
  record_ok r -> rec_producer r = Some p -> producer_sequence p <> 0 ->
  a_append cf empty_log r =
  (Err (UnexpectedProducerSequence (producer_id p) 0 (producer_sequence p)), empty_log).
Proof.
  intros (_ & _ & Hok) Hp Hseq. rewrite Hp in Hok. destruct Hok as ([? ?] & Hid & _).
  unfold a_append. rewrite Hp, Hid.
  assert (is_empty (producer_id p) = false) as -> by (apply is_empty_false; lia).
  destruct (Z.ltb_spec 249 (str_len (producer_id p))); [lia|]. cbn [orb negb empty_log al_producers].
  by rewrite lookup_empty, (proj2 (Z.eqb_neq _ _) Hseq).
Qed.

Lemma record_at_in cs o r :
  record_at cs o = Some r -> low cs <= o < next cs.
Proof.
  unfold record_at, next, clen. destruct (Z.ltb_spec o (low cs)); [done|].
  intros Hr%lookup_lt_Some. lia.
Qed.

Lemma a_append_replica_result cf a offset r :
  a_inv cf a -> record_typed r -> rec_producer r = None -> 0 <= offset ->
  next (al_chunks a) < U64_MAX ->
  a_inv cf (snd (a_append_replica cf a offset r)) /\
  let a' := snd (a_append_replica cf a offset r) in
  match fst (a_append_replica cf a offset r) with
  | Ok v => v = offset /\ low (al_chunks a') <= offset < next (al_chunks a') /\
      (a' = a \/ (offset = next (al_chunks a) /\ flat (al_chunks a') = flat (al_chunks a) ++ [r])) /\
      exists r', record_at (al_chunks a') offset = Some r' /\
        rec_timestamp_ms r' = rec_timestamp_ms r /\ rec_key r' = rec_key r /\
        rec_value r' = rec_value r
  | Err _ => a' = a
  | Panic => False
  end.
Proof.
  intros Hinv Hr Hp Ho Hmax. pose proof Hinv as (Hwf & _). pose proof Hwf as [Hne _].
  unfold a_append_replica. cbv zeta. destruct (Z.ltb_spec offset (next (al_chunks a))).
  - destruct (record_at (al_chunks a) offset) as [r'|] eqn:Hat; [|done].
    destruct (_ && _) eqn:E; [|done]. rewrite !andb_true_iff, Z.eqb_eq, !bool_decide_eq_true in E.
    destruct E as [[? ?] ?]. cbn [fst snd]. apply record_at_in in Hat as ?. eauto 10.
  - destruct (Z.eqb_spec offset (next (al_chunks a))) as [->|]; [|done].
    split; [by apply a_append_inv|]. destruct (a_append_cases cf a r) as [Heq|(Heq & _)].
    + revert Heq. unfold a_append. rewrite Hp. destruct (_ <? _); [done|]. cbn [snd fst].
      intros Heq. apply (f_equal (fun x => next (al_chunks x))) in Heq. cbn [a_push al_chunks] in Heq.
      rewrite next_push in Heq by done. lia.
    + rewrite Heq. cbn [fst snd a_push al_chunks]. unfold record_at, next in *.
      rewrite low_push, flat_push, clen_app by done.
      pose proof (clen_nonneg (flat (al_chunks a))). change (clen [r]) with 1.
      split_and?; try done; [lia|lia|by right|]. exists r.
      destruct (Z.ltb_spec (low (al_chunks a) + clen (flat (al_chunks a))) (low (al_chunks a))); [lia|].
      rewrite lookup_app_r by (unfold clen; lia). split; [|done].
      replace (_ - _)%nat with O by (unfold clen; lia). done.
Qed.
End helpers.

(* ------------------------------------------------------------------ *)
(** ** Examples                                                         *)
(* ------------------------------------------------------------------ *)

#[local] Existing Instance length_crc.

(** The sample logs meet the invariant. *)
Lemma sample_inv_of rs :
  Forall record_ok rs -> sequences_ok ∅ 0 rs -> clen rs <= U64_MAX ->
  a_inv sample_cfg (a_appends sample_cfg empty_log rs) /\
  complete (a_appends sample_cfg empty_log rs).
Proof.
  intros HF Hs Hn.
  destruct (appends_spec sample_cfg empty_log 0 rs) as (_ & Hi & Hlow & Hflat & Hrep);
    try done; [apply inv_empty|].
  split; [done|]. unfold complete. rewrite Hflat, Hrep. done.
Qed.
Lemma sample_inv : a_inv sample_cfg sample_log /\ complete sample_log.
Proof.
  apply sample_inv_of; [|repeat split|done].
  repeat constructor; vm_compute; (reflexivity || discriminate).
Qed.
Lemma plain_inv : a_inv sample_cfg plain_log /\ complete plain_log.
Proof.
  apply sample_inv_of; [|repeat split|done].
  repeat constructor; vm_compute; (reflexivity || discriminate).
Qed.

Ltac sample := repeat (split || constructor); vm_compute; (reflexivity || discriminate).

(* ------------------------------------------------------------------ *)
(** ** The record codec                                                 *)
(* ------------------------------------------------------------------ *)

(** Round trip of records on disk: a record within the limits is encoded, in
    4 bytes more than its announced length; [decode_record] gives it back with
    its offset and leaves the bytes that follow, and asks for more bytes,
    consuming none, as long as a part of the record is missing. *)
Theorem record_roundtrip `{!Crc32} `{!Crc32Ok} o r :
  record_ok r -> is_u64 o ->
  exists b, encode_record r o tt = (Ok b, tt) /\ blen b = LENGTH_SIZE + record_len r /\
    (forall rest, decode_record (b ++ rest) = (Ok (Some (stored o r)), rest)) /\
    (forall p q, b = p ++ q -> q <> [] -> decode_record p = (Ok None, p)).
Proof.
  intros. eexists. split; [by apply encode_record_run|]. split; [apply blen_wire_record|].
  split; [intros; by apply decode_record_wire|]. intros. by eapply decode_record_incomplete.
Qed.

Lemma record_roundtrip_witness :
  exists b, encode_record (sample_record 0) 7 tt = (Ok b, tt) /\
    blen b = LENGTH_SIZE + record_len (sample_record 0) /\
    (forall rest, decode_record (b ++ rest) = (Ok (Some (stored 7 (sample_record 0))), rest)) /\
    (forall p q, b = p ++ q -> q <> [] -> decode_record p = (Ok None, p)).
Proof. apply (record_roundtrip 7 (sample_record 0)); sample. Defined.

(** Decoding of arbitrary file contents: [decode_record] never panics, leaves
    the buffer alone when it needs more bytes, and takes between 37 bytes and 16
    MiB and 4 bytes off the front for a record, whatever the checksum is. *)
Theorem decode_record_safe `{!Crc32} b :
  match decode_record b with
  | (Ok None, b') => b' = b
  | (Ok (Some r), b') =>
      is_u64 (sr_offset r) /\ is_u64 (sr_timestamp_ms r) /\
      exists d, b = d ++ b' /\ LENGTH_SIZE + MIN_RECORD_SIZE <= blen d <= LENGTH_SIZE + MAX_RECORD_SIZE
  | (Err _, _) => True
  | (Panic, _) => False
  end.
Proof.
  pose proof (wp_decode_record b) as Hs. unfold wp in Hs.
  by destruct (decode_record b) as [[[r|]|e|] b'].
Qed.

(* ------------------------------------------------------------------ *)
(** ** Appending and reading                                            *)
(* ------------------------------------------------------------------ *)

(** C5 Refinement of [append]: on the directory and state that represent a log,
    [append] gives the answer of the abstract append and the directory and state
    that represent its result, segment rotation, index entries and all.  The
    invariant (contiguous non-empty closed segments, none over the limit unless
    it holds one record) is kept.  An accepted record is the last of the log and
    got the next offset, or it repeats a producer's last number; an error leaves
    the log as it was, and nothing panics. *)
Theorem append_refines `{!Crc32} cf a r :
  config_ok cf -> a_inv cf a -> record_typed r -> next (al_chunks a) < U64_MAX ->
  let '(o, a') := a_append cf a r in
  append r (part_of cf a) = (o, part_of cf a') /\ a_inv cf a' /\ (complete a -> complete a') /\
  match o with
  | Ok v => (v = next (al_chunks a) /\ flat (al_chunks a') = flat (al_chunks a) ++ [r]) \/ a' = a
  | Err _ => a' = a
  | Panic => False
  end.
Proof.
  intros Hcf Hinv Hr Hmax. pose proof (a_append_inv cf a r Hinv Hr Hmax) as [Hi Hc].
  pose proof (append_spec cf a r) as Hs. pose proof (a_append_result cf a r) as Hres.
  destruct (a_append cf a r) as [o a']. destruct Hinv as (Hwf & Hfit & Hp).
  split; [by apply Hs|]. split; [done|]. split; [done|]. apply Hres, Hwf.
Qed.

Lemma append_refines_witness :
  let '(o, a') := a_append sample_cfg sample_log (sample_record 3) in
  append (sample_record 3) (part_of sample_cfg sample_log) = (o, part_of sample_cfg a') /\
  a_inv sample_cfg a' /\ (complete sample_log -> complete a') /\
  match o with
  | Ok v => (v = next (al_chunks sample_log) /\
             flat (al_chunks a') = flat (al_chunks sample_log) ++ [sample_record 3]) \/ a' = sample_log
  | Err _ => a' = sample_log
  | Panic => False
  end.
Proof.
  apply (append_refines sample_cfg sample_log (sample_record 3)); [sample|apply sample_inv|sample..].
Defined.

(** Idempotent producers: when [append] has accepted a record of a producer
    (or recognised a repeated one), sending the same record again gives the same
    offset and changes neither the files nor the log. *)
Theorem append_retry `{!Crc32} cf a r p v s' :
  config_ok cf -> a_inv cf a -> record_typed r -> next (al_chunks a) + 1 < U64_MAX ->
  rec_producer r = Some p -> append r (part_of cf a) = (Ok v, s') ->
  append r s' = (Ok v, s').
Proof.
  intros Hcf Hinv Hr Hmax Hp Happ. pose proof Hinv as (Hwf & Hfit & Hst). pose proof Hwf as [Hne _].
  rewrite append_spec in Happ by (done || lia). destruct (a_append cf a r) as [o a'] eqn:Ha.
  injection Happ as -> <-. pose proof (a_append_inv cf a r Hinv Hr ltac:(lia)) as [Hi _].
  pose proof (a_append_cases cf a r) as Hc. rewrite Ha in *. cbn [snd] in *.
  destruct Hi as (? & ? & ?). rewrite append_spec; try done.
  - by rewrite (a_append_retry cf a r p v a').
  - destruct Hc as [-> |(Heq & _)]; [lia|]. injection Heq as _ ->.
    cbn [a_push al_chunks]. rewrite next_push by done. lia.
Qed.

Lemma append_retry_witness :
  append (sample_record 3) (snd (append (sample_record 3) (part_of sample_cfg sample_log))) =
  (Ok 3, snd (append (sample_record 3) (part_of sample_cfg sample_log))).
Proof.
  apply (append_retry sample_cfg sample_log (sample_record 3)
           {| producer_id := "p"; producer_sequence := 3 |} 3);
    [sample|apply sample_inv|sample|sample|reflexivity|vm_compute; reflexivity].
Defined.

(** C27 Refinement of [read]: the answer is a run of consecutive records of the
    log, the first one at the requested offset (or at the first offset the log
    still holds); it is empty only at the end of the log; the records fit the
    byte limit unless there is just one, and the read goes on as long as they
    fit.  Reading changes nothing. *)
Theorem read_refines `{!Crc32} `{!Crc32Ok} cf a offset m :
  wf_log a -> 0 < m < U64_MAX ->
  let start := Z.max (low (al_chunks a)) offset in
  let available := drop (Z.to_nat (start - low (al_chunks a))) (flat (al_chunks a)) in
  exists n,
    read offset m (part_of cf a) =
      (Ok (stored_of <$> number start (take n available)), part_of cf a) /\
    (available <> [] -> (1 <= n)%nat) /\ (n <= length available)%nat /\
    (total_len (number start (take n available)) <= m \/ (n <= 1)%nat) /\
    (forall r, available !! n = Some r ->
       m < total_len (number start (take n available)) + (4 + record_len r)).
Proof.
  intros Hwf Hm start available. rewrite read_spec by done. unfold a_read.
  destruct (Z.eqb_spec m 0); [lia|]. rewrite from_offset_start. fold start. fold available.
  destruct (budget_prefix m false 0 (number start available)) as (tk & left & Heq & Hb & Hne & Hfit);
    [done|].
  pose proof (number_split _ _ _ _ Heq) as [Htk Hleft]. exists (length tk). rewrite <- Htk, Hb.
  assert (available <> [] -> tk <> []) as Hne'.
  { intros Ha Ht. apply Ha. specialize (Hne eq_refl Ht). by destruct available. }
  split_and?; try done.
  - intros Ha%Hne'. destruct tk; [done|]. cbn. lia.
  - rewrite Htk, number_length, length_take. lia.
  - rewrite Z.add_0_l in Hfit. apply Hfit. lia.
  - intros r Hr. assert (left = number (start + Z.of_nat (length tk)) (drop (length tk) available)) as Hl.
    { rewrite <- (take_drop (length tk) available), number_app in Heq.
      rewrite <- Htk in Heq. apply app_inv_head in Heq. rewrite <- Heq. f_equal.
      unfold clen. rewrite length_take. apply lookup_lt_Some in Hr. lia. }
    rewrite (drop_S _ _ _ Hr) in Hl. cbn [number] in Hl.
    rewrite <- (Z.add_0_l (total_len tk)).
    change r with (start + Z.of_nat (length tk), r).2.
    eapply (budget_stops m false 0); [done|lia|rewrite <- Hl; exact Heq|exact Hb|].
    right. apply Hne'. intros Ha. by rewrite Ha in Hr.
Qed.

Lemma read_refines_witness :
  exists n,
    read 1 60 (part_of sample_cfg sample_log) =
      (Ok (stored_of <$> number 1 (take n (drop 1 (flat (al_chunks sample_log))))),
       part_of sample_cfg sample_log) /\
    (drop 1 (flat (al_chunks sample_log)) <> [] -> (1 <= n)%nat) /\
    (n <= length (drop 1 (flat (al_chunks sample_log))))%nat /\
    (total_len (number 1 (take n (drop 1 (flat (al_chunks sample_log))))) <= 60 \/ (n <= 1)%nat) /\
    (forall r, drop 1 (flat (al_chunks sample_log)) !! n = Some r ->
       60 < total_len (number 1 (take n (drop 1 (flat (al_chunks sample_log))))) + (4 + record_len r)).
Proof. apply (read_refines sample_cfg sample_log 1 60); [apply sample_inv|split; reflexivity]. Defined.

(* ------------------------------------------------------------------ *)
(** ** Opening and crash recovery                                       *)
(* ------------------------------------------------------------------ *)

(** C26 Crash recovery: cut the active segment file of a complete log at any
    byte.  [open] succeeds and restores the log with all records of the closed
    segments and exactly those records of the active segment that are still
    whole; the torn bytes are removed from the file, the index files are
    rewritten, and offsets and producer sequences continue after the last whole
    record.  Cut behind the end (a clean restart), it restores the whole log. *)
Theorem open_recovers `{!Crc32} `{!Crc32Ok} topic cf a n :
  topic_name_ok topic -> config_ok cf -> wf_log a -> complete a ->
  exists k,
    open topic (cf_max_segment_bytes cf) (cf_index_interval_bytes cf) (cut cf a n) =
      (Ok (log_of cf (shortened a k)), dir_of cf (al_chunks (shortened a k))) /\
    wf_log (shortened a k) /\ complete (shortened a k) /\
    (k <= length (active_records a))%nat /\
    (active_len a k <= n \/ active_records a = [])%nat /\
    ((k < length (active_records a))%nat -> (n < active_len a (Datatypes.S k))%nat) /\
    (k = length (active_records a) -> shortened a k = a).
Proof.
  intros Ht [Hmx Hiv] Hwf (Hlow & Hs & Hst). destruct a as [cs st]. cbn [al_chunks al_producers] in *.
  unfold wf_log in *. cbn [al_chunks] in Hwf.
  pose proof (wf_snoc _ Hwf) as (i & b & rs & -> & _ & Hu & Hi).
  assert (Forall record_ok rs) as HF.
  { destruct Hwf as (_ & _ & _ & _ & HF). rewrite flat_snoc in HF. by apply Forall_app in HF as [_ ?]. }
  unfold active_len, active_records, cut. cbn [al_chunks]. rewrite active_base_snoc, last_snoc.
  cbn [fmap option_fmap option_map default from_option id fst snd].
  destruct (cut_bytes n b rs HF) as (k & t & Hcut & Htorn & Hk & Hlen & Hmax). exists k.
  rewrite shortened_snoc. cbn [al_chunks].
  rewrite (open_spec topic _ _ (i ++ [(b, take k rs)]) t).
  - rewrite (low_shorter i b rs (take k rs)) in Hlow. unfold complete. cbn [al_chunks al_producers].
    destruct cf. unfold settings. split_and?; try done.
    + by apply wf_shorter with (rs := rs).
    + by apply sequences_shorter with (rs := rs).
    + intros ->. by rewrite firstn_all, Hst.
  - done.
  - lia.
  - lia.
  - by apply wf_shorter with (rs := rs).
  - by rewrite <- (low_shorter i b rs).
  - by apply sequences_shorter with (rs := rs).
  - done.
  - destruct cf. by apply (crashed_cut _ i b rs k t n).
Qed.

Lemma open_recovers_witness :
  exists k,
    open "orders" 100 16 (cut sample_cfg sample_log 40) =
      (Ok (log_of sample_cfg (shortened sample_log k)),
       dir_of sample_cfg (al_chunks (shortened sample_log k))) /\
    wf_log (shortened sample_log k) /\ complete (shortened sample_log k) /\
    (k <= length (active_records sample_log))%nat /\
    (active_len sample_log k <= 40 \/ active_records sample_log = [])%nat /\
    ((k < length (active_records sample_log))%nat ->
     (40 < active_len sample_log (Datatypes.S k))%nat) /\
    (k = length (active_records sample_log) -> shortened sample_log k = sample_log).
Proof. apply (open_recovers "orders" sample_cfg sample_log 40); [sample|sample|apply sample_inv..]. Defined.

(* ------------------------------------------------------------------ *)
(** ** Retention                                                        *)
(* ------------------------------------------------------------------ *)

(** Retention: [apply_retention] removes whole segments from the front of
    the log (their files and index files too) and reports how many; it never
    removes the active segment.  The remaining records keep their offsets, the
    next offset is unchanged, and the invariant holds. *)
Theorem retention_refines `{!Crc32} cf mb age a :
  a_inv cf a ->
  let a' := a_retain mb age a in
  apply_retention mb age (part_of cf a) =
    (Ok (seg_count (al_chunks a) - seg_count (al_chunks a')), part_of cf a') /\
  a_inv cf a' /\ next (al_chunks a') = next (al_chunks a) /\
  (exists gone, al_chunks a = gone ++ al_chunks a') /\
  (forall o, low (al_chunks a') <= o -> record_at (al_chunks a') o = record_at (al_chunks a) o).
Proof.
  intros (Hwf & Hfit & Hst) a'. split; [by apply apply_retention_spec|].
  pose proof Hwf as [Hne _].
  destruct (retain_suffix mb age (al_chunks a) (a_size (al_chunks a)) Hne) as (gone & Heq & Hr).
  change (retain _ _ _ _) with (al_chunks a') in Heq, Hr.
  pose proof Hwf as Hwf'. unfold wf_log in Hwf'. rewrite Heq in Hwf'.
  apply wf_suffix in Hwf' as [Hw Hn]; [|done]. rewrite <- Heq in Hn.
  split; [split_and?; try done|split; [done|split; [by exists gone|]]].
  - split; [done|]. split; [|done]. rewrite Heq in Hfit. by apply Forall_app in Hfit as [_ ?].
  - intros o Ho. by apply (record_at_suffix gone).
Qed.

Lemma retention_refines_witness :
  apply_retention (Some 120) None (part_of sample_cfg sample_log) =
    (Ok (seg_count (al_chunks sample_log) -
         seg_count (al_chunks (a_retain (Some 120) None sample_log))),
     part_of sample_cfg (a_retain (Some 120) None sample_log)) /\
  a_inv sample_cfg (a_retain (Some 120) None sample_log) /\
  next (al_chunks (a_retain (Some 120) None sample_log)) = next (al_chunks sample_log) /\
  (exists gone, al_chunks sample_log = gone ++ al_chunks (a_retain (Some 120) None sample_log)) /\
  (forall o, low (al_chunks (a_retain (Some 120) None sample_log)) <= o ->
     record_at (al_chunks (a_retain (Some 120) None sample_log)) o =
     record_at (al_chunks sample_log) o).
Proof. apply (retention_refines sample_cfg (Some 120) None sample_log), sample_inv. Defined.

(** A log does not survive a restart after retention: once the oldest
    segment is gone, [open] expects the first segment to start at offset 0 and
    refuses the directory that [apply_retention] left, without changing it. *)
Theorem reopen_after_retention_fails `{!Crc32} topic cf mb age a :
  topic_name_ok topic -> config_ok cf -> a_inv cf a ->
  al_chunks (a_retain mb age a) <> al_chunks a ->
  let p := snd (apply_retention mb age (part_of cf a)) in
  let first := low (al_chunks (a_retain mb age a)) in
  open topic (cf_max_segment_bytes cf) (cf_index_interval_bytes cf) (pt_dir p) =
  (Err (UnexpectedSegmentBase 0 first), pt_dir p).
Proof.
  intros Ht Hcf (Hwf & _) Hch. cbv zeta. rewrite apply_retention_spec by done.
  cbn [snd pt_dir part_of]. pose proof Hwf as [Hne _].
  destruct (retain_suffix mb age (al_chunks a) (a_size (al_chunks a)) Hne) as (gone & Heq & Hr).
  change (retain _ _ _ _) with (al_chunks (a_retain mb age a)) in Heq, Hr.
  set (cs := al_chunks (a_retain mb age a)) in *.
  unfold wf_log in Hwf. rewrite Heq in Hwf. apply open_gap; [done|done| |].
  - by apply wf_suffix in Hwf as [? _].
  - apply (low_suffix gone cs); [done|done|]. intros ->. by apply Hch.
Qed.

Lemma reopen_after_retention_fails_witness :
  open "orders" 100 16
    (pt_dir (snd (apply_retention (Some 120) None (part_of sample_cfg sample_log)))) =
  (Err (UnexpectedSegmentBase 0 (low (al_chunks (a_retain (Some 120) None sample_log)))),
   pt_dir (snd (apply_retention (Some 120) None (part_of sample_cfg sample_log)))).
Proof.
  apply (reopen_after_retention_fails "orders" sample_cfg (Some 120) None sample_log);
    [sample|sample|apply sample_inv|vm_compute; discriminate].
Defined.

(* ------------------------------------------------------------------ *)
(** ** Truncation                                                       *)
(* ------------------------------------------------------------------ *)

(** Truncation of a log that holds all its records: [truncate_to] refuses an
    offset behind the end, and otherwise leaves exactly the records below the
    offset (rewritten into fresh segments), with that offset as the next one and
    the producers' state of the remaining records. *)
Theorem truncate_refines `{!Crc32} `{!Crc32Ok} cf a offset :
  config_ok cf -> a_inv cf a -> complete a -> 0 <= offset ->
  if next (al_chunks a) <? offset
  then truncate_to offset (part_of cf a) =
       (Err (UnexpectedOffset (next (al_chunks a)) offset), part_of cf a)
  else exists a', truncate_to offset (part_of cf a) = (Ok tt, part_of cf a') /\
    a_inv cf a' /\ complete a' /\ next (al_chunks a') = offset /\
    flat (al_chunks a') = take (Z.to_nat offset) (flat (al_chunks a)).
Proof.
  intros Hcf Hinv Hc Ho. pose proof Hinv as (Hwf & _).
  destruct (Z.ltb_spec (next (al_chunks a)) offset) as [Hlt|Hle].
  { unfold truncate_to. erewrite bind_Ok by apply log_get_run. cbv beta.
    cbn [pt_log part_of log_of lg_next_offset]. by rewrite (proj2 (Z.ltb_lt _ _) Hlt). }
  destruct Hc as (Hlow & Hs & Hst). unfold next in *. rewrite Hlow in *.
  destruct (decide (offset = 0 + clen (flat (al_chunks a)))) as [->|Hne].
  - exists a. split_and?; try done.
    + unfold truncate_to. erewrite bind_Ok by apply log_get_run. cbv beta.
      cbn [pt_log part_of log_of lg_next_offset]. unfold next. rewrite Hlow.
      rewrite Z.ltb_irrefl, Z.eqb_refl. done.
    + by rewrite Hlow.
    + unfold clen. rewrite Z.add_0_l, Nat2Z.id. by rewrite firstn_all.
  - destruct (truncate_spec cf a offset) as (Hrun & Hi & Hcp & Hflat & Hn); try done.
    + unfold next. rewrite Hlow. lia.
    + unfold kept. rewrite Hlow, Z.sub_0_r.
      rewrite <- (take_drop (Z.to_nat offset) (flat (al_chunks a))) in Hs.
      by apply sequences_ok_app in Hs as [? _].
    + eexists. split; [exact Hrun|]. unfold next in Hn.
      split_and?; try done; [lia|]. rewrite Hflat. unfold kept. by rewrite Hlow, Z.sub_0_r.
Qed.

Lemma truncate_refines_witness :
  if next (al_chunks sample_log) <? 2
  then truncate_to 2 (part_of sample_cfg sample_log) =
       (Err (UnexpectedOffset (next (al_chunks sample_log)) 2), part_of sample_cfg sample_log)
  else exists a', truncate_to 2 (part_of sample_cfg sample_log) = (Ok tt, part_of sample_cfg a') /\
    a_inv sample_cfg a' /\ complete a' /\ next (al_chunks a') = 2 /\
    flat (al_chunks a') = take (Z.to_nat 2) (flat (al_chunks sample_log)).
Proof. apply (truncate_refines sample_cfg sample_log 2); [sample|apply sample_inv..|done]. Defined.

(** Truncation after retention renumbers the log: [truncate_to] writes the
    kept records into a segment that starts at offset 0, so that each record
    moves down by the number of removed records and the next offset is not the
    requested one. *)
Theorem truncate_renumbers `{!Crc32} `{!Crc32Ok} cf a offset :
  config_ok cf -> a_inv cf a -> 0 < low (al_chunks a) <= offset -> offset < next (al_chunks a) ->
  Forall (fun r => rec_producer r = None) (flat (al_chunks a)) ->
  exists a', truncate_to offset (part_of cf a) = (Ok tt, part_of cf a') /\ a_inv cf a' /\
    next (al_chunks a') = offset - low (al_chunks a) /\ next (al_chunks a') < offset /\
    forall o, low (al_chunks a) <= o < offset ->
      record_at (al_chunks a') (o - low (al_chunks a)) = record_at (al_chunks a) o.
Proof.
  intros Hcf Hinv [Hlow Hlo] Hhi Hnp.
  destruct (truncate_spec cf a offset) as (Hrun & Hi & (Hl & _) & Hflat & Hn); [done|done|lia| |].
  { apply no_producers. by apply Forall_take. }
  eexists. split; [exact Hrun|]. split; [done|]. split; [done|]. split; [lia|].
  intros o Ho. unfold record_at. rewrite Hl, Hflat, Z.sub_0_r.
  destruct (Z.ltb_spec (o - low (al_chunks a)) 0); [lia|].
  destruct (Z.ltb_spec o (low (al_chunks a))); [lia|]. unfold kept.
  apply lookup_take_lt. lia.
Qed.

Lemma truncate_renumbers_witness :
  exists a', truncate_to 2 (part_of sample_cfg (a_retain (Some 100) None plain_log)) =
      (Ok tt, part_of sample_cfg a') /\ a_inv sample_cfg a' /\
    next (al_chunks a') = 2 - low (al_chunks (a_retain (Some 100) None plain_log)) /\
    next (al_chunks a') < 2 /\
    forall o, low (al_chunks (a_retain (Some 100) None plain_log)) <= o < 2 ->
      record_at (al_chunks a') (o - low (al_chunks (a_retain (Some 100) None plain_log))) =
      record_at (al_chunks (a_retain (Some 100) None plain_log)) o.
Proof.
  apply (truncate_renumbers sample_cfg (a_retain (Some 100) None plain_log) 2).
  - sample.
  - apply retained_inv, plain_inv.
  - sample.
  - sample.
  - sample.
Defined.

(** Truncation after retention loses the log when the first kept record
    carries a producer's number other than 0: the segments are already removed
    when the rewrite refuses that record, and an empty log is left. *)
Theorem truncate_loses_log `{!Crc32} `{!Crc32Ok} cf a offset r p :
  config_ok cf -> a_inv cf a -> low (al_chunks a) < offset < next (al_chunks a) ->
  record_at (al_chunks a) (low (al_chunks a)) = Some r ->
  rec_producer r = Some p -> producer_sequence p <> 0 ->
  truncate_to offset (part_of cf a) =
  (Err (UnexpectedProducerSequence (producer_id p) 0 (producer_sequence p)), part_of cf empty_log).
Proof.
  intros Hcf Hinv Ho Hr Hp Hseq. pose proof Hinv as (Hwf & _). pose proof Hwf as (_ & Hlo & _ & _ & HF).
  rewrite truncate_steps by (done || lia). unfold record_at in Hr.
  rewrite Z.ltb_irrefl, Z.sub_diag in Hr. unfold kept.
  destruct (flat (al_chunks a)) as [|r' rs] eqn:Hf; [done|]. injection Hr as ->.
  assert (exists k, Z.to_nat (offset - low (al_chunks a)) = Datatypes.S k) as [k ->]
    by (exists (Nat.pred (Z.to_nat (offset - low (al_chunks a)))); lia).
  apply Forall_cons in HF as [Hok _]. cbn [take number fmap list_fmap for_each].
  rewrite record_of_stored_of, bind_assoc. apply bind_Err. cbn [snd].
  pose proof (inv_empty cf) as (? & ? & ?).
  rewrite append_spec by (done || by apply record_ok_typed).
  by rewrite (a_append_first cf r p).
Qed.

Lemma truncate_loses_log_witness :
  truncate_to 2 (part_of sample_cfg (a_retain (Some 120) None sample_log)) =
  (Err (UnexpectedProducerSequence "p" 0 1), part_of sample_cfg empty_log).
Proof.
  apply (truncate_loses_log sample_cfg (a_retain (Some 120) None sample_log) 2 (sample_record 1)
           {| producer_id := "p"; producer_sequence := 1 |});
    [sample|apply retained_inv, sample_inv|sample|reflexivity|reflexivity|discriminate].
Defined.

(* ------------------------------------------------------------------ *)
(** ** Replicas                                                         *)
(* ------------------------------------------------------------------ *)

(** Refinement of [append_replica] for the records a leader sends (they
    carry no producer): it accepts the next record of the log or one the log
    already holds with the same timestamp, key and value, and answers with the
    record's offset; afterwards the log holds that record there.  A record that
    differs, lies behind the end, or was removed is refused and nothing changes. *)
Theorem append_replica_refines `{!Crc32} `{!Crc32Ok} cf a offset r :
  config_ok cf -> a_inv cf a -> record_typed r -> rec_producer r = None -> 0 <= offset ->
  next (al_chunks a) < U64_MAX ->
  let '(o, a') := a_append_replica cf a offset r in
  append_replica offset r (part_of cf a) = (o, part_of cf a') /\ a_inv cf a' /\
  match o with
  | Ok v => v = offset /\ low (al_chunks a') <= offset < next (al_chunks a') /\
      (a' = a \/ (offset = next (al_chunks a) /\ flat (al_chunks a') = flat (al_chunks a) ++ [r])) /\
      exists r', record_at (al_chunks a') offset = Some r' /\
        rec_timestamp_ms r' = rec_timestamp_ms r /\ rec_key r' = rec_key r /\
        rec_value r' = rec_value r
  | Err _ => a' = a
  | Panic => False
  end.
Proof.
  intros Hcf Hinv Hr Hp Ho Hmax. pose proof (append_replica_spec cf a offset r Hcf Hinv Hr Ho Hmax) as Hs.
  pose proof (a_append_replica_result cf a offset r Hinv Hr Hp Ho Hmax) as [Hi Hres].
  destruct (a_append_replica cf a offset r) as [o a']. done.
Qed.

Lemma append_replica_refines_witness :
  let '(o, a') := a_append_replica sample_cfg sample_log 3 plain_record in
  append_replica 3 plain_record (part_of sample_cfg sample_log) = (o, part_of sample_cfg a') /\
  a_inv sample_cfg a' /\
  match o with
  | Ok v => v = 3 /\ low (al_chunks a') <= 3 < next (al_chunks a') /\
      (a' = sample_log \/ (3 = next (al_chunks sample_log) /\
         flat (al_chunks a') = flat (al_chunks sample_log) ++ [plain_record])) /\
      exists r', record_at (al_chunks a') 3 = Some r' /\
        rec_timestamp_ms r' = rec_timestamp_ms plain_record /\ rec_key r' = rec_key plain_record /\
        rec_value r' = rec_value plain_record
  | Err _ => a' = sample_log
  | Panic => False
  end.
Proof.
  apply (append_replica_refines sample_cfg sample_log 3 plain_record);
    [sample|apply sample_inv|sample|reflexivity|done|sample].
Defined.
