(* ===== verification/Durable.v ===== *)
(** * Durable: what reaches the disk, [crates/storage/src/lib.rs] and the
    acknowledgement modes of [crates/broker/src/lib.rs].

    A write reaches the operating system at once and stable storage when the
    file is synchronised; [power_loss] says what a power failure may leave: of
    each file at least the bytes that were synchronised, at most those that were
    written.  Names are stable, since [create_segment] synchronises the
    directory. *)

From stdpp Require Import base numbers list strings gmap.
From Stdlib Require Import ZArith Lia.
From S2P Require Import Prelude Text Files Runs Protocol Record RecordFacts Log LogRep LogFacts LogAppend LogRead LogOpen LogShrink Storage.

(* ------------------------------------------------------------------ *)
(** ** The operations                                                   *)
(* ------------------------------------------------------------------ *)

(** A partition, and how many bytes of its files are on stable storage. *)
Record Disk := { dk_part : Part; dk_synced : gmap string nat }.
Definition on_stable (synced : gmap string nat) (name : string) : nat := default O (synced !! name).

(** What a power failure may leave of a directory. *)
Definition power_loss (synced : gmap string nat) (d d' : Dir) : Prop :=
  forall n, match d !! n with
            | Some c => exists k, (on_stable synced n <= k)%nat /\ d' !! n = Some (take k c)
            | None => d' !! n = None
            end.

Section disk.
Context `{!Crc32}.
Abbreviation disk A := (SM Disk StorageError A).

Definition on_part {A} (m : SM Part StorageError A) : disk A := fun s =>
  let '(o, p) := m (dk_part s) in (o, {| dk_part := p; dk_synced := dk_synced s |}).
(** [File::sync_data] *)
Definition sync_file (name : string) : disk unit := modify (fun s =>
  match pt_dir (dk_part s) !! name with
  | Some c => {| dk_part := dk_part s; dk_synced := <[name := length c]> (dk_synced s) |}
  | None => s
  end).
Definition sync_data : disk unit :=
  l <- gets (fun s => pt_log (dk_part s)) ;;
  sync_file (lg_active_file l) ;;;
  sync_file (lg_active_index_file l).
(** [File::flush] has no buffer of its own to write. *)
Definition flush : disk unit := ret tt.

(** The end of [append_record]: a durable record is synchronised before it is
    acknowledged. *)
Definition append_with (ack_mode : AckMode) (record : LogRecord) : disk Z :=
  offset <- on_part (append record) ;;
  match ack_mode with AckDurable => sync_data | AckLeader => ret tt end ;;;
  ret offset.
(** [append_batch_records] for the records of one partition: each is appended
    for the leader, and the log is synchronised at the end. *)
Definition append_batch_with (ack_mode : AckMode) (records : list LogRecord) : disk (list Z) :=
  acks <- map_m (append_with AckLeader) records ;;
  match ack_mode with AckDurable => sync_data | AckLeader => ret tt end ;;;
  ret acks.

(** One call after the other, with their results. *)
Fixpoint append_run (ack_mode : AckMode) (records : list LogRecord) (s : Disk)
  : list (outcome StorageError Z) * Disk :=
  match records with
  | [] => ([], s)
  | r :: records =>
      let '(o, s) := append_with ack_mode r s in
      let '(os, s) := append_run ack_mode records s in (o :: os, s)
  end.

(* ------------------------------------------------------------------ *)
(** ** Stable logs                                                      *)
(* ------------------------------------------------------------------ *)

(** Every segment is on stable storage as a whole. *)
Definition stable (a : ALog) (synced : gmap string nat) : Prop :=
  Forall (fun c => (length (chunk_file c) <= on_stable synced (log_name c.1))%nat) (al_chunks a).

Lemma sync_file_run name s :
  exists m, sync_file name s = (Ok tt, {| dk_part := dk_part s; dk_synced := m |}) /\
    (forall n, n <> name -> on_stable m n = on_stable (dk_synced s) n) /\
    (forall c, pt_dir (dk_part s) !! name = Some c -> on_stable m name = length c).
Proof.
  unfold sync_file, modify. destruct (pt_dir (dk_part s) !! name) as [c|] eqn:E.
  - exists (<[name := length c]> (dk_synced s)). unfold on_stable. split; [done|]. split.
    + intros n Hn. by rewrite lookup_insert_ne.
    + intros c' [= <-]. by rewrite lookup_insert_eq.
  - exists (dk_synced s). split; [by destruct s|]. by split.
Qed.

(** After a synchronisation a log is stable if its closed segments are. *)
Lemma sync_data_stable cf a s i c :
  wf_log a -> al_chunks a = i ++ [c] ->
  Forall (fun c => (length (chunk_file c) <= on_stable s (log_name c.1))%nat) i ->
  exists s', sync_data {| dk_part := part_of cf a; dk_synced := s |} =
    (Ok tt, {| dk_part := part_of cf a; dk_synced := s' |}) /\ stable a s'.
Proof.
  intros Hwf Ha Hi. unfold sync_data. erewrite bind_Ok by done. cbv beta.
  cbn [dk_part part_of pt_log log_of lg_active_file lg_active_index_file].
  rewrite Ha, active_base_snoc.
  destruct (sync_file_run (log_name c.1) {| dk_part := part_of cf a; dk_synced := s |}) as (m & Hm & Ho & Hs).
  erewrite bind_Ok by exact Hm. cbv beta. cbn [dk_part dk_synced] in *.
  destruct (sync_file_run (idx_name c.1) {| dk_part := part_of cf a; dk_synced := m |}) as (m' & -> & Ho' & _).
  cbn [dk_part dk_synced] in *. exists m'. split; [done|].
  assert (forall d, d ∈ i ++ [c] -> is_u64 d.1) as Hu.
  { intros d (x & y & Hd)%list_elem_of_split. eapply (wf_base (al_chunks a)); [done|]. by rewrite Ha. }
  assert (is_u64 c.1) as Hc by (apply Hu, elem_of_app; right; by left).
  unfold stable. rewrite Ha. apply Forall_app. split; [|constructor; [|done]].
  - apply Forall_forall. intros d Hd. rewrite Forall_forall in Hi. specialize (Hi d Hd).
    assert (is_u64 d.1) as Hdu by (apply Hu, elem_of_app; by left).
    rewrite Ho' by (apply log_idx_name; range). rewrite Ho; [done|].
    intros Hn%log_name_inj; [|done..]. pose proof (wf_snoc (al_chunks a) Hwf) as (i' & b & rs & Heq & _ & _ & Hne).
    rewrite Ha in Heq. apply app_inj_tail in Heq as [-> ->]. rewrite Forall_forall in Hne.
    by destruct (Hne d Hd).
  - rewrite Ho' by (apply log_idx_name; range). rewrite (Hs (chunk_file c)); [done|].
    destruct Hwf as (_ & Hlo & Hhi & Hcont & _). eapply dir_lookup_chunk; [exact Hcont|done|done|].
    rewrite Ha. apply elem_of_app. right. by left.
Qed.

Lemma appended_closed cf a r i c :
  wf_log a -> al_chunks (snd (a_append cf a r)) = i ++ [c] -> forall d, d ∈ i -> d ∈ al_chunks a.
Proof.
  intros [Hne _] Ha d Hd. destruct (a_append_cases cf a r) as [Hs|(Hs & _)]; rewrite Hs in Ha.
  { rewrite Ha. apply elem_of_app. by left. }
  cbn [snd a_push al_chunks] in Ha. unfold push in Ha. destruct (exists_last Hne) as (j & x & Hj).
  rewrite Hj, last_snoc in Ha. destruct (rotates cf x r).
  - apply app_inj_tail in Ha as [<- _]. by rewrite Hj.
  - rewrite removelast_last in Ha. apply app_inj_tail in Ha as [<- _]. rewrite Hj. apply elem_of_app. by left.
Qed.

(** A durable append of a stable log leaves a stable log. *)
Lemma append_durable_stable cf a s r :
  config_ok cf -> a_inv cf a -> stable a s -> record_typed r -> next (al_chunks a) < U64_MAX ->
  exists s', append_with AckDurable r {| dk_part := part_of cf a; dk_synced := s |} =
    (fst (a_append cf a r), {| dk_part := part_of cf (snd (a_append cf a r)); dk_synced := s' |}) /\
    stable (snd (a_append cf a r)) s'.
Proof.
  intros Hcf Hinv Hst Hr Hmax. pose proof Hinv as (Hwf & Hfit & Hp).
  pose proof (a_append_inv cf a r Hinv Hr Hmax) as [Hi _].
  pose proof (append_spec cf a r Hcf Hwf Hfit Hp Hr Hmax) as Hspec.
  pose proof (a_append_result cf a r Hwf) as Hres. pose proof (appended_closed cf a r) as Hclosed.
  destruct (a_append cf a r) as [o a'] eqn:E. cbn [fst snd] in *.
  unfold append_with, bind at 1, on_part. cbn [dk_part dk_synced]. rewrite Hspec.
  destruct o as [v|e|]; [|subst; by exists s|done].
  destruct Hi as (Hwf' & _). pose proof Hwf' as [Hne _]. destruct (exists_last Hne) as (i & c & Ha').
  destruct (sync_data_stable cf a' s i c) as (s' & Hs' & Hst'); [done|done| |].
  { apply Forall_forall. intros d Hd. unfold stable in Hst. rewrite Forall_forall in Hst. eauto. }
  exists s'. split; [|done]. by erewrite bind_Ok by exact Hs'.
Qed.

(** Of a stable log a power failure takes nothing but parts of the index files. *)
Lemma stable_crashed cf a s d :
  wf_log a -> stable a s -> power_loss s (dir_of cf (al_chunks a)) d ->
  crashed cf (al_chunks a) [] d.
Proof.
  intros (Hne & Hlo & Hhi & Hc & HF) Hst Hloss.
  assert (forall c, c ∈ al_chunks a -> d !! log_name c.1 = Some (chunk_file c)) as Hfile.
  { intros c Hin. specialize (Hloss (log_name c.1)). erewrite dir_lookup_chunk in Hloss by done.
    destruct Hloss as (k & Hk & ->). unfold stable in Hst. rewrite Forall_forall in Hst.
    specialize (Hst c Hin). by rewrite take_ge by lia. }
  split_and!.
  - intros i c Heq. rewrite app_nil_r. apply Hfile. rewrite Heq. apply elem_of_app. right. by left.
  - intros i c j Heq _. apply Hfile. rewrite Heq. apply elem_of_app. right. by left.
  - intros n Hn. specialize (Hloss n). destruct (dir_of cf (al_chunks a) !! n); [done|].
    rewrite Hloss in Hn. by destruct Hn.
Qed.

(* ------------------------------------------------------------------ *)
(** ** Runs of durable appends                                          *)
(* ------------------------------------------------------------------ *)

(** What an append without a producer leaves: nothing, or the record at the offset it returns. *)
Lemma unnamed_append cf a r v :
  rec_producer r = None -> fst (a_append cf a r) = Ok v ->
  v = next (al_chunks a) /\ snd (a_append cf a r) = a_push cf a r.
Proof.
  unfold a_append. intros ->. destruct (_ <? _); [done|]. cbn. by intros [= <-].
Qed.

(** A log grows: it keeps its records at their offsets. *)
Definition grows (a a' : ALog) : Prop := low (al_chunks a') = low (al_chunks a) /\
  flat (al_chunks a) `prefix_of` flat (al_chunks a').
Lemma append_grows cf a r : wf_log a -> grows a (snd (a_append cf a r)) /\
  next (al_chunks (snd (a_append cf a r))) <= next (al_chunks a) + 1.
Proof.
  intros [Hne _]. destruct (a_append_cases cf a r) as [->|(-> & _)]; [split; [done|lia]|].
  unfold grows. cbn [snd a_push al_chunks].
  rewrite low_push, flat_push, next_push by done. split; [|lia]. split; [done|]. by exists [r].
Qed.
Lemma grown_record a a' v r :
  grows a a' -> record_at (al_chunks a) v = Some r -> record_at (al_chunks a') v = Some r.
Proof.
  intros [Hl [l Hf]]. unfold record_at. rewrite Hl, Hf. destruct (_ <? _); [done|]. apply lookup_app_l_Some.
Qed.

Lemma append_run_stable cf rs : forall a s,
  config_ok cf -> a_inv cf a -> complete a -> stable a s -> Forall record_typed rs ->
  next (al_chunks a) + clen rs <= U64_MAX ->
  exists os a' s',
    append_run AckDurable rs {| dk_part := part_of cf a; dk_synced := s |} =
      (os, {| dk_part := part_of cf a'; dk_synced := s' |}) /\
    stable a' s' /\ a_inv cf a' /\ complete a' /\ grows a a' /\
    forall i r v, rs !! i = Some r -> os !! i = Some (Ok v) -> rec_producer r = None ->
      record_at (al_chunks a') v = Some r.
Proof.
  induction rs as [|r rs IH]; intros a s Hcf Hinv Hc Hst HF Hn.
  { exists [], a, s. split_and!; try done. }
  apply Forall_cons in HF as [Hr HF]. rewrite clen_cons in Hn. pose proof (clen_nonneg rs).
  destruct (append_durable_stable cf a s r) as (s1 & Hrun & Hst1); try done; [lia|].
  pose proof Hinv as (Hwf & _). pose proof (append_grows cf a r Hwf) as [Hg Hn1].
  destruct (a_append_inv cf a r) as [Hinv1 Hc1]; [done|done|lia|].
  set (a1 := snd (a_append cf a r)) in *.
  destruct (IH a1 s1) as (os & a' & s' & Hruns & Hst' & Hinv' & Hc' & Hg' & Hacked); try done; [by apply Hc1|lia|].
  exists (fst (a_append cf a r) :: os), a', s'. cbn [append_run]. rewrite Hrun, Hruns. split_and!; try done.
  - destruct Hg as [Hl Hf], Hg' as [Hl' Hf']. split; [congruence|by etrans].
  - intros [|i] x v Hx Ho Hp; cbn in Hx, Ho; [|by eapply Hacked]. injection Hx as ->. injection Ho as Ho.
    eapply grown_record; [exact Hg'|]. destruct (unnamed_append cf a x v Hp Ho) as [-> Ha1].
    subst a1. rewrite Ha1. cbn [a_push al_chunks]. destruct Hwf as [Hne _].
    unfold record_at. rewrite low_push, flat_push by done. unfold next. pose proof (clen_nonneg (flat (al_chunks a))).
    destruct (Z.ltb_spec (low (al_chunks a) + clen (flat (al_chunks a))) (low (al_chunks a))); [lia|].
    rewrite lookup_app_r by (unfold clen in *; lia).
    by replace (Z.to_nat _ - _)%nat with O by (unfold clen in *; lia).
Qed.
End disk.

(* ------------------------------------------------------------------ *)
(** ** Properties                                                       *)
(* ------------------------------------------------------------------ *)


#[local] Existing Instance length_crc.
#[local] Existing Instance length_crc_ok.

(** A power failure that cuts one file short of what was written. *)
Lemma power_loss_cut synced (d : Dir) name m :
  (on_stable synced name <= m)%nat ->
  map_Forall (fun n c => (on_stable synced n <= length c)%nat) d ->
  power_loss synced d (alter (take m) name d).
Proof.
  intros Hm Hd n. destruct (d !! n) as [c|] eqn:E.
  - destruct (decide (n = name)) as [->|Hne].
    + exists m. by rewrite lookup_alter_eq, E.
    + exists (length c). rewrite lookup_alter_ne, firstn_all by done. by split; [exact (Hd n c E)|].
  - destruct (decide (n = name)) as [->|Hne]; [by rewrite lookup_alter_eq, E|by rewrite lookup_alter_ne by done].
Qed.

Definition three_appends : list (outcome StorageError Z) * Disk :=
  append_run AckDurable [plain_record; plain_record; plain_record]
    {| dk_part := part_of sample_cfg empty_log; dk_synced := ∅ |}.
Lemma nothing_lost synced d :
  map_Forall (fun n c => (on_stable synced n <= length c)%nat) d -> power_loss synced d d.
Proof.
  intros Hd n. destruct (d !! n) as [c|] eqn:E; [|done]. exists (length c).
  rewrite firstn_all. by split; [exact (Hd n c E)|].
Qed.

