(* ===== verification/Groups.v ===== *)
(** * Groups: the consumer group coordinator of [crates/broker/src/groups.rs].

    [GroupCoordinator] with its groups, and the offsets directory as a tree of
    group directories, topic directories and files.  An operation takes place at
    one instant, [now]; the order in which the code walks its hash map of groups
    is an argument ([order]). *)

From stdpp Require Import base numbers list strings gmap sorting.
From Stdlib Require Import ZArith Lia.
From S2P Require Import Prelude Text Files.

(* ------------------------------------------------------------------ *)
(** ** Data                                                             *)
(* ------------------------------------------------------------------ *)

Inductive GroupError :=
| GInvalidId
| UnknownGroup
| UnknownMember
| StaleGeneration (expected actual : Z)
| PartitionNotAssigned (partition : Z)
| GenerationOverflow
| InvalidOffsetFile
| CoordinatorPoisoned
| GIo.

Record ConsumerGroup := {
  cg_generation : Z;
  cg_members : gmap string Z;
  cg_assignments : gmap string (list Z);
  cg_committed_offsets : gmap Z Z
}.
Record GroupIdentity := { gi_group : string; gi_topic : string; gi_member : string;
                          gi_generation : Z }.
Record GroupSnapshot := {
  gs_group : string;
  gs_topic : string;
  gs_generation : Z;
  gs_members : Z;
  gs_assigned_partitions : Z;
  gs_committed_offsets : list (Z * Z)
}.

(** The directories under [__consumer_offsets]: group, topic, files. *)
Abbreviation Tree := (gmap string (gmap string Dir)).
Record GroupCoordinator := {
  gc_offsets_dir : Tree;
  gc_default_partition_count : Z;
  gc_topic_partition_counts : gmap string Z;
  gc_session_timeout : Z;
  gc_groups : gmap (string * string) ConsumerGroup
}.

Abbreviation coordinator A := (SM GroupCoordinator GroupError A).

Definition set_groups (c : GroupCoordinator) (groups : gmap (string * string) ConsumerGroup) :=
  {| gc_offsets_dir := gc_offsets_dir c;
     gc_default_partition_count := gc_default_partition_count c;
     gc_topic_partition_counts := gc_topic_partition_counts c;
     gc_session_timeout := gc_session_timeout c; gc_groups := groups |}.
Definition set_offsets_dir (c : GroupCoordinator) (tree : Tree) :=
  {| gc_offsets_dir := tree;
     gc_default_partition_count := gc_default_partition_count c;
     gc_topic_partition_counts := gc_topic_partition_counts c;
     gc_session_timeout := gc_session_timeout c; gc_groups := gc_groups c |}.
Definition set_counts (c : GroupCoordinator) (counts : gmap string Z) :=
  {| gc_offsets_dir := gc_offsets_dir c;
     gc_default_partition_count := gc_default_partition_count c;
     gc_topic_partition_counts := counts;
     gc_session_timeout := gc_session_timeout c; gc_groups := gc_groups c |}.
Definition set_members (g : ConsumerGroup) (members : gmap string Z) :=
  {| cg_generation := cg_generation g; cg_members := members;
     cg_assignments := cg_assignments g; cg_committed_offsets := cg_committed_offsets g |}.
Definition set_committed (g : ConsumerGroup) (offsets : gmap Z Z) :=
  {| cg_generation := cg_generation g; cg_members := cg_members g;
     cg_assignments := cg_assignments g; cg_committed_offsets := offsets |}.
Definition new_group (offsets : gmap Z Z) : ConsumerGroup :=
  {| cg_generation := 0; cg_members := ∅; cg_assignments := ∅; cg_committed_offsets := offsets |}.

(* ------------------------------------------------------------------ *)
(** ** Groups                                                           *)
(* ------------------------------------------------------------------ *)

Definition valid_group_id (value : string) : bool :=
  negb (is_empty value || (249 <? str_len value) || negb (forallb id_byte (as_bytes value))).
Definition validate_id {S} (value : string) : SM S GroupError unit :=
  reject_if (negb (valid_group_id value)) GInvalidId.

Definition validate_member {S} (g : ConsumerGroup) (member : string) (generation : Z)
  : SM S GroupError unit :=
  reject_if (negb (generation =? cg_generation g)) (StaleGeneration (cg_generation g) generation) ;;;
  reject_if (negb (bool_decide (is_Some (cg_members g !! member)))) UnknownMember.

(** [group.assignments.get(member).is_some_and(|ps| ps.contains(&partition))] *)
Definition is_assigned (g : ConsumerGroup) (member : string) (partition : Z) : bool :=
  match cg_assignments g !! member with
  | Some ps => bool_decide (partition ∈ ps)
  | None => false
  end.

Definition expire_members (now timeout : Z) (g : ConsumerGroup) : ConsumerGroup * bool :=
  let members := filter (fun kv => now - kv.2 <= timeout) (cg_members g) in
  (set_members g members, negb (bool_decide (size (cg_members g) = size members))).

(** The loop of [rebalance]: partition [p] goes to member [p mod n]. *)
Fixpoint assign_partitions (members : list string) (partitions : list Z)
    (assignments : gmap string (list Z)) : outcome GroupError (gmap string (list Z)) :=
  match partitions with
  | [] => Ok assignments
  | p :: ps =>
      match members !! Z.to_nat (p mod Z.of_nat (length members)) with
      | Some m => assign_partitions members ps
                    (<[m := default [] (assignments !! m) ++ [p]]> assignments)
      | None => Panic
      end
  end.
Definition member_names (g : ConsumerGroup) : list string :=
  sort_strings (fst <$> map_to_list (cg_members g)).
Definition rebalance (g : ConsumerGroup) (partition_count : Z) : outcome GroupError ConsumerGroup :=
  match checked_add (cg_generation g) 1 with
  | None => Err GenerationOverflow
  | Some generation =>
      obind (if bool_decide (cg_members g = ∅) then Ok ∅
             else assign_partitions (member_names g) (seqZ 0 partition_count) ∅)
        (fun assignments =>
           Ok {| cg_generation := generation; cg_members := cg_members g;
                 cg_assignments := assignments;
                 cg_committed_offsets := cg_committed_offsets g |})
  end.

(* ------------------------------------------------------------------ *)
(** ** Offset files                                                     *)
(* ------------------------------------------------------------------ *)

Definition offset_file (partition : Z) : string :=
  of_bytes (as_bytes (show_uint partition) ++ as_bytes ".offset").
Definition topic_dir (tree : Tree) (group topic : string) : Dir :=
  default ∅ (tree !! group ≫= fun topics => topics !! topic).

Definition parse_offset (contents : bytes) : outcome GroupError Z :=
  match read_to_string contents with
  | None => Err GIo
  | Some s => match parse_uint U64_MAX (trim s) with
              | Some offset => Ok offset
              | None => Err InvalidOffsetFile
              end
  end.
Definition read_offset (d : Dir) (partition : Z) : outcome GroupError (option Z) :=
  match d !! offset_file partition with
  | Some contents => obind (parse_offset contents) (fun o => Ok (Some o))
  | None => Ok None
  end.

Fixpoint load_offsets_from (d : Dir) (partitions : list Z) (offsets : gmap Z Z)
  : outcome GroupError (gmap Z Z) :=
  match partitions with
  | [] => Ok offsets
  | p :: ps =>
      obind (read_offset d p) (fun o =>
      load_offsets_from d ps (match o with Some v => <[p := v]> offsets | None => offsets end))
  end.
Definition load_offsets (tree : Tree) (group topic : string) (partition_count : Z)
  : outcome GroupError (gmap Z Z) :=
  load_offsets_from (topic_dir tree group topic) (seqZ 0 partition_count) ∅.

(** [path.with_extension("offset.tmp")] *)
Definition offset_tmp (partition : Z) : string := with_extension (offset_file partition) "offset.tmp".
Definition offset_text (offset : Z) : bytes := as_bytes (show_uint offset) ++ [LF].
Definition set_topic_dir (tree : Tree) (group topic : string) (d : Dir) : Tree :=
  <[group := <[topic := d]> (default ∅ (tree !! group))]> tree.
Definition persist_offset (tree : Tree) (group topic : string) (partition offset : Z) : Tree :=
  set_topic_dir tree group topic
    (replace_file (offset_file partition) (offset_tmp partition) (offset_text offset)
       (topic_dir tree group topic)).

(** The entries of [recover_groups]. *)
Fixpoint recover_topics (tree : Tree) (group : string) (partition_count : Z) (topics : list string)
    (groups : gmap (string * string) ConsumerGroup)
  : outcome GroupError (gmap (string * string) ConsumerGroup) :=
  match topics with
  | [] => Ok groups
  | topic :: rest =>
      if valid_group_id topic then
        obind (load_offsets tree group topic partition_count) (fun offsets =>
        recover_topics tree group partition_count rest
          (<[(group, topic) := new_group offsets]> groups))
      else Err GInvalidId
  end.
Fixpoint recover_groups_from (tree : Tree) (partition_count : Z)
    (dirs : list (string * gmap string Dir)) (groups : gmap (string * string) ConsumerGroup)
  : outcome GroupError (gmap (string * string) ConsumerGroup) :=
  match dirs with
  | [] => Ok groups
  | (group, topics) :: rest =>
      if valid_group_id group then
        obind (recover_topics tree group partition_count (fst <$> map_to_list topics) groups)
          (fun groups => recover_groups_from tree partition_count rest groups)
      else Err GInvalidId
  end.
Definition recover_groups (tree : Tree) (partition_count : Z) :=
  recover_groups_from tree partition_count (map_to_list tree) ∅.

(* ------------------------------------------------------------------ *)
(** ** The coordinator                                                  *)
(* ------------------------------------------------------------------ *)

Definition open_coordinator (tree : Tree) (partition_count session_timeout : Z)
  : outcome GroupError GroupCoordinator :=
  obind (recover_groups tree partition_count) (fun groups =>
  Ok {| gc_offsets_dir := tree; gc_default_partition_count := partition_count;
        gc_topic_partition_counts := ∅; gc_session_timeout := session_timeout;
        gc_groups := groups |}).

Definition partition_count (c : GroupCoordinator) (topic : string) : Z :=
  default (gc_default_partition_count c) (gc_topic_partition_counts c !! topic).
Definition put_group (key : string * string) (g : ConsumerGroup) : coordinator unit :=
  modify (fun c => set_groups c (<[key := g]> (gc_groups c))).
Definition rebalance_group (key : string * string) (g : ConsumerGroup) (count : Z)
  : coordinator ConsumerGroup :=
  g <- lift (rebalance g count) ;;
  put_group key g ;;;
  ret g.

Definition active_group (group topic : string) (now : Z) : coordinator ConsumerGroup :=
  c <- get ;;
  g <- ok_or (gc_groups c !! (group, topic)) UnknownGroup ;;
  let '(g, expired) := expire_members now (gc_session_timeout c) g in
  put_group (group, topic) g ;;;
  if expired then rebalance_group (group, topic) g (partition_count c topic) else ret g.

Definition join (group topic member : string) (now : Z) : coordinator (Z * list Z) :=
  validate_id group ;;;
  validate_id topic ;;;
  validate_id member ;;;
  c <- get ;;
  let count := partition_count c topic in
  g <- (match gc_groups c !! (group, topic) with
        | Some g => ret g
        | None => offsets <- lift (load_offsets (gc_offsets_dir c) group topic count) ;;
                  ret (new_group offsets)
        end) ;;
  let '(g, expired) := expire_members now (gc_session_timeout c) g in
  let is_new := bool_decide (cg_members g !! member = None) in
  let g := set_members g (<[member := now]> (cg_members g)) in
  put_group (group, topic) g ;;;
  g <- (if is_new || expired || (cg_generation g =? 0)
        then rebalance_group (group, topic) g count else ret g) ;;
  ret (cg_generation g, default [] (cg_assignments g !! member)).

Definition heartbeat (group topic member : string) (generation now : Z) : coordinator unit :=
  g <- active_group group topic now ;;
  validate_member g member generation ;;;
  put_group (group, topic) (set_members g (<[member := now]> (cg_members g))).

Definition leave (group topic member : string) (generation now : Z) : coordinator unit :=
  c <- get ;;
  g <- active_group group topic now ;;
  validate_member g member generation ;;;
  let g := set_members g (delete member (cg_members g)) in
  put_group (group, topic) g ;;;
  _g <- rebalance_group (group, topic) g (partition_count c topic) ;;
  ret tt.

Definition authorize_fetch (identity : GroupIdentity) (partition now : Z) : coordinator unit :=
  g <- active_group (gi_group identity) (gi_topic identity) now ;;
  validate_member g (gi_member identity) (gi_generation identity) ;;;
  reject_if (negb (is_assigned g (gi_member identity) partition)) (PartitionNotAssigned partition).

Definition commit (identity : GroupIdentity) (partition offset now : Z) : coordinator unit :=
  g <- active_group (gi_group identity) (gi_topic identity) now ;;
  validate_member g (gi_member identity) (gi_generation identity) ;;;
  reject_if (negb (is_assigned g (gi_member identity) partition)) (PartitionNotAssigned partition) ;;;
  modify (fun c => set_offsets_dir c
    (persist_offset (gc_offsets_dir c) (gi_group identity) (gi_topic identity) partition offset)) ;;;
  put_group (gi_group identity, gi_topic identity)
    (set_committed g (<[partition := offset]> (cg_committed_offsets g))).

Definition committed_offset (group topic : string) (partition : Z) : coordinator (option Z) :=
  validate_id group ;;;
  validate_id topic ;;;
  c <- get ;;
  lift (read_offset (topic_dir (gc_offsets_dir c) group topic) partition).

Definition expire_sessions (order : list (string * string)) (now : Z) : coordinator unit :=
  for_each order (fun key =>
    c <- get ;;
    match gc_groups c !! key with
    | None => ret tt
    | Some g =>
        let '(g, expired) := expire_members now (gc_session_timeout c) g in
        put_group key g ;;;
        if expired then _g <- rebalance_group key g (partition_count c key.2) ;; ret tt else ret tt
    end).

Definition reload_group (topic : string) (partitions : Z) (key : string * string) : coordinator unit :=
  c <- get ;;
  match gc_groups c !! key with
  | Some g =>
      if bool_decide (key.2 = topic) then
        offsets <- lift (load_offsets (gc_offsets_dir c) key.1 key.2 partitions) ;;
        put_group key (set_committed g (offsets ∪ cg_committed_offsets g))
      else ret tt
  | None => ret tt
  end.
Definition set_topic_partitions (order : list (string * string)) (topic : string)
    (partitions : Z) : coordinator unit :=
  modify (fun c => set_counts c (<[topic := partitions]> (gc_topic_partition_counts c))) ;;;
  for_each order (reload_group topic partitions).

Definition key_le (a b : string * string) : Prop :=
  if decide (a.1 = b.1) then String.le a.2 b.2 else String.le a.1 b.1.
#[global] Instance key_le_dec : RelDecision key_le.
Proof. intros a b. unfold key_le. case_decide; apply _. Defined.
Definition partition_le (a b : Z * Z) : Prop := a.1 <= b.1.
#[global] Instance partition_le_dec : RelDecision partition_le.
Proof. intros a b. unfold partition_le. apply _. Defined.

Definition snapshot_of (c : GroupCoordinator) (key : string * string) : option GroupSnapshot :=
  g ← gc_groups c !! key;
  Some {| gs_group := key.1; gs_topic := key.2; gs_generation := cg_generation g;
          gs_members := Z.of_nat (size (cg_members g));
          gs_assigned_partitions :=
            map_fold (fun _ ps n => Z.of_nat (length ps) + n) 0 (cg_assignments g);
          gs_committed_offsets := merge_sort partition_le (map_to_list (cg_committed_offsets g)) |}.
Definition snapshot (c : GroupCoordinator) : list GroupSnapshot :=
  omap (snapshot_of c) (merge_sort key_le (fst <$> map_to_list (gc_groups c))).
