(* ===== verification/GroupFacts.v ===== *)
(** * GroupFacts: assignment, offset files and the invariant of the coordinator. *)

From stdpp Require Import base numbers list strings gmap sorting.
From Stdlib Require Import ZArith Lia.
From S2P Require Import Prelude Text Files Runs Groups.

(* ------------------------------------------------------------------ *)
(** ** Round-robin assignment                                           *)
(* ------------------------------------------------------------------ *)

(** The member that owns a partition. *)
Definition owner (members : list string) (p : Z) : option string :=
  members !! Z.to_nat (p mod Z.of_nat (length members)).
Definition owned (members : list string) (count : Z) (m : string) : list Z :=
  filter (fun p => owner members p = Some m) (seqZ 0 count).

Lemma owner_is_Some ms p : ms <> [] -> is_Some (owner ms p).
Proof.
  intros Hne. apply lookup_lt_is_Some. destruct ms as [|m ms]; [done|].
  pose proof (Z.mod_pos_bound p (Z.of_nat (length (m :: ms)))). cbn [length] in *. lia.
Qed.

Lemma assign_partitions_spec ms ps acc :
  ms <> [] ->
  exists acc', assign_partitions ms ps acc = Ok acc' /\
    forall m, default [] (acc' !! m) =
              default [] (acc !! m) ++ filter (fun p => owner ms p = Some m) ps.
Proof.
  intros Hne. revert acc. induction ps as [|p ps IH]; intros acc; cbn [assign_partitions].
  { exists acc. split; [done|]. intros m. by rewrite filter_nil, app_nil_r. }
  fold (owner ms p). destruct (owner_is_Some ms p Hne) as [o Ho]. rewrite Ho.
  destruct (IH (<[o:=default [] (acc !! o) ++ [p]]> acc)) as (acc' & -> & Hacc).
  exists acc'. split; [done|]. intros m. rewrite Hacc, filter_cons.
  destruct (decide (m = o)) as [->|Hm].
  - rewrite lookup_insert_eq, decide_True by done. cbn [default from_option]. unfold id. by rewrite <- app_assoc.
  - rewrite lookup_insert_ne, decide_False by congruence. done.
Qed.

Lemma member_names_elem g m : m ∈ member_names g <-> is_Some (cg_members g !! m).
Proof.
  unfold member_names. rewrite (sort_strings_perm _). rewrite list_elem_of_fmap. split.
  - intros ([k v] & -> & Hin%elem_of_map_to_list). by exists v.
  - intros [v Hv]. exists (m, v). by rewrite elem_of_map_to_list.
Qed.
Lemma member_names_NoDup g : NoDup (member_names g).
Proof. unfold member_names. rewrite (sort_strings_perm _). apply NoDup_fst_map_to_list. Qed.
Lemma member_names_nil g : member_names g = [] <-> cg_members g = ∅.
Proof.
  split.
  - intros Hn. apply map_eq. intros m. rewrite lookup_empty.
    destruct (cg_members g !! m) as [v|] eqn:Hv; [|done].
    assert (m ∈ member_names g) as Hin by (apply member_names_elem; eauto).
    rewrite Hn in Hin. by apply elem_of_nil in Hin.
  - intros He. unfold member_names. by rewrite He, map_to_list_empty.
Qed.
Lemma member_names_length g : length (member_names g) = size (cg_members g).
Proof. unfold member_names. rewrite (sort_strings_perm _), length_fmap. apply length_map_to_list. Qed.

(** What [rebalance] gives. *)
Lemma rebalance_spec g count :
  if cg_generation g + 1 <=? U64_MAX
  then exists g', rebalance g count = Ok g' /\ cg_generation g' = cg_generation g + 1 /\
    cg_members g' = cg_members g /\ cg_committed_offsets g' = cg_committed_offsets g /\
    (cg_members g = ∅ -> cg_assignments g' = ∅) /\
    (forall m, cg_members g <> ∅ ->
       default [] (cg_assignments g' !! m) = owned (member_names g) count m)
  else rebalance g count = Err GenerationOverflow.
Proof.
  unfold rebalance, checked_add. destruct (Z.leb_spec (cg_generation g + 1) U64_MAX); [|done].
  case_bool_decide as Hm; cbn [obind].
  - eexists. split; [done|]. cbn. split_and?; done.
  - destruct (assign_partitions_spec (member_names g) (seqZ 0 count) ∅) as (acc & Ha & Hs).
    { by rewrite member_names_nil. }
    rewrite Ha. cbn [obind]. eexists. split; [done|]. cbn. split_and?; try done.
Qed.

Lemma is_assigned_default g m p : is_assigned g m p = bool_decide (p ∈ default [] (cg_assignments g !! m)).
Proof.
  unfold is_assigned. destruct (cg_assignments g !! m); cbn; [done|].
  symmetry. apply bool_decide_eq_false_2. apply not_elem_of_nil.
Qed.

Lemma elem_owned ms count m p : p ∈ owned ms count m <-> 0 <= p < count /\ owner ms p = Some m.
Proof. unfold owned. rewrite list_elem_of_filter, elem_of_seqZ. rewrite Z.add_0_l. tauto. Qed.

(** Every member gets its share, up to one partition. *)
Lemma count_residue n i count :
  0 <= i < n -> 0 <= count ->
  Z.of_nat (length (filter (fun p => p mod n = i) (seqZ 0 count))) = (count + n - 1 - i) / n.
Proof.
  intros Hi. revert count. apply natlike_ind.
  - change (seqZ 0 0) with (@nil Z). rewrite filter_nil. cbn. symmetry. apply Z.div_small. lia.
  - intros c Hc IH. replace (seqZ 0 (Z.succ c)) with (seqZ 0 c ++ [c]).
    2:{ rewrite <- (Z2Nat.id c) at 2 3 by done. rewrite <- Nat2Z.inj_succ, seqZ_S.
        rewrite Z2Nat.id by done. f_equal. }
    rewrite filter_app, length_app, Nat2Z.inj_add, IH.
    pose proof (Z.div_mod c n ltac:(lia)). pose proof (Z.mod_pos_bound c n ltac:(lia)).
    set (q := c / n) in *. set (r := c mod n) in *.
    assert ((c + n - 1 - i) / n = if decide (i < r) then q + 1 else q) as ->.
    { symmetry. case_decide.
      - apply (Z.div_unique _ _ _ (r - 1 - i)); nia.
      - apply (Z.div_unique _ _ _ (r + n - 1 - i)); nia. }
    assert ((Z.succ c + n - 1 - i) / n = if decide (i <= r) then q + 1 else q) as ->.
    { symmetry. case_decide.
      - apply (Z.div_unique _ _ _ (r - i)); nia.
      - apply (Z.div_unique _ _ _ (r + n - i)); nia. }
    rewrite filter_cons, filter_nil. fold r.
    repeat case_decide; cbn [length]; lia.
Qed.

Lemma owned_count ms count m :
  NoDup ms -> m ∈ ms -> 0 <= count ->
  let share := count / Z.of_nat (length ms) in
  share <= Z.of_nat (length (owned ms count m)) <= share + 1.
Proof.
  intros Hnd Hin Hc share. apply list_elem_of_lookup in Hin as [i Hi].
  pose proof (lookup_lt_Some _ _ _ Hi) as Hlt.
  assert (owned ms count m = filter (fun p => p mod Z.of_nat (length ms) = Z.of_nat i) (seqZ 0 count)) as ->.
  { apply list_filter_iff. intros p. unfold owner.
    pose proof (Z.mod_pos_bound p (Z.of_nat (length ms)) ltac:(lia)) as Hp. split.
    - intros Hl. pose proof (NoDup_lookup _ _ _ _ Hnd Hl Hi). lia.
    - intros ->. by rewrite Nat2Z.id. }
  rewrite count_residue by lia. subst share. set (n := Z.of_nat (length ms)) in *.
  assert (0 < n) by lia. split.
  - apply Z.div_le_mono; lia.
  - rewrite <- (Z.div_add _ 1) by lia. apply Z.div_le_mono; lia.
Qed.

(* ------------------------------------------------------------------ *)
(** ** Offset files                                                     *)
(* ------------------------------------------------------------------ *)

Lemma digits_no_dot n : 0 <= n -> as_bytes (show_uint n) <> [] /\ Forall (fun b => b <> DOT) (as_bytes (show_uint n)).
Proof.
  intros Hn. destruct (show_uint_digits n Hn) as (b & l & -> & HF). split; [done|].
  eapply Forall_impl; [exact HF|]. by intros x Hx ->.
Qed.

Lemma split_offset_file p :
  0 <= p -> split_name (offset_file p) = (as_bytes (show_uint p), Some (as_bytes "offset")).
Proof.
  intros Hp. unfold offset_file. change (as_bytes ".offset") with (DOT :: as_bytes "offset").
  apply split_name_dot; [by apply digits_no_dot|by repeat constructor].
Qed.
Lemma offset_tmp_eq p :
  0 <= p ->
  offset_tmp p = of_bytes ((as_bytes (show_uint p) ++ as_bytes ".offset") ++ DOT :: as_bytes "tmp").
Proof.
  intros Hp. unfold offset_tmp, with_extension, file_stem. rewrite split_offset_file by done.
  cbn [fst]. by rewrite <- app_assoc.
Qed.
Lemma split_offset_tmp p :
  0 <= p -> split_name (offset_tmp p) =
            (as_bytes (show_uint p) ++ as_bytes ".offset", Some (as_bytes "tmp")).
Proof.
  intros Hp. rewrite offset_tmp_eq by done. apply split_name_dot; [|by repeat constructor].
  by destruct (as_bytes (show_uint p)).
Qed.

Lemma offset_file_inj p q : is_u32 p -> is_u32 q -> offset_file p = offset_file q -> p = q.
Proof.
  intros Hp Hq H. apply (f_equal split_name) in H. rewrite !split_offset_file in H by range.
  injection H as H%as_bytes_inj. apply show_uint_inj in H; [done|range..].
Qed.
Lemma offset_file_tmp p q : 0 <= p -> 0 <= q -> offset_file p <> offset_tmp q.
Proof.
  intros Hp Hq H. apply (f_equal split_name) in H.
  by rewrite split_offset_file, split_offset_tmp in H.
Qed.

Lemma parse_offset_text o : is_u64 o -> parse_offset (offset_text o) = Ok o.
Proof.
  intros Ho. unfold parse_offset, offset_text, read_to_string, from_utf8.
  destruct (show_uint_digits o) as (b & l & Hs & HF); [range|].
  rewrite utf8_valid_ascii.
  - rewrite trim_show_uint by range. rewrite parse_show_uint by range. done.
  - apply Forall_app. split; [|by repeat constructor]. rewrite Hs.
    eapply Forall_impl; [exact HF|]. intros x Hx%between_true. lia.
Qed.

Lemma read_replaced d p o :
  is_u32 p -> is_u64 o ->
  read_offset (replace_file (offset_file p) (offset_tmp p) (offset_text o) d) p = Ok (Some o) /\
  forall q, is_u32 q -> q <> p ->
    read_offset (replace_file (offset_file p) (offset_tmp p) (offset_text o) d) q = read_offset d q.
Proof.
  intros Hp Ho. unfold read_offset, replace_file. split.
  - rewrite lookup_insert_eq. by rewrite parse_offset_text.
  - intros q Hq Hne. rewrite lookup_insert_ne, lookup_delete_ne; [done| |].
    + intros H. by eapply (offset_file_tmp q p); [range|range|].
    + intros H%offset_file_inj; done.
Qed.

(** A crash while an offset is written leaves the old or the new one. *)
Lemma read_replacing d d' p o :
  is_u32 p -> is_u64 o ->
  replacing (offset_file p) (offset_tmp p) (offset_text o) d d' ->
  (read_offset d' p = read_offset d p \/ read_offset d' p = Ok (Some o)) /\
  forall q, is_u32 q -> q <> p -> read_offset d' q = read_offset d q.
Proof.
  intros Hp Ho Hr. unfold read_offset. split.
  - apply replacing_lookup in Hr as [->| ->]; [by left| |by apply offset_file_tmp; range].
    right. by rewrite parse_offset_text.
  - intros q Hq Hne. apply (replacing_other _ _ _ _ _ (offset_file q)) in Hr as ->; [done| |].
    + intros H%offset_file_inj; done.
    + apply offset_file_tmp; range.
Qed.

Lemma topic_dir_set tree g t d g' t' :
  topic_dir (set_topic_dir tree g t d) g' t' =
  if decide (g' = g /\ t' = t) then d else topic_dir tree g' t'.
Proof.
  unfold topic_dir, set_topic_dir. destruct (decide (g' = g)) as [->|Hg].
  - rewrite lookup_insert_eq. cbn [mbind option_bind]. destruct (decide (t' = t)) as [->|Ht].
    + rewrite lookup_insert_eq. by rewrite decide_True.
    + rewrite lookup_insert_ne by done. rewrite decide_False by tauto.
      by destruct (tree !! g) as [ts|].
  - rewrite lookup_insert_ne by done. by rewrite decide_False by tauto.
Qed.

(** Loading gives what the files of the partitions hold. *)
Lemma load_offsets_from_spec d ps acc m :
  load_offsets_from d ps acc = Ok m ->
  forall p, m !! p = if decide (p ∈ ps) then
                       match read_offset d p with Ok (Some v) => Some v | _ => acc !! p end
                     else acc !! p.
Proof.
  revert acc. induction ps as [|q ps IH]; intros acc Hl p; cbn [load_offsets_from] in Hl.
  { injection Hl as ->. rewrite decide_False; [done|]. apply not_elem_of_nil. }
  destruct (read_offset d q) as [o| |] eqn:Hq; [|done..]. cbn [obind] in Hl.
  specialize (IH _ Hl p). rewrite IH. destruct (decide (p = q)) as [->|Hne].
  - rewrite (decide_True (P:=q ∈ q :: ps)) by left. rewrite Hq.
    destruct o as [v|]; [rewrite lookup_insert_eq|]; case_decide; done.
  - assert (forall x, (match o with Some v => <[q:=v]> acc | None => acc end) !! p = x <-> acc !! p = x) as Hacc.
    { intros x. destruct o; [by rewrite lookup_insert_ne|done]. }
    assert (match o with Some v => <[q:=v]> acc | None => acc end !! p = acc !! p) as -> by by apply Hacc.
    destruct (decide (p ∈ ps)).
    + by rewrite decide_True by by right.
    + rewrite decide_False; [done|]. by intros [?|?]%elem_of_cons.
Qed.

Lemma load_offsets_from_total d ps acc :
  Forall (fun p => is_ok (read_offset d p) = true) ps ->
  exists m, load_offsets_from d ps acc = Ok m.
Proof.
  intros HF. revert acc. induction HF as [|p ps Hp _ IH]; intros acc; cbn [load_offsets_from]; [eauto|].
  destruct (read_offset d p) as [o| |]; [|done..]. cbn [obind]. apply IH.
Qed.
