(* ===== verification/GroupSteps.v ===== *)
(** * GroupSteps: the coordinator as a transition system, and its invariant. *)

From stdpp Require Import base numbers list strings gmap sorting relations.
From Stdlib Require Import ZArith Lia.
From S2P Require Import Prelude Text Files Runs Groups GroupFacts.

(* ------------------------------------------------------------------ *)
(** ** Steps                                                            *)
(* ------------------------------------------------------------------ *)

(** The calls that change the coordinator. *)
Inductive group_op :=
| OpJoin (group topic member : string)
| OpHeartbeat (group topic member : string) (generation : Z)
| OpLeave (group topic member : string) (generation : Z)
| OpCommit (identity : GroupIdentity) (partition offset : Z)
| OpAuthorize (identity : GroupIdentity) (partition : Z)
| OpExpire (order : list (string * string))
| OpSetPartitions (order : list (string * string)) (topic : string) (partitions : Z).
Definition op_typed (op : group_op) : Prop :=
  match op with
  | OpCommit _ _ o => is_u64 o
  | OpSetPartitions _ _ n => is_u32 n
  | _ => True
  end.
Definition run_op (op : group_op) (now : Z) : coordinator unit :=
  match op with
  | OpJoin g t m => _r <- join g t m now ;; ret tt
  | OpHeartbeat g t m n => heartbeat g t m n now
  | OpLeave g t m n => leave g t m n now
  | OpCommit i p o => commit i p o now
  | OpAuthorize i p => authorize_fetch i p now
  | OpExpire order => expire_sessions order now
  | OpSetPartitions order t n => set_topic_partitions order t n
  end.
(** One call at some time, whether it succeeds or not. *)
Inductive group_step (c : GroupCoordinator) : GroupCoordinator -> Prop :=
| group_step_op op now : op_typed op -> group_step c (snd (run_op op now c)).
Abbreviation group_steps := (rtc group_step).

(* ------------------------------------------------------------------ *)
(** ** The invariant                                                    *)
(* ------------------------------------------------------------------ *)

(** No partition has two owners. *)
Definition group_ok (g : ConsumerGroup) : Prop :=
  is_u64 (cg_generation g) /\
  (forall m p, is_assigned g m p = true -> is_u32 p) /\
  (forall m1 m2 p, is_assigned g m1 p = true -> is_assigned g m2 p = true -> m1 = m2).
(** The committed offsets in memory are those in the files. *)
Definition cached (tree : Tree) (key : string * string) (g : ConsumerGroup) : Prop :=
  forall p o, cg_committed_offsets g !! p = Some o ->
    is_u32 p /\ read_offset (topic_dir tree key.1 key.2) p = Ok (Some o).
Definition slot_ok (tree : Tree) (key : string * string) (g : ConsumerGroup) : Prop :=
  group_ok g /\ valid_group_id key.1 = true /\ valid_group_id key.2 = true /\ cached tree key g.
Definition tree_ok (tree : Tree) : Prop :=
  forall group topics, tree !! group = Some topics ->
    valid_group_id group = true /\
    forall topic d, topics !! topic = Some d ->
      valid_group_id topic = true /\ forall p, is_u32 p -> is_ok (read_offset d p) = true.
Definition counts_ok (c : GroupCoordinator) : Prop :=
  is_u32 (gc_default_partition_count c) /\
  map_Forall (fun _ n => is_u32 n) (gc_topic_partition_counts c).
Definition coord_ok (c : GroupCoordinator) : Prop :=
  counts_ok c /\ tree_ok (gc_offsets_dir c) /\
  map_Forall (slot_ok (gc_offsets_dir c)) (gc_groups c).

(** Groups stay, generations do not decrease, and an assignment is fixed for
    its generation. *)
Definition evolves (c c' : GroupCoordinator) : Prop :=
  forall key g, gc_groups c !! key = Some g ->
    exists g', gc_groups c' !! key = Some g' /\ cg_generation g <= cg_generation g' /\
      (cg_generation g = cg_generation g' -> cg_assignments g' = cg_assignments g).
Definition moves (c c' : GroupCoordinator) : Prop := coord_ok c' /\ evolves c c'.
(** All calls but a successful commit leave the files alone. *)
Definition keeps (c c' : GroupCoordinator) : Prop :=
  moves c c' /\ gc_offsets_dir c' = gc_offsets_dir c.

#[export] Instance evolves_refl : Reflexive evolves.
Proof. intros c key g Hg. exists g. auto with lia. Qed.
#[export] Instance evolves_trans : Transitive evolves.
Proof.
  intros a b c Hab Hbc key g Hg. destruct (Hab key g Hg) as (g1 & Hg1 & Hle1 & Ha1).
  destruct (Hbc key g1 Hg1) as (g2 & Hg2 & Hle2 & Ha2). exists g2.
  split; [done|]. split; [lia|]. intros He. rewrite Ha2, Ha1 by lia. done.
Qed.
Lemma keeps_trans a b c : keeps a b -> keeps b c -> keeps a c.
Proof. intros [[_ ?] ?] [[? ?] ?]. split; [split; [done|by transitivity b]|congruence]. Qed.
Lemma keeps_refl c : coord_ok c -> keeps c c.
Proof. by split. Qed.

(* ------------------------------------------------------------------ *)
(** ** Group updates                                                    *)
(* ------------------------------------------------------------------ *)

Lemma partition_count_u32 c topic : counts_ok c -> is_u32 (partition_count c topic).
Proof.
  intros [Hd Hm]. unfold partition_count. destruct (gc_topic_partition_counts c !! topic) eqn:E; cbn; [|done].
  by eapply Hm.
Qed.

(** [g'] may replace [g]. *)
Definition succeeds (g g' : ConsumerGroup) : Prop :=
  cg_generation g <= cg_generation g' /\
  (cg_generation g = cg_generation g' -> cg_assignments g' = cg_assignments g).
#[export] Instance succeeds_refl : Reflexive succeeds.
Proof. intros g. split; [lia|done]. Qed.

Lemma put_group_keeps c key g' :
  coord_ok c -> slot_ok (gc_offsets_dir c) key g' ->
  (forall g, gc_groups c !! key = Some g -> succeeds g g') ->
  wp (put_group key g') (fun _ c' => keeps c c' /\ gc_groups c' !! key = Some g' /\
     gc_offsets_dir c' = gc_offsets_dir c /\ counts_ok c' /\
     gc_topic_partition_counts c' = gc_topic_partition_counts c) (fun _ _ => False) c.
Proof.
  intros (Hc & Ht & HF) Hg Hsucc. unfold put_group, wp, modify. cbn.
  split; [|split_and?; [by rewrite lookup_insert_eq|done|exact Hc|done]].
  split; [|done]. split; [split; [exact Hc|split; [done|]]|].
  - cbn. by apply map_Forall_insert_2.
  - intros k g Hk. cbn. destruct (decide (k = key)) as [->|].
    + rewrite lookup_insert_eq. exists g'. split; [done|]. by apply Hsucc.
    + rewrite lookup_insert_ne by done. exists g. by split_and?.
Qed.

Lemma slot_ok_same tree key g g' :
  slot_ok tree key g -> cg_generation g' = cg_generation g ->
  cg_assignments g' = cg_assignments g -> cg_committed_offsets g' = cg_committed_offsets g ->
  slot_ok tree key g'.
Proof.
  intros ((Hgen & Hr & Hx) & H1 & H2 & Hc) Hg Ha Ho. unfold slot_ok, group_ok, cached.
  unfold is_assigned in *. rewrite Hg, Ha, Ho. done.
Qed.

Lemma rebalance_ok tree key g count g' :
  slot_ok tree key g -> is_u32 count -> rebalance g count = Ok g' ->
  slot_ok tree key g' /\ cg_generation g < cg_generation g'.
Proof.
  intros ((Hgen & Hr & Hx) & H1 & H2 & Hc) Hn Hreb.
  pose proof (rebalance_spec g count) as Hs.
  destruct (Z.leb_spec (cg_generation g + 1) U64_MAX) as [Hle|]; [|congruence].
  destruct Hs as (g'' & Heq & Hgen' & Hm & Hco & He & Ha).
  assert (g'' = g') as -> by congruence. clear Heq Hreb. split; [|lia].
  assert (forall m p, is_assigned g' m p = true ->
    0 <= p < count /\ owner (member_names g) p = Some m) as Hass.
  { intros m p. rewrite is_assigned_default, bool_decide_eq_true.
    destruct (decide (cg_members g = ∅)) as [Hemp|Hne].
    - rewrite He by done. rewrite lookup_empty. cbn. by intros ?%elem_of_nil.
    - rewrite Ha by done. apply elem_owned. }
  split; [|split_and?; [done|done|]].
  - unfold group_ok. split_and?.
    + rewrite Hgen'. range.
    + intros m p [? _]%Hass. range.
    + intros m1 m2 p [_ ?]%Hass [_ ?]%Hass. congruence.
  - intros p o. rewrite Hco. apply Hc.
Qed.

(* ------------------------------------------------------------------ *)
(** ** The operations keep the invariant                                *)
(* ------------------------------------------------------------------ *)

(** The state after an error is a kept one too. *)
Definition kept_err (c : GroupCoordinator) : GroupError -> GroupCoordinator -> Prop :=
  fun _ c' => keeps c c'.

Lemma put_then {A} c c0 key g' (k : coordinator A) Q :
  keeps c0 c -> slot_ok (gc_offsets_dir c) key g' ->
  (forall g, gc_groups c !! key = Some g -> succeeds g g') ->
  (forall c', keeps c0 c' -> gc_groups c' !! key = Some g' ->
     gc_offsets_dir c' = gc_offsets_dir c -> counts_ok c' ->
     gc_topic_partition_counts c' = gc_topic_partition_counts c -> wp k Q (kept_err c0) c') ->
  wp (put_group key g' ;;; k) Q (kept_err c0) c.
Proof.
  intros Hk Hs Hsucc HQ. apply wp_bind. pose proof Hk as [[Hok _] _].
  eapply wp_mono; [by apply put_group_keeps| |done].
  intros _ c' (Hk' & ? & ? & ? & ?). apply HQ; try done. by eapply keeps_trans.
Qed.

Lemma rebalance_group_keeps c0 c key g count :
  keeps c0 c -> gc_groups c !! key = Some g -> slot_ok (gc_offsets_dir c) key g -> is_u32 count ->
  wp (rebalance_group key g count)
     (fun g' c' => keeps c0 c' /\ gc_groups c' !! key = Some g' /\
        slot_ok (gc_offsets_dir c') key g' /\ gc_offsets_dir c' = gc_offsets_dir c /\ succeeds g g' /\
        gc_topic_partition_counts c' = gc_topic_partition_counts c)
     (kept_err c0) c.
Proof.
  intros Hk Hg Hs Hn. unfold rebalance_group. apply wp_bind. unfold wp at 1, lift.
  pose proof (rebalance_spec g count) as Hsp.
  destruct (rebalance g count) as [g'|e|] eqn:Hreb; [|done|].
  - pose proof (rebalance_ok _ _ _ _ _ Hs Hn Hreb) as [Hs' Hlt].
    assert (succeeds g g') by (split; [lia|intros; lia]).
    apply put_then; [done|done|naive_solver|].
    intros c' Hk' Hg' Hd _ Hcn. apply wp_ret. rewrite Hd. done.
  - destruct (_ <=? _); [|done]. by destruct Hsp as (? & ? & _).
Qed.

Lemma expire_slot tree key g now timeout g' b :
  slot_ok tree key g -> expire_members now timeout g = (g', b) ->
  slot_ok tree key g' /\ succeeds g g' /\ cg_members g' = filter (fun kv => now - kv.2 <= timeout) (cg_members g).
Proof.
  intros Hs He. unfold expire_members in He. injection He as <- _.
  split; [by apply (slot_ok_same tree key g)|]. by split; [split; [cbn; lia|]|].
Qed.

Lemma active_group_keeps c group topic now :
  coord_ok c ->
  wp (active_group group topic now)
     (fun g c' => keeps c c' /\ gc_groups c' !! (group, topic) = Some g /\
        slot_ok (gc_offsets_dir c') (group, topic) g /\ gc_offsets_dir c' = gc_offsets_dir c /\
        gc_topic_partition_counts c' = gc_topic_partition_counts c)
     (kept_err c) c.
Proof.
  intros Hc. unfold active_group. apply wp_bind. unfold wp at 1, get. cbv beta iota.
  apply wp_bind, wp_ok_or; [intros _; by apply keeps_refl|].
  intros g Hg. pose proof Hc as (Hcn & _ & HF). pose proof (HF _ _ Hg) as Hs.
  destruct (expire_members _ _ _) as [g1 b] eqn:He.
  pose proof (expire_slot _ _ _ _ _ _ _ Hs He) as (Hs1 & Hsu & _).
  apply put_then; [by apply keeps_refl|done|naive_solver|].
  intros c1 Hk1 Hg1 Hd1 _ Hcn1. apply wp_if; intros _.
  - eapply wp_mono; [apply rebalance_group_keeps; try done|..|done].
    + by rewrite Hd1.
    + by apply partition_count_u32.
    + cbv beta. intros g2 c2 (? & ? & ? & ? & ? & ?). split_and?; try done; congruence.
  - apply wp_ret. rewrite Hd1. done.
Qed.

Lemma wp_validate_id c0 c id (Q : unit -> GroupCoordinator -> Prop) :
  keeps c0 c -> (valid_group_id id = true -> Q tt c) -> wp (validate_id id) Q (kept_err c0) c.
Proof.
  intros Hk HQ. apply wp_reject_if; [done|]. intros H%negb_false_iff. auto.
Qed.
Lemma wp_validate_member c0 c g m n (Q : unit -> GroupCoordinator -> Prop) :
  keeps c0 c -> (n = cg_generation g -> is_Some (cg_members g !! m) -> Q tt c) ->
  wp (validate_member g m n) Q (kept_err c0) c.
Proof.
  intros Hk HQ. apply wp_bind, wp_reject_if; [done|]. intros H1%negb_false_iff%Z.eqb_eq.
  apply wp_reject_if; [done|]. intros H2%negb_false_iff%bool_decide_eq_true. auto.
Qed.

Lemma tree_read_ok tree g t p :
  tree_ok tree -> is_u32 p -> is_ok (read_offset (topic_dir tree g t) p) = true.
Proof.
  intros Ht Hp. unfold topic_dir. destruct (tree !! g) as [topics|] eqn:Hg; cbn; [|done].
  destruct (topics !! t) as [d|] eqn:Hd; cbn; [|done].
  destruct (Ht _ _ Hg) as [_ Hds]. by apply (Hds _ _ Hd).
Qed.

Lemma load_offsets_ok tree g t n :
  tree_ok tree -> is_u32 n ->
  exists m, load_offsets tree g t n = Ok m /\
    forall p o, m !! p = Some o <-> 0 <= p < n /\ read_offset (topic_dir tree g t) p = Ok (Some o).
Proof.
  intros Ht Hn. unfold load_offsets.
  destruct (load_offsets_from_total (topic_dir tree g t) (seqZ 0 n) ∅) as [m Hm].
  { apply Forall_forall. intros p Hp%elem_of_seqZ. apply tree_read_ok; [done|range]. }
  exists m. split; [done|]. intros p o. rewrite (load_offsets_from_spec _ _ _ _ Hm p).
  rewrite lookup_empty. case_decide as Hp; rewrite elem_of_seqZ in Hp.
  - assert (0 <= p < n) by lia.
    split; [intros Hv|intros [_ Hv]]; destruct (read_offset _ p) as [[v|]| |]; try done;
      injection Hv as ->; done.
  - split; [done|]. intros [? _]. lia.
Qed.

Lemma new_group_slot tree g t n m :
  tree_ok tree -> is_u32 n -> valid_group_id g = true -> valid_group_id t = true ->
  load_offsets tree g t n = Ok m -> slot_ok tree (g, t) (new_group m).
Proof.
  intros Ht Hn Hg Htp Hm. destruct (load_offsets_ok tree g t n Ht Hn) as (m' & Hm' & Hs).
  assert (m' = m) as -> by congruence.
  split; [|split_and?; [done|done|]].
  - unfold group_ok, is_assigned. cbn. split_and?; try range; intros *; by rewrite lookup_empty.
  - intros p o Hp%Hs. cbn [fst snd]. split; [range|tauto].
Qed.

Lemma join_keeps c group topic member now :
  coord_ok c ->
  wp (join group topic member now) (fun _ c' => keeps c c') (kept_err c) c.
Proof.
  intros Hc. pose proof (keeps_refl c Hc) as Hk. unfold join.
  do 3 (apply wp_bind, wp_validate_id; [done|]; intros ?).
  apply wp_bind. unfold wp at 1, get. cbv beta iota zeta. pose proof Hc as (Hcn & Ht & HF).
  pose proof (partition_count_u32 c topic Hcn) as Hn.
  apply wp_bind, (wp_mono _ (fun g c' => c' = c /\ slot_ok (gc_offsets_dir c) (group, topic) g /\
    forall g0, gc_groups c !! (group, topic) = Some g0 -> g0 = g) _ (kept_err c)); [| |done].
  { destruct (gc_groups c !! (group, topic)) as [g|] eqn:Hg.
    - apply wp_ret. split_and?; [done|by apply HF|]. congruence.
    - apply wp_bind. unfold wp at 1, lift.
      destruct (load_offsets_ok (gc_offsets_dir c) group topic _ Ht Hn) as (m & Hm & _).
      rewrite Hm. apply wp_ret. split_and?; [done| |done]. by eapply new_group_slot. }
  intros g ? (-> & Hs & Hg).
  destruct (expire_members _ _ _) as [g1 b] eqn:He.
  pose proof (expire_slot _ _ _ _ _ _ _ Hs He) as (Hs1 & Hsu & _).
  apply put_then; [done|by eapply slot_ok_same| |].
  { intros g0 ->%Hg. destruct Hsu as [? ?]. by split. }
  intros c1 Hk1 Hg1 Hd1 Hcn1 Hpc1. apply wp_bind.
  apply (wp_mono _ (fun _ c' => keeps c c') _ (kept_err c)); [|intros; by apply wp_ret|done].
  apply wp_if; intros _; [|by apply wp_ret].
  eapply wp_mono; [apply rebalance_group_keeps; try done|..|done].
  - rewrite Hd1. by eapply slot_ok_same.
  - by intros g2 c2 [? _].
Qed.

Lemma heartbeat_keeps c group topic member n now :
  coord_ok c ->
  wp (heartbeat group topic member n now) (fun _ c' => keeps c c') (kept_err c) c.
Proof.
  intros Hc. unfold heartbeat. apply wp_bind.
  eapply wp_mono; [by apply active_group_keeps| |done].
  intros g c1 (Hk & Hg & Hs & _). cbv beta. apply wp_bind, wp_validate_member; [done|]. intros _ _.
  eapply wp_mono; [apply put_group_keeps; [apply Hk|by eapply slot_ok_same|]| |done].
  - intros g0 Hg0. assert (g0 = g) as -> by congruence. by split; [cbn; lia|].
  - intros _ c2 [? _]. by eapply keeps_trans.
Qed.

Lemma leave_keeps c group topic member n now :
  coord_ok c ->
  wp (leave group topic member n now) (fun _ c' => keeps c c') (kept_err c) c.
Proof.
  intros Hc. unfold leave. apply wp_bind. unfold wp at 1, get. cbv beta iota. apply wp_bind.
  eapply wp_mono; [by apply active_group_keeps| |done].
  intros g c1 (Hk & Hg & Hs & _). cbv beta. apply wp_bind, wp_validate_member; [done|]. intros _ _.
  apply put_then; [done|by eapply slot_ok_same| |].
  { intros g0 Hg0. assert (g0 = g) as -> by congruence. by split; [cbn; lia|]. }
  intros c2 Hk2 Hg2 Hd2 _ _. apply wp_bind.
  eapply wp_mono; [apply rebalance_group_keeps; try done|..|done].
  - rewrite Hd2. by eapply slot_ok_same.
  - apply partition_count_u32, Hc.
  - intros g3 c3 [? _]. by apply wp_ret.
Qed.

Lemma authorize_keeps c id p now :
  coord_ok c ->
  wp (authorize_fetch id p now) (fun _ c' => keeps c c') (kept_err c) c.
Proof.
  intros Hc. unfold authorize_fetch. apply wp_bind.
  eapply wp_mono; [by apply active_group_keeps| |done].
  intros g c1 (Hk & _). cbv beta. apply wp_bind, wp_validate_member; [done|]. intros _ _.
  by apply wp_reject_if.
Qed.

(** The offset file of a commit and the cached offset change together. *)
Lemma persist_tree_ok tree g t p o :
  tree_ok tree -> valid_group_id g = true -> valid_group_id t = true -> is_u32 p -> is_u64 o ->
  tree_ok (persist_offset tree g t p o).
Proof.
  intros Ht Hg Htp Hp Ho group topics Hl. unfold persist_offset, set_topic_dir in Hl.
  destruct (decide (group = g)) as [->|Hne].
  2:{ rewrite lookup_insert_ne in Hl by done. by apply Ht. }
  rewrite lookup_insert_eq in Hl. injection Hl as <-. split; [done|]. intros topic d Hd.
  destruct (decide (topic = t)) as [->|Hnt].
  - rewrite lookup_insert_eq in Hd. injection Hd as <-. split; [done|]. intros q Hq.
    destruct (read_replaced (topic_dir tree g t) p o Hp Ho) as [Hsame Hother].
    destruct (decide (q = p)) as [->|]; [by rewrite Hsame|]. rewrite Hother by done.
    by apply tree_read_ok.
  - rewrite lookup_insert_ne in Hd by done. destruct (tree !! g) as [ts|] eqn:Hts.
    + destruct (Ht _ _ Hts) as [_ Hds]. by apply Hds.
    + cbn in Hd. by rewrite lookup_empty in Hd.
Qed.

Lemma read_persisted tree g t p o g' t' q :
  is_u32 p -> is_u64 o -> is_u32 q ->
  read_offset (topic_dir (persist_offset tree g t p o) g' t') q =
  if decide (g' = g /\ t' = t /\ q = p) then Ok (Some o) else read_offset (topic_dir tree g' t') q.
Proof.
  intros Hp Ho Hq. unfold persist_offset. rewrite topic_dir_set.
  destruct (decide (g' = g /\ t' = t)) as [[-> ->]|Hne].
  - destruct (read_replaced (topic_dir tree g t) p o Hp Ho) as [Hsame Hother].
    destruct (decide (q = p)) as [->|].
    + by rewrite decide_True.
    + rewrite decide_False by tauto. by apply Hother.
  - by rewrite decide_False by tauto.
Qed.

Lemma commit_put_keeps c key g p o :
  coord_ok c -> gc_groups c !! key = Some g -> is_u32 p -> is_u64 o ->
  moves c (set_groups (set_offsets_dir c (persist_offset (gc_offsets_dir c) key.1 key.2 p o))
             (<[key := set_committed g (<[p := o]> (cg_committed_offsets g))]> (gc_groups c))).
Proof.
  intros (Hcn & Ht & HF) Hg Hp Ho. pose proof (HF _ _ Hg) as (Hok & Hk1 & Hk2 & Hca).
  split; [split; [exact Hcn|split; [by apply persist_tree_ok|]]|].
  - intros k x Hx. cbn in Hx |- *. destruct (decide (k = key)) as [->|Hne].
    + rewrite lookup_insert_eq in Hx. injection Hx as <-.
      split; [done|split_and?; [done|done|]]. intros q v Hv. cbn in Hv.
      destruct (decide (q = p)) as [->|].
      * rewrite lookup_insert_eq in Hv. injection Hv as <-. split; [done|].
        rewrite read_persisted by done. by rewrite decide_True.
      * rewrite lookup_insert_ne in Hv by done. destruct (Hca _ _ Hv) as [? ?]. split; [done|].
        rewrite read_persisted by done. by rewrite decide_False by tauto.
    + rewrite lookup_insert_ne in Hx by done. destruct (HF _ _ Hx) as (Hokx & ? & ? & Hcx).
      split; [done|split_and?; [done|done|]]. intros q v Hv.
      destruct (Hcx _ _ Hv) as [? ?]. split; [done|].
      rewrite read_persisted by done. rewrite decide_False; [done|].
      intros (? & ? & _). apply Hne. destruct k, key. cbn in *. congruence.
  - intros k x Hx. cbn. destruct (decide (k = key)) as [->|].
    + rewrite lookup_insert_eq. eexists. split; [done|]. assert (x = g) as -> by congruence.
      cbn. split; [lia|done].
    + rewrite lookup_insert_ne by done. exists x. by split_and?.
Qed.

Lemma commit_keeps c id p o now :
  coord_ok c -> is_u64 o ->
  wp (commit id p o now)
     (fun _ c' => moves c c' /\ is_u32 p /\
        gc_offsets_dir c' = persist_offset (gc_offsets_dir c) (gi_group id) (gi_topic id) p o)
     (kept_err c) c.
Proof.
  intros Hc Ho. unfold commit. apply wp_bind.
  eapply wp_mono; [by apply active_group_keeps| |done].
  intros g c1 (Hk & Hg & Hs & Hd & _). cbv beta. apply wp_bind, wp_validate_member; [done|].
  intros _ _. apply wp_bind, wp_reject_if; [done|]. intros Ha%negb_false_iff.
  apply wp_bind. unfold wp, modify, put_group. cbn -[persist_offset].
  destruct Hs as ((_ & Hr & _) & _). pose proof (Hr _ _ Ha) as Hp.
  destruct Hk as [[Hc1 Hev] _].
  pose proof (commit_put_keeps c1 _ g p o Hc1 Hg Hp Ho) as [Hc2 Hev2]. cbn [fst snd] in *.
  split; [split; [done|by transitivity c1]|]. split; [done|]. by rewrite Hd.
Qed.

Lemma expire_keeps c order now :
  coord_ok c -> wp (expire_sessions order now) (fun _ c' => keeps c c') (kept_err c) c.
Proof.
  intros Hc. unfold expire_sessions. apply wp_for_each; [by apply keeps_refl|].
  intros key c1 _ Hk. apply wp_bind. unfold wp at 1, get. cbv beta iota.
  destruct (gc_groups c1 !! key) as [g|] eqn:Hg; [|by apply wp_ret].
  pose proof Hk as [[(Hcn & _ & HF) _] _]. pose proof (HF _ _ Hg) as Hs.
  destruct (expire_members _ _ _) as [g1 b] eqn:He.
  pose proof (expire_slot _ _ _ _ _ _ _ Hs He) as (Hs1 & Hsu & _).
  apply put_then; [done|done|naive_solver|].
  intros c2 Hk2 Hg2 Hd2 _ _. apply wp_if; intros _; [|by apply wp_ret].
  apply wp_bind. eapply wp_mono; [apply rebalance_group_keeps; try done|..|done].
  - by rewrite Hd2.
  - by apply partition_count_u32.
  - intros g3 c3 [? _]. by apply wp_ret.
Qed.

(** A group has the committed offsets of the files below a partition count. *)
Definition has_offsets (tree : Tree) (n : Z) (key : string * string) (g : ConsumerGroup) : Prop :=
  forall p, 0 <= p < n -> Ok (cg_committed_offsets g !! p) = read_offset (topic_dir tree key.1 key.2) p.
Lemma loaded_has tree n key g offsets :
  tree_ok tree -> is_u32 n -> cached tree key g ->
  (forall p o, offsets !! p = Some o <-> 0 <= p < n /\ read_offset (topic_dir tree key.1 key.2) p = Ok (Some o)) ->
  has_offsets tree n key (set_committed g (offsets ∪ cg_committed_offsets g)).
Proof.
  intros Ht Hn Hca Hspec p Hp. cbn. pose proof (tree_read_ok tree key.1 key.2 p Ht ltac:(range)) as Hr.
  destruct (read_offset _ p) as [[o|]| |] eqn:E; try done.
  - rewrite (lookup_union_Some_l _ _ p o); [done|]. by apply Hspec.
  - f_equal. apply lookup_union_None. split.
    + destruct (offsets !! p) as [o|] eqn:Ho; [|done]. apply Hspec in Ho as [_ ?]. congruence.
    + destruct (cg_committed_offsets g !! p) as [o|] eqn:Ho; [|done]. apply Hca in Ho as [_ ?]. congruence.
Qed.

Section counts.
Context (topic : string) (n : Z) (Hn : is_u32 n).
(** What a new partition count does to the groups of a list. *)
Record recounts (order : list (string * string)) (c c' : GroupCoordinator) : Prop := {
  rc_keeps : keeps c c';
  rc_counts : gc_topic_partition_counts c' = gc_topic_partition_counts c /\
              gc_default_partition_count c' = gc_default_partition_count c;
  rc_other key : key.2 <> topic -> gc_groups c' !! key = gc_groups c !! key;
  rc_loaded key g : gc_groups c !! key = Some g -> key.2 = topic ->
    key ∈ order \/ has_offsets (gc_offsets_dir c) n key g ->
    exists g', gc_groups c' !! key = Some g' /\ has_offsets (gc_offsets_dir c) n key g'
}.
Lemma recounts_refl c : coord_ok c -> recounts [] c c.
Proof.
  intros Hc. split; [by apply keeps_refl|done|done|]. intros key g Hg _ [?%elem_of_nil|?]; [done|by exists g].
Qed.
Lemma recounts_trans o1 o2 c1 c2 c3 :
  recounts o1 c1 c2 -> recounts o2 c2 c3 -> recounts (o1 ++ o2) c1 c3.
Proof.
  intros [Hk Hc Ho Hl] [Hk' Hc' Ho' Hl']. split.
  - by eapply keeps_trans.
  - destruct Hc, Hc'. split; congruence.
  - intros key Hne. by rewrite Ho', Ho.
  - intros key g Hg Ht Hin. rewrite elem_of_app in Hin. rewrite (proj2 Hk) in Hl'.
    assert ((key ∈ o1 \/ has_offsets (gc_offsets_dir c1) n key g) \/ key ∈ o2) as [Hin1|Hin2] by tauto.
    + destruct (Hl key g Hg Ht Hin1) as (g1 & Hg1 & Hh). apply (Hl' key g1); auto.
    + destruct (proj2 (proj1 Hk) key g Hg) as (g1 & Hg1 & _). apply (Hl' key g1); auto.
Qed.
Lemma reload_run key c :
  coord_ok c -> exists c', reload_group topic n key c = (Ok tt, c') /\ recounts [key] c c'.
Proof.
  intros Hc. unfold reload_group, bind at 1, get. cbv beta iota.
  assert (forall c', (forall g, gc_groups c !! key = Some g -> key.2 <> topic) -> c' = c ->
    recounts [key] c c') as Hsame.
  { intros c' Hno ->. split; [by apply keeps_refl|done|done|]. intros key0 g Hg Ht [Hin|Hh]; [|by exists g].
    apply list_elem_of_singleton in Hin as ->. by destruct (Hno g Hg). }
  destruct (gc_groups c !! key) as [g|] eqn:Hg; [|exists c; split; [done|]; by apply Hsame].
  case_bool_decide as Ht; [|exists c; split; [done|]; apply Hsame; congruence].
  pose proof Hc as (Hcnt & Htree & HF). pose proof (HF _ _ Hg) as (Hok & Hk1 & Hk2 & Hca).
  destruct (load_offsets_ok (gc_offsets_dir c) key.1 key.2 n Htree Hn) as (m & Hm & Hspec).
  unfold bind, lift. rewrite Hm. set (g' := set_committed g (m ∪ cg_committed_offsets g)).
  assert (slot_ok (gc_offsets_dir c) key g') as Hslot.
  { split; [done|split_and?; [done|done|]]. intros p o Hp. cbn in Hp.
    apply lookup_union_Some_raw in Hp as [Hp|[_ Hp]]; [|by apply Hca]. apply Hspec in Hp as [? ?]. split; [range|done]. }
  pose proof (put_group_keeps c key g' Hc Hslot) as Hput. unfold wp, put_group, modify in *.
  eexists. split; [done|]. destruct Hput as [Hput _]; [intros g0 Hg0; assert (g0 = g) as -> by congruence; by split; [cbn; lia|]|].
  split; [done|done| |].
  - intros key0 Hne. cbn. rewrite lookup_insert_ne; [done|]. congruence.
  - intros key0 g0 Hg0 Ht0 Hin. cbn. destruct (decide (key0 = key)) as [->|Hne].
    + rewrite lookup_insert_eq. exists g'. split; [done|]. by apply loaded_has.
    + rewrite lookup_insert_ne by done. exists g0. split; [done|]. destruct Hin as [Hin|?]; [|done].
      by apply list_elem_of_singleton in Hin.
Qed.
Lemma reload_all_run order c :
  coord_ok c -> exists c', for_each order (reload_group topic n) c = (Ok tt, c') /\ recounts order c c'.
Proof.
  revert c. induction order as [|key order IH]; intros c Hc; cbn [for_each].
  { exists c. split; [done|by apply recounts_refl]. }
  destruct (reload_run key c Hc) as (c1 & Hrun & H1). rewrite (bind_Ok _ _ _ _ _ Hrun).
  destruct (IH c1) as (c2 & Hrun2 & H2); [apply (rc_keeps _ _ _ H1)|]. exists c2. split; [done|].
  by apply (recounts_trans [key] order c c1 c2).
Qed.
End counts.

(** A new partition count of a topic. *)
Lemma set_partitions_run c order topic n :
  coord_ok c -> is_u32 n ->
  exists c', set_topic_partitions order topic n c = (Ok tt, c') /\ keeps c c' /\
    gc_topic_partition_counts c' = <[topic := n]> (gc_topic_partition_counts c) /\
    gc_default_partition_count c' = gc_default_partition_count c /\
    (forall key, key.2 <> topic -> gc_groups c' !! key = gc_groups c !! key) /\
    (forall key g, gc_groups c !! key = Some g -> key.2 = topic -> key ∈ order ->
       exists g', gc_groups c' !! key = Some g' /\ has_offsets (gc_offsets_dir c) n key g').
Proof.
  intros Hc Hn. unfold set_topic_partitions, bind, modify.
  set (c0 := set_counts c (<[topic := n]> (gc_topic_partition_counts c))).
  assert (keeps c c0) as Hk0.
  { destruct Hc as ([Hd Hm] & Ht & HF). split; [|done]. split; [|by intros key g Hg; exists g; auto with lia].
    split; [|done]. split; [done|]. by apply map_Forall_insert_2. }
  destruct (reload_all_run topic n Hn order c0) as (c' & Hrun & [Hk [Hcnt Hdef] Ho Hl]); [apply Hk0|].
  exists c'. split; [done|]. split; [exact (keeps_trans _ _ _ Hk0 Hk)|]. split; [exact Hcnt|]. split; [exact Hdef|]. split; [exact Ho|].
  intros key g Hg Ht Hin. apply (Hl key g); auto.
Qed.
Lemma set_partitions_keeps c order topic n :
  coord_ok c -> is_u32 n ->
  wp (set_topic_partitions order topic n) (fun _ c' => keeps c c') (fun _ _ => False) c.
Proof.
  intros Hc Hn. destruct (set_partitions_run c order topic n Hc Hn) as (c' & Hrun & Hk & _).
  unfold wp. by rewrite Hrun.
Qed.

(** Every call, successful or not, is a move. *)
Lemma run_op_moves op now c :
  coord_ok c -> op_typed op ->
  moves c (snd (run_op op now c)) /\ fst (run_op op now c) <> Panic.
Proof.
  intros Hc Ht.
  assert (wp (run_op op now) (fun _ c' => moves c c') (fun _ c' => moves c c') c) as Hwp.
  { destruct op as [g t m|g t m n|g t m n|i p o|i p|ord|ord t n]; cbn [run_op op_typed] in *.
    - apply wp_bind. eapply wp_mono; [by apply join_keeps| |]; intros ? c1 [? ?]; [by apply wp_ret|done].
    - eapply wp_mono; [by apply heartbeat_keeps| |]; by intros ? c1 [? ?].
    - eapply wp_mono; [by apply leave_keeps| |]; by intros ? c1 [? ?].
    - eapply wp_mono; [by apply commit_keeps| |]; by intros ? c1 [? ?].
    - eapply wp_mono; [by apply authorize_keeps| |]; by intros ? c1 [? ?].
    - eapply wp_mono; [by apply expire_keeps| |]; by intros ? c1 [? ?].
    - eapply wp_mono; [by apply set_partitions_keeps| |]; [by intros ? c1 [? ?]|done]. }
  unfold wp in Hwp. destruct (run_op op now c) as [[[]|e|] c']; cbn; by split.
Qed.

Lemma group_steps_moves c c' : group_steps c c' -> coord_ok c -> moves c c'.
Proof.
  induction 1 as [c|c c1 c2 [op now Ht] _ IH]; intros Hc; [done|].
  destruct (run_op_moves op now c Hc Ht) as [[Hc1 Hev] _].
  destruct (IH Hc1) as [? ?]. split; [done|]. by etransitivity.
Qed.

(* ------------------------------------------------------------------ *)
(** ** Restarting                                                       *)
(* ------------------------------------------------------------------ *)

(** The directory of a group's topic, if there is one. *)
Definition find_dir (tree : Tree) (key : string * string) : option Dir :=
  tree !! key.1 ≫= fun topics => topics !! key.2.

Section restart.
Context (tree : Tree) (n : Z) (Htree : tree_ok tree) (Hn : is_u32 n).

(** The group recovered from a topic directory. *)
Definition loaded (key : string * string) : ConsumerGroup :=
  new_group (match load_offsets tree key.1 key.2 n with Ok m => m | _ => ∅ end).

Lemma loaded_offset key p :
  cg_committed_offsets (loaded key) !! p =
  if decide (0 <= p < n) then
    match read_offset (topic_dir tree key.1 key.2) p with Ok o => o | _ => None end
  else None.
Proof.
  unfold loaded. destruct (load_offsets_ok tree key.1 key.2 n Htree Hn) as (m & -> & Hm).
  cbn. destruct (m !! p) as [o|] eqn:E.
  - apply Hm in E as [? Hr]. rewrite decide_True by done. by rewrite Hr.
  - case_decide as Hp; [|done]. destruct (read_offset _ p) as [[o|]| |] eqn:Hr; try done.
    assert (m !! p = Some o) by by apply Hm. congruence.
Qed.

Lemma recover_topics_spec g topics groups :
  Forall (fun t => valid_group_id t = true) topics ->
  exists groups', recover_topics tree g n topics groups = Ok groups' /\
    forall key, groups' !! key = if decide (key.1 = g /\ key.2 ∈ topics)
                                 then Some (loaded key) else groups !! key.
Proof.
  intros HF. revert groups. induction HF as [|t topics Ht _ IH]; intros groups; cbn [recover_topics].
  { exists groups. split; [done|]. intros key. rewrite decide_False; [done|].
    intros [_ ?%elem_of_nil]. done. }
  rewrite Ht. destruct (load_offsets_ok tree g t n Htree Hn) as (m & Hm & _). rewrite Hm.
  cbn [obind]. destruct (IH (<[(g, t) := new_group m]> groups)) as (groups' & -> & Hg).
  exists groups'. split; [done|]. intros key. rewrite Hg.
  destruct (decide (key = (g, t))) as [->|Hne].
  - rewrite lookup_insert_eq. cbn [fst snd].
    rewrite (decide_True (P := g = g /\ t ∈ t :: topics)) by (split; [done|by left]).
    unfold loaded. cbn [fst snd]. rewrite Hm. by case_decide.
  - rewrite lookup_insert_ne by done. destruct key as [g' t']. cbn [fst snd].
    destruct (decide (g' = g /\ t' ∈ topics)) as [[-> Hin]|Hni].
    + rewrite decide_True; [done|]. by split; [|right].
    + rewrite decide_False; [done|]. intros [-> Hin]. apply elem_of_cons in Hin as [->|Hin]; [done|].
      apply Hni. by split.
Qed.

Definition listed (dirs : list (string * gmap string Dir)) (key : string * string) : Prop :=
  exists topics, (key.1, topics) ∈ dirs /\ is_Some (topics !! key.2).

Lemma recover_groups_from_spec dirs groups :
  Forall (fun d => valid_group_id d.1 = true /\
                   map_Forall (fun t _ => valid_group_id t = true) d.2) dirs ->
  exists groups', recover_groups_from tree n dirs groups = Ok groups' /\
    forall key, (listed dirs key -> groups' !! key = Some (loaded key)) /\
                (~ listed dirs key -> groups' !! key = groups !! key).
Proof.
  intros HF. revert groups. induction HF as [|[g ts] dirs [Hg Hts] _ IH]; intros groups.
  { exists groups. split; [done|]. intros key. split; [|done]. by intros (? & ?%elem_of_nil & _). }
  cbn [recover_groups_from fst snd] in *. rewrite Hg.
  destruct (recover_topics_spec g (fst <$> map_to_list ts) groups) as (g1 & -> & Hg1).
  { apply Forall_fmap, Forall_forall. intros [t d] Hin%elem_of_map_to_list. by eapply Hts. }
  cbn [obind]. destruct (IH g1) as (g2 & -> & Hg2). exists g2. split; [done|].
  assert (forall t, t ∈ (fst <$> map_to_list ts) <-> is_Some (ts !! t)) as Hin.
  { intros t. rewrite list_elem_of_fmap. split.
    - intros ([t' d] & -> & ?%elem_of_map_to_list). by exists d.
    - intros [d Hd]. exists (t, d). by rewrite elem_of_map_to_list. }
  intros key. destruct (Hg2 key) as [Hyes Hno]. specialize (Hg1 key).
  assert (g1 !! key = if decide (key.1 = g /\ is_Some (ts !! key.2)) then Some (loaded key)
                      else groups !! key) as Hg1'.
  { rewrite Hg1. apply decide_ext. by rewrite Hin. }
  clear Hg1. rename Hg1' into Hg1.
  assert (listed dirs key \/ ~ listed dirs key) as [Hl|Hl].
  { destruct (decide (Exists (fun d => d.1 = key.1 /\ is_Some (d.2 !! key.2)) dirs)) as [He|He].
    - left. apply Exists_exists in He as ([g' ts'] & ? & Heq & ?). cbn in *. subst. by exists ts'.
    - right. intros (ts' & ? & ?). apply He, Exists_exists. by exists (key.1, ts'). }
  - split; [auto|]. intros Hnl. exfalso. apply Hnl. destruct Hl as (ts' & ? & ?).
    exists ts'. split; [by right|done].
  - rewrite Hno, Hg1 by done. split.
    + intros (ts' & Hel & Hts'). apply elem_of_cons in Hel as [Heq|Hel].
      * injection Heq as <- ->. by rewrite decide_True.
      * exfalso. apply Hl. by exists ts'.
    + intros Hnl. rewrite decide_False; [done|]. intros [<- ?]. apply Hnl. exists ts.
      split; [by left|done].
Qed.

Lemma open_coordinator_spec timeout :
  exists c, open_coordinator tree n timeout = Ok c /\ coord_ok c /\
    gc_offsets_dir c = tree /\ gc_default_partition_count c = n /\
    gc_topic_partition_counts c = ∅ /\
    forall key, gc_groups c !! key =
      (if find_dir tree key is Some _ then Some (loaded key) else None).
Proof.
  unfold open_coordinator, recover_groups.
  destruct (recover_groups_from_spec (map_to_list tree) ∅) as (groups & -> & Hg).
  { apply Forall_forall. intros [g ts] Hin%elem_of_map_to_list. destruct (Htree _ _ Hin) as [? Hd].
    split; [done|]. intros t d Htd. by apply (Hd t d). }
  assert (forall key, groups !! key =
    (if find_dir tree key is Some _ then Some (loaded key) else None)) as Hs.
  { intros [g t]. destruct (Hg (g, t)) as [Hyes Hno]. unfold listed, find_dir in *. cbn [fst snd] in *.
    destruct (tree !! g) as [ts|] eqn:Hts; cbn.
    - destruct (ts !! t) as [d|] eqn:Hd.
      + apply Hyes. exists ts. split; [by apply elem_of_map_to_list|by exists d].
      + rewrite Hno; [done|]. intros (ts' & Hin%elem_of_map_to_list & [d' Hd']). congruence.
    - rewrite Hno; [done|]. intros (ts' & Hin%elem_of_map_to_list & _). congruence. }
  cbn [obind]. eexists. split; [done|]. split; [|done].
  split; [done|split; [done|]]. intros [g t] x Hx. cbn in Hx. rewrite Hs in Hx. unfold find_dir in Hx. cbn [fst snd] in Hx.
  destruct (tree !! g) as [ts|] eqn:Hts; cbn in Hx; [|done].
  destruct (ts !! t) as [d|] eqn:Hd; [|done]. injection Hx as <-.
  destruct (Htree _ _ Hts) as [Hgv Htv]. destruct (Htv _ _ Hd) as [Htp _].
  destruct (load_offsets_ok tree g t n Htree Hn) as (m & Hm & _).
  unfold loaded. cbn [fst snd]. rewrite Hm. by eapply new_group_slot.
Qed.
End restart.
