(* ===== verification/Coordination.v ===== *)
(** * Coordination: what the consumer group coordinator promises. *)

From stdpp Require Import base numbers list strings gmap sorting relations.
From Stdlib Require Import ZArith Lia.
From S2P Require Import Prelude Text Files Runs Groups GroupFacts GroupSteps.

(** A coordinator to run examples with: two members of one group. *)
Definition sample_id (m : string) : GroupIdentity :=
  {| gi_group := "workers"; gi_topic := "orders"; gi_member := m; gi_generation := 2 |}.
Definition fresh_coordinator : GroupCoordinator :=
  {| gc_offsets_dir := ∅; gc_default_partition_count := 3; gc_topic_partition_counts := ∅;
     gc_session_timeout := 10; gc_groups := ∅ |}.
Definition joined_coordinator : GroupCoordinator :=
  snd ((_a <- join "workers" "orders" "a" 1 ;; join "workers" "orders" "b" 2) fresh_coordinator).

(* ------------------------------------------------------------------ *)
(** ** Helpers                                                          *)
(* ------------------------------------------------------------------ *)

Definition id_key (id : GroupIdentity) : string * string := (gi_group id, gi_topic id).

(** What an accepted fetch or commit knows about the group. *)
Definition holds (c : GroupCoordinator) (id : GroupIdentity) (p : Z) : Prop :=
  exists g, gc_groups c !! id_key id = Some g /\ cg_generation g = gi_generation id /\
    is_assigned g (gi_member id) p = true.

Lemma authorize_holds c id p now c1 :
  coord_ok c -> authorize_fetch id p now c = (Ok tt, c1) -> moves c c1 /\ holds c1 id p.
Proof.
  intros Hc Hrun. unfold authorize_fetch in Hrun.
  apply bind_inv in Hrun as (g & c2 & Hact & Hrun).
  pose proof (active_group_keeps c (gi_group id) (gi_topic id) now Hc) as Hwp.
  unfold wp in Hwp. rewrite Hact in Hwp. destruct Hwp as ([Hm _] & Hg & _).
  apply bind_inv in Hrun as (u & c3 & Hval & Hrun). apply reject_if_inv in Hrun as [Ha ->].
  unfold validate_member in Hval. apply bind_inv in Hval as (u' & c4 & Hgen & Hmem).
  apply reject_if_inv in Hgen as [Hgen ->]. apply reject_if_inv in Hmem as [_ ->].
  split; [done|]. exists g. split; [done|].
  apply negb_false_iff, Z.eqb_eq in Hgen. by apply negb_false_iff in Ha.
Qed.

Lemma commit_holds c id p o now c1 :
  coord_ok c -> is_u64 o -> commit id p o now c = (Ok tt, c1) -> moves c c1 /\ holds c1 id p.
Proof.
  intros Hc Ho Hrun. pose proof (commit_keeps c id p o now Hc Ho) as Hwp.
  unfold wp in Hwp. rewrite Hrun in Hwp. destruct Hwp as (Hm & Hp & _). split; [done|].
  unfold commit in Hrun. apply bind_inv in Hrun as (g & c2 & Hact & Hrun).
  apply bind_inv in Hrun as (u & c3 & Hval & Hrun).
  apply bind_inv in Hrun as (u2 & c4 & Ha & Hrun). apply reject_if_inv in Ha as [Ha ->].
  unfold validate_member in Hval. apply bind_inv in Hval as (u' & c5 & Hgen & Hmem).
  apply reject_if_inv in Hgen as [Hgen ->]. apply reject_if_inv in Hmem as [_ ->].
  apply negb_false_iff, Z.eqb_eq in Hgen. apply negb_false_iff in Ha.
  unfold bind, modify, put_group in Hrun. injection Hrun as <-.
  eexists. split; [apply lookup_insert_eq|]. cbn. split; [done|]. exact Ha.
Qed.

(** Two holders of a partition in one generation are one member. *)
Lemma holds_unique c c' id1 id2 p :
  coord_ok c -> evolves c c' -> holds c id1 p -> holds c' id2 p ->
  id_key id1 = id_key id2 -> gi_generation id1 = gi_generation id2 ->
  gi_member id1 = gi_member id2.
Proof.
  intros (_ & _ & HF) Hev (g & Hg & Hgen & Ha) (g' & Hg' & Hgen' & Ha') Hk Hn.
  destruct (Hev _ _ Hg) as (g2 & Hg2 & _ & Hsame). rewrite Hk in Hg2.
  assert (g2 = g') as -> by congruence. unfold is_assigned in Ha'. rewrite Hsame in Ha' by congruence.
  destruct (HF _ _ Hg) as ((_ & _ & Hx) & _). by apply (Hx _ _ p).
Qed.

(** A call that names an old generation is refused. *)
Lemma validate_stale c g m n :
  n <> cg_generation g -> validate_member (S:=GroupCoordinator) g m n c = (Err (StaleGeneration (cg_generation g) n), c).
Proof.
  intros Hn. unfold validate_member. apply bind_Err. unfold reject_if.
  by rewrite (proj2 (Z.eqb_neq _ _) Hn).
Qed.

Lemma stale_refused {A} c group topic n now g (k : ConsumerGroup -> coordinator A) :
  coord_ok c -> gc_groups c !! (group, topic) = Some g -> n < cg_generation g ->
  (forall g' c', n <> cg_generation g' -> exists e, k g' c' = (Err e, c')) ->
  exists e c', (bind (active_group group topic now) k) c = (Err e, c') /\ keeps c c'.
Proof.
  intros Hc Hg Hn Hk. pose proof (active_group_keeps c group topic now Hc) as Hwp. unfold wp in Hwp.
  unfold bind. destruct (active_group group topic now c) as [[g'|e|] c'] eqn:Hact; [|eauto|done].
  destruct Hwp as (Hks & Hg' & _). pose proof Hks as [[_ Hev] _].
  destruct (Hev _ _ Hg) as (g2 & Hg2 & Hle & _). assert (g2 = g') as -> by congruence.
  destruct (Hk g' c') as [e He]; [lia|]. exists e, c'. done.
Qed.

(** Right after a call at [now], the sessions are not expired at [now]. *)
Definition unexpired (now timeout : Z) (g : ConsumerGroup) : Prop :=
  map_Forall (fun _ t => now - t <= timeout) (cg_members g).

Lemma expire_unexpired now timeout g :
  unexpired now timeout g -> expire_members now timeout g = (g, false).
Proof.
  intros Hu. unfold expire_members.
  assert (filter (fun kv => now - kv.2 <= timeout) (cg_members g) = cg_members g) as ->.
  { apply map_filter_id. exact Hu. }
  rewrite bool_decide_eq_true_2 by done. by destruct g.
Qed.

Lemma active_unexpired c group topic now g :
  gc_groups c !! (group, topic) = Some g -> unexpired now (gc_session_timeout c) g ->
  active_group group topic now c = (Ok g, c).
Proof.
  intros Hg Hu. unfold active_group. erewrite bind_Ok by apply get_run. cbv beta.
  erewrite bind_Ok by by apply ok_or_Some. cbv beta. rewrite expire_unexpired by done.
  unfold bind, put_group, modify, ret. rewrite insert_id by done. by destruct c.
Qed.

Lemma expire_leaves_unexpired now timeout g g' b :
  expire_members now timeout g = (g', b) -> unexpired now timeout g'.
Proof.
  unfold expire_members. intros [= <- _]. intros k t Hk. cbn in Hk.
  by apply map_lookup_filter_Some in Hk as [_ ?].
Qed.

Lemma join_result c group topic member now n ps c' :
  0 <= gc_session_timeout c -> join group topic member now c = (Ok (n, ps), c') ->
  exists g, gc_groups c' !! (group, topic) = Some g /\ cg_generation g = n /\
    cg_members g !! member = Some now /\ default [] (cg_assignments g !! member) = ps /\
    unexpired now (gc_session_timeout c') g.
Proof.
  intros Htime Hj. unfold join in Hj.
  do 3 (apply bind_inv in Hj as (? & ? & [_ ->]%reject_if_inv & Hj)).
  apply bind_inv in Hj as (c1 & s1 & Hget & Hj). injection Hget as <- <-. cbv zeta in Hj.
  apply bind_inv in Hj as (g0 & s2 & Hg0 & Hj).
  assert (s2 = c) as ->.
  { destruct (gc_groups c !! (group, topic)); [by injection Hg0|].
    apply bind_inv in Hg0 as (m & s3 & Hl & Hr). injection Hl as _ <-. by injection Hr. }
  destruct (expire_members _ _ _) as [g1 b] eqn:He. apply expire_leaves_unexpired in He as Hu.
  set (g2 := set_members g1 (<[member:=now]> (cg_members g1))) in *.
  assert (unexpired now (gc_session_timeout c) g2) as Hu2.
  { apply map_Forall_insert_2; [lia|done]. }
  apply bind_inv in Hj as ([] & s3 & Hput & Hj). injection Hput as <-.
  apply bind_inv in Hj as (g3 & s4 & Hreb & Hj). injection Hj as Hn Hps <-.
  assert (cg_members g2 !! member = Some now) as Hm2 by apply lookup_insert_eq.
  exists g3. destruct (_ || _).
  - unfold rebalance_group in Hreb. apply bind_inv in Hreb as (g4 & s5 & Hl & Hreb).
    injection Hl as Hr <-. apply bind_inv in Hreb as ([] & s6 & Hput & Hret).
    injection Hput as <-. injection Hret as <- <-.
    pose proof (rebalance_spec g2 (partition_count c topic)) as Hsp.
    destruct (_ <=? _); [|congruence]. destruct Hsp as (g5 & Hr' & _ & Hmem & _).
    assert (g5 = g4) as -> by congruence. unfold unexpired. rewrite Hmem.
    split_and?; try done. apply lookup_insert_eq.
  - injection Hreb as <- <-. split_and?; try done. apply lookup_insert_eq.
Qed.

Lemma find_dir_ok tree group topic d :
  tree_ok tree -> find_dir tree (group, topic) = Some d ->
  valid_group_id group = true /\ valid_group_id topic = true /\
  forall p, is_u32 p -> is_ok (read_offset d p) = true.
Proof.
  intros Ht Hd. unfold find_dir in Hd. cbn [fst snd] in Hd.
  destruct (tree !! group) as [ts|] eqn:Hts; [|done]. cbn in Hd.
  destruct (Ht _ _ Hts) as [? Hds]. by destruct (Hds _ _ Hd).
Qed.

Lemma set_topic_dir_ok tree group topic d :
  tree_ok tree -> valid_group_id group = true -> valid_group_id topic = true ->
  (forall p, is_u32 p -> is_ok (read_offset d p) = true) -> tree_ok (set_topic_dir tree group topic d).
Proof.
  intros Ht Hg Htp Hd g ts Hl. unfold set_topic_dir in Hl.
  destruct (decide (g = group)) as [->|]; [|rewrite lookup_insert_ne in Hl by done; by apply Ht].
  rewrite lookup_insert_eq in Hl. injection Hl as <-. split; [done|]. intros t x Hx.
  destruct (decide (t = topic)) as [->|].
  - rewrite lookup_insert_eq in Hx. by injection Hx as <-.
  - rewrite lookup_insert_ne in Hx by done. destruct (tree !! group) as [ts|] eqn:Hts.
    + destruct (Ht _ _ Hts) as [_ Hds]. by apply Hds.
    + cbn in Hx. by rewrite lookup_empty in Hx.
Qed.

Lemma fresh_ok : coord_ok fresh_coordinator.
Proof.
  split; [split; [by split|done]|]. split; [|done]. intros g ts Hg. cbn in Hg.
  by rewrite lookup_empty in Hg.
Qed.
Lemma joined_ok : coord_ok joined_coordinator.
Proof.
  assert (group_steps fresh_coordinator joined_coordinator) as Hs; [|apply (group_steps_moves _ _ Hs fresh_ok)].
  apply (rtc_l _ _ (snd (run_op (OpJoin "workers" "orders" "a") 1 fresh_coordinator)));
    [by constructor|]. apply (rtc_l _ _ joined_coordinator); [|done].
  change joined_coordinator with (snd (run_op (OpJoin "workers" "orders" "b") 2
    (snd (run_op (OpJoin "workers" "orders" "a") 1 fresh_coordinator)))). by constructor.
Qed.

(* ------------------------------------------------------------------ *)
(** ** Assignment                                                       *)
(* ------------------------------------------------------------------ *)

(** Rebalancing: a group with members gets the next generation, and its
    partitions 0 to [count]-1 are dealt out completely: every partition has
    exactly one owner, a member of the group, and the numbers of partitions of
    two members differ by at most one.  At the largest generation it is refused. *)
Theorem rebalance_assigns g count :
  cg_members g <> ∅ -> 0 <= count ->
  if cg_generation g + 1 <=? U64_MAX
  then exists g', rebalance g count = Ok g' /\ cg_generation g' = cg_generation g + 1 /\
    cg_members g' = cg_members g /\ cg_committed_offsets g' = cg_committed_offsets g /\
    (forall p, 0 <= p < count -> exists m, is_Some (cg_members g !! m) /\
       forall m', is_assigned g' m' p = true <-> m' = m) /\
    (forall p m, is_assigned g' m p = true -> 0 <= p < count) /\
    (forall m, is_Some (cg_members g !! m) ->
       let share := count / Z.of_nat (size (cg_members g)) in
       share <= Z.of_nat (length (default [] (cg_assignments g' !! m))) <= share + 1)
  else rebalance g count = Err GenerationOverflow.
Proof.
  intros Hne Hcount. pose proof (rebalance_spec g count) as Hs.
  destruct (_ <=? _); [|done].
  destruct Hs as (g' & Hreb & Hgen & Hm & Hco & _ & Ha). exists g'.
  assert (forall m p, is_assigned g' m p = true <->
    0 <= p < count /\ owner (member_names g) p = Some m) as Has.
  { intros m p. rewrite is_assigned_default, bool_decide_eq_true, Ha by done. apply elem_owned. }
  assert (member_names g <> []) as Hns by by rewrite member_names_nil.
  split_and?; try done.
  - intros p Hp. destruct (owner_is_Some (member_names g) p Hns) as [m Ho]. exists m. split.
    + apply member_names_elem. by eapply list_elem_of_lookup_2.
    + intros m'. rewrite Has, Ho. split; [intros [_ ?]; congruence|by intros ->].
  - intros p m Hp%Has. tauto.
  - intros m Hin. rewrite Ha, <- member_names_length by done.
    apply owned_count; [apply member_names_NoDup|by apply member_names_elem|done].
Qed.

Lemma rebalance_assigns_witness :
  let g := set_members (new_group ∅) {["a" := 1; "b" := 2]} in
  if cg_generation g + 1 <=? U64_MAX
  then exists g', rebalance g 3 = Ok g' /\ cg_generation g' = cg_generation g + 1 /\
    cg_members g' = cg_members g /\ cg_committed_offsets g' = cg_committed_offsets g /\
    (forall p, 0 <= p < 3 -> exists m, is_Some (cg_members g !! m) /\
       forall m', is_assigned g' m' p = true <-> m' = m) /\
    (forall p m, is_assigned g' m p = true -> 0 <= p < 3) /\
    (forall m, is_Some (cg_members g !! m) ->
       let share := 3 / Z.of_nat (size (cg_members g)) in
       share <= Z.of_nat (length (default [] (cg_assignments g' !! m))) <= share + 1)
  else rebalance g 3 = Err GenerationOverflow.
Proof. apply rebalance_assigns; [vm_compute; discriminate|vm_compute; discriminate]. Defined.



(** C15 Exclusive ownership over time: if a fetch or commit of one member for a
    partition was accepted, and later, after any calls, a fetch or commit for the
    same partition under the same generation is accepted, it is from the same
    member. *)
Theorem exclusive_ownership c c1 c2 c3 id1 id2 p o1 o2 now1 now2 :
  coord_ok c -> is_u64 o1 -> is_u64 o2 -> id_key id1 = id_key id2 ->
  gi_generation id1 = gi_generation id2 ->
  authorize_fetch id1 p now1 c = (Ok tt, c1) \/ commit id1 p o1 now1 c = (Ok tt, c1) ->
  group_steps c1 c2 ->
  authorize_fetch id2 p now2 c2 = (Ok tt, c3) \/ commit id2 p o2 now2 c2 = (Ok tt, c3) ->
  gi_member id1 = gi_member id2.
Proof.
  intros Hc Ho1 Ho2 Hk Hg H1 Hs H2.
  assert (moves c c1 /\ holds c1 id1 p) as [[Hc1 _] Hh1].
  { destruct H1; [by eapply authorize_holds|by apply (commit_holds c id1 p o1 now1)]. }
  destruct (group_steps_moves _ _ Hs Hc1) as [Hc2 Hev2].
  assert (moves c2 c3 /\ holds c3 id2 p) as [[_ Hev3] Hh3].
  { destruct H2; [by eapply authorize_holds|by apply (commit_holds c2 id2 p o2 now2)]. }
  apply (holds_unique c1 c3 id1 id2 p); try done. by etransitivity.
Qed.

Lemma exclusive_ownership_witness :
  gi_member (sample_id "a") = "a".
Proof.
  apply (exclusive_ownership joined_coordinator
    (snd (commit (sample_id "a") 0 42 3 joined_coordinator))
    (snd (commit (sample_id "a") 0 42 3 joined_coordinator))
    (snd (authorize_fetch (sample_id "a") 0 4 (snd (commit (sample_id "a") 0 42 3 joined_coordinator))))
    (sample_id "a") (sample_id "a") 0 42 42 3 4).
  - apply joined_ok.
  - split; vm_compute; discriminate.
  - split; vm_compute; discriminate.
  - reflexivity.
  - reflexivity.
  - right. vm_compute. reflexivity.
  - apply rtc_refl.
  - left. vm_compute. reflexivity.
Defined.

(** Fencing: once a group has moved past generation [n], every heartbeat,
    leave, fetch or commit that names [n] fails, at any later time, and no
    committed offset changes. *)
Theorem stale_generation_fenced c c' group topic g op now n :
  coord_ok c -> gc_groups c !! (group, topic) = Some g -> n < cg_generation g ->
  group_steps c c' ->
  (exists m, op = OpHeartbeat group topic m n) \/ (exists m, op = OpLeave group topic m n) \/
  (exists m p, op = OpAuthorize {| gi_group := group; gi_topic := topic; gi_member := m;
                                  gi_generation := n |} p) \/
  (exists m p o, op = OpCommit {| gi_group := group; gi_topic := topic; gi_member := m;
                                  gi_generation := n |} p o) ->
  exists e c'', run_op op now c' = (Err e, c'') /\ gc_offsets_dir c'' = gc_offsets_dir c'.
Proof.
  intros Hc Hg Hn Hs Hop. destruct (group_steps_moves _ _ Hs Hc) as [Hc' Hev].
  destruct (Hev _ _ Hg) as (g' & Hg' & Hle & _).
  assert (exists e c'', run_op op now c' = (Err e, c'') /\ keeps c' c'') as (e & c'' & Hrun & _ & Hd);
    [|by eauto].
  destruct Hop as [[m ->]|[[m ->]|[(m & p & ->)|(m & p & o & ->)]]]; cbn [run_op].
  - apply (stale_refused c' group topic n now g'); [done|done|lia|]. intros g2 c2 Hne.
    eexists. apply bind_Err. by apply validate_stale.
  - apply (stale_refused c' group topic n now g'); [done|done|lia|]. intros g2 c2 Hne.
    eexists. apply bind_Err. by apply validate_stale.
  - apply (stale_refused c' group topic n now g'); [done|done|lia|]. intros g2 c2 Hne.
    eexists. apply bind_Err. by apply validate_stale.
  - apply (stale_refused c' group topic n now g'); [done|done|lia|]. intros g2 c2 Hne.
    eexists. apply bind_Err. by apply validate_stale.
Qed.

Lemma stale_generation_fenced_witness :
  exists e c'', run_op (OpHeartbeat "workers" "orders" "a" 1) 5 joined_coordinator = (Err e, c'') /\
    gc_offsets_dir c'' = gc_offsets_dir joined_coordinator.
Proof.
  apply (stale_generation_fenced joined_coordinator joined_coordinator "workers" "orders"
           (default (new_group ∅) (gc_groups joined_coordinator !! ("workers", "orders")))
           (OpHeartbeat "workers" "orders" "a" 1) 5 1).
  - apply joined_ok.
  - vm_compute. reflexivity.
  - vm_compute. reflexivity.
  - apply rtc_refl.
  - left. by exists "a".
Defined.

(** What a member is given can be used: [join] answers with the group's
    current generation and the member's partitions, records the heartbeat, and
    at that moment a fetch for each of these partitions is accepted, without any
    further change. *)
Theorem join_usable c group topic member now n ps c' :
  coord_ok c -> 0 <= gc_session_timeout c -> join group topic member now c = (Ok (n, ps), c') ->
  exists g, gc_groups c' !! (group, topic) = Some g /\ cg_generation g = n /\
    cg_members g !! member = Some now /\ default [] (cg_assignments g !! member) = ps /\
    forall p, p ∈ ps ->
      authorize_fetch {| gi_group := group; gi_topic := topic; gi_member := member;
                         gi_generation := n |} p now c' = (Ok tt, c').
Proof.
  intros Hc Htime Hj. pose proof (join_result c group topic member now n ps c' Htime Hj)
    as (g & Hg & Hgen & Hm & Hps & Hu). exists g. split_and?; try done.
  intros p Hp. unfold authorize_fetch. cbn [gi_group gi_topic gi_member gi_generation].
  erewrite bind_Ok by by apply active_unexpired. cbv beta.
  unfold validate_member. rewrite bind_assoc.
  erewrite bind_Ok by (apply reject_if_false; by rewrite Hgen, Z.eqb_refl). cbv beta.
  erewrite bind_Ok by (apply reject_if_false; rewrite Hm; done). cbv beta.
  apply reject_if_false. rewrite is_assigned_default, Hps. by rewrite bool_decide_eq_true_2.
Qed.

Lemma join_usable_witness :
  exists g, gc_groups joined_coordinator !! ("workers", "orders") = Some g /\ cg_generation g = 2 /\
    cg_members g !! "b" = Some 2 /\ default [] (cg_assignments g !! "b") = [1] /\
    forall p, p ∈ [1] ->
      authorize_fetch {| gi_group := "workers"; gi_topic := "orders"; gi_member := "b";
                         gi_generation := 2 |} p 2 joined_coordinator = (Ok tt, joined_coordinator).
Proof.
  apply (join_usable (snd (join "workers" "orders" "a" 1 fresh_coordinator)) "workers" "orders" "b" 2 2 [1]).
  - apply (run_op_moves (OpJoin "workers" "orders" "a") 1 fresh_coordinator fresh_ok I).
  - vm_compute. discriminate.
  - vm_compute. reflexivity.
Defined.

(* ------------------------------------------------------------------ *)
(** ** Committed offsets                                                *)
(* ------------------------------------------------------------------ *)

(** Commits are durable: an accepted commit is what [committed_offset] reads,
    every other committed offset stays, and a coordinator opened on the files
    afterwards has the committed offset of every partition below its count.  A
    refused commit changes no file. *)
Theorem commit_durable c id p o now n timeout :
  coord_ok c -> is_u64 o -> is_u32 n ->
  match commit id p o now c with
  | (Ok _, c') =>
      is_u32 p /\
      (forall group topic q, is_u32 q ->
         read_offset (topic_dir (gc_offsets_dir c') group topic) q =
         if decide (group = gi_group id /\ topic = gi_topic id /\ q = p) then Ok (Some o)
         else read_offset (topic_dir (gc_offsets_dir c) group topic) q) /\
      exists c'' g, open_coordinator (gc_offsets_dir c') n timeout = Ok c'' /\
        gc_groups c'' !! id_key id = Some g /\
        (p < n -> cg_committed_offsets g !! p = Some o)
  | (Err _, c') => gc_offsets_dir c' = gc_offsets_dir c
  | (Panic, _) => False
  end.
Proof.
  intros Hc Ho Hn. pose proof (commit_keeps c id p o now Hc Ho) as Hwp. unfold wp in Hwp.
  destruct (commit id p o now c) as [[u|e|] c'] eqn:Hrun; [|by destruct Hwp|done].
  destruct Hwp as ([Hc' _] & Hp & Hd). split; [done|]. rewrite Hd. split.
  { intros g t q Hq. by rewrite read_persisted. }
  pose proof Hc' as (_ & Ht' & _). rewrite Hd in Ht'.
  destruct (open_coordinator_spec _ n Ht' Hn timeout) as (c'' & Hopen & _ & _ & _ & _ & Hg).
  exists c'', (loaded (persist_offset (gc_offsets_dir c) (gi_group id) (gi_topic id) p o) n (id_key id)).
  split; [done|]. split.
  { rewrite Hg. unfold find_dir, persist_offset at 1, set_topic_dir. cbn [fst snd id_key].
    rewrite lookup_insert_eq. cbn [mbind option_bind]. by rewrite lookup_insert_eq. }
  intros Hlt.
  rewrite loaded_offset by done. rewrite decide_True by range. cbn [fst snd id_key].
  rewrite read_persisted by done. by rewrite decide_True.
Qed.

Lemma commit_durable_witness :
  match commit (sample_id "a") 0 42 3 joined_coordinator with
  | (Ok _, c') =>
      is_u32 0 /\
      (forall group topic q, is_u32 q ->
         read_offset (topic_dir (gc_offsets_dir c') group topic) q =
         if decide (group = "workers" /\ topic = "orders" /\ q = 0) then Ok (Some 42)
         else read_offset (topic_dir (gc_offsets_dir joined_coordinator) group topic) q) /\
      exists c'' g, open_coordinator (gc_offsets_dir c') 3 10 = Ok c'' /\
        gc_groups c'' !! id_key (sample_id "a") = Some g /\
        (0 < 3 -> cg_committed_offsets g !! 0 = Some 42)
  | (Err _, c') => gc_offsets_dir c' = gc_offsets_dir joined_coordinator
  | (Panic, _) => False
  end.
Proof.
  apply (commit_durable joined_coordinator (sample_id "a") 0 42 3 3 10);
    [apply joined_ok|split; vm_compute; discriminate..].
Defined.

(** C35 A crash during a commit: whatever the temporary file holds when the
    broker dies, the coordinator opens on the directory, has the old or the new
    offset of that partition, and the old offset of every other one. *)
Theorem commit_crash_safe tree group topic d p o n timeout d' :
  tree_ok tree -> find_dir tree (group, topic) = Some d -> is_u32 p -> is_u64 o -> is_u32 n ->
  replacing (offset_file p) (offset_tmp p) (offset_text o) d d' ->
  exists c g, open_coordinator (set_topic_dir tree group topic d') n timeout = Ok c /\
    gc_groups c !! (group, topic) = Some g /\
    (p < n -> Ok (cg_committed_offsets g !! p) = read_offset d p \/
              cg_committed_offsets g !! p = Some o) /\
    forall q, 0 <= q < n -> q <> p -> Ok (cg_committed_offsets g !! q) = read_offset d q.
Proof.
  intros Ht Hd Hp Ho Hn Hr. destruct (read_replacing d d' p o Hp Ho Hr) as [Hsame Hother].
  pose proof (find_dir_ok tree group topic d Ht Hd) as (Hg & Htp & Hok).
  assert (tree_ok (set_topic_dir tree group topic d')) as Ht'.
  { apply set_topic_dir_ok; [done|done|done|]. intros q Hq.
    destruct (decide (q = p)) as [->|]; [|rewrite Hother by done; by apply Hok].
    destruct Hsame as [->| ->]; [by apply Hok|done]. }
  destruct (open_coordinator_spec _ n Ht' Hn timeout) as (c & Hopen & _ & _ & _ & _ & Hgs).
  exists c, (loaded (set_topic_dir tree group topic d') n (group, topic)).
  split; [done|]. split.
  { rewrite Hgs. unfold find_dir, set_topic_dir. cbn [fst snd]. rewrite lookup_insert_eq.
    cbn [mbind option_bind]. by rewrite lookup_insert_eq. }
  assert (forall q, 0 <= q < n -> Ok (E := GroupError) (cg_committed_offsets
    (loaded (set_topic_dir tree group topic d') n (group, topic)) !! q) = read_offset d' q) as Hl.
  { intros q Hq. rewrite loaded_offset by done. rewrite decide_True by done. cbn [fst snd].
    pose proof (tree_read_ok _ group topic q Ht' ltac:(range)) as Hq'.
    rewrite topic_dir_set, decide_True in * by done. by destruct (read_offset d' q). }
  split.
  - intros Hlt. rewrite Hl by range. destruct Hsame as [->|Hnew]; [by left|]. right.
    specialize (Hl p ltac:(range)). rewrite Hnew in Hl. by injection Hl.
  - intros q Hq Hne. rewrite Hl by done. apply Hother; [range|done].
Qed.

Lemma commit_crash_safe_witness :
  let tree := gc_offsets_dir (snd (commit (sample_id "a") 0 42 3 joined_coordinator)) in
  exists c g, open_coordinator (set_topic_dir tree "workers" "orders"
      (<[offset_tmp 0 := take 1 (offset_text 50)]> (topic_dir tree "workers" "orders"))) 3 10 = Ok c /\
    gc_groups c !! ("workers", "orders") = Some g /\
    (0 < 3 -> Ok (cg_committed_offsets g !! 0) = read_offset (topic_dir tree "workers" "orders") 0 \/
              cg_committed_offsets g !! 0 = Some 50) /\
    forall q, 0 <= q < 3 -> q <> 0 ->
      Ok (cg_committed_offsets g !! q) = read_offset (topic_dir tree "workers" "orders") q.
Proof.
  apply commit_crash_safe.
  - apply (run_op_moves (OpCommit (sample_id "a") 0 42) 3 joined_coordinator joined_ok).
    split; vm_compute; discriminate.
  - vm_compute. reflexivity.
  - split; vm_compute; discriminate.
  - split; vm_compute; discriminate.
  - split; vm_compute; discriminate.
  - apply replacing_partial.
Defined.
