(* ===== verification/Leadership.v ===== *)
(** * Leadership: the leadership registry of [crates/broker/src/leadership.rs].

    [LeadershipRegistry] with its entries and the directory [__cluster]; the
    text format of [leadership.meta] ([parse_entries], [persist_entries]).  The
    lock of the entries makes each method one step; poisoning is not modelled. *)

From stdpp Require Import base numbers list strings gmap sorting.
From Stdlib Require Import ZArith Lia.
From S2P Require Import Prelude Text Files Protocol.

(* ------------------------------------------------------------------ *)
(** ** Data                                                             *)
(* ------------------------------------------------------------------ *)

Inductive LeadershipError :=
| LIo
| InvalidMetadata
| Poisoned
| MissingPartition (partition : Z)
| UnknownBroker (id : Z)
| StaleEpoch.

#[global] Instance PartitionLeadership_eq_dec : EqDecision PartitionLeadership.
Proof. solve_decision. Defined.

Abbreviation Entries := (gmap (string * Z) PartitionLeadership).
Record LeadershipRegistry := {
  lr_dir : Dir;
  lr_cluster : ClusterMetadata;
  lr_entries : Entries
}.
Abbreviation registry A := (SM LeadershipRegistry LeadershipError A).

Definition META : string := "leadership.meta".
Definition META_TMP : string := with_extension META "meta.tmp".

(* ------------------------------------------------------------------ *)
(** ** The file                                                         *)
(* ------------------------------------------------------------------ *)

(** One line of [leadership.meta]. *)
Definition render_entry (topic : string) (l : PartitionLeadership) : bytes :=
  as_bytes topic ++ TAB :: as_bytes (show_uint (pl_partition l)) ++
  TAB :: as_bytes (show_uint (pl_leader_id l)) ++
  TAB :: as_bytes (show_uint (pl_leader_epoch l)) ++
  TAB :: as_bytes (show_uint (pl_high_watermark l)).

(** The order of [left.0.cmp(right.0)]. *)
Definition entry_le (a b : (string * Z) * PartitionLeadership) : Prop :=
  if decide (a.1.1 = b.1.1) then a.1.2 <= b.1.2 else String.le a.1.1 b.1.1.
#[global] Instance entry_le_dec : RelDecision entry_le.
Proof. intros a b. unfold entry_le. case_decide; apply _. Defined.

Definition render_entries (entries : Entries) : bytes :=
  unlines ((fun e => render_entry e.1.1 e.2) <$> merge_sort entry_le (map_to_list entries)).
Definition persist_entries (entries : Entries) (d : Dir) : Dir :=
  replace_file META META_TMP (render_entries entries) d.

Definition parse_field (hi : Z) (field : string) : option Z := parse_uint hi field.
Definition parse_entry (line : string) : option ((string * Z) * PartitionLeadership) :=
  match split TAB line with
  | topic :: partition :: leader_id :: leader_epoch :: rest =>
      partition ← parse_field U32_MAX partition;
      leader_id ← parse_field U32_MAX leader_id;
      leader_epoch ← parse_field U64_MAX leader_epoch;
      high_watermark ← match rest with
                       | [] => Some U64_MAX
                       | [field] => parse_field U64_MAX field
                       | _ => None
                       end;
      Some ((topic, partition),
            {| pl_partition := partition; pl_leader_id := leader_id;
               pl_leader_epoch := leader_epoch; pl_high_watermark := high_watermark |})
  | _ => None
  end.
Fixpoint parse_lines (ls : list string) (entries : Entries) : outcome LeadershipError Entries :=
  match ls with
  | [] => Ok entries
  | line :: ls =>
      match parse_entry line with
      | Some (key, l) => parse_lines ls (<[key := l]> entries)
      | None => Err InvalidMetadata
      end
  end.
Definition parse_entries (contents : string) : outcome LeadershipError Entries :=
  parse_lines (filter (fun line => is_empty line = false) (lines contents)) ∅.

(* ------------------------------------------------------------------ *)
(** ** The registry                                                     *)
(* ------------------------------------------------------------------ *)

(** What [open] reads from the directory. *)
Definition load_entries (d : Dir) : outcome LeadershipError Entries :=
  match d !! META with
  | Some contents => match read_to_string contents with
                     | Some s => parse_entries s
                     | None => Err LIo
                     end
  | None => Ok ∅
  end.
Definition open_registry (d : Dir) (cluster : ClusterMetadata)
  : outcome LeadershipError LeadershipRegistry :=
  obind (load_entries d) (fun entries =>
  Ok {| lr_dir := d; lr_cluster := cluster; lr_entries := entries |}).

Definition set_entries (entries : Entries) : registry unit :=
  modify (fun r => {| lr_dir := lr_dir r; lr_cluster := lr_cluster r; lr_entries := entries |}).
Definition persist : registry unit :=
  modify (fun r => {| lr_dir := persist_entries (lr_entries r) (lr_dir r);
                      lr_cluster := lr_cluster r; lr_entries := lr_entries r |}).

(** [cluster.nodes[partition % len].id]: an empty cluster panics. *)
Definition deterministic_leader (cluster : ClusterMetadata) (partition : Z) : option Z :=
  cn_id <$> cm_nodes cluster !! Z.to_nat (partition mod Z.of_nat (length (cm_nodes cluster))).

Fixpoint ensure_partitions (cluster : ClusterMetadata) (topic : string) (partitions : list Z)
    (entries : Entries) (changed : bool) : outcome LeadershipError (Entries * bool) :=
  match partitions with
  | [] => Ok (entries, changed)
  | p :: ps =>
      match entries !! (topic, p) with
      | Some _ => ensure_partitions cluster topic ps entries changed
      | None =>
          match deterministic_leader cluster p with
          | None => Panic
          | Some leader =>
              ensure_partitions cluster topic ps
                (<[(topic, p) := {| pl_partition := p; pl_leader_id := leader;
                                    pl_leader_epoch := 0; pl_high_watermark := 0 |}]> entries) true
          end
      end
  end.
Definition registry_ensure_topic (topic : string) (partitions : Z) : registry unit :=
  r <- get ;;
  let* (entries, changed) :=
    lift (ensure_partitions (lr_cluster r) topic (seqZ 0 partitions) (lr_entries r) false) in
  set_entries entries ;;;
  if (changed : bool) then persist else ret tt.

Definition registry_partition (topic : string) (partition : Z) : registry PartitionLeadership :=
  r <- get ;;
  ok_or (lr_entries r !! (topic, partition)) (MissingPartition partition).
Definition registry_topic (topic : string) (partitions : Z) : registry (list PartitionLeadership) :=
  registry_ensure_topic topic partitions ;;;
  map_m (registry_partition topic) (seqZ 0 partitions).

Definition is_stale (current leadership : PartitionLeadership) : bool :=
  (pl_leader_epoch leadership <? pl_leader_epoch current) ||
  ((pl_leader_epoch leadership =? pl_leader_epoch current) &&
   (negb (pl_leader_id leadership =? pl_leader_id current) ||
    (pl_high_watermark leadership <? pl_high_watermark current))).
Definition registry_apply (topic : string) (leadership : PartitionLeadership) : registry unit :=
  r <- get ;;
  reject_if (negb (existsb (fun node => cn_id node =? pl_leader_id leadership)
                     (cm_nodes (lr_cluster r)))) (UnknownBroker (pl_leader_id leadership)) ;;;
  let key := (topic, pl_partition leadership) in
  let store := set_entries (<[key := leadership]> (lr_entries r)) ;;; persist in
  match lr_entries r !! key with
  | Some current =>
      reject_if (is_stale current leadership) StaleEpoch ;;;
      if bool_decide (leadership = current) then ret tt else store
  | None => store
  end.

Definition migrate_high_watermark (topic : string) (partition high_watermark : Z) : registry unit :=
  r <- get ;;
  entry <- ok_or (lr_entries r !! (topic, partition)) (MissingPartition partition) ;;
  if negb (pl_high_watermark entry =? U64_MAX) then ret tt
  else
    set_entries (<[(topic, partition) :=
      {| pl_partition := pl_partition entry; pl_leader_id := pl_leader_id entry;
         pl_leader_epoch := pl_leader_epoch entry;
         pl_high_watermark := high_watermark |}]> (lr_entries r)) ;;;
    persist.
