(* ===== verification/ProtocolTests.v ===== *)
(** * ProtocolTests: the tests of [crates/protocol], run on the codec of the
    model. *)

From stdpp Require Import base numbers list strings gmap.
From Stdlib Require Import ZArith Lia.
From S2P Require Import Prelude Text Protocol Leadership Codec Testing.

(** [#[derive(PartialEq, Eq)]] *)
#[export] Instance ProtocolError_eq_dec : EqDecision ProtocolError.
Proof. solve_decision. Defined.
#[export] Instance ClusterNode_eq_dec : EqDecision ClusterNode.
Proof. solve_decision. Defined.
#[export] Instance ClusterMetadata_eq_dec : EqDecision ClusterMetadata.
Proof. solve_decision. Defined.
#[export] Instance CreateTopicRequest_eq_dec : EqDecision CreateTopicRequest.
Proof. solve_decision. Defined.
#[export] Instance TopicMetadata_eq_dec : EqDecision TopicMetadata.
Proof. solve_decision. Defined.
#[export] Instance PromoteLeaderRequest_eq_dec : EqDecision PromoteLeaderRequest.
Proof. solve_decision. Defined.
#[export] Instance ApplyLeadershipRequest_eq_dec : EqDecision ApplyLeadershipRequest.
Proof. solve_decision. Defined.
#[export] Instance PartitionStatusRequest_eq_dec : EqDecision PartitionStatusRequest.
Proof. solve_decision. Defined.
#[export] Instance ReplicateRecord_eq_dec : EqDecision ReplicateRecord.
Proof. solve_decision. Defined.
#[export] Instance ReplicateAck_eq_dec : EqDecision ReplicateAck.
Proof. solve_decision. Defined.
#[export] Instance Compression_eq_dec : EqDecision Compression.
Proof. solve_decision. Defined.
#[export] Instance AckMode_eq_dec : EqDecision AckMode.
Proof. solve_decision. Defined.
#[export] Instance BatchRecord_eq_dec : EqDecision BatchRecord.
Proof. solve_decision. Defined.
#[export] Instance ProduceBatchRequest_eq_dec : EqDecision ProduceBatchRequest.
Proof. solve_decision. Defined.
#[export] Instance GroupMemberRequest_eq_dec : EqDecision GroupMemberRequest.
Proof. solve_decision. Defined.
#[export] Instance GroupGenerationRequest_eq_dec : EqDecision GroupGenerationRequest.
Proof. solve_decision. Defined.
#[export] Instance CommitOffsetRequest_eq_dec : EqDecision CommitOffsetRequest.
Proof. solve_decision. Defined.
#[export] Instance FetchCommittedOffsetRequest_eq_dec : EqDecision FetchCommittedOffsetRequest.
Proof. solve_decision. Defined.
#[export] Instance GroupFetchRequest_eq_dec : EqDecision GroupFetchRequest.
Proof. solve_decision. Defined.
#[export] Instance FetchRequest_eq_dec : EqDecision FetchRequest.
Proof. solve_decision. Defined.
#[export] Instance ProducerIdentity_eq_dec : EqDecision ProducerIdentity.
Proof. solve_decision. Defined.
#[export] Instance ProduceRequest_eq_dec : EqDecision ProduceRequest.
Proof. solve_decision. Defined.
#[export] Instance Request_eq_dec : EqDecision Request.
Proof. solve_decision. Defined.
#[export] Instance JoinGroupResponse_eq_dec : EqDecision JoinGroupResponse.
Proof. solve_decision. Defined.
#[export] Instance ProduceAck_eq_dec : EqDecision ProduceAck.
Proof. solve_decision. Defined.
#[export] Instance FetchedRecord_eq_dec : EqDecision FetchedRecord.
Proof. solve_decision. Defined.
#[export] Instance FetchResponse_eq_dec : EqDecision FetchResponse.
Proof. solve_decision. Defined.
#[export] Instance Response_eq_dec : EqDecision Response.
Proof. solve_decision. Defined.

(* ------------------------------------------------------------------ *)
(** ** The tests                                                        *)
(* ------------------------------------------------------------------ *)

(** The state of a test is the buffer it works on. *)
Abbreviation buffer_test := (test bytes).

(** [encode_*(&x, &mut buffer).expect(..)], then
    [assert_eq!(decode_*(&mut buffer).expect(..), Some(x))]. *)
Definition round_trips {A} `{!EqDecision A} (encode : A -> codec unit) (decode : codec (option A))
    (x : A) : buffer_test :=
  expect (encode x) ;;;
  decoded <- expect decode ;;
  assert_eq decoded (Some x).
(** The same on a buffer of its own, for each. *)
Definition each_round_trips {A} `{!EqDecision A} (encode : A -> codec unit)
    (decode : codec (option A)) (xs : list A) : buffer_test :=
  for_each xs (fun x => put [] ;;; round_trips encode decode x).

Section tests.
Context `{!Zstd}.

Definition produce_request : SM bytes Empty_set Request :=
  request <- expect (ProduceRequest_new "payments" (as_bytes "customer-123") amount AckLeader
                       (Some {| pi_id := "producer-a"; pi_sequence := 0 |})) ;;
  ret (RProduce (ProduceRequest_with_partition request 2)).

Definition round_trips_produce_request : buffer_test :=
  request <- produce_request ;;
  round_trips encode_request decode_request request ;;;
  buffer <- get ;;
  assert (bool_decide (buffer = [])).

Definition round_trips_zstd_produce_batch_and_ack : buffer_test :=
  batch <- expect (ProduceBatchRequest_new "payments"
             [ {| br_key := as_bytes "customer-1"; br_payload := as_bytes "hello hello hello" |};
               {| br_key := []; br_payload := as_bytes "world world world" |} ]
             AckDurable CompressionZstd) ;;
  round_trips encode_request decode_request
    (RProduceBatch (ProduceBatchRequest_with_partition batch 1)) ;;;
  round_trips encode_response decode_response
    (PProduceBatchAck [ {| pa_partition := 1; pa_offset := 7 |};
                        {| pa_partition := 2; pa_offset := 4 |} ]).

Definition round_trips_topic_administration_frames : buffer_test :=
  each_round_trips encode_request decode_request
    [ RCreateTopic {| ct_topic := "payments"; ct_partitions := 6 |};
      RListTopics;
      RDescribeTopic "payments" ] ;;;
  put [] ;;;
  round_trips encode_response decode_response
    (PTopics [ {| tm_topic := "payments"; tm_partitions := 6;
                  tm_leaders := [1; 2; 3; 1; 2; 3];
                  tm_leader_epochs := [0; 0; 0; 0; 0; 0];
                  tm_high_watermarks := [10; 20; 30; 40; 50; 60] |} ]).

Definition round_trips_cluster_metadata : buffer_test :=
  round_trips encode_request decode_request RClusterMetadata ;;;
  round_trips encode_response decode_response
    (PClusterMetadata
       {| cm_responding_broker_id := 2;
          cm_nodes := [ {| cn_id := 2; cn_host := "127.0.0.1"; cn_port := 7500;
                           cn_admin_port := 7501; cn_replication_port := 7502 |} ] |}).

Definition round_trips_leadership_management_frames : buffer_test :=
  let leadership := {| pl_partition := 2; pl_leader_id := 3; pl_leader_epoch := 9;
                       pl_high_watermark := 42 |} in
  each_round_trips encode_request decode_request
    [ RPromoteLeader {| plr_topic := "payments"; plr_partition := 2; plr_leader_id := 3 |};
      RApplyLeadership {| alr_topic := "payments"; alr_leadership := leadership |};
      RPartitionStatus {| psr_topic := "payments"; psr_partition := 2 |} ] ;;;
  each_round_trips encode_response decode_response
    [ PLeadershipChanged leadership; PPartitionStatus 42 ].

Definition round_trips_replication_frames : buffer_test :=
  round_trips encode_replicate_record decode_replicate_record
    {| rr_topic := "payments"; rr_partition := 1; rr_offset := 42; rr_timestamp_ms := 123456;
       rr_key := Some (as_bytes "customer-123"); rr_value := as_bytes "hello";
       rr_durable := true; rr_leader_id := 2; rr_leader_epoch := 7 |} ;;;
  round_trips encode_replicate_ack decode_replicate_ack
    {| ra_partition := 1; ra_next_offset := 43 |}.

Definition waits_for_complete_frame : buffer_test :=
  request <- produce_request ;;
  expect (encode_request request) ;;;
  encoded <- get ;;
  let split_at := (length encoded - 1)%nat in
  let tail := drop split_at encoded in
  put (take split_at encoded) ;;;
  decoded <- expect decode_request ;;
  assert_eq decoded None ;;;
  put_slice tail ;;;
  decoded <- expect decode_request ;;
  assert (bool_decide (is_Some decoded)).

Definition decodes_multiple_frames_from_one_buffer : buffer_test :=
  request <- produce_request ;;
  expect (encode_request request) ;;;
  expect (encode_request request) ;;;
  decoded <- expect decode_request ;;
  assert_eq decoded (Some request) ;;;
  decoded <- expect decode_request ;;
  assert_eq decoded (Some request) ;;;
  buffer <- get ;;
  assert (bool_decide (buffer = [])).

Definition rejects_oversized_frame_before_receiving_payload : buffer_test :=
  limit <- expect (try_from U32_MAX (MAX_FRAME_SIZE + 1) tt) ;;
  put_u32 limit ;;;
  assert_err decode_request (fun e => bool_decide (e = FrameTooLarge)).

Definition round_trips_fetch_request : buffer_test :=
  request <- expect (FetchRequest_new "payments" 0 42 4096 5000) ;;
  round_trips encode_request decode_request (RFetch request).

Definition round_trips_fetch_response : buffer_test :=
  round_trips encode_response decode_response
    (PFetch {| fp_records := [ {| fd_offset := 42; fd_timestamp_ms := 1700000000000;
                                  fd_key := Some (as_bytes "customer-123");
                                  fd_value := as_bytes "hello" |} ] |}).

Definition round_trips_consumer_group_frames : buffer_test :=
  round_trips encode_request decode_request
    (RCommitOffset {| co_group := "workers"; co_topic := "payments"; co_member := "worker-a";
                      co_generation := 7; co_partition := 2; co_offset := 42 |}) ;;;
  round_trips encode_response decode_response
    (PJoinGroup {| jg_generation := 7; jg_partitions := [0; 2] |}).

(** All tests of the crate. *)
Definition protocol_tests : list buffer_test :=
  [ round_trips_produce_request; round_trips_zstd_produce_batch_and_ack;
    round_trips_topic_administration_frames; round_trips_cluster_metadata;
    round_trips_leadership_management_frames; round_trips_replication_frames;
    waits_for_complete_frame; decodes_multiple_frames_from_one_buffer;
    rejects_oversized_frame_before_receiving_payload; round_trips_fetch_request;
    round_trips_fetch_response; round_trips_consumer_group_frames ].
End tests.

(** Each passes, from a new buffer. *)
Lemma protocol_tests_pass : Forall (fun t => passes t []) (protocol_tests (H := stored_zstd)).
Proof. repeat constructor; vm_compute; reflexivity. Qed.
