(* ===== verification/CoordinatorTests.v ===== *)
(** * CoordinatorTests: the tests of [crates/broker/src/groups.rs] and
    [crates/broker/src/leadership.rs], run on the coordinator and the registry
    of the model. *)

From stdpp Require Import base numbers list strings gmap sorting.
From Stdlib Require Import ZArith Lia.
From S2P Require Import Prelude Text Files Protocol Groups Leadership Testing.

(* ------------------------------------------------------------------ *)
(** ** The coordinator                                                  *)
(* ------------------------------------------------------------------ *)

(** The state is the offsets directory; everything happens at one instant, far
    from the end of a session of ten seconds. *)
Definition with_coordinator {A} (body : SM GroupCoordinator Empty_set A) : SM Tree Empty_set A :=
  tree <- get ;;
  scope (lift (open_coordinator tree 3 10000)) gc_offsets_dir body.

Definition rebalances_members_rejects_stale_generations_and_recovers_offsets : test Tree :=
  with_coordinator (
    let* (generation, partitions) := expect (join "workers" "payments" "worker-a" 0) in
    assert_eq generation 1 ;;;
    assert_eq partitions [0; 1; 2] ;;;
    let* (generation, partitions) := expect (join "workers" "payments" "worker-b" 0) in
    assert_eq generation 2 ;;;
    assert_eq partitions [1] ;;;
    assert_err (heartbeat "workers" "payments" "worker-a" 1 0)
      (fun e => match e with StaleGeneration _ _ => true | _ => false end) ;;;
    let* (generation, partitions) := expect (join "workers" "payments" "worker-a" 0) in
    assert_eq generation 2 ;;;
    assert_eq partitions [0; 2] ;;;
    expect (commit {| gi_group := "workers"; gi_topic := "payments"; gi_member := "worker-a";
                      gi_generation := 2 |} 0 42 0)) ;;;
  with_coordinator (
    offset <- expect (committed_offset "workers" "payments" 0) ;;
    assert_eq offset (Some 42) ;;;
    snapshots <- gets snapshot ;;
    assert_eq (length snapshots) 1%nat ;;;
    assert_eq (gs_members <$> snapshots !! 0%nat) (Some 0) ;;;
    assert_eq (gs_committed_offsets <$> snapshots !! 0%nat) (Some [(0, 42)])).

Lemma groups_test_passes :
  passes rebalances_members_rejects_stale_generations_and_recovers_offsets ∅.
Proof. vm_compute. reflexivity. Qed.

(* ------------------------------------------------------------------ *)
(** ** The registry                                                     *)
(* ------------------------------------------------------------------ *)

Definition cluster : ClusterMetadata :=
  {| cm_responding_broker_id := 1;
     cm_nodes := (fun id => {| cn_id := id; cn_host := "127.0.0.1"; cn_port := 7390 + id * 10;
                               cn_admin_port := 7391 + id * 10;
                               cn_replication_port := 7392 + id * 10 |}) <$> [1; 2; 3] |}.
(** The state is the directory of [leadership.meta]. *)
Definition with_registry {A} (body : SM LeadershipRegistry Empty_set A) : SM Dir Empty_set A :=
  d <- get ;;
  scope (lift (open_registry d cluster)) lr_dir body.

Definition at_high_watermark (l : PartitionLeadership) (high_watermark : Z) : PartitionLeadership :=
  {| pl_partition := pl_partition l; pl_leader_id := pl_leader_id l;
     pl_leader_epoch := pl_leader_epoch l; pl_high_watermark := high_watermark |}.
Definition persists_promoted_leadership_and_rejects_stale_epochs : test Dir :=
  let promoted := {| pl_partition := 1; pl_leader_id := 3; pl_leader_epoch := 1;
                     pl_high_watermark := 7 |} in
  let stale := at_high_watermark promoted 6 in
  let committed := at_high_watermark promoted 8 in
  with_registry (
    expect (registry_ensure_topic "payments" 3) ;;;
    entry <- expect (registry_partition "payments" 1) ;;
    assert_eq (pl_leader_id entry) 2 ;;;
    expect (registry_apply "payments" promoted) ;;;
    expect (registry_apply "payments" promoted) ;;;
    assert_err (registry_apply "payments" stale)
      (fun e => match e with StaleEpoch => true | _ => false end) ;;;
    expect (registry_apply "payments" committed)) ;;;
  with_registry (
    entry <- expect (registry_partition "payments" 1) ;;
    assert_eq entry committed).

Lemma leadership_test_passes :
  passes persists_promoted_leadership_and_rejects_stale_epochs ∅.
Proof. vm_compute. reflexivity. Qed.
