(* ===== verification/LeadershipFacts.v ===== *)
(** * LeadershipFacts: the text format and the operations of the registry. *)

From stdpp Require Import base numbers list strings gmap sorting relations.
From Stdlib Require Import ZArith Lia.
From S2P Require Import Prelude Text Files Runs Protocol Leadership.

(* ------------------------------------------------------------------ *)
(** ** The text format                                                  *)
(* ------------------------------------------------------------------ *)

(** The entries that the broker writes: valid topic names, numbers in range. *)
Definition topic_text (topic : string) : Prop := forallb id_byte (as_bytes topic) = true.
Definition leadership_ok (l : PartitionLeadership) : Prop :=
  is_u32 (pl_partition l) /\ is_u32 (pl_leader_id l) /\ is_u64 (pl_leader_epoch l) /\
  is_u64 (pl_high_watermark l).
Definition entry_ok (e : (string * Z) * PartitionLeadership) : Prop :=
  topic_text e.1.1 /\ pl_partition e.2 = e.1.2 /\ leadership_ok e.2.
Definition entries_ok (entries : Entries) : Prop :=
  map_Forall (fun key l => entry_ok (key, l)) entries.

Lemma topic_no_sep topic :
  topic_text topic ->
  Forall (fun b => b <> LF) (as_bytes topic) /\ Forall (fun b => b <> TAB) (as_bytes topic) /\
  Forall (fun b => Z_of_byte b <= 127) (as_bytes topic).
Proof.
  unfold topic_text. rewrite forallb_forall. intros Hb.
  assert (Forall (fun b => id_byte b = true) (as_bytes topic)) as HF.
  { apply Forall_forall. intros x Hx. by apply Hb, list_elem_of_In. }
  split_and?; (eapply Forall_impl; [exact HF|]); intros x Hx.
  - by apply id_byte_no_sep in Hx as (? & _).
  - by apply id_byte_no_sep in Hx as (_ & ? & _).
  - by apply id_byte_ascii.
Qed.

Lemma parse_render e : entry_ok e -> parse_entry (of_bytes (render_entry e.1.1 e.2)) = Some e.
Proof.
  destruct e as [[topic p] l]. intros (Ht & Hp & H1 & H2 & H3 & H4). cbn [fst snd] in *. subst p.
  destruct (topic_no_sep topic Ht) as (_ & Htab & _).
  unfold parse_entry, split, render_entry. rewrite as_bytes_of_bytes.
  rewrite !split_on_sep by (done || apply show_uint_no_sep; range).
  rewrite split_on_last by (apply show_uint_no_sep; range).
  cbn [fmap list_fmap]. rewrite !of_bytes_as_bytes. unfold parse_field.
  rewrite !parse_show_uint by range. cbn [mbind option_bind]. by destruct l.
Qed.

Lemma render_entry_plain e : entry_ok e -> plain_line (render_entry e.1.1 e.2).
Proof.
  intros (Ht & _ & H1 & H2 & H3 & H4). destruct (topic_no_sep _ Ht) as (Hlf & _ & _).
  unfold render_entry. split.
  - repeat (apply Forall_app; split; [|constructor; [done|]]);
      first [done | apply show_uint_no_sep; range].
  - destruct (show_uint_last (pl_high_watermark e.2)) as (l & b & -> & Hb); [range|].
    rewrite !app_comm_cons, !app_assoc. by apply strip_cr_digit.
Qed.

Lemma render_entry_ascii e :
  entry_ok e -> Forall (fun b => Z_of_byte b <= 127) (render_entry e.1.1 e.2).
Proof.
  assert (forall n, 0 <= n -> Forall (fun b => Z_of_byte b <= 127) (as_bytes (show_uint n))) as Hn.
  { intros n Hn. destruct (show_uint_digits n Hn) as (b & l & -> & HF).
    eapply Forall_impl; [exact HF|]. intros x Hx%between_true. lia. }
  intros (Ht & _ & H1 & H2 & H3 & H4). destruct (topic_no_sep _ Ht) as (_ & _ & Ha).
  unfold render_entry. repeat (apply Forall_app; split; [|constructor; [by vm_compute|]]);
    first [done | apply Hn; range].
Qed.

Lemma parse_lines_spec es acc :
  Forall entry_ok es ->
  parse_lines ((fun e => of_bytes (render_entry e.1.1 e.2)) <$> es) acc =
  Ok (foldl (fun m e => <[e.1 := e.2]> m) acc es).
Proof.
  intros HF. revert acc. induction HF as [|[k l] es He _ IH]; intros acc; [done|].
  cbn [fmap list_fmap parse_lines]. rewrite parse_render by done. by rewrite IH.
Qed.

Lemma foldl_insert {K V} `{Countable K} (es : list (K * V)) (acc : gmap K V) :
  NoDup es.*1 -> foldl (fun m e => <[e.1 := e.2]> m) acc es = list_to_map es ∪ acc.
Proof.
  revert acc. induction es as [|[k v] es IH]; intros acc Hnd; cbn [foldl fst snd fmap list_fmap] in *.
  { cbn. by rewrite (left_id_L ∅ (∪)). }
  apply NoDup_cons in Hnd as [Hk Hnd]. rewrite IH, list_to_map_cons by done.
  rewrite <- insert_union_l, insert_union_r; [done|]. by apply not_elem_of_list_to_map.
Qed.

(** The file that is written is read back. *)
Lemma load_rendered d entries :
  entries_ok entries -> d !! META = Some (render_entries entries) ->
  load_entries d = Ok entries.
Proof.
  intros Hok Hd. unfold load_entries. rewrite Hd. unfold render_entries.
  set (es := merge_sort entry_le (map_to_list entries)).
  assert (es ≡ₚ map_to_list entries) as Hperm by apply merge_sort_Permutation.
  assert (Forall entry_ok es) as HF.
  { rewrite Hperm. apply Forall_forall. intros [k l] Hin%elem_of_map_to_list. by apply Hok. }
  unfold read_to_string, from_utf8. rewrite utf8_valid_ascii.
  2:{ unfold unlines. clear -HF. induction HF as [|e es He _ IH]; cbn; [done|].
      apply Forall_app. split; [|done]. apply Forall_app. split; [by apply render_entry_ascii|].
      by repeat constructor. }
  unfold parse_entries. rewrite lines_unlines.
  2:{ apply Forall_fmap. eapply Forall_impl; [exact HF|]. intros e He. by apply render_entry_plain. }
  rewrite <- list_fmap_compose.
  assert (forall l : list ((string * Z) * PartitionLeadership),
    filter (fun line => is_empty line = false)
      ((of_bytes ∘ (fun e => render_entry e.1.1 e.2)) <$> l) =
    (fun e => of_bytes (render_entry e.1.1 e.2)) <$> l) as ->.
  { induction l as [|e l IH]; [done|]. cbn [fmap list_fmap]. rewrite filter_cons_True.
    - by f_equal.
    - apply is_empty_false. unfold str_len. cbn [compose]. rewrite as_bytes_of_bytes.
      unfold render_entry. rewrite blen_app, blen_cons.
      pose proof (blen_nonneg (as_bytes e.1.1)). match goal with |- context [1 + ?x] =>
        assert (0 <= x) by apply blen_nonneg end. lia. }
  rewrite parse_lines_spec by done. rewrite foldl_insert.
  2:{ rewrite Hperm. apply NoDup_fst_map_to_list. }
  rewrite (right_id_L ∅ (∪)). f_equal. rewrite <- (list_to_map_to_list entries).
  apply list_to_map_proper; [|done]. rewrite Hperm. apply NoDup_fst_map_to_list.
Qed.

Lemma meta_names : META <> META_TMP.
Proof. by vm_compute. Qed.

Lemma load_persisted d entries :
  entries_ok entries -> load_entries (persist_entries entries d) = Ok entries.
Proof. intros Hok. apply load_rendered; [done|]. apply lookup_insert_eq. Qed.

(** A crash while the file is replaced leaves the old or the new entries. *)
Lemma load_replacing d d' entries :
  entries_ok entries -> replacing META META_TMP (render_entries entries) d d' ->
  load_entries d' = load_entries d \/ load_entries d' = Ok entries.
Proof.
  intros Hok Hr. apply replacing_lookup in Hr as [Heq|Heq]; [| |exact meta_names].
  - left. unfold load_entries. by rewrite Heq.
  - right. by apply load_rendered.
Qed.

(* ------------------------------------------------------------------ *)
(** ** Steps of the registry                                            *)
(* ------------------------------------------------------------------ *)

(** The calls that change the registry. *)
Inductive registry_op :=
| OpEnsure (topic : string) (partitions : Z)
| OpApply (topic : string) (leadership : PartitionLeadership)
| OpMigrate (topic : string) (partition high_watermark : Z).
Definition registry_typed (op : registry_op) : Prop :=
  match op with
  | OpEnsure topic n => topic_text topic /\ is_u32 n
  | OpApply topic l => topic_text topic /\ leadership_ok l
  | OpMigrate topic p hw => is_u64 hw
  end.
Definition run_registry (op : registry_op) : registry unit :=
  match op with
  | OpEnsure topic n => registry_ensure_topic topic n
  | OpApply topic l => registry_apply topic l
  | OpMigrate topic p hw => migrate_high_watermark topic p hw
  end.
Inductive registry_step (r : LeadershipRegistry) : LeadershipRegistry -> Prop :=
| registry_step_op op : registry_typed op -> registry_step r (snd (run_registry op r)).
Abbreviation registry_steps := (rtc registry_step).

(** A cluster the configuration can produce. *)
Definition cluster_ok (c : ClusterMetadata) : Prop :=
  cm_nodes c <> [] /\ Forall (fun n => is_u32 (cn_id n)) (cm_nodes c).
Definition member_id (c : ClusterMetadata) (id : Z) : Prop :=
  exists n, n ∈ cm_nodes c /\ cn_id n = id.

(** The file holds the entries of the memory. *)
Definition registry_ok (r : LeadershipRegistry) : Prop :=
  cluster_ok (lr_cluster r) /\ entries_ok (lr_entries r) /\
  load_entries (lr_dir r) = Ok (lr_entries r).

(** Newer leadership of a partition: a later epoch, or the same leader. *)
Definition newer (l l' : PartitionLeadership) : Prop :=
  pl_leader_epoch l < pl_leader_epoch l' \/
  (pl_leader_epoch l = pl_leader_epoch l' /\ pl_leader_id l = pl_leader_id l').
(** What a step may do to the entries. *)
Definition advances (r r' : LeadershipRegistry) : Prop :=
  lr_cluster r' = lr_cluster r /\
  forall key l, lr_entries r !! key = Some l ->
    exists l', lr_entries r' !! key = Some l' /\ newer l l'.

#[export] Instance newer_refl : Reflexive newer.
Proof. by right. Qed.
#[export] Instance newer_trans : Transitive newer.
Proof. unfold newer. intros a b c. lia. Qed.
#[export] Instance advances_refl : Reflexive advances.
Proof. intros r. split; [done|]. intros key l Hl. by exists l. Qed.
#[export] Instance advances_trans : Transitive advances.
Proof.
  intros a b c [Hab Hl] [Hbc Hl']. split; [congruence|]. intros key l Hk.
  destruct (Hl _ _ Hk) as (l1 & Hk1 & ?). destruct (Hl' _ _ Hk1) as (l2 & ? & ?).
  exists l2. split; [done|]. by etransitivity.
Qed.

Lemma deterministic_leader_Some c p :
  cluster_ok c -> exists id, deterministic_leader c p = Some id /\ is_u32 id /\ member_id c id.
Proof.
  intros [Hne HF]. unfold deterministic_leader.
  destruct (lookup_lt_is_Some_2 (cm_nodes c) (Z.to_nat (p mod Z.of_nat (length (cm_nodes c)))))
    as [n Hn].
  { destruct (cm_nodes c) as [|n ns]; [done|].
    pose proof (Z.mod_pos_bound p (Z.of_nat (length (n :: ns)))). cbn [length] in *. lia. }
  exists (cn_id n). rewrite Hn. split; [done|]. rewrite Forall_lookup in HF.
  split; [by eapply HF|]. exists n. split; [by eapply list_elem_of_lookup_2|done].
Qed.

(** The first entry of a partition. *)
Definition initial (c : ClusterMetadata) (p : Z) : PartitionLeadership :=
  {| pl_partition := p; pl_leader_id := default 0 (deterministic_leader c p);
     pl_leader_epoch := 0; pl_high_watermark := 0 |}.

Lemma ensure_partitions_spec c topic ps es b :
  cluster_ok c ->
  exists es' b', ensure_partitions c topic ps es b = Ok (es', b') /\
    (forall key, es' !! key =
       match es !! key with
       | Some l => Some l
       | None => if decide (key.1 = topic /\ key.2 ∈ ps) then Some (initial c key.2) else None
       end) /\
    (b' = false -> es' = es /\ b = false).
Proof.
  intros Hc. revert es b. induction ps as [|p ps IH]; intros es b; cbn [ensure_partitions].
  { exists es, b. split_and?; try done. intros key. destruct (es !! key); [done|].
    rewrite decide_False; [done|]. by intros [_ ?%elem_of_nil]. }
  destruct (es !! (topic, p)) as [l|] eqn:Hp.
  - destruct (IH es b) as (es' & b' & -> & Hes & Hb). exists es', b'. split_and?; try done.
    intros key. rewrite Hes. destruct (es !! key) eqn:Hk; [done|].
    apply decide_ext. split; [intros [? ?]; split; [done|by right]|].
    intros [Ht Hin]. split; [done|]. apply elem_of_cons in Hin as [He|?]; [|done].
    destruct key. cbn in *. congruence.
  - destruct (deterministic_leader_Some c p Hc) as (id & Hid & _). rewrite Hid.
    replace {| pl_partition := p; pl_leader_id := id; pl_leader_epoch := 0; pl_high_watermark := 0 |}
      with (initial c p) by (unfold initial; by rewrite Hid).
    destruct (IH (<[(topic, p) := initial c p]> es) true) as (es' & b' & -> & Hes & Hb).
    exists es', b'. split; [done|]. split.
    + intros key. rewrite Hes. destruct (decide (key = (topic, p))) as [->|Hne].
      * rewrite lookup_insert_eq, Hp. cbn [fst snd]. rewrite decide_True; [done|].
        split; [done|by left].
      * rewrite lookup_insert_ne by done. destruct (es !! key); [done|].
        apply decide_ext. split; [intros [? ?]; split; [done|by right]|].
        intros [Ht Hin]. split; [done|]. apply elem_of_cons in Hin as [He|?]; [|done].
        destruct key. cbn in *. congruence.
    + intros [_ ?]%Hb. done.
Qed.

(** Storing entries and writing the file. *)
Lemma store_run es r :
  (set_entries es ;;; persist) r =
  (Ok tt, {| lr_dir := persist_entries es (lr_dir r); lr_cluster := lr_cluster r; lr_entries := es |}).
Proof. done. Qed.

Definition reg_with (r : LeadershipRegistry) (es : Entries) : LeadershipRegistry :=
  {| lr_dir := persist_entries es (lr_dir r); lr_cluster := lr_cluster r; lr_entries := es |}.

Lemma registry_stored r es :
  registry_ok r -> entries_ok es -> registry_ok (reg_with r es).
Proof.
  intros (Hc & _ & _) Hes. split; [done|]. split; [done|]. by apply load_persisted.
Qed.

Lemma insert_entry_ok es topic l :
  entries_ok es -> topic_text topic -> leadership_ok l ->
  entries_ok (<[(topic, pl_partition l) := l]> es).
Proof. intros Hes Ht Hl. by apply map_Forall_insert_2. Qed.

Lemma ensured_ok c topic n es es' :
  cluster_ok c -> entries_ok es -> topic_text topic -> is_u32 n ->
  (forall key, es' !! key =
       match es !! key with
       | Some l => Some l
       | None => if decide (key.1 = topic /\ key.2 ∈ seqZ 0 n) then Some (initial c key.2) else None
       end) ->
  entries_ok es'.
Proof.
  intros Hc Hes Ht Hn Hl [t p] l Hk. rewrite Hl in Hk. cbn [fst snd] in Hk.
  destruct (es !! (t, p)) as [l0|] eqn:Hp.
  { injection Hk as <-. by apply (Hes (t, p)). }
  case_decide as Hin; [|done]. injection Hk as <-. destruct Hin as [-> Hin%elem_of_seqZ].
  destruct (deterministic_leader_Some c p Hc) as (id & Hid & Hu & _).
  unfold initial. rewrite Hid. split; [done|]. split; [done|]. unfold leadership_ok. cbn.
  split_and?; first [done | range].
Qed.

(** What each call does, on every branch. *)
Lemma registry_apply_spec topic l r :
  registry_apply topic l r =
  if existsb (fun node => cn_id node =? pl_leader_id l) (cm_nodes (lr_cluster r)) then
    match lr_entries r !! (topic, pl_partition l) with
    | Some current =>
        if is_stale current l then (Err StaleEpoch, r)
        else if bool_decide (l = current) then (Ok tt, r)
        else (Ok tt, reg_with r (<[(topic, pl_partition l) := l]> (lr_entries r)))
    | None => (Ok tt, reg_with r (<[(topic, pl_partition l) := l]> (lr_entries r)))
    end
  else (Err (UnknownBroker (pl_leader_id l)), r).
Proof.
  unfold registry_apply. erewrite bind_Ok by apply get_run. cbv beta.
  destruct (existsb _ _); [|done]. erewrite bind_Ok by done. cbv beta zeta.
  destruct (lr_entries r !! _) as [cur|]; [|done].
  destruct (is_stale cur l); [done|]. erewrite bind_Ok by done. cbv beta.
  by case_bool_decide.
Qed.

Lemma is_stale_false current l : is_stale current l = false -> newer current l.
Proof.
  unfold is_stale, newer. rewrite orb_false_iff, andb_false_iff, orb_false_iff, negb_false_iff.
  rewrite !Z.ltb_ge, Z.eqb_neq, Z.eqb_eq. lia.
Qed.

Lemma existsb_member c id :
  existsb (fun node => cn_id node =? id) (cm_nodes c) = true <-> member_id c id.
Proof.
  rewrite existsb_exists. unfold member_id. split.
  - intros (n & Hin & ?%Z.eqb_eq). exists n. by rewrite list_elem_of_In.
  - intros (n & Hin & ?). exists n. rewrite <- list_elem_of_In, Z.eqb_eq. done.
Qed.

Lemma registry_ensure_spec topic n r :
  registry_ok r -> topic_text topic -> is_u32 n ->
  exists r', registry_ensure_topic topic n r = (Ok tt, r') /\
    lr_cluster r' = lr_cluster r /\ entries_ok (lr_entries r') /\
    (r' = r \/ r' = reg_with r (lr_entries r')) /\
    forall key, lr_entries r' !! key =
      match lr_entries r !! key with
      | Some l => Some l
      | None => if decide (key.1 = topic /\ key.2 ∈ seqZ 0 n)
                then Some (initial (lr_cluster r) key.2) else None
      end.
Proof.
  intros (Hc & Hes & Hload) Ht Hn. unfold registry_ensure_topic.
  erewrite bind_Ok by apply get_run. cbv beta.
  destruct (ensure_partitions_spec (lr_cluster r) topic (seqZ 0 n) (lr_entries r) false Hc)
    as (es' & b' & Hrun & Hl & Hb).
  unfold lift. rewrite Hrun. unfold bind at 1, bind at 1. cbv beta iota.
  pose proof (ensured_ok _ _ _ _ _ Hc Hes Ht Hn Hl) as Hok.
  destruct b'.
  - exists (reg_with r es'). split_and?; try done. by right.
  - destruct (Hb eq_refl) as [-> _]. exists r. split_and?; try done; [by destruct r|by left].
Qed.

Lemma migrate_spec topic p hw r :
  registry_ok r -> is_u64 hw ->
  match lr_entries r !! (topic, p) with
  | None => migrate_high_watermark topic p hw r = (Err (MissingPartition p), r)
  | Some l =>
      if pl_high_watermark l =? U64_MAX
      then exists l', migrate_high_watermark topic p hw r =
             (Ok tt, reg_with r (<[(topic, p) := l']> (lr_entries r))) /\
             newer l l' /\ entry_ok ((topic, p), l') /\ pl_high_watermark l' = hw
      else migrate_high_watermark topic p hw r = (Ok tt, r)
  end.
Proof.
  intros (_ & Hes & _) Hhw. unfold migrate_high_watermark.
  rewrite (bind_Ok get _ r r r) by apply get_run. cbv beta.
  destruct (lr_entries r !! (topic, p)) as [l|] eqn:Hl; [|done].
  destruct (Hes _ _ Hl) as (Ht & Hp & H1 & H2 & H3 & H4). cbn [fst snd] in *.
  rewrite (bind_Ok _ _ r r l) by by apply ok_or_Some. cbv beta.
  destruct (_ =? _); cbn [negb]; [|done].
  eexists. split; [done|]. split; [by right|]. split; [|done]. by split_and?.
Qed.

(** One call keeps the invariant, and moves to [r] or to stored entries. *)
Lemma run_registry_ok op r :
  registry_ok r -> registry_typed op ->
  let '(o, r') := run_registry op r in
  registry_ok r' /\ advances r r' /\ (r' = r \/ r' = reg_with r (lr_entries r')) /\
  match o with Ok _ => True | Err _ => r' = r | Panic => False end.
Proof.
  intros Hr Ht. pose proof Hr as (Hc & Hes & Hload).
  assert (forall key l', (forall l, lr_entries r !! key = Some l -> newer l l') ->
    entry_ok (key, l') ->
    let r' := reg_with r (<[key := l']> (lr_entries r)) in
    registry_ok r' /\ advances r r' /\ (r' = r \/ r' = reg_with r (lr_entries r')) /\
    True) as Hput.
  { intros key l' Hnew Hok. cbv zeta. split; [|split; [|split; [|done]]].
    - apply registry_stored; [done|]. by apply map_Forall_insert_2.
    - split; [done|]. intros k l Hk. cbn. destruct (decide (k = key)) as [->|].
      + rewrite lookup_insert_eq. eauto.
      + rewrite lookup_insert_ne by done. by exists l.
    - by right. }
  destruct op as [topic n|topic l|topic p hw]; cbn [run_registry registry_typed] in *.
  - destruct Ht as [Ht Hn]. destruct (registry_ensure_spec topic n r Hr Ht Hn)
      as (r' & -> & Hcl & Hok & Hch & Hl). split_and?; try done.
    + destruct Hch as [->|Heq]; [done|]. rewrite Heq. by apply registry_stored.
    + split; [done|]. intros k l Hk. exists l. by rewrite Hl, Hk.
  - destruct Ht as [Ht Hlo]. rewrite registry_apply_spec.
    destruct (existsb _ _); [|split; [done|split; [done|split; [by left|done]]]].
    assert (entry_ok ((topic, pl_partition l), l)) as Hok by done.
    destruct (lr_entries r !! _) as [cur|] eqn:Hcur.
    + destruct (is_stale cur l) eqn:Hst; [split; [done|split; [done|split; [by left|done]]]|].
      case_bool_decide; [split; [done|split; [done|split; [by left|done]]]|].
      apply (Hput _ l); [|done]. intros l0 Hl0. rewrite Hcur in Hl0. injection Hl0 as <-.
      by apply is_stale_false.
    + apply (Hput _ l); [|done]. intros l0 Hl0. congruence.
  - pose proof (migrate_spec topic p hw r Hr Ht) as Hm.
    destruct (lr_entries r !! (topic, p)) as [l|] eqn:Hl.
    + destruct (_ =? _).
      * destruct Hm as (l' & -> & Hnew & Hok & _). apply (Hput _ l'); [|done].
        intros l0 Hl0. congruence.
      * rewrite Hm. split; [done|split; [done|split; [by left|done]]].
    + rewrite Hm. split; [done|split; [done|split; [by left|done]]].
Qed.

Lemma registry_steps_ok r r' : registry_steps r r' -> registry_ok r -> registry_ok r' /\ advances r r'.
Proof.
  induction 1 as [r|r r1 r2 [op Ht] _ IH]; intros Hr; [done|].
  pose proof (run_registry_ok op r Hr Ht) as Hop.
  destruct (run_registry op r) as [o r']. cbn [snd] in *. destruct Hop as (Hr1 & Had & _).
  destruct (IH Hr1) as [? ?]. split; [done|]. by etransitivity.
Qed.

(* ------------------------------------------------------------------ *)
(** ** The leaders of a topic                                           *)
(* ------------------------------------------------------------------ *)

Lemma map_m_pure {S E A B} (body : A -> SM S E B) (f : A -> B) xs s :
  (forall x, x ∈ xs -> body x s = (Ok (f x), s)) -> map_m body xs s = (Ok (f <$> xs), s).
Proof.
  induction xs as [|x xs IH]; intros Hb; [done|]. cbn [map_m].
  rewrite (bind_Ok _ _ s s (f x)) by (apply Hb; left). cbv beta.
  rewrite (bind_Ok _ _ s s (f <$> xs)) by (apply IH; intros; apply Hb; by right). done.
Qed.

Lemma ensure_present c topic ps es b :
  (forall p, p ∈ ps -> is_Some (es !! (topic, p))) ->
  ensure_partitions c topic ps es b = Ok (es, b).
Proof.
  induction ps as [|p ps IH]; intros Hp; [done|]. cbn [ensure_partitions].
  destruct (Hp p) as [l ->]; [left|]. apply IH. intros. apply Hp. by right.
Qed.

Definition leaders_of (r : LeadershipRegistry) (topic : string) (n : Z) : list PartitionLeadership :=
  (fun p => default (initial (lr_cluster r) p) (lr_entries r !! (topic, p))) <$> seqZ 0 n.

Lemma registry_topic_spec topic n r :
  registry_ok r -> topic_text topic -> is_u32 n ->
  exists r1, registry_topic topic n r = (Ok (leaders_of r1 topic n), r1) /\
    lr_cluster r1 = lr_cluster r /\ entries_ok (lr_entries r1) /\
    (forall key, lr_entries r1 !! key =
       match lr_entries r !! key with
       | Some l => Some l
       | None => if decide (key.1 = topic /\ key.2 ∈ seqZ 0 n)
                 then Some (initial (lr_cluster r) key.2) else None
       end) /\
    registry_topic topic n r1 = (Ok (leaders_of r1 topic n), r1).
Proof.
  intros Hr Ht Hn. destruct (registry_ensure_spec topic n r Hr Ht Hn) as (r1 & Hrun & Hcl & Hok & _ & Hl).
  assert (forall p, p ∈ seqZ 0 n -> is_Some (lr_entries r1 !! (topic, p))) as Hsome.
  { intros p Hp. rewrite Hl. destruct (lr_entries r !! _); [done|]. by rewrite decide_True. }
  assert (map_m (registry_partition topic) (seqZ 0 n) r1 = (Ok (leaders_of r1 topic n), r1)) as Hmap.
  { apply map_m_pure. intros p Hp. unfold registry_partition.
    rewrite (bind_Ok get _ r1 r1 r1) by done. cbv beta. destruct (Hsome p Hp) as [l ->]. done. }
  exists r1. split_and?; try done; unfold registry_topic.
  - by rewrite (bind_Ok _ _ _ _ _ Hrun).
  - rewrite (bind_Ok _ _ r1 r1 tt); [done|]. unfold registry_ensure_topic.
    rewrite (bind_Ok get _ r1 r1 r1) by done. cbv beta.
    rewrite ensure_present by done. by destruct r1.
Qed.

Lemma leaders_lookup r r1 topic n p :
  lr_cluster r1 = lr_cluster r -> 0 <= p < n ->
  leaders_of r1 topic n !! Z.to_nat p =
  Some (default (initial (lr_cluster r) p) (lr_entries r1 !! (topic, p))).
Proof.
  intros Hc Hp. unfold leaders_of. rewrite list_lookup_fmap, lookup_seqZ_lt by lia.
  cbn [fmap option_fmap option_map]. rewrite Hc. by rewrite Z.add_0_l, Z2Nat.id by lia.
Qed.
