(* ===== verification/Leaders.v ===== *)
(** * Leaders: what the leadership registry promises. *)

From stdpp Require Import base numbers list strings gmap sorting relations.
From Stdlib Require Import ZArith Lia.
From S2P Require Import Prelude Text Files Runs Protocol Leadership LeadershipFacts.

(** A registry of three brokers to run examples with. *)
Definition sample_node (id : Z) : ClusterNode :=
  {| cn_id := id; cn_host := "127.0.0.1"; cn_port := 7390; cn_admin_port := 7391;
     cn_replication_port := 7392 |}.
Definition sample_cluster : ClusterMetadata :=
  {| cm_responding_broker_id := 1; cm_nodes := sample_node <$> [1; 2; 3] |}.
Definition empty_registry : LeadershipRegistry :=
  {| lr_dir := ∅; lr_cluster := sample_cluster; lr_entries := ∅ |}.
Definition sample_leadership : PartitionLeadership :=
  {| pl_partition := 1; pl_leader_id := 3; pl_leader_epoch := 1; pl_high_watermark := 7 |}.

Lemma empty_registry_ok : registry_ok empty_registry.
Proof. split; [|by split]. split; [done|]. repeat constructor; vm_compute; discriminate. Qed.

(** C36 The metadata file is the memory: after every call on the registry, at
    whatever point of its life, a broker that opens the directory reads exactly
    the entries it held; and if it dies while the file is replaced, the next one
    has the entries from before or from after the call, never a mixture.  A call
    that fails changes nothing, and no call panics. *)
Theorem registry_recovers r r' op :
  registry_ok r -> registry_steps r r' -> registry_typed op ->
  let '(o, r'') := run_registry op r' in
  open_registry (lr_dir r'') (lr_cluster r'') = Ok r'' /\
  (forall d, replacing META META_TMP (render_entries (lr_entries r'')) (lr_dir r') d ->
     load_entries d = Ok (lr_entries r') \/ load_entries d = Ok (lr_entries r'')) /\
  match o with Ok _ => True | Err _ => r'' = r' | Panic => False end.
Proof.
  intros Hr Hs Ht. destruct (registry_steps_ok r r' Hs Hr) as [Hr' _].
  pose proof (run_registry_ok op r' Hr' Ht) as Hop.
  destruct (run_registry op r') as [o r'']. destruct Hop as ((Hc & Hes & Hl) & _ & _ & Ho).
  split_and?; [|intros d Hd|done].
  - unfold open_registry. rewrite Hl. cbn [obind]. by destruct r''.
  - pose proof Hr' as (_ & _ & Hl'). rewrite <- Hl'. by apply load_replacing.
Qed.

Lemma registry_recovers_witness :
  let '(o, r'') := run_registry (OpApply "payments" sample_leadership) empty_registry in
  open_registry (lr_dir r'') (lr_cluster r'') = Ok r'' /\
  (forall d, replacing META META_TMP (render_entries (lr_entries r'')) (lr_dir empty_registry) d ->
     load_entries d = Ok (lr_entries empty_registry) \/ load_entries d = Ok (lr_entries r'')) /\
  match o with Ok _ => True | Err _ => r'' = empty_registry | Panic => False end.
Proof.
  apply (registry_recovers empty_registry empty_registry).
  - apply empty_registry_ok.
  - apply rtc_refl.
  - split; [reflexivity|]. split; [|split; [|split]]; vm_compute; split; discriminate.
Defined.

(** C17 One leader per epoch: over any sequence of calls, a partition never loses
    its entry, its epoch never decreases, and as long as the epoch stays the
    leader stays. *)
Theorem epochs_monotone r r' topic partition l :
  registry_ok r -> registry_steps r r' -> lr_entries r !! (topic, partition) = Some l ->
  exists l', lr_entries r' !! (topic, partition) = Some l' /\
    pl_partition l' = partition /\ pl_leader_epoch l <= pl_leader_epoch l' /\
    (pl_leader_epoch l' = pl_leader_epoch l -> pl_leader_id l' = pl_leader_id l).
Proof.
  intros Hr Hs Hl. destruct (registry_steps_ok r r' Hs Hr) as [(_ & Hes & _) [_ Had]].
  destruct (Had _ _ Hl) as (l' & Hl' & Hnew). exists l'. split; [done|].
  destruct (Hes _ _ Hl') as (_ & Hp & _). split; [done|]. unfold newer in Hnew. lia.
Qed.

Lemma epochs_monotone_witness :
  let r := snd (run_registry (OpApply "payments" sample_leadership) empty_registry) in
  exists l', lr_entries (snd (run_registry (OpEnsure "payments" 3) r)) !! ("payments", 1) = Some l' /\
    pl_partition l' = 1 /\ pl_leader_epoch sample_leadership <= pl_leader_epoch l' /\
    (pl_leader_epoch l' = pl_leader_epoch sample_leadership ->
     pl_leader_id l' = pl_leader_id sample_leadership).
Proof.
  apply (epochs_monotone (snd (run_registry (OpApply "payments" sample_leadership) empty_registry))
           _ "payments" 1 sample_leadership).
  - apply (registry_steps_ok empty_registry); [|apply empty_registry_ok]. apply rtc_once. constructor.
    split; [reflexivity|]. split; [|split; [|split]]; vm_compute; split; discriminate.
  - apply rtc_once. constructor. split; [reflexivity|]. split; vm_compute; discriminate.
  - vm_compute. reflexivity.
Defined.

(** [apply] on every branch: leadership of a broker outside the cluster is
    refused; so is an older epoch, another leader in the current epoch, or a
    lower high watermark of the same leadership; everything else is stored under
    its topic and partition, and no other entry changes. *)
Theorem apply_accepts_newer topic l r :
  let current := lr_entries r !! (topic, pl_partition l) in
  let known := existsb (fun node => cn_id node =? pl_leader_id l) (cm_nodes (lr_cluster r)) in
  match registry_apply topic l r with
  | (Ok _, r') =>
      known = true /\ lr_entries r' = <[(topic, pl_partition l) := l]> (lr_entries r) /\
      (forall c, current = Some c ->
         pl_leader_epoch c < pl_leader_epoch l \/
         (pl_leader_epoch c = pl_leader_epoch l /\ pl_leader_id c = pl_leader_id l /\
          pl_high_watermark c <= pl_high_watermark l))
  | (Err (UnknownBroker id), r') => r' = r /\ known = false /\ id = pl_leader_id l
  | (Err e, r') =>
      r' = r /\ e = StaleEpoch /\ known = true /\
      exists c, current = Some c /\
        (pl_leader_epoch l < pl_leader_epoch c \/
         (pl_leader_epoch l = pl_leader_epoch c /\
          (pl_leader_id l <> pl_leader_id c \/ pl_high_watermark l < pl_high_watermark c)))
  | (Panic, _) => False
  end.
Proof.
  cbv zeta. rewrite registry_apply_spec.
  destruct (existsb _ _); [|done].
  destruct (lr_entries r !! _) as [cur|] eqn:Hcur; [|by split_and?].
  destruct (is_stale cur l) eqn:Hst; unfold is_stale in Hst.
  - split_and?; try done. exists cur. split; [done|]. lia.
  - case_bool_decide as Heq; (split; [done|split; [|intros c [= <-]; lia]]); [|done].
    symmetry. apply insert_id. congruence.
Qed.

(** A topic's leaders: [topic] answers with one entry per partition, in
    order; a partition that had an entry keeps it, a new one gets epoch 0 and,
    as every broker computes it alike, the member of the cluster at index
    [partition mod n].  Asking again gives the same answer and changes nothing. *)
Theorem topic_leaders topic n r :
  registry_ok r -> topic_text topic -> is_u32 n ->
  exists ls r', registry_topic topic n r = (Ok ls, r') /\
    Z.of_nat (length ls) = n /\
    (forall p, 0 <= p < n -> exists l, ls !! Z.to_nat p = Some l /\ pl_partition l = p /\
       match lr_entries r !! (topic, p) with
       | Some l0 => l = l0
       | None => l = initial (lr_cluster r) p /\ member_id (lr_cluster r) (pl_leader_id l)
       end) /\
    registry_topic topic n r' = (Ok ls, r').
Proof.
  intros Hr Ht Hn. destruct (registry_topic_spec topic n r Hr Ht Hn)
    as (r1 & Hrun & Hcl & Hok & Hl & Hidem).
  exists (leaders_of r1 topic n), r1. split; [done|]. split.
  { unfold leaders_of. rewrite length_fmap, length_seqZ. range. }
  split; [|done]. intros p Hp. exists (default (initial (lr_cluster r) p) (lr_entries r1 !! (topic, p))).
  split; [by apply (leaders_lookup r)|]. rewrite Hl. cbn [fst snd].
  destruct (lr_entries r !! (topic, p)) as [l0|] eqn:Hl0; cbn [default from_option].
  - pose proof Hr as (_ & Hes & _). destruct (Hes _ _ Hl0) as (_ & ? & _). done.
  - rewrite decide_True by (split; [done|]; apply elem_of_seqZ; lia). cbn [from_option].
    unfold id. split; [done|]. split; [done|].
    destruct (deterministic_leader_Some (lr_cluster r) p) as (i & Hi & _ & Hm); [apply Hr|].
    unfold initial. by rewrite Hi.
Qed.

Lemma topic_leaders_witness :
  exists ls r', registry_topic "payments" 3 empty_registry = (Ok ls, r') /\
    Z.of_nat (length ls) = 3 /\
    (forall p, 0 <= p < 3 -> exists l, ls !! Z.to_nat p = Some l /\ pl_partition l = p /\
       match lr_entries empty_registry !! ("payments", p) with
       | Some l0 => l = l0
       | None => l = initial (lr_cluster empty_registry) p /\
                 member_id (lr_cluster empty_registry) (pl_leader_id l)
       end) /\
    registry_topic "payments" 3 r' = (Ok ls, r').
Proof.
  apply (topic_leaders "payments" 3 empty_registry); [apply empty_registry_ok|reflexivity|].
  split; vm_compute; discriminate.
Defined.
