(* ===== verification/Worker.v ===== *)
(** * Worker: the storage worker of [crates/broker/src/lib.rs].

    The worker owns the topics and their open partition logs and takes one
    command at a time from its queue.  Its state is the data directory, the
    open logs, the number of partitions of each topic and the round-robin
    counters.  A hash map's order, where it matters, is an argument. *)

From stdpp Require Import base numbers list strings gmap sorting.
From Stdlib Require Import ZArith Lia.
From S2P Require Import Prelude Text Files Protocol Record Log.

(* ------------------------------------------------------------------ *)
(** ** State                                                            *)
(* ------------------------------------------------------------------ *)

(** A topic's directory: its files and the directories of its partitions. *)
Record TopicDir := { td_files : Dir; td_partitions : gmap string Dir }.
Abbreviation DataDir := (gmap string TopicDir).

Record StorageSettings := {
  ss_max_segment_bytes : Z;
  ss_index_interval_bytes : Z;
  ss_default_partition_count : Z;
  ss_retention_bytes : option Z;
  ss_retention_age : option Z;
  ss_auto_create_topics : bool
}.

Abbreviation PartitionKey := (string * Z)%type.

Record Worker := {
  wk_data : DataDir;
  wk_logs : gmap PartitionKey PartitionLog;
  wk_topics : gmap string Z;
  wk_round_robin : gmap string Z
}.
Definition set_data (w : Worker) (data : DataDir) : Worker :=
  {| wk_data := data; wk_logs := wk_logs w; wk_topics := wk_topics w;
     wk_round_robin := wk_round_robin w |}.
Definition set_logs (w : Worker) (logs : gmap PartitionKey PartitionLog) : Worker :=
  {| wk_data := wk_data w; wk_logs := logs; wk_topics := wk_topics w;
     wk_round_robin := wk_round_robin w |}.
Definition set_topics (w : Worker) (topics : gmap string Z) : Worker :=
  {| wk_data := wk_data w; wk_logs := wk_logs w; wk_topics := topics;
     wk_round_robin := wk_round_robin w |}.
Definition set_round_robin (w : Worker) (counters : gmap string Z) : Worker :=
  {| wk_data := wk_data w; wk_logs := wk_logs w; wk_topics := wk_topics w;
     wk_round_robin := counters |}.

Abbreviation worker A := (SM Worker StorageError A).

(** [data_dir.join(topic).join(partition.to_string())] *)
Definition no_topic_dir : TopicDir := {| td_files := ∅; td_partitions := ∅ |}.
Definition topic_dir_of (data : DataDir) (topic : string) : TopicDir :=
  default no_topic_dir (data !! topic).
Definition partition_dir (data : DataDir) (k : PartitionKey) : Dir :=
  default ∅ (td_partitions (topic_dir_of data k.1) !! show_uint k.2).
Definition set_partition_dir (data : DataDir) (k : PartitionKey) (d : Dir) : DataDir :=
  let t := topic_dir_of data k.1 in
  <[k.1 := {| td_files := td_files t; td_partitions := <[show_uint k.2 := d]> (td_partitions t) |}]>
    data.

Definition set_part (w : Worker) (k : PartitionKey) (p : Part) : Worker :=
  set_logs (set_data w (set_partition_dir (wk_data w) k (pt_dir p))) (<[k := pt_log p]> (wk_logs w)).

(** [logs.get_mut(k).ok_or(missing)?] and a method of the log. *)
Definition on_log {A} (k : PartitionKey) (missing : StorageError) (m : SM Part StorageError A)
  : worker A := fun w =>
  match wk_logs w !! k with
  | None => (Err missing, w)
  | Some l =>
      let '(o, p) := m {| pt_dir := partition_dir (wk_data w) k; pt_log := l |} in
      (o, set_part w k p)
  end.

Section worker.
Context `{!Crc32}.

(* ------------------------------------------------------------------ *)
(** ** Topics                                                           *)
(* ------------------------------------------------------------------ *)

(** [logs.insert(k, PartitionLog::open(..)?)].  An [open] that fails before
    it creates the directory leaves none. *)
Definition open_log (settings : StorageSettings) (k : PartitionKey) : worker unit := fun w =>
  let '(o, d) := open k.1 (ss_max_segment_bytes settings) (ss_index_interval_bytes settings)
                      (partition_dir (wk_data w) k) in
  let data := if bool_decide (d = ∅) then wk_data w else set_partition_dir (wk_data w) k d in
  match o with
  | Ok l => (Ok tt, set_logs (set_data w data) (<[k := l]> (wk_logs w)))
  | Err e => (Err e, set_data w data)
  | Panic => (Panic, set_data w data)
  end.

Definition topic_meta_text (partitions : Z) : bytes :=
  as_bytes "partitions=" ++ as_bytes (show_uint partitions) ++ [LF].
Definition persist_topic_metadata (topic : string) (partitions : Z) (data : DataDir) : DataDir :=
  let t := topic_dir_of data topic in
  <[topic := {| td_files := replace_file "topic.meta" "topic.meta.tmp" (topic_meta_text partitions)
                                         (td_files t);
                td_partitions := td_partitions t |}]> data.

Definition metadata_of (topic : string) (partitions : Z) : TopicMetadata :=
  {| tm_topic := topic; tm_partitions := partitions; tm_leaders := []; tm_leader_epochs := [];
     tm_high_watermarks := [] |}.

(** The loop of [create_topic] over [0..partitions]. *)
Definition open_vacant (settings : StorageSettings) (k : PartitionKey) : worker unit :=
  w <- get ;;
  match wk_logs w !! k with
  | Some _ => ret tt
  | None => open_log settings k
  end.
Definition create_topic (settings : StorageSettings) (topic : string) (partitions : Z)
  : worker TopicMetadata :=
  reject_if (partitions =? 0) SInvalidTopic ;;;
  w <- get ;;
  reject_if (bool_decide (is_Some (wk_topics w !! topic))) TopicAlreadyExists ;;;
  for_each (seqZ 0 partitions) (fun partition => open_vacant settings (topic, partition)) ;;;
  modify (fun w => set_data w (persist_topic_metadata topic partitions (wk_data w))) ;;;
  modify (fun w => set_topics w (<[topic := partitions]> (wk_topics w))) ;;;
  ret (metadata_of topic partitions).

Definition ensure_topic (settings : StorageSettings) (topic : string) : worker Z :=
  w <- get ;;
  match wk_topics w !! topic with
  | Some partitions => ret partitions
  | None =>
      reject_if (negb (ss_auto_create_topics settings)) UnknownTopic ;;;
      m <- create_topic settings topic (ss_default_partition_count settings) ;;
      ret (tm_partitions m)
  end.

(* ------------------------------------------------------------------ *)
(** ** Appending                                                        *)
(* ------------------------------------------------------------------ *)

(** A key names its partition; without one the topic's counter does. *)
Definition select_partition (partition_count : Z) (topic : string) (key : option bytes) : worker Z :=
  match key with
  | Some key => ret (crc32 key mod partition_count)
  | None =>
      w <- get ;;
      let next := default 0 (wk_round_robin w !! topic) in
      put (set_round_robin w (<[topic := (next + 1) mod partition_count]> (wk_round_robin w))) ;;;
      ret next
  end.

Record AppendInput := {
  ai_topic : string;
  ai_partition : option Z;
  ai_key : bytes;
  ai_value : bytes;
  ai_ack_mode : AckMode;
  ai_producer : option Producer
}.

(** The clock's milliseconds since the epoch as a [u64]. *)
Definition timestamp_ms {S} (now : Z) : SM S StorageError Z :=
  reject_if (now <? 0) InvalidTimestamp ;;; try_from U64_MAX now InvalidTimestamp.

Definition routing_key (key : bytes) (producer : option Producer) : option bytes :=
  if bool_decide (key = []) then (fun p => as_bytes (producer_id p)) <$> producer else Some key.
Definition input_record (input : AppendInput) (timestamp : Z) : LogRecord :=
  {| rec_key := if bool_decide (ai_key input = []) then None else Some (ai_key input);
     rec_value := ai_value input; rec_timestamp_ms := timestamp;
     rec_producer := ai_producer input |}.
Definition choose_partition (input : AppendInput) (partition_count : Z) : worker Z :=
  match ai_partition input with
  | Some partition =>
      reject_if (partition_count <=? partition) (UnknownPartition partition) ;;; ret partition
  | None =>
      select_partition partition_count (ai_topic input) (routing_key (ai_key input) (ai_producer input))
  end.

(** [append_record]; the synchronisation of a durable append does not change
    what is stored. *)
Definition append_record (settings : StorageSettings) (input : AppendInput) (now : Z)
  : worker ProduceAck :=
  partition_count <- ensure_topic settings (ai_topic input) ;;
  partition <- choose_partition input partition_count ;;
  offset <- on_log (ai_topic input, partition) SInvalidTopic
              (timestamp <- timestamp_ms now ;; append (input_record input timestamp)) ;;
  ret {| pa_partition := partition; pa_offset := offset |}.

Record BatchAppendInput := {
  ba_topic : string;
  ba_partition : option Z;
  ba_records : list BatchRecord;
  ba_ack_mode : AckMode
}.
Definition batch_input (topic : string) (partition : option Z) (record : BatchRecord) : AppendInput :=
  {| ai_topic := topic; ai_partition := partition; ai_key := br_key record;
     ai_value := br_payload record; ai_ack_mode := AckLeader; ai_producer := None |}.

(** The loop of [append_batch_records]; [clock] reads the time of each record. *)
Fixpoint append_each (settings : StorageSettings) (topic : string) (partition : option Z)
    (records : list BatchRecord) (clock : nat -> Z) : worker (list ProduceAck) :=
  match records with
  | [] => ret []
  | record :: records =>
      ack <- append_record settings (batch_input topic partition record) (clock O) ;;
      acks <- append_each settings topic partition records (fun i => clock (Datatypes.S i)) ;;
      ret (ack :: acks)
  end.
(** The synchronisation of a durable batch looks its partitions up again,
    sorted and without duplicates. *)
Definition append_batch_records (settings : StorageSettings) (input : BatchAppendInput)
    (clock : nat -> Z) : worker (list ProduceAck) :=
  acks <- append_each settings (ba_topic input) (ba_partition input) (ba_records input) clock ;;
  match ba_ack_mode input with
  | AckDurable =>
      for_each (merge_sort Z.le (remove_dups (pa_partition <$> acks))) (fun partition =>
        on_log (ba_topic input, partition) SInvalidTopic (ret tt))
  | AckLeader => ret tt
  end ;;;
  ret acks.

(** [append_replica]: a follower appends the leader's record at its offset. *)
Definition replica_record (replicated : ReplicateRecord) : LogRecord :=
  {| rec_key := rr_key replicated; rec_value := rr_value replicated;
     rec_timestamp_ms := rr_timestamp_ms replicated; rec_producer := None |}.
Definition worker_append_replica (replicated : ReplicateRecord) : worker Z :=
  w <- get ;;
  partition_count <- ok_or (wk_topics w !! rr_topic replicated) UnknownTopic ;;
  reject_if (partition_count <=? rr_partition replicated)
    (UnknownPartition (rr_partition replicated)) ;;;
  on_log (rr_topic replicated, rr_partition replicated) SInvalidTopic
    (_o <- append_replica (rr_offset replicated) (replica_record replicated) ;;
     l <- log_get ;;
     ret (lg_next_offset l)).

(* ------------------------------------------------------------------ *)
(** ** Reading                                                          *)
(* ------------------------------------------------------------------ *)

Definition fetched (s : StoredRecord) : FetchedRecord :=
  {| fd_offset := sr_offset s; fd_timestamp_ms := sr_timestamp_ms s; fd_key := sr_key s;
     fd_value := sr_value s |}.
Definition read_records (settings : StorageSettings) (topic : string) (partition offset max_bytes : Z)
  : worker (list FetchedRecord) :=
  partition_count <- ensure_topic settings topic ;;
  w <- get ;;
  match wk_logs w !! (topic, partition) with
  | Some _ => ret tt
  | None =>
      reject_if (partition_count <=? partition) (UnknownPartition partition) ;;;
      open_log settings (topic, partition)
  end ;;;
  records <- on_log (topic, partition) SInvalidTopic (read offset max_bytes) ;;
  ret (fetched <$> records).

Definition partition_offset (topic : string) (partition : Z) : worker Z :=
  w <- get ;;
  l <- ok_or (wk_logs w !! (topic, partition)) (UnknownPartition partition) ;;
  ret (lg_next_offset l).
Definition truncate_partition (topic : string) (partition offset : Z) : worker unit :=
  on_log (topic, partition) (UnknownPartition partition) (truncate_to offset).

Definition topic_le (a b : TopicMetadata) : Prop := String.le (tm_topic a) (tm_topic b).
#[global] Instance topic_le_dec : RelDecision topic_le.
Proof. intros a b. unfold topic_le. apply _. Defined.
Definition storage_topic_metadata (topics : gmap string Z) : list TopicMetadata :=
  merge_sort topic_le ((fun t => metadata_of t.1 t.2) <$> map_to_list topics).

Record PartitionSnapshot := {
  ps_topic : string;
  ps_partition : Z;
  ps_high_watermark : Z;
  ps_log_end_offset : Z;
  ps_low_watermark : Z;
  ps_log_size_bytes : Z;
  ps_segments : Z
}.
Definition snapshot_log (e : PartitionKey * PartitionLog) : PartitionSnapshot :=
  {| ps_topic := e.1.1; ps_partition := e.1.2; ps_high_watermark := lg_next_offset e.2;
     ps_log_end_offset := lg_next_offset e.2; ps_low_watermark := low_watermark e.2;
     ps_log_size_bytes := log_size_bytes e.2; ps_segments := Z.of_nat (length (lg_segments e.2)) |}.
Definition key_leb (a b : PartitionKey) : bool :=
  if String.eqb a.1 b.1 then a.2 <=? b.2 else bool_decide (String.le a.1 b.1).
Definition snapshot_le (a b : PartitionSnapshot) : Prop :=
  Is_true (key_leb (ps_topic a, ps_partition a) (ps_topic b, ps_partition b)).
#[global] Instance snapshot_le_dec : RelDecision snapshot_le.
Proof. intros a b. unfold snapshot_le. apply _. Defined.
Definition snapshot_logs (logs : gmap PartitionKey PartitionLog) : list PartitionSnapshot :=
  merge_sort snapshot_le (snapshot_log <$> map_to_list logs).

(** [apply_retention]: a log that fails is left to the next round.  [reached]:
    which segment files are as old as the age limit. *)
Definition worker_apply_retention (settings : StorageSettings) (reached : PartitionKey -> string -> bool)
    (order : list PartitionKey) : worker unit :=
  for_each order (fun k w =>
    let age := match ss_retention_age settings with Some _ => Some (reached k) | None => None end in
    match on_log k SInvalidTopic (apply_retention (ss_retention_bytes settings) age) w with
    | (Panic, w) => (Panic, w)
    | (_, w) => (Ok tt, w)
    end).

(* ------------------------------------------------------------------ *)
(** ** Startup                                                          *)
(* ------------------------------------------------------------------ *)

(** The two loops of [discover_partitions] over directory entries. *)
Definition parse_partition (name : string) : outcome StorageError Z :=
  match from_utf8 (as_bytes name) with
  | None => Err InvalidPartitionName
  | Some name =>
      match parse_uint U32_MAX name with Some p => Ok p | None => Err InvalidPartitionName end
  end.
Fixpoint partition_entries (topic : string) (names : list string)
  : outcome StorageError (list PartitionKey) :=
  match names with
  | [] => Ok []
  | name :: names =>
      obind (parse_partition name) (fun p =>
      obind (partition_entries topic names) (fun ks => Ok ((topic, p) :: ks)))
  end.
Fixpoint topic_entries (entries : list (string * TopicDir)) : outcome StorageError (list PartitionKey) :=
  match entries with
  | [] => Ok []
  | (name, t) :: entries =>
      match from_utf8 (as_bytes name) with
      | None => Err SInvalidTopic
      | Some topic =>
          if starts_with "__" topic then topic_entries entries
          else
            obind (fst (storage_validate_topic topic tt)) (fun _ =>
            obind (partition_entries topic (fst <$> map_to_list (td_partitions t))) (fun ks =>
            obind (topic_entries entries) (fun rest => Ok (ks ++ rest))))
      end
  end.
Definition identity_le (a b : PartitionKey) : Prop := Is_true (key_leb a b).
#[global] Instance identity_le_dec : RelDecision identity_le.
Proof. intros a b. unfold identity_le. apply _. Defined.
Definition discover_partitions (data : DataDir) : outcome StorageError (list PartitionKey) :=
  obind (topic_entries (map_to_list data)) (fun ks => Ok (merge_sort identity_le ks)).

(** One discovered partition; [partition + 1] is a [u32]. *)
Definition recover_partition (settings : StorageSettings) (k : PartitionKey) : worker unit :=
  open_log settings k ;;;
  (if U32_MAX <=? k.2 then panic else ret tt) ;;;
  modify (fun w =>
    let count := match wk_topics w !! k.1 with
                 | Some count => Z.max count (k.2 + 1)
                 | None => k.2 + 1
                 end in
    set_topics w (<[k.1 := count]> (wk_topics w))).
Definition persist_topic (t : string * Z) : worker unit :=
  modify (fun w => set_data w (persist_topic_metadata t.1 t.2 (wk_data w))).
Definition recover_storage (settings : StorageSettings) (data : DataDir)
  : outcome StorageError unit * Worker :=
  (identities <- lift (discover_partitions data) ;;
   for_each identities (recover_partition settings) ;;;
   w <- get ;;
   for_each (map_to_list (wk_topics w)) persist_topic)
  {| wk_data := data; wk_logs := ∅; wk_topics := ∅; wk_round_robin := ∅ |}.

(* ------------------------------------------------------------------ *)
(** ** Commands                                                         *)
(* ------------------------------------------------------------------ *)

Inductive StorageCommand :=
| CreateTopic (topic : string) (partitions : Z)
| ListTopics
| Append (input : AppendInput)
| AppendBatch (input : BatchAppendInput)
| Read (topic : string) (partition offset max_bytes : Z)
| Replicate (record : ReplicateRecord)
| PartitionOffset (topic : string) (partition : Z)
| Truncate (topic : string) (partition offset : Z)
| Snapshot
| ApplyRetention.

Inductive StorageReply :=
| TopicReply (m : TopicMetadata)
| TopicsReply (ms : list TopicMetadata)
| AckReply (a : ProduceAck)
| BatchReply (acks : list ProduceAck)
| RecordsReply (rs : list FetchedRecord)
| OffsetReply (o : Z)
| SnapshotReply (ss : list PartitionSnapshot)
| UnitReply.

(** What the worker sees of the world while it runs a command: the clock, the
    age of the files and the order of the hash map of logs. *)
Record Ambient := {
  am_clock : nat -> Z;
  am_reached : PartitionKey -> string -> bool;
  am_order : list PartitionKey
}.

(** One turn of the loop of [run_storage_worker]. *)
Definition run_command (settings : StorageSettings) (env : Ambient) (command : StorageCommand)
  : worker StorageReply :=
  match command with
  | CreateTopic topic partitions =>
      m <- create_topic settings topic partitions ;; ret (TopicReply m)
  | ListTopics => w <- get ;; ret (TopicsReply (storage_topic_metadata (wk_topics w)))
  | Append input => a <- append_record settings input (am_clock env O) ;; ret (AckReply a)
  | AppendBatch input =>
      acks <- append_batch_records settings input (am_clock env) ;; ret (BatchReply acks)
  | Read topic partition offset max_bytes =>
      rs <- read_records settings topic partition offset max_bytes ;; ret (RecordsReply rs)
  | Replicate record => o <- worker_append_replica record ;; ret (OffsetReply o)
  | PartitionOffset topic partition => o <- partition_offset topic partition ;; ret (OffsetReply o)
  | Truncate topic partition offset => truncate_partition topic partition offset ;;; ret UnitReply
  | Snapshot => w <- get ;; ret (SnapshotReply (snapshot_logs (wk_logs w)))
  | ApplyRetention => worker_apply_retention settings (am_reached env) (am_order env) ;;; ret UnitReply
  end.
End worker.
