(* ===== verification/WorkerSpec.v ===== *)
(** * WorkerSpec: what the storage worker promises.

    The abstract worker keeps a map from partitions to abstract logs; every
    command is a function on it.  [represents] relates it to the worker's
    directory and open logs, [aworker_ok] is its invariant. *)

From stdpp Require Import base numbers list strings gmap sorting.
From Stdlib Require Import ZArith Lia.
From S2P Require Import Prelude Text Files Runs Protocol Record RecordFacts Log LogRep LogFacts LogAppend LogOpen LogShrink Worker.

(* ------------------------------------------------------------------ *)
(** ** The abstract worker                                              *)
(* ------------------------------------------------------------------ *)

Record AWorker := {
  aw_logs : gmap PartitionKey ALog;
  aw_topics : gmap string Z;
  aw_counters : gmap string Z
}.
Definition aw_set_log (a : AWorker) (k : PartitionKey) (l : ALog) : AWorker :=
  {| aw_logs := <[k := l]> (aw_logs a); aw_topics := aw_topics a; aw_counters := aw_counters a |}.

Definition valid_topic (topic : string) : bool :=
  negb (is_empty topic || starts_with "__" topic || negb (forallb id_byte (as_bytes topic))).

Section spec.
Context `{!Crc32}.
Implicit Types a : AWorker.

(** The partitions of a new topic, all empty. *)
Definition new_logs (topic : string) (n : Z) : gmap PartitionKey ALog :=
  list_to_map ((fun p => ((topic, p), empty_log)) <$> seqZ 0 n).
Definition a_create a (topic : string) (n : Z) : outcome StorageError TopicMetadata * AWorker :=
  if n =? 0 then (Err SInvalidTopic, a)
  else if bool_decide (is_Some (aw_topics a !! topic)) then (Err TopicAlreadyExists, a)
  else if negb (valid_topic topic) then (Err SInvalidTopic, a)
  else (Ok (metadata_of topic n),
        {| aw_logs := aw_logs a ∪ new_logs topic n; aw_topics := <[topic := n]> (aw_topics a);
           aw_counters := aw_counters a |}).
Definition a_ensure (s : StorageSettings) a (topic : string) : outcome StorageError Z * AWorker :=
  match aw_topics a !! topic with
  | Some n => (Ok n, a)
  | None =>
      if ss_auto_create_topics s then
        let n := ss_default_partition_count s in
        match a_create a topic n with
        | (Ok _, a') => (Ok n, a')
        | (Err e, a') => (Err e, a')
        | (Panic, a') => (Panic, a')
        end
      else (Err UnknownTopic, a)
  end.

(** The partition of a record: the one asked for, the one of its key, or the
    topic's next. *)
Definition a_choose a (input : AppendInput) (n : Z) : outcome StorageError Z * AWorker :=
  match ai_partition input, routing_key (ai_key input) (ai_producer input) with
  | Some p, _ => if n <=? p then (Err (UnknownPartition p), a) else (Ok p, a)
  | None, Some key => (Ok (crc32 key mod n), a)
  | None, None =>
      let p := default 0 (aw_counters a !! ai_topic input) in
      (Ok p, {| aw_logs := aw_logs a; aw_topics := aw_topics a;
                aw_counters := <[ai_topic input := (p + 1) mod n]> (aw_counters a) |})
  end.

(** A method of the log of [k]. *)
Definition a_on {A} a (k : PartitionKey) (e : StorageError)
    (m : ALog -> outcome StorageError A * ALog) : outcome StorageError A * AWorker :=
  match aw_logs a !! k with
  | None => (Err e, a)
  | Some l => let '(o, l') := m l in (o, aw_set_log a k l')
  end.

(** Sequencing, as [bind] on the worker. *)
Definition a_bind {A B} (x : outcome StorageError A * AWorker)
    (k : A -> AWorker -> outcome StorageError B * AWorker) : outcome StorageError B * AWorker :=
  match x with
  | (Ok v, a) => k v a
  | (Err e, a) => (Err e, a)
  | (Panic, a) => (Panic, a)
  end.

Definition valid_time (now : Z) : bool := (0 <=? now) && (now <=? U64_MAX).
Definition a_append_at (cf : Config) (input : AppendInput) (now : Z) (l : ALog) :=
  if valid_time now then a_append cf l (input_record input now) else (Err InvalidTimestamp, l).
Definition cfg (s : StorageSettings) : Config :=
  settings (ss_max_segment_bytes s) (ss_index_interval_bytes s).
Definition a_append_record (s : StorageSettings) a (input : AppendInput) (now : Z)
  : outcome StorageError ProduceAck * AWorker :=
  a_bind (a_ensure s a (ai_topic input)) (fun n a =>
  a_bind (a_choose a input n) (fun p a =>
  a_bind (a_on a (ai_topic input, p) SInvalidTopic (a_append_at (cfg s) input now)) (fun o a =>
  (Ok {| pa_partition := p; pa_offset := o |}, a)))).

Fixpoint a_append_each (s : StorageSettings) a (topic : string) (partition : option Z)
    (records : list BatchRecord) (clock : nat -> Z) : outcome StorageError (list ProduceAck) * AWorker :=
  match records with
  | [] => (Ok [], a)
  | record :: records =>
      a_bind (a_append_record s a (batch_input topic partition record) (clock O)) (fun ack a =>
      a_bind (a_append_each s a topic partition records (fun i => clock (Datatypes.S i)))
        (fun acks a => (Ok (ack :: acks), a)))
  end.

Definition a_read_records (s : StorageSettings) a (topic : string) (partition offset max_bytes : Z)
  : outcome StorageError (list FetchedRecord) * AWorker :=
  a_bind (a_ensure s a topic) (fun _ a =>
  match aw_logs a !! (topic, partition) with
  | None => (Err (UnknownPartition partition), a)
  | Some l =>
      match a_read l offset max_bytes with
      | Ok rs => (Ok (fetched <$> rs), a)
      | Err e => (Err e, a)
      | Panic => (Panic, a)
      end
  end).

Definition a_replicate (s : StorageSettings) a (r : ReplicateRecord) : outcome StorageError Z * AWorker :=
  match aw_topics a !! rr_topic r with
  | None => (Err UnknownTopic, a)
  | Some n =>
      if n <=? rr_partition r then (Err (UnknownPartition (rr_partition r)), a)
      else a_on a (rr_topic r, rr_partition r) SInvalidTopic (fun l =>
             match a_append_replica (cfg s) l (rr_offset r) (replica_record r) with
             | (Ok _, l') => (Ok (next (al_chunks l')), l')
             | (Err e, l') => (Err e, l')
             | (Panic, l') => (Panic, l')
             end)
  end.

(** Truncation writes the kept records to an empty log, one by one. *)
Fixpoint a_rewrite (cf : Config) (l : ALog) (rs : list LogRecord) : outcome StorageError unit * ALog :=
  match rs with
  | [] => (Ok tt, l)
  | r :: rs =>
      match a_append cf l r with
      | (Ok _, l') => a_rewrite cf l' rs
      | (Err e, l') => (Err e, l')
      | (Panic, l') => (Panic, l')
      end
  end.
Definition a_truncate (cf : Config) (offset : Z) (l : ALog) : outcome StorageError unit * ALog :=
  if next (al_chunks l) <? offset then (Err (UnexpectedOffset (next (al_chunks l)) offset), l)
  else if offset =? next (al_chunks l) then (Ok tt, l)
  else a_rewrite cf empty_log (kept l offset).

Fixpoint a_apply_retention (s : StorageSettings) (reached : PartitionKey -> string -> bool)
    (order : list PartitionKey) a : AWorker :=
  match order with
  | [] => a
  | k :: order =>
      let age := match ss_retention_age s with Some _ => Some (reached k) | None => None end in
      a_apply_retention s reached order
        (match aw_logs a !! k with
         | Some l => aw_set_log a k (a_retain (ss_retention_bytes s) age l)
         | None => a
         end)
  end.

Definition a_reply {A} (f : A -> StorageReply) (x : outcome StorageError A * AWorker)
  : outcome StorageError StorageReply * AWorker := a_bind x (fun v a => (Ok (f v), a)).

Definition a_run (s : StorageSettings) (env : Ambient) (c : StorageCommand) a
  : outcome StorageError StorageReply * AWorker :=
  match c with
  | CreateTopic topic n => a_reply TopicReply (a_create a topic n)
  | ListTopics => (Ok (TopicsReply (storage_topic_metadata (aw_topics a))), a)
  | Append input => a_reply AckReply (a_append_record s a input (am_clock env O))
  | AppendBatch input =>
      a_reply BatchReply
        (a_append_each s a (ba_topic input) (ba_partition input) (ba_records input) (am_clock env))
  | Read topic p o m => a_reply RecordsReply (a_read_records s a topic p o m)
  | Replicate r => a_reply OffsetReply (a_replicate s a r)
  | PartitionOffset topic p =>
      (match aw_logs a !! (topic, p) with
       | Some l => Ok (OffsetReply (next (al_chunks l)))
       | None => Err (UnknownPartition p)
       end, a)
  | Truncate topic p o =>
      a_reply (fun _ => UnitReply) (a_on a (topic, p) (UnknownPartition p) (a_truncate (cfg s) o))
  | Snapshot => (Ok (SnapshotReply (snapshot_logs (log_of (cfg s) <$> aw_logs a))), a)
  | ApplyRetention => (Ok UnitReply, a_apply_retention s (am_reached env) (am_order env) a)
  end.
End spec.

(* ------------------------------------------------------------------ *)
(** ** The representation                                               *)
(* ------------------------------------------------------------------ *)

Section represents.
Context `{!Crc32}.

Definition dir_at (cf : Config) (l : option ALog) : Dir :=
  match l with Some l => dir_of cf (al_chunks l) | None => ∅ end.
(** The directories of [data] are those of the logs, and no others. *)
Record dirs_of (cf : Config) (data : DataDir) (logs : gmap PartitionKey ALog) : Prop := {
  do_dir : forall t p, is_u32 p -> partition_dir data (t, p) = dir_at cf (logs !! (t, p));
  do_names : forall t name, is_Some (td_partitions (topic_dir_of data t) !! name) ->
    exists p, is_u32 p /\ name = show_uint p /\ is_Some (logs !! (t, p))
}.
(** Topic directories have topic names; names with [__] are the broker's own. *)
Definition topic_dirs (data : DataDir) : Prop :=
  forall t, is_Some (data !! t) -> is_str t /\ (starts_with "__" t = true \/ valid_topic t = true).

Record represents (s : StorageSettings) (w : Worker) (a : AWorker) : Prop := {
  rp_logs : wk_logs w = log_of (cfg s) <$> aw_logs a;
  rp_dirs : dirs_of (cfg s) (wk_data w) (aw_logs a);
  rp_data : topic_dirs (wk_data w);
  rp_topics : wk_topics w = aw_topics a;
  rp_counters : wk_round_robin w = aw_counters a
}.

Definition logs_ok (s : StorageSettings) (logs : gmap PartitionKey ALog) : Prop :=
  map_Forall (fun _ => a_inv (cfg s)) logs.
Record aworker_ok (s : StorageSettings) (a : AWorker) : Prop := {
  ao_logs : logs_ok s (aw_logs a);
  ao_topics : forall t n, aw_topics a !! t = Some n -> valid_topic t = true /\ 0 < n <= U32_MAX;
  ao_keys : forall t p, is_Some (aw_logs a !! (t, p)) <->
    exists n, aw_topics a !! t = Some n /\ 0 <= p < n;
  ao_counters : forall t c, aw_counters a !! t = Some c ->
    exists n, aw_topics a !! t = Some n /\ 0 <= c < n
}.

Definition settings_ok (s : StorageSettings) : Prop :=
  config_ok (cfg s) /\ 0 < ss_default_partition_count s <= U32_MAX.

(** What the types of a command guarantee. *)
Definition input_typed (i : AppendInput) : Prop :=
  (match ai_partition i with Some p => is_u32 p | None => True end) /\
  (match ai_producer i with Some p => is_u64 (producer_sequence p) | None => True end).
Definition command_typed (c : StorageCommand) : Prop :=
  match c with
  | CreateTopic _ n => is_u32 n
  | Append i => input_typed i
  | AppendBatch i => match ba_partition i with Some p => is_u32 p | None => True end
  | Read _ p _ _ | PartitionOffset _ p => is_u32 p
  | Replicate r => is_u32 (rr_partition r) /\ is_u64 (rr_offset r) /\ is_u64 (rr_timestamp_ms r)
  | Truncate _ p o => is_u32 p /\ is_u64 o
  | ListTopics | Snapshot | ApplyRetention => True
  end.
(** No log is about to run out of offsets. *)
Definition room (n : Z) (a : AWorker) : Prop :=
  n <= U64_MAX /\ map_Forall (fun _ l => next (al_chunks l) + n <= U64_MAX) (aw_logs a).
Definition demand (c : StorageCommand) : Z :=
  match c with
  | Append _ | Replicate _ => 1
  | AppendBatch i => Z.of_nat (length (ba_records i))
  | _ => 0
  end.
End represents.
