(* ===== verification/WorkerFacts.v ===== *)
(** * WorkerFacts: the storage worker does what [WorkerSpec] says, command by command. *)

From stdpp Require Import base numbers list strings gmap sorting.
From Stdlib Require Import ZArith Lia.
From S2P Require Import Prelude Text Files Runs Protocol Record RecordFacts Log LogRep LogFacts LogAppend LogRead LogOpen LogShrink Storage Worker WorkerSpec.

Section facts.
Context `{!Crc32} `{!Crc32Ok}.
Context (s : StorageSettings) (Hs : settings_ok s).

(* ------------------------------------------------------------------ *)
(** ** Refinement of a computation                                      *)
(* ------------------------------------------------------------------ *)

Definition refines {A} (r : outcome StorageError A * Worker) (x : outcome StorageError A * AWorker)
  : Prop := fst r = fst x /\ represents s (snd r) (snd x) /\ aworker_ok s (snd x).

Lemma refines_ret {A} (o : outcome StorageError A) w a :
  represents s w a -> aworker_ok s a -> refines (o, w) (o, a).
Proof. unfold refines. auto. Qed.

Lemma refines_bind {A B} (m : SM Worker StorageError A) (k : A -> SM Worker StorageError B) w x ka :
  refines (m w) x ->
  (forall v w' a', x = (Ok v, a') -> represents s w' a' -> aworker_ok s a' ->
     refines (k v w') (ka v a')) ->
  refines (bind m k w) (a_bind x ka).
Proof.
  unfold bind. intros (Ho & Hr & Hok) Hk. destruct x as [o a'], (m w) as [o' w']. cbn in *. subst o'.
  destruct o as [v|e|]; cbn; [by apply Hk|by apply refines_ret..].
Qed.

(** Computations that do not touch the state. *)
Lemma refines_pure {A B} (m : SM Worker StorageError A) (k : A -> SM Worker StorageError B) w v x :
  m w = (Ok v, w) -> refines (k v w) x -> refines (bind m k w) x.
Proof. intros Hm Hk. by erewrite bind_Ok. Qed.

(* ------------------------------------------------------------------ *)
(** ** The directory                                                    *)
(* ------------------------------------------------------------------ *)

Lemma topic_dir_of_insert data t t' d :
  topic_dir_of (<[t := d]> data) t' = if bool_decide (t = t') then d else topic_dir_of data t'.
Proof.
  unfold topic_dir_of. destruct (bool_decide_reflect (t = t')) as [->|].
  - by rewrite lookup_insert_eq.
  - by rewrite lookup_insert_ne.
Qed.

Lemma dirs_of_set cf data logs t p l :
  is_u32 p -> dirs_of cf data logs ->
  dirs_of cf (set_partition_dir data (t, p) (dir_of cf (al_chunks l))) (<[(t, p) := l]> logs).
Proof.
  intros Hp [Hd Hn]. split.
  - intros t' p' Hp'. unfold partition_dir, set_partition_dir. cbn [fst snd].
    rewrite topic_dir_of_insert. destruct (bool_decide_reflect (t = t')) as [->|Hne].
    + cbn [td_partitions]. destruct (decide (p = p')) as [->|Hpp].
      * by rewrite !lookup_insert_eq.
      * rewrite lookup_insert_ne by (intros E; apply show_uint_inj in E; [done|range..]).
        rewrite lookup_insert_ne by congruence. by apply Hd.
    + rewrite lookup_insert_ne by congruence. by apply Hd.
  - intros t' name. unfold set_partition_dir. cbn [fst snd]. rewrite topic_dir_of_insert.
    destruct (bool_decide_reflect (t = t')) as [->|Hne].
    + cbn [td_partitions]. destruct (decide (name = show_uint p)) as [->|Hnn].
      * intros _. exists p. rewrite lookup_insert_eq. eauto.
      * rewrite lookup_insert_ne by done. intros (q & ? & ? & ?)%Hn. exists q.
        split_and?; try done. by apply lookup_insert_is_Some'; right.
    + intros (q & ? & ? & ?)%Hn. exists q. split_and?; try done.
      by apply lookup_insert_is_Some'; right.
Qed.

Lemma dirs_of_meta cf data logs t n :
  dirs_of cf data logs -> dirs_of cf (persist_topic_metadata t n data) logs.
Proof.
  intros [Hd Hn]. unfold persist_topic_metadata. split.
  - intros t' p Hp. unfold partition_dir. cbn [fst snd]. rewrite topic_dir_of_insert.
    destruct (bool_decide_reflect (t = t')) as [->|]; by apply Hd.
  - intros t' name. rewrite topic_dir_of_insert.
    destruct (bool_decide_reflect (t = t')) as [->|]; by apply Hn.
Qed.

Lemma topic_dirs_insert data t d :
  valid_topic t = true -> topic_dirs data -> topic_dirs (<[t := d]> data).
Proof.
  intros Ht Hd t' [<-|?]%lookup_insert_is_Some'; [|by apply Hd]. split; [|by right].
  unfold valid_topic in Ht. apply negb_true_iff in Ht. rewrite !orb_false_iff in Ht.
  apply forallb_id_is_str, negb_false_iff. tauto.
Qed.

Lemma valid_topic_ok t : valid_topic t = true -> topic_name_ok t.
Proof. unfold valid_topic, topic_name_ok. by intros ?%negb_true_iff. Qed.
(* ------------------------------------------------------------------ *)
(** ** Logs                                                             *)
(* ------------------------------------------------------------------ *)

Lemma cfg_ok : config_ok (cfg s).
Proof. apply Hs. Qed.

Lemma aw_set_log_ok a k l l' :
  aworker_ok s a -> aw_logs a !! k = Some l -> a_inv (cfg s) l' -> aworker_ok s (aw_set_log a k l').
Proof.
  intros [Hl Ht Hk Hc] Hlk Hl'. split; cbn [aw_set_log aw_logs aw_topics aw_counters]; try done.
  - unfold logs_ok. by apply map_Forall_insert_2.
  - intros t p. rewrite <- Hk, lookup_insert_is_Some'. split; [|by right].
    intros [<-|]; [|done]. eauto.
Qed.

Lemma a_keys a t p l : aworker_ok s a -> aw_logs a !! (t, p) = Some l -> is_u32 p /\ valid_topic t = true.
Proof.
  intros [_ Ht Hk _] Hl. destruct (proj1 (Hk t p)) as (n & Hn & ?); [eauto|].
  apply Ht in Hn as [? ?]. split; [range|done].
Qed.

Lemma wk_log w a k : represents s w a -> wk_logs w !! k = log_of (cfg s) <$> aw_logs a !! k.
Proof. intros [-> _ _ _ _]. by rewrite lookup_fmap. Qed.

(** A log and its directory. *)
Lemma part_at w a t p l :
  represents s w a -> aworker_ok s a -> aw_logs a !! (t, p) = Some l ->
  {| pt_dir := partition_dir (wk_data w) (t, p); pt_log := log_of (cfg s) l |} = part_of (cfg s) l.
Proof.
  intros [_ [Hd _] _ _ _] Hok Hl. unfold part_of. destruct (a_keys a t p l Hok Hl) as [Hp _].
  by rewrite Hd, Hl by done.
Qed.

Lemma set_part_represents w a t p l' :
  represents s w a -> is_u32 p -> valid_topic t = true ->
  represents s (set_part w (t, p) (part_of (cfg s) l')) (aw_set_log a (t, p) l').
Proof.
  intros [Hlog Hd Ht' ? ?] Hp Ht.
  split; cbn [set_part set_logs set_data aw_set_log wk_data wk_logs wk_topics wk_round_robin
              aw_logs aw_topics aw_counters]; try done.
  - rewrite Hlog. by rewrite fmap_insert.
  - by apply dirs_of_set.
  - by apply topic_dirs_insert.
Qed.

(** A method of a log that keeps its representation and invariant. *)
Lemma on_log_refines {B} w a t p e (m : SM Part StorageError B) am :
  represents s w a -> aworker_ok s a ->
  (forall l, aw_logs a !! (t, p) = Some l -> a_inv (cfg s) l ->
     m (part_of (cfg s) l) = (let '(o, l') := am l in (o, part_of (cfg s) l')) /\
     a_inv (cfg s) (snd (am l))) ->
  refines (on_log (t, p) e m w) (a_on a (t, p) e am).
Proof.
  intros Hr Hok Hm. unfold on_log, a_on. rewrite (wk_log w a) by done.
  destruct (aw_logs a !! (t, p)) as [l|] eqn:Hl; [|by apply refines_ret].
  cbn [fmap option_fmap option_map]. rewrite (part_at w a) by done.
  destruct (Hm l eq_refl) as [-> Hinv]; [by apply (ao_logs _ _ Hok (t, p))|].
  destruct (am l) as [o l']. destruct (a_keys a t p l Hok Hl).
  apply refines_ret; [by apply set_part_represents|by eapply aw_set_log_ok].
Qed.

(** The log is only looked at. *)
Lemma on_log_read {B} w a t p e (m : SM Part StorageError B) l o :
  represents s w a -> aworker_ok s a -> aw_logs a !! (t, p) = Some l ->
  m (part_of (cfg s) l) = (o, part_of (cfg s) l) ->
  refines (on_log (t, p) e m w) (o, a).
Proof.
  intros Hr Hok Hl Hm.
  assert ((o, a) = a_on a (t, p) e (fun l => (o, l))) as ->.
  { unfold a_on. rewrite Hl. unfold aw_set_log. rewrite insert_id by done. by destruct a. }
  apply on_log_refines; [done..|]. intros l' Hl' ?. by simplify_eq.
Qed.
(* ------------------------------------------------------------------ *)
(** ** Topics                                                           *)
(* ------------------------------------------------------------------ *)

Lemma open_log_fresh w a t p :
  represents s w a -> is_u32 p -> valid_topic t = true -> aw_logs a !! (t, p) = None ->
  open_log s (t, p) w = (Ok tt, set_part w (t, p) (part_of (cfg s) empty_log)).
Proof.
  intros [_ [Hd _] _ _ _] Hp Ht Hnone. unfold open_log. rewrite Hd, Hnone by done. cbn [dir_at fst].
  pose proof cfg_ok as [Hmx Hiv]. cbn [cf_max_segment_bytes cf_index_interval_bytes cfg settings] in *.
  rewrite open_empty by (lia || by apply valid_topic_ok).
  rewrite bool_decide_eq_false_2; [done|]. intros Hd0.
  apply (f_equal (fun d : Dir => d !! log_name 0)) in Hd0. cbn [dir_of fst] in Hd0.
  by rewrite lookup_insert_eq in Hd0.
Qed.

Lemma open_log_invalid w a t p :
  represents s w a -> is_u32 p -> valid_topic t = false -> aw_logs a !! (t, p) = None ->
  open_log s (t, p) w = (Err SInvalidTopic, w).
Proof.
  intros [_ [Hd _] _ _ _] Hp Ht Hnone. unfold open_log. rewrite Hd, Hnone by done. cbn [dir_at fst].
  unfold open, storage_validate_topic. unfold valid_topic in Ht. apply negb_false_iff in Ht. rewrite Ht.
  erewrite bind_Err by done. rewrite bool_decide_eq_true_2 by done. by destruct w.
Qed.

Definition logs_for (t : string) (ps : list Z) : gmap PartitionKey ALog :=
  list_to_map ((fun p => ((t, p), empty_log)) <$> ps).

Lemma logs_for_lookup t ps t' p :
  logs_for t ps !! (t', p) = if bool_decide (t = t' /\ p ∈ ps) then Some empty_log else None.
Proof.
  induction ps as [|q ps IH]; unfold logs_for in *; cbn [fmap list_fmap list_to_map foldr fst snd].
  { rewrite lookup_empty. case_bool_decide as Hb; [|done]. by destruct Hb as [_ ?%elem_of_nil]. }
  destruct (decide ((t, q) = (t', p))) as [[= -> ->]|Hne].
  - rewrite lookup_insert_eq, bool_decide_eq_true_2; [done|]. split; [done|by left].
  - rewrite lookup_insert_ne, IH by done.
    rewrite (bool_decide_ext (t = t' /\ p ∈ q :: ps) (t = t' /\ p ∈ ps)); [done|].
    rewrite elem_of_cons. split; intros [-> ?]; intuition congruence.
Qed.
Lemma open_vacant_loop w a t ps :
  represents s w a -> Forall (fun p => is_u32 p /\ aw_logs a !! (t, p) = None) ps -> NoDup ps ->
  valid_topic t = true ->
  exists w', for_each ps (fun p => open_vacant s (t, p)) w = (Ok tt, w') /\
    represents s w' {| aw_logs := logs_for t ps ∪ aw_logs a; aw_topics := aw_topics a;
                       aw_counters := aw_counters a |}.
Proof.
  intros Hr HF Hnd Ht. revert w a Hr HF. induction Hnd as [|p ps Hp Hnd IH]; intros w a Hr HF.
  { exists w. split; [done|]. unfold logs_for. cbn [fmap list_fmap list_to_map foldr].
    rewrite (left_id_L ∅ union). by destruct a. }
  apply Forall_cons in HF as [[Hu Hnone] HF]. cbn [for_each].
  pose proof (set_part_represents w a t p empty_log Hr Hu Ht) as Hr'.
  destruct (IH _ _ Hr') as (w' & Hrun & Hrep).
  { apply Forall_forall. intros q Hq. apply (proj1 (Forall_forall _ _) HF) in Hq as Hnq.
    cbn [aw_set_log aw_logs]. by rewrite lookup_insert_ne by congruence. }
  exists w'. split.
  - erewrite bind_Ok; [exact Hrun|]. unfold open_vacant. erewrite bind_Ok by done. cbv beta.
    rewrite (wk_log w a), Hnone by done. by eapply open_log_fresh.
  - replace (logs_for t (p :: ps) ∪ aw_logs a) with (logs_for t ps ∪ <[(t, p) := empty_log]> (aw_logs a));
      [exact Hrep|].
    unfold logs_for. cbn [fmap list_fmap list_to_map foldr fst snd]. fold (logs_for t ps).
    rewrite <- insert_union_l. symmetry. apply insert_union_r.
    rewrite logs_for_lookup. by rewrite bool_decide_eq_false_2 by tauto.
Qed.

Lemma new_logs_lookup t n t' p :
  new_logs t n !! (t', p) = if bool_decide (t = t' /\ 0 <= p < n) then Some empty_log else None.
Proof.
  unfold new_logs. fold (logs_for t (seqZ 0 n)). rewrite logs_for_lookup.
  erewrite bool_decide_ext; [done|]. rewrite elem_of_seqZ. intuition lia.
Qed.

Lemma create_ok a t n :
  aworker_ok s a -> is_u32 n -> n <> 0 -> valid_topic t = true -> aw_topics a !! t = None ->
  aworker_ok s {| aw_logs := aw_logs a ∪ new_logs t n; aw_topics := <[t := n]> (aw_topics a);
                  aw_counters := aw_counters a |}.
Proof.
  intros [Hl Ht Hk Hc] Hn Hn0 Hv Hnone. split; cbn [aw_logs aw_topics aw_counters].
  - apply map_Forall_union_2; [done|]. intros [t' p] l. rewrite new_logs_lookup.
    case_bool_decide; intros [= <-]. apply inv_empty.
  - intros t' n'. destruct (decide (t = t')) as [<-|].
    + rewrite lookup_insert_eq. intros [= <-]. split; [done|range].
    + rewrite lookup_insert_ne by done. apply Ht.
  - intros t' p. rewrite lookup_union_is_Some, new_logs_lookup, Hk.
    destruct (decide (t = t')) as [<-|].
    + rewrite lookup_insert_eq. case_bool_decide as Hb.
      * split; [|by eauto]. intros _. exists n. tauto.
      * split; [intros [(? & ? & _)|[]]; [congruence|done]|]. intros (? & [= <-] & ?). tauto.
    + rewrite lookup_insert_ne by done. rewrite bool_decide_eq_false_2 by tauto.
      split; [intros [?|[]]|]; eauto || done.
  - intros t' c (n' & ? & ?)%Hc. exists n'. rewrite lookup_insert_ne by congruence. done.
Qed.

Lemma create_topic_refines w a t n :
  represents s w a -> aworker_ok s a -> is_u32 n ->
  refines (create_topic s t n w) (a_create a t n).
Proof.
  intros Hr Hok Hn. unfold create_topic, a_create.
  destruct (Z.eqb_spec n 0) as [|Hn0]; [by apply refines_ret|].
  eapply refines_pure; [done|]. cbv beta. eapply refines_pure; [done|]. cbv beta.
  rewrite (rp_topics _ _ _ Hr). case_bool_decide as Hex; [by apply refines_ret|].
  eapply refines_pure; [done|]. cbv beta.
  assert (aw_topics a !! t = None) as Hnt by by apply eq_None_not_Some.
  assert (forall p, aw_logs a !! (t, p) = None) as Hnl.
  { intros p. apply eq_None_not_Some. rewrite (ao_keys _ _ Hok). intros (? & ? & _). congruence. }
  destruct (valid_topic t) eqn:Ht; cbn [negb].
  - edestruct (open_vacant_loop w a t (seqZ 0 n)) as (w' & Hrun & Hrep); [done| |apply NoDup_seqZ|done|].
    { apply Forall_forall. intros p ?%elem_of_seqZ. split; [range|done]. }
    erewrite bind_Ok by exact Hrun. cbv beta.
    fold (new_logs t n) in Hrep. unfold logs_for in Hrep. fold (new_logs t n) in Hrep.
    rewrite map_union_comm in Hrep.
    2:{ apply map_disjoint_spec. intros [t' p] l l'. rewrite new_logs_lookup.
        case_bool_decide as Hb; [|done]. destruct Hb as [<- _]. by rewrite Hnl. }
    destruct Hrep as [Hl Hd Hdt Htt Hc]. cbn [aw_logs aw_topics aw_counters] in *.
    set (data := persist_topic_metadata t n (wk_data w')).
    change (refines (Ok (metadata_of t n),
                     set_topics (set_data w' data) (<[t := n]> (wk_topics (set_data w' data))))
              (Ok (metadata_of t n),
               {| aw_logs := aw_logs a ∪ new_logs t n; aw_topics := <[t := n]> (aw_topics a);
                  aw_counters := aw_counters a |})).
    apply refines_ret.
    + split; cbn [set_data set_topics wk_data wk_logs wk_topics wk_round_robin
                  aw_logs aw_topics aw_counters]; [done|by apply dirs_of_meta| |by rewrite Htt|done].
      by apply topic_dirs_insert.
    + by apply create_ok.
  - assert (seqZ 0 n = 0 :: seqZ 1 (n - 1)) as -> by by rewrite seqZ_cons by range.
    cbn [for_each]. rewrite bind_assoc.
    erewrite bind_Err; [by apply refines_ret|]. unfold open_vacant. erewrite bind_Ok by done. cbv beta.
    rewrite (wk_log w a), Hnl by done. by eapply open_log_invalid.
Qed.
Lemma ensure_topic_refines w a t :
  represents s w a -> aworker_ok s a -> refines (ensure_topic s t w) (a_ensure s a t).
Proof.
  intros Hr Hok. unfold ensure_topic, a_ensure. eapply refines_pure; [done|]. cbv beta.
  rewrite (rp_topics _ _ _ Hr). destruct (aw_topics a !! t) as [n|]; [by apply refines_ret|].
  destruct (ss_auto_create_topics s); cbn [negb]; [|by apply refines_ret].
  eapply refines_pure; [done|]. cbv beta. destruct Hs as [_ [? ?]].
  destruct (create_topic_refines w a t (ss_default_partition_count s)) as (Ho & Hr' & Hok');
    [done..|range|].
  destruct (a_create a t _) as [o a'] eqn:Ha, (create_topic s t _ w) as [o' w'] eqn:Hw.
  cbn [fst snd] in *. subst o'. destruct o as [m|e|].
  - erewrite bind_Ok by exact Hw. cbv beta.
    assert (tm_partitions m = ss_default_partition_count s) as ->; [|by apply refines_ret].
    revert Ha. unfold a_create. repeat (case_match; try done). by intros [= <- _].
  - erewrite bind_Err by exact Hw. by apply refines_ret.
  - unfold bind. rewrite Hw. by apply refines_ret.
Qed.

(** The topic exists afterwards. *)
Lemma a_ensure_count a t n a' :
  a_ensure s a t = (Ok n, a') -> aw_topics a' !! t = Some n.
Proof.
  unfold a_ensure. destruct (aw_topics a !! t) as [m|] eqn:Hm; [by intros [= -> <-]|].
  destruct (ss_auto_create_topics s); [|done].
  destruct (a_create a t _) as [[m| |] a''] eqn:Ha; intros [= <- <-].
  revert Ha. unfold a_create. repeat (case_match; try done). intros [= _ <-].
  cbn [aw_topics]. apply lookup_insert_eq.
Qed.

(* ------------------------------------------------------------------ *)
(** ** Appending                                                        *)
(* ------------------------------------------------------------------ *)

Lemma aw_counters_ok a t n c :
  aworker_ok s a -> aw_topics a !! t = Some n -> 0 <= c < n ->
  aworker_ok s {| aw_logs := aw_logs a; aw_topics := aw_topics a;
                  aw_counters := <[t := c]> (aw_counters a) |}.
Proof.
  intros [Hl Ht Hk Hc] Hn Hr. split; cbn [aw_logs aw_topics aw_counters]; try done.
  intros t' c'. destruct (decide (t = t')) as [<-|].
  - rewrite lookup_insert_eq. intros [= <-]. eauto.
  - rewrite lookup_insert_ne by done. apply Hc.
Qed.

Lemma a_choose_range a input n p a' :
  aworker_ok s a -> input_typed input -> aw_topics a !! ai_topic input = Some n ->
  a_choose a input n = (Ok p, a') -> 0 <= p < n.
Proof.
  intros Hok [Hp _] Hn. apply (ao_topics _ _ Hok) in Hn as H2n. destruct H2n as [_ [Hn0 _]].
  unfold a_choose. destruct (ai_partition input) as [q|].
  - destruct (Z.leb_spec n q); [done|]. intros [= <- _]. range.
  - destruct (routing_key _ _); intros [= <- _]; [by apply Z.mod_pos_bound|].
    destruct (aw_counters a !! ai_topic input) as [c|] eqn:Hc; cbn [default from_option id]; [|lia].
    apply (ao_counters _ _ Hok) in Hc as (n' & Hn' & ?). simplify_eq. lia.
Qed.

Lemma choose_refines w a input n :
  represents s w a -> aworker_ok s a -> input_typed input ->
  aw_topics a !! ai_topic input = Some n ->
  refines (choose_partition input n w) (a_choose a input n).
Proof.
  intros Hr Hok Hi Hn. unfold choose_partition, a_choose.
  destruct (ai_partition input) as [q|].
  - destruct (n <=? q) eqn:E; by apply refines_ret.
  - destruct (routing_key _ _) as [key|]; [by apply refines_ret|]. cbn [select_partition].
    destruct Hr as [? ? ? ? Hrr]. unfold select_partition. eapply refines_pure; [done|]. cbv beta zeta.
    rewrite Hrr. apply refines_ret; [|].
    + split; cbn [set_round_robin wk_data wk_logs wk_topics wk_round_robin aw_logs aw_topics
                  aw_counters]; done.
    + eapply aw_counters_ok; [done..|]. apply Z.mod_pos_bound.
      by apply (ao_topics _ _ Hok) in Hn as [_ [? _]].
Qed.
Lemma timestamp_run {S} now (st : S) :
  timestamp_ms now st = (if valid_time now then Ok now else Err InvalidTimestamp, st).
Proof.
  unfold timestamp_ms, valid_time. destruct (Z.ltb_spec now 0), (Z.leb_spec 0 now); try lia.
  - by erewrite bind_Err.
  - erewrite bind_Ok by done. unfold try_from. cbn [andb]. by destruct (now <=? U64_MAX).
Qed.

Lemma input_record_typed input now :
  input_typed input -> valid_time now = true -> record_typed (input_record input now).
Proof. unfold valid_time. intros [_ ?] [? ?]%andb_true_iff. split; [cbn; range|done]. Qed.

Lemma append_at_run input now l :
  input_typed input -> a_inv (cfg s) l -> next (al_chunks l) < U64_MAX ->
  (timestamp <- timestamp_ms now ;; append (input_record input timestamp)) (part_of (cfg s) l) =
  (let '(o, l') := a_append_at (cfg s) input now l in (o, part_of (cfg s) l')) /\
  a_inv (cfg s) (snd (a_append_at (cfg s) input now l)).
Proof.
  intros Hi Hinv Hn. unfold a_append_at. pose proof (timestamp_run now (part_of (cfg s) l)) as Ht.
  destruct (valid_time now) eqn:Hv.
  - pose proof (input_record_typed input now Hi Hv) as Hrt.
    split; [|by apply a_append_inv]. erewrite bind_Ok by exact Ht.
    destruct Hinv as (? & ? & ?). by apply append_spec; [apply cfg_ok|..].
  - split; [|done]. by erewrite bind_Err by exact Ht.
Qed.

(** How many more offsets the logs can give. *)
Lemma room_log n a k l : room n a -> aw_logs a !! k = Some l -> next (al_chunks l) + n <= U64_MAX.
Proof. intros [_ Hr] Hl. by apply (Hr k). Qed.

Lemma room_ensure n a t : room n a -> room n (snd (a_ensure s a t)).
Proof.
  intros [Hn Hr]. unfold a_ensure, a_create. repeat (case_match; simplify_eq; try done).
  split; [done|]. cbn [snd aw_logs]. apply map_Forall_union_2; [done|].
  intros [t' p] l Hl. rewrite new_logs_lookup in Hl. destruct (bool_decide (t = _ /\ _)); [|done].
  injection Hl as <-. change (next (al_chunks empty_log)) with 0. lia.
Qed.

Lemma room_choose n a input c : room n a -> room n (snd (a_choose a input c)).
Proof. intros Hr. unfold a_choose. by repeat case_match. Qed.

Lemma room_weaken n m a : room n a -> 0 <= m <= n -> room m a.
Proof.
  intros [Hn Hr] ?. split; [lia|]. eapply map_Forall_impl; [exact Hr|]. cbn. intros. lia.
Qed.

Lemma room_set n m a k l l' :
  room n a -> 0 <= m <= n -> aw_logs a !! k = Some l ->
  next (al_chunks l') + m <= next (al_chunks l) + n -> room m (aw_set_log a k l').
Proof.
  intros Hr Hm Hl Hl'. pose proof (room_log n a k l Hr Hl).
  destruct (room_weaken n m a Hr Hm) as [? Hf]. split; [done|].
  apply map_Forall_insert_2; [lia|done].
Qed.

Lemma next_append l r :
  next (al_chunks (snd (a_append (cfg s) l r))) <= next (al_chunks l) + 1.
Proof.
  destruct (a_append_cases (cfg s) l r) as [->|(-> & _)]; [lia|].
  cbn [snd a_push al_chunks]. destruct (decide (al_chunks l = [])) as [->|].
  - cbn. lia.
  - rewrite next_push by done. lia.
Qed.
Lemma next_append_at input now l :
  next (al_chunks (snd (a_append_at (cfg s) input now l))) <= next (al_chunks l) + 1.
Proof. unfold a_append_at. destruct (valid_time now); [apply next_append|cbn; lia]. Qed.

Lemma append_record_refines w a input now :
  represents s w a -> aworker_ok s a -> input_typed input -> room 1 a ->
  refines (append_record s input now w) (a_append_record s a input now).
Proof.
  intros Hr Hok Hi Hroom. unfold append_record, a_append_record.
  apply refines_bind; [by apply ensure_topic_refines|]. intros n w1 a1 Hens Hr1 Hok1.
  pose proof (a_ensure_count _ _ _ _ Hens) as Hn.
  pose proof (room_ensure 1 a (ai_topic input) Hroom) as Hroom1. rewrite Hens in Hroom1.
  apply refines_bind; [by apply choose_refines|]. intros p w2 a2 Hch Hr2 Hok2.
  pose proof (room_choose 1 a1 input n Hroom1) as Hroom2. rewrite Hch in Hroom2.
  apply refines_bind; [|intros; by apply refines_ret].
  apply on_log_refines; [done..|]. intros l Hl Hinv. apply append_at_run; [done..|].
  pose proof (room_log 1 a2 _ l Hroom2 Hl). lia.
Qed.

Lemma room_append n a input now :
  0 <= n -> room (n + 1) a -> room n (snd (a_append_record s a input now)).
Proof.
  intros Hn Hr. unfold a_append_record.
  pose proof (room_ensure (n + 1) a (ai_topic input) Hr) as H1.
  destruct (a_ensure s a (ai_topic input)) as [[c|e|] a1] eqn:E1; cbn [a_bind snd] in *;
    [|by apply (room_weaken (n + 1)); [|lia]..].
  pose proof (room_choose (n + 1) a1 input c H1) as H2.
  destruct (a_choose a1 input c) as [[p|e|] a2] eqn:E2; cbn [a_bind snd] in *;
    [|by apply (room_weaken (n + 1)); [|lia]..].
  unfold a_on. destruct (aw_logs a2 !! (ai_topic input, p)) as [l|] eqn:Hl;
    [|by apply (room_weaken (n + 1)); [|lia]].
  pose proof (next_append_at input now l).
  assert (room n (aw_set_log a2 (ai_topic input, p) (snd (a_append_at (cfg s) input now l)))) as Hset
    by (eapply (room_set (n + 1)); [done|lia|done|lia]).
  by destruct (a_append_at (cfg s) input now l) as [[] l'].
Qed.

Lemma append_each_refines w a t q rs clock :
  represents s w a -> aworker_ok s a -> match q with Some p => is_u32 p | None => True end ->
  room (Z.of_nat (length rs)) a ->
  refines (append_each s t q rs clock w) (a_append_each s a t q rs clock).
Proof.
  intros Hr Hok Hq. revert w a clock Hr Hok. induction rs as [|r rs IH]; intros w a clock Hr Hok Hroom;
    [by apply refines_ret|]. cbn [append_each a_append_each length] in *.
  assert (room (Z.of_nat (length rs) + 1) a) as Hroom' by (eapply room_weaken; [done|lia]).
  apply refines_bind.
  { apply append_record_refines; [done..|by split|]. eapply room_weaken; [done|lia]. }
  intros ack w1 a1 Hack Hr1 Hok1.
  pose proof (room_append (Z.of_nat (length rs)) a (batch_input t q r) (clock O)) as Hroom1.
  rewrite Hack in Hroom1. apply refines_bind; [|intros; by apply refines_ret].
  apply IH; try done. apply Hroom1; [lia|done].
Qed.
(** Logs are only added. *)
Definition grows a a' : Prop := forall k, is_Some (aw_logs a !! k) -> is_Some (aw_logs a' !! k).

Lemma grows_ensure a t : grows a (snd (a_ensure s a t)).
Proof.
  intros k Hk. unfold a_ensure, a_create. repeat (case_match; simplify_eq; try done).
  cbn [snd aw_logs]. apply lookup_union_is_Some. by left.
Qed.
Lemma grows_choose a input n : grows a (snd (a_choose a input n)).
Proof. intros k Hk. unfold a_choose. by repeat case_match. Qed.
Lemma grows_on {A} a k e (m : ALog -> outcome StorageError A * ALog) : grows a (snd (a_on a k e m)).
Proof.
  intros k' Hk. unfold a_on. destruct (aw_logs a !! k) as [l|]; [|done]. destruct (m l).
  apply lookup_insert_is_Some'. by right.
Qed.
Lemma grows_bind {A B} x (ka : A -> AWorker -> outcome StorageError B * AWorker) a :
  grows a (snd x) -> (forall v a', x = (Ok v, a') -> grows a' (snd (ka v a'))) ->
  grows a (snd (a_bind x ka)).
Proof.
  destruct x as [[v|e|] a']; cbn [snd a_bind]; try done. intros Ha Hk k ?. by eapply Hk, Ha.
Qed.

Lemma grows_append a input now :
  grows a (snd (a_append_record s a input now)).
Proof.
  unfold a_append_record. apply grows_bind; [apply grows_ensure|]. intros n a1 _.
  apply grows_bind; [apply grows_choose|]. intros p a2 _. apply grows_bind; [apply grows_on|]. by intros ? ? _ ? ?.
Qed.

Lemma append_ack a input now ack a' :
  a_append_record s a input now = (Ok ack, a') ->
  is_Some (aw_logs a' !! (ai_topic input, pa_partition ack)).
Proof.
  unfold a_append_record. destruct (a_ensure s a _) as [[n|e|] a1]; try done. cbn [a_bind].
  destruct (a_choose a1 input n) as [[p|e|] a2]; try done. cbn [a_bind]. unfold a_on.
  destruct (aw_logs a2 !! _) as [l|]; [|done].
  destruct (a_append_at _ _ _ _) as [[o| |] l']; try done. cbn [a_bind]. intros [= <- <-].
  cbn. rewrite lookup_insert_eq. eauto.
Qed.

Lemma append_each_acks a t q rs clock acks a' :
  a_append_each s a t q rs clock = (Ok acks, a') ->
  grows a a' /\ Forall (fun ack => is_Some (aw_logs a' !! (t, pa_partition ack))) acks.
Proof.
  revert a clock acks. induction rs as [|r rs IH]; intros a clock acks;
    [intros [= <- <-]; split; [by intros k|constructor]|].
  cbn [a_append_each]. destruct (a_append_record s a _ _) as [[ack|e|] a1] eqn:E; try done. cbn [a_bind].
  pose proof (grows_append a (batch_input t q r) (clock O)) as Hg. rewrite E in Hg.
  destruct (a_append_each s a1 _ _ _ _) as [[acks'|e|] a2] eqn:E2; try done. cbn [a_bind].
  intros [= <- <-]. destruct (IH _ _ _ E2) as [Hg2 Hf]. split; [intros k ?; by apply Hg2, Hg|].
  constructor; [|done]. apply Hg2. exact (append_ack _ _ _ _ _ E).
Qed.

Lemma sync_refines w a t ps :
  represents s w a -> aworker_ok s a -> Forall (fun p => is_Some (aw_logs a !! (t, p))) ps ->
  refines (for_each ps (fun p => on_log (t, p) SInvalidTopic (ret tt)) w) (Ok tt, a).
Proof.
  intros Hr Hok HF. revert w Hr. induction HF as [|p ps [l Hl] _ IH]; intros w Hr; [by apply refines_ret|].
  cbn [for_each]. apply (refines_bind _ _ w (Ok tt, a) (fun _ a => (Ok tt, a))).
  - by eapply on_log_read.
  - intros [] w' a' [= <-] Hr' _. by apply IH.
Qed.

Lemma append_batch_refines w a input clock :
  represents s w a -> aworker_ok s a ->
  match ba_partition input with Some p => is_u32 p | None => True end ->
  room (Z.of_nat (length (ba_records input))) a ->
  refines (append_batch_records s input clock w)
          (a_append_each s a (ba_topic input) (ba_partition input) (ba_records input) clock).
Proof.
  intros Hr Hok Hq Hroom. unfold append_batch_records.
  pose proof (append_each_refines w a (ba_topic input) _ _ clock Hr Hok Hq Hroom) as (Ho & Hr' & Hok').
  destruct (a_append_each _ _ _ _ _ _) as [o a'] eqn:E, (append_each _ _ _ _ _ w) as [o' w'] eqn:Ew.
  cbn [fst snd] in *. subst o'. destruct o as [acks|e|];
    [|by erewrite bind_Err by exact Ew; apply refines_ret|by unfold bind; rewrite Ew; apply refines_ret].
  erewrite bind_Ok by exact Ew. cbv beta. apply append_each_acks in E as [_ Hf].
  destruct (ba_ack_mode input); [by apply refines_ret|].
  apply (refines_bind _ _ w' (Ok tt, a') (fun _ a => (Ok acks, a))); [|intros [] ? ? [= <-] ? ?; by apply refines_ret].
  apply sync_refines; [done..|]. rewrite merge_sort_Permutation. apply Forall_forall.
  intros p (ack & -> & Hack)%elem_of_remove_dups%list_elem_of_fmap.
  by apply (proj1 (Forall_forall _ _) Hf).
Qed.
(* ------------------------------------------------------------------ *)
(** ** The other commands                                               *)
(* ------------------------------------------------------------------ *)

Lemma read_records_refines w a t p o m :
  represents s w a -> aworker_ok s a -> is_u32 p ->
  refines (read_records s t p o m w) (a_read_records s a t p o m).
Proof.
  intros Hr Hok Hp. unfold read_records, a_read_records.
  apply refines_bind; [by apply ensure_topic_refines|]. intros n w1 a1 Hens Hr1 Hok1.
  apply a_ensure_count in Hens. eapply refines_pure; [done|]. cbv beta.
  rewrite (wk_log w1 a1) by done. destruct (aw_logs a1 !! (t, p)) as [l|] eqn:Hl.
  - eapply refines_pure; [done|]. cbv beta. pose proof (ao_logs _ _ Hok1 _ _ Hl) as [Hwf _].
    assert (refines (on_log (t, p) SInvalidTopic (read o m) w1) (a_read l o m, a1)) as Hread
      by (eapply on_log_read; [done..|by apply read_spec]).
    unfold a_read in *. destruct (m =? 0); match type of Hread with refines _ ?x =>
      apply (refines_bind _ _ w1 x (fun rs a => (Ok (fetched <$> rs), a))) end;
      [exact Hread|intros; by apply refines_ret|exact Hread|intros; by apply refines_ret].
  - assert (n <= p) as Hle.
    { destruct (Z.le_gt_cases n p); [done|]. exfalso.
      assert (is_Some (aw_logs a1 !! (t, p))) as [? ?]; [|congruence].
      apply (ao_keys _ _ Hok1). exists n. split; [done|range]. }
    apply Z.leb_le in Hle. erewrite bind_Err; [by apply refines_ret|].
    cbn [fmap option_fmap option_map]. rewrite Hle. by erewrite bind_Err.
Qed.

Lemma replicate_refines w a r :
  represents s w a -> aworker_ok s a -> command_typed (Replicate r) ->
  (forall l, aw_logs a !! (rr_topic r, rr_partition r) = Some l -> next (al_chunks l) < U64_MAX) ->
  refines (worker_append_replica r w) (a_replicate s a r).
Proof.
  intros Hr Hok (Hp & Ho & Ht) Hroom. unfold worker_append_replica, a_replicate.
  eapply refines_pure; [done|]. cbv beta. rewrite (rp_topics _ _ _ Hr).
  destruct (aw_topics a !! rr_topic r) as [n|] eqn:Hn; [|by apply refines_ret].
  eapply refines_pure; [done|]. cbv beta. destruct (n <=? rr_partition r); [by apply refines_ret|].
  eapply refines_pure; [done|]. cbv beta. apply on_log_refines; [done..|]. intros l Hl Hinv.
  pose proof (Hroom l Hl).
  assert (record_typed (replica_record r)) as Hrt by (split; [done|exact I]).
  pose proof (append_replica_spec (cfg s) l (rr_offset r) (replica_record r) cfg_ok Hinv Hrt) as Hrun.
  assert (a_inv (cfg s) (snd (a_append_replica (cfg s) l (rr_offset r) (replica_record r)))) as Hi.
  { apply a_append_replica_result; try done; range. }
  destruct (a_append_replica _ _ _ _) as [[v|e|] l'] eqn:E; (split; [|done]);
    [erewrite bind_Ok by (apply Hrun; done || range); done
    |erewrite bind_Err by (apply Hrun; done || range); done
    |unfold bind; by rewrite Hrun by (done || range)].
Qed.

Lemma rewrite_run l o rs :
  a_inv (cfg s) l -> Forall record_ok rs -> next (al_chunks l) + clen rs <= U64_MAX ->
  for_each (stored_of <$> number o rs)
    (fun r => _o <- append (record_of_stored r) ;; ret tt) (part_of (cfg s) l) =
  (let '(o, l') := a_rewrite (cfg s) l rs in (o, part_of (cfg s) l')) /\
  a_inv (cfg s) (snd (a_rewrite (cfg s) l rs)).
Proof.
  intros Hinv HF. revert l o Hinv. induction HF as [|r rs Hr HF IH]; intros l o Hinv Hn; [done|].
  rewrite clen_cons in Hn. pose proof (clen_nonneg rs). apply record_ok_typed in Hr as Hrt.
  cbn [number fmap list_fmap for_each a_rewrite]. rewrite bind_assoc, record_of_stored_of. cbn [snd].
  destruct (a_append_inv (cfg s) l r) as [Hinv' _]; [done..|lia|].
  pose proof (next_append l r) as Hgrow. destruct Hinv as (? & ? & ?).
  pose proof (append_spec (cfg s) l r cfg_ok) as Hrun.
  destruct (a_append (cfg s) l r) as [[v|e|] l'] eqn:E; cbn [snd] in *.
  - erewrite bind_Ok by (apply Hrun; done || lia). cbv beta. rewrite bind_ret_l.
    apply IH; [done|lia].
  - split; [|done]. by erewrite bind_Err by (apply Hrun; done || lia).
  - split; [|done]. unfold bind. by rewrite Hrun by (done || lia).
Qed.

Lemma truncate_run l offset :
  a_inv (cfg s) l -> 0 <= offset ->
  truncate_to offset (part_of (cfg s) l) =
  (let '(o, l') := a_truncate (cfg s) offset l in (o, part_of (cfg s) l')) /\
  a_inv (cfg s) (snd (a_truncate (cfg s) offset l)).
Proof.
  intros Hinv Ho. pose proof Hinv as (Hwf & _). pose proof Hwf as (_ & Hlo & Hhi & _ & HF).
  unfold a_truncate. destruct (Z.ltb_spec (next (al_chunks l)) offset) as [Hlt|];
    [|destruct (Z.eqb_spec offset (next (al_chunks l))) as [->|]].
  - split; [|done]. unfold truncate_to. erewrite bind_Ok by apply log_get_run. cbv beta.
    cbn [pt_log part_of log_of lg_next_offset]. by rewrite (proj2 (Z.ltb_lt _ _) Hlt).
  - split; [|done]. unfold truncate_to. erewrite bind_Ok by apply log_get_run. cbv beta.
    cbn [pt_log part_of log_of lg_next_offset]. by rewrite Z.ltb_irrefl, Z.eqb_refl.
  - rewrite truncate_steps by (done || lia). apply rewrite_run; [apply inv_empty|by apply Forall_take|].
    change (next (al_chunks empty_log)) with 0. unfold next, clen, kept in *. rewrite length_take. lia.
Qed.

(** Retention of one log, with the number of segments it removes. *)
Lemma retention_step_refines w a k age :
  represents s w a -> aworker_ok s a ->
  refines (on_log k SInvalidTopic (apply_retention (ss_retention_bytes s) age) w)
    (a_on a k SInvalidTopic (fun l =>
      let l' := a_retain (ss_retention_bytes s) age l in (Ok (seg_count (al_chunks l) - seg_count (al_chunks l')), l'))).
Proof.
  intros Hr Hok. destruct k as [t p]. apply on_log_refines; [done..|]. intros l _ Hinv.
  split; [|by apply retained_inv]. destruct Hinv. by apply apply_retention_spec.
Qed.
Lemma apply_retention_refines w a reached order :
  represents s w a -> aworker_ok s a ->
  refines (worker_apply_retention s reached order w) (Ok tt, a_apply_retention s reached order a).
Proof.
  intros Hr Hok. unfold worker_apply_retention. revert w a Hr Hok.
  induction order as [|k order IH]; intros w a Hr Hok; [by apply refines_ret|].
  cbn [for_each a_apply_retention].
  set (age := match ss_retention_age s with Some _ => Some (reached k) | None => None end).
  destruct (retention_step_refines w a k age Hr Hok) as (Ho & Hr' & Hok').
  unfold a_on in *. destruct (on_log k SInvalidTopic _ w) as [o w'] eqn:E.
  destruct (aw_logs a !! k) as [l|]; cbn [fst snd] in *; subst o;
    (erewrite bind_Ok by (rewrite E; reflexivity)); by apply IH.
Qed.
Lemma reply_refines {A} (m : SM Worker StorageError A) (f : A -> StorageReply) w x :
  refines (m w) x -> refines ((v <- m ;; ret (f v)) w) (a_reply f x).
Proof. intros Hm. apply refines_bind; [done|]. intros. by apply refines_ret. Qed.

Lemma run_command_refines w a env c :
  represents s w a -> aworker_ok s a -> command_typed c -> room (demand c) a ->
  refines (run_command s env c w) (a_run s env c a).
Proof.
  intros Hr Hok Hc Hroom. destruct c; cbn [run_command a_run command_typed demand] in *.
  - apply reply_refines. by apply create_topic_refines.
  - rewrite <- (rp_topics _ _ _ Hr). by apply refines_ret.
  - apply reply_refines. by apply append_record_refines.
  - apply reply_refines. by apply append_batch_refines.
  - apply reply_refines. by apply read_records_refines.
  - apply reply_refines. apply replicate_refines; [done..|]. intros l Hl.
    pose proof (room_log 1 a _ l Hroom Hl). lia.
  - unfold partition_offset. rewrite bind_assoc. eapply refines_pure; [done|]. cbv beta.
    rewrite (wk_log w a) by done.
    destruct (aw_logs a !! _) as [l|]; cbn [fmap option_fmap option_map]; by apply refines_ret.
  - apply (reply_refines _ (fun _ => UnitReply)). destruct Hc as [? [? ?]].
    apply on_log_refines; [done..|]. intros l _ Hinv. by apply truncate_run.
  - rewrite <- (rp_logs _ _ _ Hr). by apply refines_ret.
  - pose proof (apply_retention_refines w a (am_reached env) (am_order env) Hr Hok) as Hret.
    by apply (reply_refines _ (fun _ => UnitReply)) in Hret.
Qed.

(** No command panics. *)
Lemma a_append_total cf l r : fst (a_append cf l r) <> Panic.
Proof. unfold a_append. by repeat case_match. Qed.
Lemma total_bind {A B} x (ka : A -> AWorker -> outcome StorageError B * AWorker) :
  fst x <> Panic -> (forall v a', fst (ka v a') <> Panic) -> fst (a_bind x ka) <> Panic.
Proof. destruct x as [[]]; cbn [a_bind fst]; auto. Qed.
Lemma total_on {A} a k e (m : ALog -> outcome StorageError A * ALog) :
  (forall l, fst (m l) <> Panic) -> fst (a_on a k e m) <> Panic.
Proof.
  intros Hm. unfold a_on. destruct (aw_logs a !! k) as [l|]; [|done]. specialize (Hm l). by destruct (m l).
Qed.
Lemma total_create a t n : fst (a_create a t n) <> Panic.
Proof. unfold a_create. by repeat case_match. Qed.
Lemma total_ensure a t : fst (a_ensure s a t) <> Panic.
Proof.
  unfold a_ensure. pose proof (total_create a t (ss_default_partition_count s)).
  repeat (case_match; try done).
Qed.
Lemma total_append a input now : fst (a_append_record s a input now) <> Panic.
Proof.
  unfold a_append_record. apply total_bind; [apply total_ensure|]. intros n a1.
  apply total_bind; [unfold a_choose; by repeat case_match|]. intros p a2.
  apply total_bind; [|done]. apply total_on. intros l. unfold a_append_at.
  destruct (valid_time now); [apply a_append_total|done].
Qed.
Lemma total_each a t q rs clock : fst (a_append_each s a t q rs clock) <> Panic.
Proof.
  revert a clock. induction rs as [|r rs IH]; intros a clock; [done|]. cbn [a_append_each].
  apply total_bind; [apply total_append|]. intros. by apply total_bind.
Qed.
Lemma total_rewrite cf l rs : fst (a_rewrite cf l rs) <> Panic.
Proof.
  revert l. induction rs as [|r rs IH]; intros l; [done|]. cbn [a_rewrite].
  pose proof (a_append_total cf l r). by destruct (a_append cf l r) as [[] ?].
Qed.

Lemma a_run_total env c a : fst (a_run s env c a) <> Panic.
Proof.
  destruct c; cbn [a_run]; unfold a_reply.
  - by apply total_bind; [apply total_create|].
  - done.
  - by apply total_bind; [apply total_append|].
  - by apply total_bind; [apply total_each|].
  - apply total_bind; [|done]. unfold a_read_records. apply total_bind; [apply total_ensure|].
    intros n a1. destruct (aw_logs a1 !! _) as [l|]; [|done]. unfold a_read. by repeat case_match.
  - apply total_bind; [|done]. unfold a_replicate.
    destruct (aw_topics a !! _) as [n|]; [|done]. destruct (n <=? _); [done|]. apply total_on.
    intros l. unfold a_append_replica. pose proof (a_append_total (cfg s) l (replica_record record)).
    destruct (_ <? _); [destruct (record_at _ _) as [r'|]; [destruct (_ && _)|]; done|].
    destruct (_ =? _); [|done]. by destruct (a_append _ _ _) as [[] ?].
  - cbn [fst]. by destruct (aw_logs a !! _).
  - apply total_bind; [|done]. apply total_on. intros l. unfold a_truncate.
    destruct (_ <? _); [done|]. destruct (_ =? _); [done|]. apply total_rewrite.
  - done.
  - done.
Qed.
End facts.
