(* ===== verification/Whole.v ===== *)
(** * Whole: logs that were never shortened from the front.

    Startup recovers a log whose first segment is still there.  Without retention
    every command of the storage worker keeps the logs so. *)

From stdpp Require Import base numbers list strings gmap sorting.
From Stdlib Require Import ZArith Lia.
From S2P Require Import Prelude Text Files Runs Protocol Record RecordFacts Log LogRep LogFacts LogAppend LogShrink Worker WorkerSpec WorkerFacts.

Definition no_retention (s : StorageSettings) : Prop := ss_retention_bytes s = None /\ ss_retention_age s = None.
Definition whole (l : ALog) : Prop := complete l /\ al_chunks l <> [].
Definition wholes (a : AWorker) : Prop := map_Forall (fun _ => whole) (aw_logs a).

Section whole.
Context `{!Crc32} (s : StorageSettings) (Hret : no_retention s).
Implicit Types a : AWorker.

Lemma empty_whole : whole empty_log.
Proof. by repeat split. Qed.
Lemma append_whole cf l r : whole l -> whole (snd (a_append cf l r)).
Proof.
  intros [Hc Hne]. split; [by apply append_complete|].
  destruct (a_append_cases cf l r) as [->|(-> & _)]; [done|by apply push_nonempty].
Qed.
Lemma replica_whole cf l o r : whole l -> whole (snd (a_append_replica cf l o r)).
Proof.
  intros Hl. unfold a_append_replica. destruct (_ <? _).
  - by repeat case_match.
  - destruct (_ =? _); [by apply append_whole|done].
Qed.
Lemma rewrite_whole cf rs : forall l, whole l -> whole (snd (a_rewrite cf l rs)).
Proof.
  induction rs as [|r rs IH]; intros l Hl; [done|]. cbn [a_rewrite].
  pose proof (append_whole cf l r Hl). destruct (a_append cf l r) as [[v|e|] l']; auto.
Qed.
Lemma truncate_whole cf o l : whole l -> whole (snd (a_truncate cf o l)).
Proof.
  intros Hl. unfold a_truncate. destruct (_ <? _); [done|]. destruct (_ =? _); [done|].
  apply rewrite_whole, empty_whole.
Qed.
Lemma retain_none cs total : retain None None cs total = cs.
Proof. by destruct cs as [|c [|c' cs]]. Qed.

(** The commands. *)
Lemma create_wholes a t n : wholes a -> wholes (snd (a_create a t n)).
Proof.
  intros Ha. unfold a_create. destruct (n =? 0); [done|]. case_bool_decide; [done|]. destruct (negb _); [done|].
  apply map_Forall_union_2; [done|]. intros [t' p] l. rewrite new_logs_lookup. case_bool_decide; [|done].
  intros [= <-]. apply empty_whole.
Qed.
Lemma bind_wholes {A B} x (k : A -> AWorker -> outcome StorageError B * AWorker) :
  wholes (snd x) -> (forall v a, wholes a -> wholes (snd (k v a))) -> wholes (snd (a_bind x k)).
Proof. intros Hx Hk. destruct x as [[v|e|] a]; cbn; auto. Qed.
Lemma on_wholes {A} a k e (m : ALog -> outcome StorageError A * ALog) :
  (forall l, whole l -> whole (snd (m l))) -> wholes a -> wholes (snd (a_on a k e m)).
Proof.
  intros Hm Ha. unfold a_on. destruct (aw_logs a !! k) as [l|] eqn:Hl; [|done].
  specialize (Hm l (Ha _ _ Hl)). destruct (m l) as [o l']. by apply map_Forall_insert_2.
Qed.
Lemma ensure_wholes a t : wholes a -> wholes (snd (a_ensure s a t)).
Proof.
  intros Ha. unfold a_ensure. destruct (aw_topics a !! t); [done|]. destruct (ss_auto_create_topics s); [|done].
  pose proof (create_wholes a t (ss_default_partition_count s) Ha). by destruct (a_create _ _ _) as [[v|e|] a'].
Qed.
Lemma record_wholes a input now : wholes a -> wholes (snd (a_append_record s a input now)).
Proof.
  intros Ha. apply bind_wholes; [by apply ensure_wholes|]. intros n a1 Ha1. apply bind_wholes.
  { unfold a_choose. by repeat case_match. }
  intros p a2 Ha2. apply bind_wholes; [|done]. apply on_wholes; [|done]. intros l Hl. unfold a_append_at.
  destruct (valid_time now); [by apply append_whole|done].
Qed.
Lemma each_wholes t p rs : forall a clock, wholes a -> wholes (snd (a_append_each s a t p rs clock)).
Proof.
  induction rs as [|r rs IH]; intros a clock Ha; [done|]. cbn [a_append_each].
  apply bind_wholes; [by apply record_wholes|]. intros v a1 Ha1. by apply bind_wholes; [apply IH|].
Qed.
Lemma retention_wholes reached order : forall a, wholes a -> wholes (a_apply_retention s reached order a).
Proof.
  destruct Hret as [Hb Hage]. induction order as [|k order IH]; intros a Ha; [done|]. cbn [a_apply_retention]. apply IH.
  destruct (aw_logs a !! k) as [l|] eqn:Hl; [|done]. rewrite Hb, Hage. unfold a_retain. rewrite retain_none.
  apply map_Forall_insert_2; [|done]. destruct l. by apply (Ha k).
Qed.
Lemma run_wholes env c a : wholes a -> wholes (snd (a_run s env c a)).
Proof.
  intros Ha. destruct c; cbn [a_run]; try done; try (apply bind_wholes; [|done]).
  - by apply create_wholes.
  - by apply record_wholes.
  - by apply each_wholes.
  - apply bind_wholes; [by apply ensure_wholes|]. intros v a1 Ha1. by repeat case_match.
  - unfold a_replicate. destruct (aw_topics a !! _); [|done]. destruct (_ <=? _); [done|].
    apply on_wholes; [|done]. intros l Hl. pose proof (replica_whole (cfg s) l (rr_offset record) (replica_record record) Hl).
    by destruct (a_append_replica _ _ _ _) as [[v|e|] l'].
  - apply on_wholes; [|done]. intros l. apply truncate_whole.
  - by apply retention_wholes.
Qed.
End whole.

Definition unshortened (s : StorageSettings) (a : AWorker) : Prop := no_retention s -> wholes a.
Lemma run_unshortened `{!Crc32} s env c a : unshortened s a -> unshortened s (snd (a_run s env c a)).
Proof. intros Ha Hr. apply run_wholes; auto. Qed.
Lemma complete_wholes `{!Crc32} s a :
  aworker_ok s a -> map_Forall (fun _ => complete) (aw_logs a) -> map_Forall (fun _ => whole) (aw_logs a).
Proof.
  intros Ha Hc k l Hl. split; [by apply (Hc k)|]. by destruct (ao_logs _ _ Ha _ _ Hl) as ((Hne & _) & _).
Qed.
