(* ===== verification/WorkerOpen.v ===== *)
(** * WorkerOpen: [discover_partitions] and [recover_storage]. *)

From stdpp Require Import base numbers list strings gmap sorting.
From Stdlib Require Import ZArith Lia.
From S2P Require Import Prelude Text Files Runs Protocol Record RecordFacts Log LogRep LogFacts LogAppend LogRead LogOpen LogShrink Worker WorkerSpec WorkerFacts Whole.

(* ------------------------------------------------------------------ *)
(** ** Discovery                                                        *)
(* ------------------------------------------------------------------ *)

Lemma show_uint_is_str n : 0 <= n -> is_str (show_uint n).
Proof.
  intros Hn. destruct (show_uint_digits n Hn) as (b & l & Heq & HF). apply forallb_id_is_str.
  rewrite Heq. apply forallb_forall. intros x Hx%list_elem_of_In.
  apply (proj1 (Forall_forall _ _) HF) in Hx. unfold id_byte, is_ascii_alphanumeric, is_ascii_digit in *.
  by rewrite Hx.
Qed.

Lemma parse_partition_show p : is_u32 p -> parse_partition (show_uint p) = Ok p.
Proof.
  intros Hp. unfold parse_partition. rewrite from_utf8_as_bytes by (apply show_uint_is_str; range).
  by rewrite parse_show_uint by range.
Qed.

(** The partition names of a topic directory. *)
Definition canonical (t : TopicDir) : Prop :=
  forall name, is_Some (td_partitions t !! name) -> exists p, is_u32 p /\ name = show_uint p.

Lemma partition_entries_spec t names :
  Forall (fun name => exists p, is_u32 p /\ name = show_uint p) names ->
  exists ks, partition_entries t names = Ok ks /\
    forall t' p, (t', p) ∈ ks <-> t' = t /\ is_u32 p /\ show_uint p ∈ names.
Proof.
  induction 1 as [|name names (q & Hq & ->) _ (ks & Hks & Hin)].
  { exists []. split; [done|]. intros t' p. rewrite !elem_of_nil. tauto. }
  exists ((t, q) :: ks). split; [|].
  { cbn [partition_entries]. rewrite parse_partition_show by done. cbn [obind]. by rewrite Hks. }
  intros t' p. rewrite !elem_of_cons, Hin. split.
  - intros [[= -> ->]|(-> & ? & ?)]; auto.
  - intros (-> & Hp & [Heq|?]); [|auto]. apply show_uint_inj in Heq; [|range..]. left. congruence.
Qed.

Lemma valid_not_reserved t : valid_topic t = true -> starts_with "__" t = false.
Proof. unfold valid_topic. intros Hv%negb_true_iff. rewrite !orb_false_iff in Hv. tauto. Qed.

Lemma topic_entries_spec entries :
  Forall (fun e => is_str e.1 /\ (starts_with "__" e.1 = true \/ valid_topic e.1 = true) /\ canonical e.2)
    entries ->
  exists ks, topic_entries entries = Ok ks /\
    forall t p, (t, p) ∈ ks <-> valid_topic t = true /\ is_u32 p /\
      exists d, (t, d) ∈ entries /\ is_Some (td_partitions d !! show_uint p).
Proof.
  induction 1 as [|[t d] entries (Hstr & Hname & Hd) _ (ks & Hks & Hin)]; cbn [fst snd] in *.
  { exists []. split; [done|]. intros t p. rewrite elem_of_nil. split; [done|].
    by intros (_ & _ & d & ?%elem_of_nil & _). }
  cbn [topic_entries]. rewrite from_utf8_as_bytes by done.
  destruct (starts_with "__" t) eqn:Hres.
  - exists ks. split; [done|]. intros t' p. rewrite Hin. setoid_rewrite elem_of_cons.
    split; [intros (? & ? & d' & ? & ?); eauto 10|].
    intros (Hv & ? & d' & [[= -> ->]|] & ?); [|by eauto 10].
    apply valid_not_reserved in Hv. congruence.
  - destruct Hname as [|Hv]; [done|]. destruct (partition_entries_spec t (fst <$> map_to_list (td_partitions d)))
      as (ks1 & Hks1 & Hin1).
    { apply Forall_forall. intros name ((n & c) & -> & Hm%elem_of_map_to_list)%list_elem_of_fmap.
      apply Hd. eauto. }
    exists (ks1 ++ ks). split.
    + apply valid_topic_ok in Hv. unfold storage_validate_topic. rewrite Hv.
      cbn [reject_if fst obind]. by rewrite Hks1, Hks.
    + intros t' p. rewrite elem_of_app, Hin1, Hin. split.
      * intros [(-> & Hp & Hn)|(? & ? & d' & ? & ?)].
        -- split_and?; try done. exists d. split; [by left|].
           apply list_elem_of_fmap in Hn as ((n & c) & -> & Hm%elem_of_map_to_list). eauto.
        -- split_and?; try done. exists d'. split; [by right|done].
      * intros (Hv' & Hp & d' & [[= -> ->]|Hd']%elem_of_cons & [c Hc]); [left|right; eauto 10].
        split_and?; try done. apply list_elem_of_fmap. exists (show_uint p, c).
        split; [done|]. by apply elem_of_map_to_list.
Qed.

(** Topic directories hold partitions under their numbers only. *)
Definition canonical_dirs (data : DataDir) : Prop := forall t, canonical (topic_dir_of data t).

Lemma discover_partitions_spec data :
  topic_dirs data -> canonical_dirs data ->
  exists ks, discover_partitions data = Ok ks /\
    forall t p, (t, p) ∈ ks <-> valid_topic t = true /\ is_u32 p /\
      is_Some (td_partitions (topic_dir_of data t) !! show_uint p).
Proof.
  intros Ht Hc. destruct (topic_entries_spec (map_to_list data)) as (ks & Hks & Hin).
  { apply Forall_forall. intros [t d] Hm%elem_of_map_to_list. cbn [fst snd].
    destruct (Ht t) as [? ?]; [eauto|]. split_and?; try done.
    specialize (Hc t). unfold topic_dir_of in Hc. by rewrite Hm in Hc. }
  exists (merge_sort identity_le ks). split; [unfold discover_partitions; by rewrite Hks|].
  intros t p. rewrite merge_sort_Permutation, Hin. unfold topic_dir_of. split.
  - intros (? & ? & d & Hm%elem_of_map_to_list & ?). by rewrite Hm.
  - intros (? & ? & Hd). split_and?; [done..|].
    destruct (data !! t) as [d|] eqn:Hm; cbn [default from_option id] in Hd.
    + exists d. split; [by apply elem_of_map_to_list|done].
    + cbn in Hd. rewrite lookup_empty in Hd. by destruct Hd.
Qed.

(* ------------------------------------------------------------------ *)
(** ** Recovery                                                         *)
(* ------------------------------------------------------------------ *)

Section recovery.
Context `{!Crc32} `{!Crc32Ok}.
Context (s : StorageSettings) (Hs : settings_ok s).
(** The logs and topics that the directory holds. *)
Context (a : AWorker) (Ha : aworker_ok s a).
Context (Hc : map_Forall (fun _ => complete) (aw_logs a)).

(** Every partition's directory is that of its log, but for index files and a
    torn record at its end. *)
Record salvageable (data : DataDir) : Prop := {
  sv_dirs : forall t p l, aw_logs a !! (t, p) = Some l ->
    exists tail, torn tail /\ crashed (cfg s) (al_chunks l) tail (partition_dir data (t, p));
  sv_names : forall t name, is_Some (td_partitions (topic_dir_of data t) !! name) ->
    exists p, is_u32 p /\ name = show_uint p /\ is_Some (aw_logs a !! (t, p));
  sv_topics : topic_dirs data
}.

Lemma dir_of_nonempty cf l : wf_log l -> dir_of cf (al_chunks l) <> ∅.
Proof.
  intros Hwf Hd. destruct (dir_of_last cf (al_chunks l) Hwf) as [Hl _]. by rewrite Hd in Hl.
Qed.

Lemma open_log_recover w t p l tail :
  valid_topic t = true -> wf_log l -> complete l -> torn tail ->
  crashed (cfg s) (al_chunks l) tail (partition_dir (wk_data w) (t, p)) ->
  open_log s (t, p) w = (Ok tt, set_part w (t, p) (part_of (cfg s) l)).
Proof.
  intros Ht Hwf (Hlow & Hsq & Hst) Htail Hcr. unfold open_log. cbn [fst].
  pose proof (cfg_ok s Hs) as [Hmx Hiv]. cbn [cfg settings cf_max_segment_bytes cf_index_interval_bytes] in *.
  rewrite (open_spec t _ _ (al_chunks l) tail) by (done || lia || by apply valid_topic_ok).
  rewrite bool_decide_eq_false_2 by by apply dir_of_nonempty.
  rewrite <- Hst. by destruct l.
Qed.

Lemma partition_dir_set data t p d t' p' :
  is_u32 p -> is_u32 p' ->
  partition_dir (set_partition_dir data (t, p) d) (t', p') =
  if bool_decide ((t, p) = (t', p')) then d else partition_dir data (t', p').
Proof.
  intros Hp Hp'. unfold partition_dir, set_partition_dir. cbn [fst snd]. rewrite topic_dir_of_insert.
  destruct (bool_decide_reflect (t = t')) as [->|Hne].
  - cbn [td_partitions]. destruct (bool_decide_reflect ((t', p) = (t', p'))) as [[= ->]|Hne].
    + by rewrite lookup_insert_eq.
    + rewrite lookup_insert_ne; [done|]. intros E. apply show_uint_inj in E; [congruence|range..].
  - by rewrite bool_decide_eq_false_2 by congruence.
Qed.

Lemma key_range t p : is_Some (aw_logs a !! (t, p)) -> 0 <= p < U32_MAX /\ valid_topic t = true.
Proof.
  intros (n & Hn & ?)%(ao_keys _ _ Ha). apply (ao_topics _ _ Ha) in Hn as [? ?]. split; [lia|done].
Qed.

Lemma salvageable_set data t p l :
  aw_logs a !! (t, p) = Some l -> salvageable data ->
  salvageable (set_partition_dir data (t, p) (dir_of (cfg s) (al_chunks l))).
Proof.
  intros Hl [Hd Hn Ht]. destruct (key_range t p) as [Hp Hv]; [eauto|]. split.
  - intros t' p' l' Hl'. destruct (key_range t' p') as [Hp' _]; [eauto|].
    rewrite partition_dir_set by range. case_bool_decide as Heq; [|by apply Hd].
    simplify_eq. exists []. split; [by left|]. destruct (ao_logs _ _ Ha _ _ Hl) as [? _].
    by apply intact.
  - intros t' name. unfold set_partition_dir. cbn [fst snd]. rewrite topic_dir_of_insert.
    destruct (bool_decide_reflect (t = t')) as [->|]; [|by apply Hn].
    cbn [td_partitions]. intros [<-|?]%lookup_insert_is_Some'; [|by apply Hn].
    exists p. split_and?; [range|done|eauto].
  - by apply topic_dirs_insert.
Qed.

(** The worker after the partitions [ks] were opened. *)
Record progress (ks : list PartitionKey) (w : Worker) : Prop := {
  pg_data : salvageable (wk_data w);
  pg_dirs : forall t p l, (t, p) ∈ ks -> aw_logs a !! (t, p) = Some l ->
    partition_dir (wk_data w) (t, p) = dir_of (cfg s) (al_chunks l);
  pg_logs : forall k, wk_logs w !! k =
    if bool_decide (k ∈ ks) then log_of (cfg s) <$> aw_logs a !! k else None;
  pg_some : forall t p, (t, p) ∈ ks -> exists c, wk_topics w !! t = Some c /\ p < c;
  pg_max : forall t c, wk_topics w !! t = Some c -> (t, c - 1) ∈ ks;
  pg_counters : wk_round_robin w = ∅
}.

Lemma recover_step ks w k :
  progress ks w -> is_Some (aw_logs a !! k) ->
  exists w', recover_partition s k w = (Ok tt, w') /\ progress (k :: ks) w'.
Proof.
  destruct k as [t p]. intros [Hdata Hdirs Hlogs Hsome Hmax Hrr] [l Hl].
  destruct (key_range t p) as [Hp Hv]; [eauto|].
  destruct (sv_dirs _ Hdata t p l Hl) as (tail & Htail & Hcr).
  pose proof (ao_logs _ _ Ha _ _ Hl) as [Hwf _].
  assert ((U32_MAX <=? p) = false) as Hlt by lia.
  eexists. split.
  - unfold recover_partition. erewrite bind_Ok by (eapply open_log_recover; try done; by apply (Hc (t, p))).
    cbv beta. cbn [snd]. rewrite Hlt. erewrite bind_Ok by done. reflexivity.
  - cbn [fst snd]. split; cbn [set_topics set_part set_logs set_data wk_data wk_logs wk_topics wk_round_robin
                               pt_dir pt_log part_of]; [by apply salvageable_set| | | | |done].
    + intros t' p' l' Hin Hl'. destruct (key_range t' p') as [Hp' _]; [eauto|].
      rewrite partition_dir_set by range. case_bool_decide as Heq; [by simplify_eq|].
      apply elem_of_cons in Hin as [|Hin]; [by simplify_eq|]. by apply Hdirs.
    + intros k. destruct (decide ((t, p) = k)) as [<-|Hne].
      * rewrite lookup_insert_eq, bool_decide_eq_true_2 by by left. by rewrite Hl.
      * rewrite lookup_insert_ne, Hlogs by done.
        rewrite (bool_decide_ext (k ∈ (t, p) :: ks) (k ∈ ks)); [done|].
        rewrite elem_of_cons. split; [intros [->|]|]; eauto || done.
    + intros t' p' [[= -> ->]|Hin]%elem_of_cons.
      * rewrite lookup_insert_eq. destruct (wk_topics w !! t); eexists; (split; [done|lia]).
      * destruct (Hsome t' p' Hin) as (c & Hcnt & ?). destruct (decide (t = t')) as [<-|].
        -- rewrite lookup_insert_eq, Hcnt. eexists. split; [done|lia].
        -- rewrite lookup_insert_ne by done. eauto.
    + intros t' c. destruct (decide (t = t')) as [<-|].
      * rewrite lookup_insert_eq. intros [= <-].
        destruct (wk_topics w !! t) as [c|] eqn:Hcnt; [|rewrite Z.add_simpl_r; by left].
        apply Hmax in Hcnt. destruct (Z.max_spec c (p + 1)) as [[_ ->]|[_ ->]];
          [rewrite Z.add_simpl_r; by left|by right].
      * rewrite lookup_insert_ne by done. intros ?%Hmax. by right.
Qed.

Lemma recover_partitions_spec todo ks w :
  progress ks w -> Forall (fun k => is_Some (aw_logs a !! k)) todo ->
  exists w', for_each todo (recover_partition s) w = (Ok tt, w') /\ progress (reverse todo ++ ks) w'.
Proof.
  intros Hw HF. revert ks w Hw. induction HF as [|k todo Hk _ IH]; intros ks w Hw; [by exists w|].
  destruct (recover_step ks w k Hw Hk) as (w1 & Hrun & Hw1). destruct (IH _ _ Hw1) as (w2 & Hrun2 & Hw2).
  exists w2. cbn [for_each]. erewrite bind_Ok by exact Hrun. split; [done|].
  rewrite reverse_cons, <- app_assoc. exact Hw2.
Qed.
(** Writing the topic metadata does not touch the partitions. *)
Lemma persist_loop_spec ts w b :
  represents s w b -> Forall (fun t => valid_topic t.1 = true) ts ->
  exists w', for_each ts persist_topic w = (Ok tt, w') /\ represents s w' b.
Proof.
  intros Hr HF. revert w Hr. induction HF as [|[t n] ts Ht _ IH]; intros w [Hl Hd Hdt Htt Hcc]; [by exists w|].
  cbn [for_each]. erewrite bind_Ok by reflexivity. cbv beta. apply IH.
  split; cbn [set_data wk_data wk_logs wk_topics wk_round_robin fst snd]; try done.
  - by apply dirs_of_meta.
  - by apply topic_dirs_insert.
Qed.

Definition recovered : AWorker :=
  {| aw_logs := aw_logs a; aw_topics := aw_topics a; aw_counters := ∅ |}.

Lemma progress_represents ks w :
  progress ks w -> (forall k, is_Some (aw_logs a !! k) <-> k ∈ ks) -> represents s w recovered.
Proof.
  intros [Hdata Hdirs Hlogs Hsome Hmax Hrr] Hks.
  split; cbn [recovered aw_logs aw_topics aw_counters]; [| |apply Hdata| |done].
  - apply map_eq. intros k. rewrite Hlogs, lookup_fmap. case_bool_decide as Hk; [done|].
    rewrite <- Hks in Hk. apply eq_None_not_Some in Hk. by rewrite Hk.
  - split; [|apply (sv_names _ Hdata)]. intros t p Hp.
    destruct (aw_logs a !! (t, p)) as [l|] eqn:Hl; cbn [dir_at].
    + apply Hdirs; [apply Hks; eauto|done].
    + unfold partition_dir. cbn [fst snd].
      destruct (td_partitions _ !! show_uint p) as [d|] eqn:Hd; [|done]. exfalso.
      destruct (sv_names _ Hdata t (show_uint p)) as (q & Hq & Heq & [l' Hl']); [eauto|].
      apply show_uint_inj in Heq; [|range..]. congruence.
  - apply map_eq. intros t. destruct (wk_topics w !! t) as [c|] eqn:Hct.
    + apply Hmax in Hct as Hin. apply Hks, (ao_keys _ _ Ha) in Hin as (n & Hn & Hc1).
      assert ((t, n - 1) ∈ ks) as Hin by (apply Hks, (ao_keys _ _ Ha); exists n; split; [done|lia]).
      destruct (Hsome _ _ Hin) as (c' & ? & ?). rewrite Hn. f_equal. simplify_eq. lia.
    + destruct (aw_topics a !! t) as [n|] eqn:Hn; [|done]. exfalso.
      apply (ao_topics _ _ Ha) in Hn as H2. destruct H2 as [_ ?].
      assert ((t, 0) ∈ ks) as Hin by (apply Hks, (ao_keys _ _ Ha); exists n; split; [done|lia]).
      destruct (Hsome _ _ Hin) as (c' & ? & ?). congruence.
Qed.

Lemma dirs_nonempty t p data :
  salvageable data -> is_Some (aw_logs a !! (t, p)) ->
  is_Some (td_partitions (topic_dir_of data t) !! show_uint p).
Proof.
  intros [Hd _ _] [l Hl]. destruct (Hd t p l Hl) as (tail & _ & Hlast & _ & _).
  pose proof (ao_logs _ _ Ha _ _ Hl) as [(Hne & _) _]. destruct (exists_last Hne) as (i & c & Heq).
  specialize (Hlast i c Heq). unfold partition_dir in Hlast. cbn [fst snd] in Hlast.
  destruct (td_partitions _ !! _) as [d|]; [done|]. cbn in Hlast. by rewrite lookup_empty in Hlast.
Qed.

Lemma recover_storage_spec data :
  salvageable data ->
  exists w, recover_storage s data = (Ok tt, w) /\ represents s w recovered.
Proof.
  intros Hdata. destruct (discover_partitions_spec data) as (ks & Hks & Hin); [apply Hdata| |].
  { intros t name Hname. destruct (sv_names _ Hdata t name Hname) as (p & ? & ? & _). eauto. }
  assert (forall k, is_Some (aw_logs a !! k) <-> k ∈ ks) as Hkeys.
  { intros [t p]. rewrite Hin. split.
    - intros Hk. destruct (key_range t p Hk) as [? ?]. split_and?; [done|range|by apply dirs_nonempty].
    - intros (_ & Hp & Hd). destruct (sv_names _ Hdata t _ Hd) as (q & Hq & Heq & ?).
      apply show_uint_inj in Heq; [|range..]. by subst q. }
  set (w0 := {| wk_data := data; wk_logs := ∅; wk_topics := ∅; wk_round_robin := ∅ |}).
  destruct (recover_partitions_spec ks [] w0) as (w1 & Hrun & Hw1).
  { split; [done|..]; cbn [w0 wk_logs wk_topics wk_round_robin]; try done.
    - by intros t p l ?%elem_of_nil.
    - by intros t p ?%elem_of_nil. }
  { apply Forall_forall. intros k. apply Hkeys. }
  rewrite app_nil_r in Hw1.
  assert (represents s w1 recovered) as Hr1.
  { apply (progress_represents (reverse ks)); [done|]. intros k. rewrite elem_of_reverse. apply Hkeys. }
  destruct (persist_loop_spec (map_to_list (wk_topics w1)) w1 recovered Hr1) as (w2 & Hrun2 & Hr2).
  { apply Forall_forall. intros [t n] Hm%elem_of_map_to_list. rewrite (rp_topics _ _ _ Hr1) in Hm.
    by apply (ao_topics _ _ Ha) in Hm as [? _]. }
  exists w2. split; [|done]. unfold recover_storage. fold w0.
  erewrite bind_Ok by (unfold lift; rewrite Hks; reflexivity). cbv beta.
  erewrite bind_Ok by exact Hrun. cbv beta. erewrite bind_Ok by done. exact Hrun2.
Qed.
End recovery.

(** A directory that represents complete logs is salvageable. *)
Lemma represents_salvageable `{!Crc32} s a w :
  aworker_ok s a -> represents s w a -> salvageable s a (wk_data w).
Proof.
  intros Ha [_ [Hd Hn] Ht _ _]. split; [|done|done]. intros t p l Hl.
  destruct (a_keys s a t p l Ha Hl) as [Hp _]. exists []. split; [by left|].
  rewrite Hd, Hl by done. destruct (ao_logs _ _ Ha _ _ Hl) as [? _]. by apply intact.
Qed.
