(* ===== verification/StorageTests.v ===== *)
(** * StorageTests: the tests of [crates/storage], run on the log of the model
    with a CRC-32. *)

From stdpp Require Import base numbers list strings gmap sorting.
From Stdlib Require Import ZArith Lia.
From S2P Require Import Prelude Text Files Record Crc Log Durable Worker Testing.

#[export] Instance StorageError_eq_dec : EqDecision StorageError.
Proof. solve_decision. Defined.
#[export] Instance Producer_eq_dec : EqDecision Producer.
Proof. solve_decision. Defined.
#[export] Instance StoredRecord_eq_dec : EqDecision StoredRecord.
Proof. solve_decision. Defined.

#[local] Existing Instance ieee_crc32.

(* ------------------------------------------------------------------ *)
(** ** The frame of a test                                              *)
(* ------------------------------------------------------------------ *)

(** Between logs the state is the directory of the partition [payments]-0; while
    a log is open, the log with it. *)
Abbreviation dir_test A := (SM Dir Empty_set A).
Abbreviation log_test A := (SM Disk Empty_set A).

Definition open_payments (max_segment_bytes index_interval_bytes : Z)
  : SM Dir StorageError PartitionLog := open "payments" max_segment_bytes index_interval_bytes.
(** A log from [open] to the end of its scope. *)
Definition opened_disk (opened : SM Dir StorageError PartitionLog) : SM Dir StorageError Disk :=
  log <- opened ;;
  d <- get ;;
  ret {| dk_part := {| pt_dir := d; pt_log := log |}; dk_synced := ∅ |}.
Definition with_log {A} (opened : SM Dir StorageError PartitionLog) (body : log_test A) : dir_test A :=
  scope (opened_disk opened) (fun s => pt_dir (dk_part s)) body.
Definition the_log : log_test PartitionLog := gets (fun s => pt_log (dk_part s)).
Definition on_the_log {A} (m : log A) : log_test A := expect (on_part m).
(** [fs::read(path)] *)
Definition read_path (path : string) : log_test bytes :=
  d <- gets (fun s => pt_dir (dk_part s)) ;; expect_some (d !! path).

Definition record_with (key : option bytes) (value : string) (timestamp_ms : Z) : LogRecord :=
  Record_new key (as_bytes value) timestamp_ms.
(** [for value in values { log.append(..).expect(..) }] *)
Definition append_values (values : list string) : log_test unit :=
  for_each values (fun value => _o <- on_the_log (append (record_with None value 1)) ;; ret tt).
Definition assert_append (record : LogRecord) (offset : Z) : log_test unit :=
  o <- on_the_log (append record) ;; assert_eq o offset.
Definition assert_next_offset (offset : Z) : log_test unit :=
  l <- the_log ;; assert_eq (lg_next_offset l) offset.
(** The decoding of the bytes of a file. *)
Definition decode_one {E} : SM bytes E StoredRecord :=
  record <- expect decode_record ;; expect_some record.
(** [iter::from_fn(|| decode_record(..).map(|record| record.offset())).collect()];
    every record takes bytes. *)
Fixpoint decode_offsets (fuel : nat) : SM bytes Empty_set (list Z) :=
  match fuel with
  | O => panic
  | Datatypes.S fuel =>
      record <- expect decode_record ;;
      match record with
      | None => ret []
      | Some record => offsets <- decode_offsets fuel ;; ret (sr_offset record :: offsets)
      end
  end.

(* ------------------------------------------------------------------ *)
(** ** The tests                                                        *)
(* ------------------------------------------------------------------ *)

(** On the data directory: a directory of offsets, and one partition. *)
Definition ignores_internal_broker_directories_during_partition_discovery : test DataDir :=
  modify (<["__consumer_offsets" := {| td_files := ∅; td_partitions := {["workers" := ∅]} |}]>) ;;;
  (fun data =>
     let '(o, d) := with_log (open_payments 1024 64) (ret tt) (partition_dir data ("payments", 0)) in
     (o, set_partition_dir data ("payments", 0) d)) ;;;
  data <- get ;;
  partitions <- expect (lift (discover_partitions data)) ;;
  assert_eq (length partitions) 1%nat ;;;
  first <- expect_some (partitions !! O) ;;
  assert_eq first.1 "payments" ;;;
  assert_eq first.2 0.

Definition appends_records_with_monotonic_offsets : test Dir :=
  with_log (open_payments 1024 64) (
    let first := Record_new (Some (as_bytes "customer-123")) amount 1700000000000 in
    let second := record_with None "confirmed" 1700000000001 in
    assert_append first 0 ;;;
    assert_append second 1 ;;;
    expect flush ;;;
    l <- the_log ;;
    bytes <- read_path (active_path l) ;;
    on_frame bytes (
      first <- decode_one ;;
      second <- decode_one ;;
      assert_eq (sr_offset first) 0 ;;;
      assert_eq (sr_key first) (Some (as_bytes "customer-123")) ;;;
      assert_eq (sr_offset second) 1 ;;;
      assert_eq (sr_key second) None ;;;
      bytes <- get ;;
      assert (bool_decide (bytes = [])))).

Definition appends_replica_idempotently_and_rejects_gaps : test Dir :=
  with_log (open_payments 1024 64) (
    let record := record_with None "hello" 1700000000000 in
    o <- on_the_log (append_replica 0 record) ;;
    assert_eq o 0 ;;;
    o <- on_the_log (append_replica 0 record) ;;
    assert_eq o 0 ;;;
    assert_next_offset 1 ;;;
    assert_err (on_part (append_replica 2 record)) (fun e => bool_decide (e = UnexpectedOffset 1 2)) ;;;
    let divergent := record_with None "world" 1700000000000 in
    assert_err (on_part (append_replica 0 divergent)) (fun e => bool_decide (e = ReplicaDiverged 0))).

Definition truncates_a_divergent_tail_and_continues_at_that_offset : test Dir :=
  with_log (open_payments 1024 64) (
    append_values ["first"; "second"; "divergent"] ;;;
    on_the_log (truncate_to 2) ;;;
    assert_next_offset 2 ;;;
    retained <- on_the_log (read 0 1024) ;;
    assert_eq (length retained) 2%nat ;;;
    assert_eq (sr_value <$> retained !! 0%nat) (Some (as_bytes "first")) ;;;
    assert_eq (sr_value <$> retained !! 1%nat) (Some (as_bytes "second")) ;;;
    assert_append (record_with None "replacement" 2) 2).

Definition deduplicates_producer_sequences_after_recovery : test Dir :=
  let first := with_producer (record_with None "hello" 1)
                 {| producer_id := "producer-a"; producer_sequence := 0 |} in
  with_log (open_payments 1024 64) (
    assert_append first 0 ;;;
    assert_append first 0 ;;;
    assert_next_offset 1 ;;;
    expect sync_data) ;;;
  with_log (open_payments 1024 64) (
    assert_append first 0 ;;;
    let second := with_producer (record_with None "world" 2)
                    {| producer_id := "producer-a"; producer_sequence := 1 |} in
    assert_append second 1).

(** [*bytes.last_mut().expect(..) ^= 0xff] *)
Definition flip_last (bytes : list byte) : option (list byte) :=
  x ← last bytes; Some (removelast bytes ++ [byte_of_Z (Z.lxor (Z_of_byte x) 255)]).
Definition detects_corrupted_record : test Dir :=
  with_log (open_payments 1024 64) (
    append_values ["hello"] ;;;
    expect flush ;;;
    l <- the_log ;;
    bytes <- read_path (active_path l) ;;
    bytes <- expect_some (flip_last bytes) ;;
    on_frame bytes (assert_err decode_record (fun e => bool_decide (e = ChecksumMismatch)))).

Definition restores_next_offset_when_reopened : test Dir :=
  path <- with_log (open_payments 1024 64) (
    _o <- on_the_log (append (record_with None "first" 1)) ;;
    _o <- on_the_log (append (record_with None "second" 2)) ;;
    expect flush ;;;
    l <- the_log ;;
    ret (active_path l)) ;;
  with_log (open_payments 1024 64) (
    assert_next_offset 2 ;;;
    assert_append (record_with None "third" 3) 2 ;;;
    expect flush ;;;
    bytes <- read_path path ;;
    offsets <- on_frame bytes (decode_offsets (Datatypes.S (length bytes))) ;;
    assert_eq offsets [0; 1; 2]).

Definition truncates_an_incomplete_tail_when_reopened : test Dir :=
  path <- with_log (open_payments 1024 64) (
    append_values ["complete"] ;;;
    expect flush ;;;
    l <- the_log ;;
    ret (active_path l)) ;;
  d <- get ;;
  contents <- expect_some (d !! path) ;;
  let valid_len := blen contents in
  expect (open_append path) ;;;
  expect (write_all path (byte_of_Z <$> [0; 0; 0; 100; 1; 2; 3])) ;;;
  with_log (open_payments 1024 64) (
    assert_next_offset 1 ;;;
    l <- the_log ;;
    contents <- read_path (active_path l) ;;
    assert_eq (blen contents) valid_len).

Definition reads_records_from_requested_offset : test Dir :=
  with_log (open_payments 1024 64) (
    append_values ["zero"; "one"; "two"] ;;;
    expect flush ;;;
    records <- on_the_log (read 1 1024) ;;
    assert_eq (length records) 2%nat ;;;
    assert_eq (sr_offset <$> records !! 0%nat) (Some 1) ;;;
    assert_eq (sr_value <$> records !! 0%nat) (Some (as_bytes "one")) ;;;
    assert_eq (sr_offset <$> records !! 1%nat) (Some 2) ;;;
    assert_eq (sr_value <$> records !! 1%nat) (Some (as_bytes "two"))).

Definition rebuilds_sparse_index_from_segment_log : test Dir :=
  index_path <- with_log (open_payments 1024 1) (
    append_values ["zero"; "one"; "two"] ;;;
    expect flush ;;;
    l <- the_log ;;
    ret (with_extension (active_path l) "idx")) ;;
  modify (<[index_path := as_bytes "broken index"]>) ;;;
  with_log (open_payments 1024 1) (
    records <- on_the_log (read 2 1024) ;;
    assert_eq (length records) 1%nat ;;;
    assert_eq (sr_offset <$> records !! 0%nat) (Some 2) ;;;
    index <- read_path index_path ;;
    assert_eq (blen index) (3 * INDEX_ENTRY_SIZE)).

Definition rotates_recovers_and_reads_across_segments : test Dir :=
  with_log (open_payments 110 64) (
    append_values ["zero"; "one"; "two"] ;;;
    expect flush ;;;
    l <- the_log ;;
    assert_eq (length (lg_segments l)) 2%nat ;;;
    assert_eq (sg_base_offset <$> lg_segments l !! 0%nat) (Some 0) ;;;
    assert_eq (sg_base_offset <$> lg_segments l !! 1%nat) (Some 2) ;;;
    assert_eq (sg_path <$> lg_segments l !! 1%nat) (Some "00000000000000000002.log")) ;;;
  with_log (open_payments 110 64) (
    records <- on_the_log (read 1 1024) ;;
    assert_next_offset 3 ;;;
    assert_eq (length records) 2%nat ;;;
    assert_eq (sr_offset <$> records !! 0%nat) (Some 1) ;;;
    assert_eq (sr_offset <$> records !! 1%nat) (Some 2)).

Definition retention_removes_only_closed_segments_and_advances_low_watermark : test Dir :=
  with_log (open_payments 55 64) (
    append_values ["zero"; "one"; "two"] ;;;
    l <- the_log ;;
    assert_eq (length (lg_segments l)) 3%nat ;;;
    removed <- on_the_log (apply_retention (Some 55) None) ;;
    records <- on_the_log (read 0 1024) ;;
    assert_eq removed 2 ;;;
    l <- the_log ;;
    assert_eq (low_watermark l) 2 ;;;
    assert_eq (length records) 1%nat ;;;
    assert_eq (sr_offset <$> records !! 0%nat) (Some 2)).

Definition storage_tests : list (test Dir) :=
  [ appends_records_with_monotonic_offsets; appends_replica_idempotently_and_rejects_gaps;
    truncates_a_divergent_tail_and_continues_at_that_offset;
    deduplicates_producer_sequences_after_recovery; detects_corrupted_record;
    restores_next_offset_when_reopened; truncates_an_incomplete_tail_when_reopened;
    reads_records_from_requested_offset; rebuilds_sparse_index_from_segment_log;
    rotates_recovers_and_reads_across_segments;
    retention_removes_only_closed_segments_and_advances_low_watermark ].

(** Each passes, from an empty directory. *)
Lemma storage_tests_pass :
  passes ignores_internal_broker_directories_during_partition_discovery ∅ /\
  Forall (fun t => passes t ∅) storage_tests.
Proof. split; [|repeat constructor]; vm_compute; reflexivity. Qed.
