(* ===== verification/Topics.v ===== *)
(** * Topics: what the storage worker of [crates/broker] promises. *)

From stdpp Require Import base numbers list strings gmap sorting.
From Stdlib Require Import ZArith Lia.
From S2P Require Import Prelude Text Files Runs Protocol Record RecordFacts Log LogRep LogFacts LogAppend LogRead LogOpen LogShrink Storage Worker WorkerSpec WorkerFacts Whole WorkerOpen.

(* ------------------------------------------------------------------ *)
(** ** Runs of the worker                                               *)
(* ------------------------------------------------------------------ *)

Definition worker_ok `{!Crc32} (s : StorageSettings) (w : Worker) : Prop :=
  exists a, represents s w a /\ aworker_ok s a /\ unshortened s a.
(** No log of the worker is about to run out of offsets. *)
Definition roomy (n : Z) (w : Worker) : Prop :=
  n <= U64_MAX /\ map_Forall (fun _ l => lg_next_offset l + n <= U64_MAX) (wk_logs w).
Inductive worker_step `{!Crc32} (s : StorageSettings) : Worker -> Worker -> Prop :=
| worker_does env c w :
    command_typed c -> roomy (demand c) w -> worker_step s w (snd (run_command s env c w)).

(** Commands that remove no record at the end of a log. *)
Definition keeps_ends (c : StorageCommand) : bool :=
  match c with Truncate _ _ _ => false | _ => true end.
Inductive forward_step `{!Crc32} (s : StorageSettings) : Worker -> Worker -> Prop :=
| forward_does env c w :
    keeps_ends c = true -> command_typed c -> roomy (demand c) w ->
    forward_step s w (snd (run_command s env c w)).

(** [roomy], to be evaluated. *)
Definition roomy_check (n : Z) (w : Worker) : bool :=
  (n <=? U64_MAX) &&
  forallb (fun x : PartitionKey * PartitionLog => lg_next_offset x.2 + n <=? U64_MAX)
    (map_to_list (wk_logs w)).
Lemma roomy_by_check n w : roomy_check n w = true -> roomy n w.
Proof.
  intros [Hn Hf]%andb_true_iff. split; [lia|]. apply map_Forall_to_list, Forall_forall.
  intros [k l] Hx%list_elem_of_In. rewrite forallb_forall in Hf. specialize (Hf _ Hx).
  cbn [snd uncurry] in *. lia.
Qed.

Section runs.
Context `{!Crc32} `{!Crc32Ok}.
Context (s : StorageSettings) (Hs : settings_ok s).

Lemma roomy_room n w a : represents s w a -> roomy n w <-> room n a.
Proof.
  intros Hr. unfold roomy, room. by rewrite (rp_logs _ _ _ Hr), map_Forall_fmap.
Qed.

Lemma step_refines w a env c :
  represents s w a -> aworker_ok s a -> command_typed c -> roomy (demand c) w ->
  represents s (snd (run_command s env c w)) (snd (a_run s env c a)) /\
  aworker_ok s (snd (a_run s env c a)) /\
  fst (run_command s env c w) = fst (a_run s env c a).
Proof.
  intros Hr Hok Hc Hn%(roomy_room _ _ a); [|done].
  destruct (run_command_refines s Hs w a env c) as (? & ? & ?); done.
Qed.

(* ------------------------------------------------------------------ *)
(** ** What a command changes in the abstract state                     *)
(* ------------------------------------------------------------------ *)

(** Topics keep their number of partitions; logs are kept and, when the
    command is no truncation, do not get shorter. *)
Definition evolves (forward : bool) a a' : Prop :=
  (forall t n, aw_topics a !! t = Some n -> aw_topics a' !! t = Some n) /\
  (forall k l, aw_logs a !! k = Some l ->
     exists l', aw_logs a' !! k = Some l' /\
       (forward = true -> next (al_chunks l) <= next (al_chunks l'))).

#[local] Instance evolves_preorder f : PreOrder (evolves f).
Proof.
  split.
  - intros a. split; [done|]. intros k l ?. exists l. split; [done|lia].
  - intros a b c [Ht1 Hl1] [Ht2 Hl2]. split; [by eauto|].
    intros k l (l1 & Hk & ?)%Hl1. destruct (Hl2 k l1 Hk) as (l2 & ? & ?). exists l2.
    split; [done|]. intros Hf. specialize (H1 Hf). specialize (H3 Hf). lia.
Qed.

Lemma evolves_bind {A B} f x (ka : A -> AWorker -> outcome StorageError B * AWorker) a :
  evolves f a (snd x) -> (forall v a', evolves f a' (snd (ka v a'))) -> evolves f a (snd (a_bind x ka)).
Proof.
  destruct x as [[v|e|] a']; cbn [snd a_bind]; try done. intros Ha Hk. by etrans; [|apply Hk].
Qed.

Lemma evolves_on {A} f a k e (m : ALog -> outcome StorageError A * ALog) :
  (forall l, f = true -> next (al_chunks l) <= next (al_chunks (snd (m l)))) ->
  evolves f a (snd (a_on a k e m)).
Proof.
  intros Hm. unfold a_on. destruct (aw_logs a !! k) as [l|] eqn:Hl; [|done].
  specialize (Hm l). destruct (m l) as [o l']. split; [done|]. intros k' l1 Hk.
  cbn [snd aw_set_log aw_logs]. destruct (decide (k = k')) as [<-|].
  - rewrite lookup_insert_eq. simplify_eq. eauto.
  - rewrite lookup_insert_ne by done. exists l1. split; [done|lia].
Qed.

Lemma evolves_create f a t n : evolves f a (snd (a_create a t n)).
Proof.
  unfold a_create. destruct (n =? 0); [done|]. case_bool_decide as Hex; [done|].
  destruct (negb _); [done|]. split; cbn [snd aw_topics aw_logs].
  - intros t' n' Ht. rewrite lookup_insert_ne; [done|]. intros <-. apply Hex. eauto.
  - intros k l Hl. exists l. split; [by apply lookup_union_Some_l|lia].
Qed.
Lemma evolves_ensure f a t : evolves f a (snd (a_ensure s a t)).
Proof.
  unfold a_ensure. destruct (aw_topics a !! t); [done|]. destruct (ss_auto_create_topics s); [|done].
  pose proof (evolves_create f a t (ss_default_partition_count s)) as Hc.
  by destruct (a_create _ _ _) as [[] ?].
Qed.
Lemma evolves_choose f a input n : evolves f a (snd (a_choose a input n)).
Proof.
  unfold a_choose. repeat (case_match; try done). split; [done|]. intros k l ?. exists l. split; [done|lia].
Qed.
Lemma append_longer l r : next (al_chunks l) <= next (al_chunks (snd (a_append (cfg s) l r))).
Proof.
  destruct (a_append_cases (cfg s) l r) as [->|(-> & _)]; [lia|].
  cbn [snd a_push al_chunks]. destruct (decide (al_chunks l = [])) as [->|]; [done|].
  rewrite next_push by done. lia.
Qed.

Lemma evolves_append f a input now : evolves f a (snd (a_append_record s a input now)).
Proof.
  unfold a_append_record. apply evolves_bind; [apply evolves_ensure|]. intros n a1.
  apply evolves_bind; [apply evolves_choose|]. intros p a2.
  apply evolves_bind; [|done]. apply evolves_on. intros l _. unfold a_append_at.
  destruct (valid_time now); [apply append_longer|done].
Qed.
Lemma evolves_each f a t q rs clock : evolves f a (snd (a_append_each s a t q rs clock)).
Proof.
  revert a clock. induction rs as [|r rs IH]; intros a clock; [done|]. cbn [a_append_each].
  apply evolves_bind; [apply evolves_append|]. intros ack a1. by apply evolves_bind.
Qed.

Lemma retain_next mb age l :
  a_inv (cfg s) l -> next (al_chunks (a_retain mb age l)) = next (al_chunks l).
Proof.
  intros (Hwf & _). pose proof Hwf as [Hne _].
  destruct (retain_suffix mb age (al_chunks l) (a_size (al_chunks l)) Hne) as (gone & Heq & Hr).
  change (retain _ _ _ _) with (al_chunks (a_retain mb age l)) in Heq, Hr.
  unfold wf_log in Hwf. rewrite Heq in Hwf. apply wf_suffix in Hwf as [_ Hn]; [|done]. by rewrite Heq.
Qed.

Lemma evolves_retention f reached order a :
  aworker_ok s a -> evolves f a (a_apply_retention s reached order a).
Proof.
  revert a. induction order as [|k order IH]; intros a Hok; [done|]. cbn [a_apply_retention].
  destruct (aw_logs a !! k) as [l|] eqn:Hl; [|by apply IH].
  pose proof (ao_logs _ _ Hok k l Hl) as Hinv.
  set (l' := a_retain _ _ l). etrans; [|apply IH; eapply aw_set_log_ok; [done..|by apply retained_inv]].
  split; [done|]. intros k' l1 Hk. cbn [aw_set_log aw_logs]. destruct (decide (k = k')) as [<-|].
  - rewrite lookup_insert_eq. simplify_eq. exists l'. split; [done|]. unfold l'. rewrite retain_next by done. lia.
  - rewrite lookup_insert_ne by done. exists l1. split; [done|lia].
Qed.

Lemma evolves_run f env c a :
  aworker_ok s a -> (f = true -> keeps_ends c = true) -> evolves f a (snd (a_run s env c a)).
Proof.
  intros Hok Hf. destruct c; cbn [a_run]; unfold a_reply; try done.
  - apply evolves_bind; [apply evolves_create|done].
  - apply evolves_bind; [apply evolves_append|done].
  - apply evolves_bind; [apply evolves_each|done].
  - apply evolves_bind; [|done]. unfold a_read_records. apply evolves_bind; [apply evolves_ensure|].
    intros n a1. destruct (aw_logs a1 !! _) as [l|]; [|done]. by destruct (a_read l _ _).
  - apply evolves_bind; [|done]. unfold a_replicate. destruct (aw_topics a !! _) as [n|]; [|done].
    destruct (n <=? _); [done|]. apply evolves_on. intros l _. unfold a_append_replica.
    pose proof (append_longer l (replica_record record)) as Hlong.
    destruct (_ <? _); [destruct (record_at _ _) as [r'|]; [destruct (_ && _)|]; cbn; lia|].
    destruct (_ =? _); [|cbn; lia]. by destruct (a_append _ _ _) as [[] ?].
  - apply evolves_bind; [|done]. apply evolves_on. intros l ->. by specialize (Hf eq_refl).
  - by apply evolves_retention.
Qed.

(* ------------------------------------------------------------------ *)
(** ** One record                                                       *)
(* ------------------------------------------------------------------ *)

Lemma ensure_cases a t n a' :
  aworker_ok s a -> a_ensure s a t = (Ok n, a') ->
  aworker_ok s a' /\ aw_counters a' = aw_counters a /\
  (forall k l, aw_logs a !! k = Some l -> aw_logs a' !! k = Some l) /\
  (forall k l, aw_logs a' !! k = Some l -> l = default empty_log (aw_logs a !! k)).
Proof.
  intros Hok. unfold a_ensure. destruct (aw_topics a !! t) as [m|] eqn:Ht.
  { intros [= -> <-]. split_and?; try done. by intros k l ->. }
  destruct (ss_auto_create_topics s); [|done]. destruct Hs as [_ Hd].
  unfold a_create. destruct (Z.eqb_spec (ss_default_partition_count s) 0); [done|].
  rewrite Ht. rewrite bool_decide_eq_false_2 by by intros []. destruct (valid_topic t) eqn:Hv; [|done].
  cbn [negb]. intros [= <- <-]. cbn [aw_counters aw_logs].
  split_and?; [apply create_ok; try done; range|done|intros k l ?; by apply lookup_union_Some_l|].
  intros [t' p] l. rewrite lookup_union. destruct (aw_logs a !! (t', p)) as [l1|].
  - rewrite union_Some_l. by intros [= ->].
  - rewrite (left_id_L None union), new_logs_lookup. case_bool_decide; [|done]. by intros [= <-].
Qed.

(** The partition that [append_record] takes in a topic of [n] partitions. *)
Definition chosen (counters : gmap string Z) (input : AppendInput) (n : Z) : Z :=
  match ai_partition input, routing_key (ai_key input) (ai_producer input) with
  | Some p, _ => p
  | None, Some key => crc32 key mod n
  | None, None => default 0 (counters !! ai_topic input)
  end.

Lemma append_effect a input now ack a' :
  aworker_ok s a -> input_typed input -> a_append_record s a input now = (Ok ack, a') ->
  let k := (ai_topic input, pa_partition ack) in
  let l := default empty_log (aw_logs a !! k) in
  exists n l', aw_topics a' !! ai_topic input = Some n /\ 0 <= pa_partition ack < n /\
    pa_partition ack = chosen (aw_counters a) input n /\ valid_time now = true /\
    a_append (cfg s) l (input_record input now) = (Ok (pa_offset ack), l') /\
    aw_logs a' !! k = Some l' /\
    (forall k' l1, k' <> k -> aw_logs a !! k' = Some l1 -> aw_logs a' !! k' = Some l1).
Proof.
  intros Hok Hi. unfold a_append_record.
  destruct (a_ensure s a _) as [[n|e|] a1] eqn:He; try done. cbn [a_bind].
  destruct (ensure_cases a _ n a1 Hok He) as (Hok1 & Hcnt & Hkeep & Hnew).
  apply a_ensure_count in He as Hn.
  destruct (a_choose a1 input n) as [[p|e|] a2] eqn:Hch; try done. cbn [a_bind].
  pose proof (a_choose_range s a1 input n p a2 Hok1 Hi Hn Hch) as Hp.
  assert (aw_logs a2 = aw_logs a1 /\ aw_topics a2 = aw_topics a1 /\ p = chosen (aw_counters a) input n)
    as (Hl2 & Ht2 & Hpc).
  { revert Hch. unfold a_choose, chosen. rewrite <- Hcnt.
    destruct (ai_partition input) as [q|]; [destruct (n <=? q)|destruct (routing_key _ _)];
      by intros [= <- <-]. }
  unfold a_on. rewrite Hl2. destruct (aw_logs a1 !! _) as [l|] eqn:Hl; [|done].
  unfold a_append_at. destruct (valid_time now) eqn:Hv; [|done].
  destruct (a_append _ _ _) as [[o|e|] l'] eqn:Ha; try done. cbn [a_bind]. intros [= <- <-].
  cbn [pa_partition pa_offset]. exists n, l'. cbn [aw_set_log aw_topics aw_logs].
  rewrite Ht2, Hl2, lookup_insert_eq, <- (Hnew _ _ Hl). split_and?; try done; try lia.
  intros k' l1 Hne Hk. rewrite lookup_insert_ne by done. by apply Hkeep.
Qed.

Lemma choose_ok a input n p a' :
  aworker_ok s a -> aw_topics a !! ai_topic input = Some n -> a_choose a input n = (Ok p, a') ->
  aworker_ok s a' /\ aw_logs a' = aw_logs a.
Proof.
  intros Hok Hn. apply (ao_topics _ _ Hok) in Hn as Hr. destruct Hr as [_ [? _]]. unfold a_choose.
  destruct (ai_partition input) as [q|]; [destruct (n <=? q); by intros [= <- <-]|].
  destruct (routing_key _ _); intros [= <- <-]; [done|]. split; [|done].
  eapply aw_counters_ok; [done..|]. by apply Z.mod_pos_bound.
Qed.

Lemma append_ok a input now ack a' :
  aworker_ok s a -> input_typed input -> room 1 a -> a_append_record s a input now = (Ok ack, a') ->
  aworker_ok s a'.
Proof.
  intros Hok Hi Hroom. unfold a_append_record. pose proof (room_ensure s 1 a (ai_topic input) Hroom) as Hroom1.
  destruct (a_ensure s a _) as [[n|e|] a1] eqn:He; try done. cbn [a_bind snd] in *.
  destruct (ensure_cases a _ n a1 Hok He) as (Hok1 & _). apply a_ensure_count in He as Hn.
  destruct (a_choose a1 input n) as [[p|e|] a2] eqn:Hch; try done. cbn [a_bind].
  destruct (choose_ok a1 input n p a2 Hok1 Hn Hch) as [Hok2 Hl2].
  unfold a_on. destruct (aw_logs a2 !! _) as [l|] eqn:Hl; [|done].
  pose proof (ao_logs _ _ Hok2 _ _ Hl) as Hinv. rewrite Hl2 in Hl. apply (room_log 1 a1) in Hl as Hn1; [|done].
  destruct (append_at_run s Hs input now l Hi Hinv) as [_ Hinv']; [lia|].
  destruct (a_append_at _ _ _ _) as [[o|e|] l'] eqn:Ha; try done. cbn [a_bind snd] in *. intros [= <- <-].
  eapply aw_set_log_ok; [done|by rewrite Hl2|done].
Qed.

(** A record that is not appended leaves every log as it is. *)
Lemma append_failure a input now e a' :
  aworker_ok s a -> a_append_record s a input now = (Err e, a') ->
  forall k l, aw_logs a !! k = Some l -> aw_logs a' !! k = Some l.
Proof.
  intros Hok. unfold a_append_record. destruct (a_ensure s a _) as [[n|e1|] a1] eqn:He; try done; cbn [a_bind].
  - destruct (ensure_cases a _ n a1 Hok He) as (_ & _ & Hkeep & _).
    destruct (a_choose a1 input n) as [[p|e1|] a2] eqn:Hch; try done; cbn [a_bind].
    + assert (aw_logs a2 = aw_logs a1) as Hl2.
      { revert Hch. unfold a_choose. repeat case_match; by intros [= <- <-]. }
      unfold a_on. rewrite Hl2. destruct (aw_logs a1 !! _) as [l|] eqn:Hl.
      2:{ cbn [a_bind]. intros [= _ <-]. by rewrite Hl2. }
      destruct (a_append_at _ _ _ _) as [[o|e1|] l'] eqn:Ha; try done. cbn [a_bind]. intros [= _ <-].
      assert (l' = l) as ->.
      { revert Ha. unfold a_append_at. destruct (valid_time now); [|by intros [= _ <-]].
        intros Ha. destruct (a_append_cases (cfg s) l (input_record input now)) as [Hc|(Hc & _)];
          rewrite Ha in Hc; [done|by simplify_eq]. }
      intros k l1 Hk. cbn [aw_set_log aw_logs]. rewrite Hl2, insert_id by done. by apply Hkeep.
    + intros [= _ <-]. revert Hch. unfold a_choose. repeat case_match; intros [= _ <-]. done.
  - intros [= _ <-]. revert He. unfold a_ensure, a_create. repeat (case_match; try done); (intros Heq; by simplify_eq).
Qed.

(* ------------------------------------------------------------------ *)
(** ** A batch for one partition                                        *)
(* ------------------------------------------------------------------ *)

Definition batch_record_at (t : string) (q : option Z) (now : Z) (r : BatchRecord) : LogRecord :=
  input_record (batch_input t q r) now.
Definition batch_records (t : string) (q : option Z) (clock : nat -> Z) (rs : list BatchRecord)
  : list LogRecord := imap (fun i r => batch_record_at t q (clock i) r) rs.
Definition batch_acks (p o : Z) (rs : list BatchRecord) : list ProduceAck :=
  imap (fun i _ => {| pa_partition := p; pa_offset := o + Z.of_nat i |}) rs.

Lemma plain_append l r o l' :
  rec_producer r = None -> al_chunks l <> [] -> a_append (cfg s) l r = (Ok o, l') ->
  o = next (al_chunks l) /\ flat (al_chunks l') = flat (al_chunks l) ++ [r] /\
  low (al_chunks l') = low (al_chunks l) /\ al_chunks l' <> [] /\
  next (al_chunks l') = next (al_chunks l) + 1.
Proof.
  intros Hp Hne Ha. destruct (a_append_cases (cfg s) l r) as [Hc|(Hc & _)]; rewrite Ha in Hc.
  - cbn [snd] in Hc. subst l'. revert Ha. unfold a_append. rewrite Hp. destruct (_ <? _); [done|].
    intros [= <- Heq]. apply (f_equal (fun l => next (al_chunks l))) in Heq. cbn [a_push al_chunks] in Heq.
    rewrite next_push in Heq by done. lia.
  - injection Hc as -> ->. cbn [a_push al_chunks]. rewrite flat_push, low_push, next_push by done.
    split_and?; try done. intros Hnil. apply (f_equal flat) in Hnil. rewrite flat_push in Hnil by done.
    cbn in Hnil. by apply app_eq_nil in Hnil as [_ ?].
Qed.

Lemma batch_effect t p rs : is_u32 p -> forall clock a l o a',
  aworker_ok s a -> room (Z.of_nat (length rs)) a -> aw_logs a !! (t, p) = Some l ->
  a_append_each s a t (Some p) rs clock = (o, a') ->
  exists j l', aw_logs a' !! (t, p) = Some l' /\ (j <= length rs)%nat /\
    flat (al_chunks l') = flat (al_chunks l) ++ take j (batch_records t (Some p) clock rs) /\
    low (al_chunks l') = low (al_chunks l) /\
    (forall k l1, k <> (t, p) -> aw_logs a !! k = Some l1 -> aw_logs a' !! k = Some l1) /\
    match o with
    | Ok acks => j = length rs /\ acks = batch_acks p (next (al_chunks l)) rs
    | Err _ => (j < length rs)%nat
    | Panic => False
    end.
Proof.
  intros Hp. induction rs as [|r rs IH]; intros clock a l o a' Hok Hroom Hl.
  { intros [= <- <-]. exists O, l. rewrite app_nil_r. split_and?; done || lia. }
  cbn [a_append_each length] in *. set (input := batch_input t (Some p) r).
  assert (input_typed input) as Hi by (by split).
  pose proof (total_append s a input (clock O)) as Htot.
  assert (room (Z.of_nat (length rs) + 1) a) as Hroom' by (eapply room_weaken; [done|lia]).
  pose proof (room_append s (Z.of_nat (length rs)) a input (clock O) ltac:(lia) Hroom') as Hroom1.
  destruct (a_append_record s a input (clock O)) as [[ack|e|] a1] eqn:Ha; cbn [a_bind fst snd] in *; [| |done].
  2:{ intros [= <- <-]. exists O, l. pose proof (append_failure a input (clock O) e a1 Hok Ha) as Hf.
      rewrite app_nil_r. split_and?; try done; [by apply Hf|lia|intros; by apply Hf|lia]. }
  assert (aworker_ok s a1) as Hok1.
  { eapply append_ok; [done..| |exact Ha]. eapply room_weaken; [done|lia]. }
  destruct (append_effect a input (clock O) ack a1 Hok Hi Ha) as (n & l1 & _ & _ & Hch & _ & Hap & Hl1 & Hrest).
  cbn [chosen ai_partition ai_topic input batch_input] in Hch, Hap, Hl1, Hrest. rewrite Hch in Hap, Hl1, Hrest.
  rewrite Hl in Hap. cbn [default from_option id] in Hap.
  pose proof (ao_logs _ _ Hok _ _ Hl) as [[Hne _] _].
  destruct (plain_append l (input_record input (clock O)) _ _ eq_refl Hne Hap) as (Hoff & Hflat & Hlow & Hne1 & Hnext).
  destruct (a_append_each s a1 _ _ _ _) as [o2 a2] eqn:E2.
  destruct (IH _ _ _ _ _ Hok1 Hroom1 Hl1 E2) as (j & l2 & Hl2 & Hj & Hflat2 & Hlow2 & Hrest2 & Hres).
  assert (flat (al_chunks l2) = flat (al_chunks l) ++
            take (Datatypes.S j) (batch_records t (Some p) clock (r :: rs))) as Hflat3.
  { rewrite Hflat2, Hflat, <- app_assoc. done. }
  assert (forall k l3, k <> (t, p) -> aw_logs a !! k = Some l3 -> aw_logs a2 !! k = Some l3) as Hrest3
    by (intros k l3 ? ?; apply Hrest2; [done|]; by apply Hrest).
  destruct o2 as [acks|e|]; [| |done]; cbn [a_bind]; intros [= <- <-]; exists (Datatypes.S j), l2;
    (split_and?; [done|lia|done|lia|done|..]); [lia| |lia].
  destruct Hres as [_ ->]. unfold batch_acks. rewrite imap_cons. f_equal.
  - rewrite Z.add_0_r. destruct ack. cbn in *. by subst.
  - apply imap_ext. intros i x _. cbn. f_equal. lia.
Qed.

(* ------------------------------------------------------------------ *)
(** ** Many commands                                                    *)
(* ------------------------------------------------------------------ *)

Lemma forward_step_worker w w' : forward_step s w w' -> worker_step s w w'.
Proof. intros []. by constructor. Qed.

Lemma steps_evolve w w' a :
  rtc (worker_step s) w w' -> represents s w a -> aworker_ok s a ->
  exists a', represents s w' a' /\ aworker_ok s a' /\ evolves false a a' /\ (unshortened s a -> unshortened s a').
Proof.
  intros Hst. revert a. induction Hst as [w|w w1 w' [env c w0 Hc Hn] Hst IH]; intros a Hr Hok; [by exists a|].
  destruct (step_refines w0 a env c) as (Hr1 & Hok1 & _); [done..|].
  destruct (IH _ Hr1 Hok1) as (a' & ? & ? & ? & Hk). exists a'. split_and?; [done..| |].
  - etrans; [|done]. by apply evolves_run.
  - intros Ha. by apply Hk, run_unshortened.
Qed.

Lemma forward_steps_evolve w w' a :
  rtc (forward_step s) w w' -> represents s w a -> aworker_ok s a ->
  exists a', represents s w' a' /\ aworker_ok s a' /\ evolves true a a'.
Proof.
  intros Hst. revert a. induction Hst as [w|w w1 w' [env c w0 Hk Hc Hn] Hst IH]; intros a Hr Hok; [by exists a|].
  destruct (step_refines w0 a env c) as (Hr1 & Hok1 & _); [done..|].
  destruct (IH _ Hr1 Hok1) as (a' & ? & ? & ?). exists a'. split_and?; [done..|].
  etrans; [|done]. by apply evolves_run.
Qed.

(** The end of a log that a plain record was just appended to. *)
(** The record is at its offset. *)
Lemma appended_at l r o l' :
  rec_producer r = None -> a_inv (cfg s) l -> a_append (cfg s) l r = (Ok o, l') ->
  record_at (al_chunks l') o = Some r.
Proof.
  intros Hp [(Hne & _) _] Ha. destruct (plain_append l r o l' Hp Hne Ha) as (-> & Hflat & Hl & _).
  unfold record_at, next. rewrite Hl, Hflat. pose proof (clen_nonneg (flat (al_chunks l))).
  destruct (Z.ltb_spec (low (al_chunks l) + clen (flat (al_chunks l))) (low (al_chunks l))); [lia|].
  replace (Z.to_nat _) with (length (flat (al_chunks l))) by (unfold clen; lia).
  by rewrite list_lookup_middle.
Qed.

Lemma read_last l r o l' m :
  rec_producer r = None -> al_chunks l <> [] -> 0 <= low (al_chunks l) -> m <> 0 ->
  a_append (cfg s) l r = (Ok o, l') -> a_read l' o m = Ok [stored o r].
Proof.
  intros Hp Hne Hlow Hm Ha. destruct (plain_append l r o l' Hp Hne Ha) as (-> & Hflat & Hl & _).
  unfold a_read. rewrite (proj2 (Z.eqb_neq m 0) Hm).
  assert (next (al_chunks l) - low (al_chunks l) = clen (flat (al_chunks l))) as Hdiff
    by (unfold next; lia).
  rewrite from_offset_spec by (rewrite Hl; unfold next; pose proof (clen_nonneg (flat (al_chunks l))); lia).
  rewrite Hl, Hflat, Hdiff. unfold clen. rewrite Nat2Z.id, drop_app_length. done.
Qed.

Lemma worker_start : represents s (snd (recover_storage s ∅)) {| aw_logs := ∅; aw_topics := ∅; aw_counters := ∅ |}
  /\ aworker_ok s {| aw_logs := ∅; aw_topics := ∅; aw_counters := ∅ |}.
Proof.
  assert (aworker_ok s {| aw_logs := ∅; aw_topics := ∅; aw_counters := ∅ |}) as Hok.
  { split; cbn [aw_logs aw_topics aw_counters]; try by intros t n; rewrite lookup_empty.
    - intros t p. rewrite lookup_empty. split; [by intros []|]. intros (n & Hn & _). by rewrite lookup_empty in Hn. }
  split; [|done]. destruct (recover_storage_spec s Hs _ Hok) with (data := ∅ : DataDir) as (w & -> & Hr).
  - apply map_Forall_empty.
  - split; cbn [aw_logs].
    + by intros t p l; rewrite lookup_empty.
    + intros t name. unfold topic_dir_of. rewrite lookup_empty. cbn. rewrite lookup_empty. by intros [].
    + intros t. rewrite lookup_empty. by intros [].
  - exact Hr.
Qed.
End runs.

(* ------------------------------------------------------------------ *)
(** ** Properties                                                       *)
(* ------------------------------------------------------------------ *)

(** Settings to run examples with: small segments, two partitions a topic. *)
Definition sample_settings : StorageSettings :=
  {| ss_max_segment_bytes := 100; ss_index_interval_bytes := 16; ss_default_partition_count := 2;
     ss_retention_bytes := None; ss_retention_age := None; ss_auto_create_topics := true |}.
Definition sample_ambient : Ambient :=
  {| am_clock := fun i => 5 + Z.of_nat i; am_reached := fun _ _ => false; am_order := [] |}.
Definition keyed (key value : string) : AppendInput :=
  {| ai_topic := "payments"; ai_partition := None; ai_key := as_bytes key; ai_value := as_bytes value;
     ai_ack_mode := AckLeader; ai_producer := None |}.

#[local] Existing Instance length_crc.
#[local] Existing Instance length_crc_ok.

Lemma sample_settings_ok : settings_ok sample_settings.
Proof. repeat split; vm_compute; (reflexivity || discriminate). Qed.

(** A worker that started on an empty directory. *)
Definition fresh_worker : Worker := snd (recover_storage sample_settings ∅).
Definition no_topics : AWorker := {| aw_logs := ∅; aw_topics := ∅; aw_counters := ∅ |}.
Lemma fresh_represents : represents sample_settings fresh_worker no_topics.
Proof. exact (proj1 (worker_start sample_settings sample_settings_ok)). Qed.
Lemma no_topics_ok : aworker_ok sample_settings no_topics.
Proof. exact (proj2 (worker_start sample_settings sample_settings_ok)). Qed.
Lemma fresh_worker_ok : worker_ok sample_settings fresh_worker.
Proof. exists no_topics. split; [apply fresh_represents|split; [apply no_topics_ok|done]]. Qed.

(** C1 The storage worker implements its specification: from a state that
    represents a map of abstract logs, every command gives the reply of the
    abstract worker and leaves a state that represents the abstract result, with
    the invariant kept; no command panics. *)
Theorem worker_refines `{!Crc32} `{!Crc32Ok} s w a env c :
  settings_ok s -> represents s w a -> aworker_ok s a -> command_typed c -> roomy (demand c) w ->
  let '(o, w') := run_command s env c w in
  let '(o', a') := a_run s env c a in
  o = o' /\ o <> Panic /\ represents s w' a' /\ aworker_ok s a'.
Proof.
  intros Hs Hr Hok Hc Hn. destruct (step_refines s Hs w a env c) as (Hr' & Hok' & Ho); [done..|].
  pose proof (a_run_total s env c a). destruct (run_command s env c w), (a_run s env c a).
  cbn [fst snd] in *. by subst.
Qed.

Lemma worker_refines_witness :
  let '(o, w') := run_command sample_settings sample_ambient (Append (keyed "k" "v")) fresh_worker in
  let '(o', a') := a_run sample_settings sample_ambient (Append (keyed "k" "v")) no_topics in
  o = o' /\ o <> Panic /\ represents sample_settings w' a' /\ aworker_ok sample_settings a'.
Proof.
  apply (worker_refines sample_settings fresh_worker no_topics sample_ambient (Append (keyed "k" "v"))).
  - apply sample_settings_ok.
  - apply fresh_represents.
  - apply no_topics_ok.
  - split; exact I.
  - by apply roomy_by_check.
Defined.

(** Over any run of commands the worker keeps its invariant: every partition
    of every topic has an open log that agrees with its directory, a topic keeps
    its number of partitions, and the next command does not panic. *)
Theorem worker_invariant `{!Crc32} `{!Crc32Ok} s w w' env c :
  settings_ok s -> worker_ok s w -> rtc (worker_step s) w w' ->
  worker_ok s w' /\
  (forall t n, wk_topics w !! t = Some n -> wk_topics w' !! t = Some n) /\
  (forall t n p, wk_topics w' !! t = Some n -> 0 <= p < n -> is_Some (wk_logs w' !! (t, p))) /\
  (command_typed c -> roomy (demand c) w' -> fst (run_command s env c w') <> Panic).
Proof.
  intros Hs (a & Hr & Hok & Hk) Hst.
  destruct (steps_evolve s Hs w w' a) as (a' & Hr' & Hok' & [Ht _] & Hk'); [done..|].
  split; [exists a'; auto|]. rewrite (rp_topics _ _ _ Hr), (rp_topics _ _ _ Hr').
  split; [done|]. split.
  - intros t n p Hn Hp. rewrite (wk_log s w' a') by done. apply fmap_is_Some.
    apply (ao_keys _ _ Hok'). eauto.
  - intros Hc Hn. destruct (step_refines s Hs w' a' env c) as (_ & _ & ->); [done..|]. apply a_run_total.
Qed.

Lemma worker_invariant_witness :
  let w' := snd (run_command sample_settings sample_ambient (CreateTopic "payments" 2) fresh_worker) in
  worker_ok sample_settings w' /\
  (forall t n, wk_topics fresh_worker !! t = Some n -> wk_topics w' !! t = Some n) /\
  (forall t n p, wk_topics w' !! t = Some n -> 0 <= p < n -> is_Some (wk_logs w' !! (t, p))) /\
  (command_typed Snapshot -> roomy (demand Snapshot) w' ->
   fst (run_command sample_settings sample_ambient Snapshot w') <> Panic).
Proof.
  apply (worker_invariant sample_settings fresh_worker).
  - apply sample_settings_ok.
  - apply fresh_worker_ok.
  - apply rtc_once. constructor; [split; vm_compute; discriminate|].
    by apply roomy_by_check.
Defined.

(** Where a record goes: the partition is the one asked for, else the one of
    the CRC of its key (or of its producer's name), else the topic's next; it is
    one of the topic's partitions; the log of that partition takes the record as
    [append] specifies, and no other log changes.  A refused record changes no
    log. *)
Theorem append_routes `{!Crc32} `{!Crc32Ok} s w a input now :
  settings_ok s -> represents s w a -> aworker_ok s a -> input_typed input -> roomy 1 w ->
  let '(o, w') := append_record s input now w in
  exists a', represents s w' a' /\ aworker_ok s a' /\
  match o with
  | Ok ack =>
      let k := (ai_topic input, pa_partition ack) in
      exists n l', wk_topics w' !! ai_topic input = Some n /\ 0 <= pa_partition ack < n /\
        pa_partition ack = chosen (wk_round_robin w) input n /\
        a_append (cfg s) (default empty_log (aw_logs a !! k)) (input_record input now) =
          (Ok (pa_offset ack), l') /\
        aw_logs a' !! k = Some l' /\
        (forall k' l, k' <> k -> aw_logs a !! k' = Some l -> aw_logs a' !! k' = Some l)
  | Err _ => forall k l, aw_logs a !! k = Some l -> aw_logs a' !! k = Some l
  | Panic => False
  end.
Proof.
  intros Hs Hr Hok Hi Hn%(roomy_room s _ _ a); [|done].
  destruct (append_record_refines s Hs w a input now) as (Ho & Hr' & Hok'); [done..|].
  pose proof (total_append s a input now) as Htot.
  destruct (append_record s input now w) as [o w'], (a_append_record s a input now) as [o' a'] eqn:Ha.
  cbn [fst snd] in *. subst o'. exists a'. split; [done|]. split; [done|]. destruct o as [ack|e|]; [| |done].
  - destruct (append_effect s Hs a input now ack a' Hok Hi Ha) as (n & l' & ? & ? & ? & ? & ? & ? & ?).
    rewrite (rp_topics _ _ _ Hr'), (rp_counters _ _ _ Hr). exists n, l'. split_and?; done || lia.
  - by eapply append_failure.
Qed.

Lemma append_routes_witness :
  let '(o, w') := append_record sample_settings (keyed "k" "v") 5 fresh_worker in
  exists a', represents sample_settings w' a' /\ aworker_ok sample_settings a' /\
  match o with
  | Ok ack =>
      let k := ("payments", pa_partition ack) in
      exists n l', wk_topics w' !! "payments" = Some n /\ 0 <= pa_partition ack < n /\
        pa_partition ack = chosen (wk_round_robin fresh_worker) (keyed "k" "v") n /\
        a_append (cfg sample_settings) (default empty_log (aw_logs no_topics !! k))
          (input_record (keyed "k" "v") 5) = (Ok (pa_offset ack), l') /\
        aw_logs a' !! k = Some l' /\
        (forall k' l, k' <> k -> aw_logs no_topics !! k' = Some l -> aw_logs a' !! k' = Some l)
  | Err _ => forall k l, aw_logs no_topics !! k = Some l -> aw_logs a' !! k = Some l
  | Panic => False
  end.
Proof.
  apply (append_routes sample_settings fresh_worker no_topics (keyed "k" "v") 5).
  - apply sample_settings_ok.
  - apply fresh_represents.
  - apply no_topics_ok.
  - split; exact I.
  - by apply roomy_by_check.
Defined.



(** A batch for a partition: its records are appended in order, with
    consecutive offsets from the log's end; when one is refused, exactly the
    records before it stay in the log and the caller gets the error.  No other
    log changes. *)
Theorem batch_in_partition `{!Crc32} `{!Crc32Ok} s w a input p l clock :
  settings_ok s -> represents s w a -> aworker_ok s a ->
  ba_partition input = Some p -> is_u32 p -> aw_logs a !! (ba_topic input, p) = Some l ->
  roomy (Z.of_nat (length (ba_records input))) w ->
  let '(o, w') := append_batch_records s input clock w in
  let records := batch_records (ba_topic input) (Some p) clock (ba_records input) in
  exists a' j l', represents s w' a' /\ aworker_ok s a' /\
    aw_logs a' !! (ba_topic input, p) = Some l' /\
    low (al_chunks l') = low (al_chunks l) /\
    flat (al_chunks l') = flat (al_chunks l) ++ take j records /\
    (forall k l1, k <> (ba_topic input, p) -> aw_logs a !! k = Some l1 -> aw_logs a' !! k = Some l1) /\
    match o with
    | Ok acks => j = length records /\ acks = batch_acks p (next (al_chunks l)) (ba_records input)
    | Err _ => (j < length records)%nat
    | Panic => False
    end.
Proof.
  intros Hs Hr Hok Hq Hp Hl Hn%(roomy_room s _ _ a); [|done].
  destruct (append_batch_refines s Hs w a input clock) as (Ho & Hr' & Hok'); [done|done|by rewrite Hq|done|].
  rewrite Hq in *.
  destruct (append_batch_records s input clock w) as [o w'], (a_append_each s a _ _ _ _) as [o' a'] eqn:Ha.
  cbn [fst snd] in *. subst o'. cbv zeta.
  destruct (batch_effect s Hs _ _ _ Hp _ _ _ _ _ Hok Hn Hl Ha) as (j & l' & Hl' & Hj & Hf & Hlow & Hrest & Hres).
  exists a', j, l'. unfold batch_records in *. rewrite length_imap. by split_and?.
Qed.

Definition two_records : BatchAppendInput :=
  {| ba_topic := "payments"; ba_partition := Some 1;
     ba_records := [{| br_key := []; br_payload := as_bytes "one" |};
                    {| br_key := []; br_payload := as_bytes "two" |}];
     ba_ack_mode := AckDurable |}.
Lemma batch_in_partition_witness :
  let w := snd (create_topic sample_settings "payments" 2 fresh_worker) in
  let a := snd (a_create no_topics "payments" 2) in
  let '(o, w') := append_batch_records sample_settings two_records (fun _ => 7) w in
  let records := batch_records "payments" (Some 1) (fun _ => 7) (ba_records two_records) in
  exists a' j l', represents sample_settings w' a' /\ aworker_ok sample_settings a' /\
    aw_logs a' !! ("payments", 1) = Some l' /\
    low (al_chunks l') = low (al_chunks empty_log) /\
    flat (al_chunks l') = flat (al_chunks empty_log) ++ take j records /\
    (forall k l1, k <> ("payments", 1) -> aw_logs a !! k = Some l1 -> aw_logs a' !! k = Some l1) /\
    match o with
    | Ok acks => j = length records /\
        acks = batch_acks 1 (next (al_chunks empty_log)) (ba_records two_records)
    | Err _ => (j < length records)%nat
    | Panic => False
    end.
Proof.
  destruct (create_topic_refines sample_settings sample_settings_ok fresh_worker no_topics "payments" 2
              fresh_represents no_topics_ok) as (_ & Hr & Hok); [split; vm_compute; discriminate|].
  apply (batch_in_partition sample_settings _ (snd (a_create no_topics "payments" 2)) two_records 1 empty_log
           (fun _ => 7)).
  - apply sample_settings_ok.
  - exact Hr.
  - exact Hok.
  - reflexivity.
  - split; vm_compute; discriminate.
  - vm_compute. reflexivity.
  - apply roomy_by_check. vm_compute. reflexivity.
Defined.

(** Restarting: the worker that starts on the data directory of a worker, shut
    down or killed while it wrote a record (each partition's directory is that of
    its log, but for its index files and a torn record at its end), has the same
    topics, partitions and logs; only the round-robin counters start again. *)
Theorem restart_recovers `{!Crc32} `{!Crc32Ok} s w a data :
  settings_ok s -> represents s w a -> aworker_ok s a ->
  map_Forall (fun _ => complete) (aw_logs a) ->
  data = wk_data w \/ salvageable s a data ->
  exists w', recover_storage s data = (Ok tt, w') /\ represents s w' (recovered a) /\
    aworker_ok s (recovered a) /\ wk_logs w' = wk_logs w /\ wk_topics w' = wk_topics w.
Proof.
  intros Hs Hr Hok Hc Hdata.
  assert (salvageable s a data) as Hsv
    by (destruct Hdata as [->|]; [by apply represents_salvageable|done]).
  destruct (recover_storage_spec s Hs a Hok Hc data Hsv) as (w' & Hrun & Hr'). exists w'.
  split; [done|]. split; [done|]. split; [|by rewrite (rp_logs _ _ _ Hr), (rp_logs _ _ _ Hr'),
    (rp_topics _ _ _ Hr), (rp_topics _ _ _ Hr')].
  destruct Hok as [? ? ? ?]. split; cbn [recovered aw_logs aw_topics aw_counters]; try done.
Qed.

Lemma restart_recovers_witness :
  let w := snd (create_topic sample_settings "payments" 2 fresh_worker) in
  let a := snd (a_create no_topics "payments" 2) in
  exists w', recover_storage sample_settings (wk_data w) = (Ok tt, w') /\
    represents sample_settings w' (recovered a) /\ aworker_ok sample_settings (recovered a) /\
    wk_logs w' = wk_logs w /\ wk_topics w' = wk_topics w.
Proof.
  destruct (create_topic_refines sample_settings sample_settings_ok fresh_worker no_topics "payments" 2
              fresh_represents no_topics_ok) as (_ & Hr & Hok); [split; vm_compute; discriminate|].
  apply (restart_recovers sample_settings _ (snd (a_create no_topics "payments" 2))).
  - apply sample_settings_ok.
  - exact Hr.
  - exact Hok.
  - apply map_Forall_union_2; [apply map_Forall_empty|]. intros [t p] l. rewrite new_logs_lookup.
    case_bool_decide; intros [= <-]. by repeat split.
  - by left.
Defined.

(** A record that was acknowledged can be fetched: a read at its partition and
    offset gives back its key, its value and its time. *)
Theorem produce_then_fetch `{!Crc32} `{!Crc32Ok} s w w' input now ack max_bytes :
  settings_ok s -> worker_ok s w -> input_typed input -> ai_producer input = None ->
  roomy 1 w -> max_bytes <> 0 -> append_record s input now w = (Ok ack, w') ->
  fst (read_records s (ai_topic input) (pa_partition ack) (pa_offset ack) max_bytes w') =
  Ok [{| fd_offset := pa_offset ack; fd_timestamp_ms := now;
         fd_key := if bool_decide (ai_key input = []) then None else Some (ai_key input);
         fd_value := ai_value input |}].
Proof.
  intros Hs (a & Hr & Hok & _) Hi Hd Hn%(roomy_room s _ _ a) Hm He; [|done].
  destruct (append_record_refines s Hs w a input now) as (Ho & Hr' & Hok'); [done..|].
  destruct (a_append_record s a input now) as [o a'] eqn:Ha. rewrite He in Ho, Hr'. cbn [fst snd] in *. subst o.
  destruct (append_effect s Hs a input now ack a' Hok Hi Ha) as (n & l' & Hn' & Hp & _ & _ & Hap & Hl' & _).
  apply (ao_topics _ _ Hok') in Hn' as Hrange. destruct Hrange as [_ ?].
  destruct (read_records_refines s Hs w' a' (ai_topic input) (pa_partition ack) (pa_offset ack) max_bytes)
    as (-> & _); [done|done|range|].
  unfold a_read_records, a_ensure. rewrite Hn'. cbn [a_bind]. rewrite Hl'.
  assert (a_inv (cfg s) (default empty_log (aw_logs a !! (ai_topic input, pa_partition ack)))) as [[Hne [Hlo _]] _].
  { destruct (aw_logs a !! _) as [l|] eqn:Hl; [by apply (ao_logs _ _ Hok) in Hl|apply inv_empty]. }
  by rewrite (read_last s _ (input_record input now) (pa_offset ack) l' max_bytes Hd Hne Hlo Hm Hap).
Qed.

Lemma produce_then_fetch_witness :
  fst (read_records sample_settings "payments" 1 0 1000
         (snd (append_record sample_settings (keyed "k" "one") 5 fresh_worker))) =
  Ok [{| fd_offset := 0; fd_timestamp_ms := 5; fd_key := Some (as_bytes "k"); fd_value := as_bytes "one" |}].
Proof.
  apply (produce_then_fetch sample_settings fresh_worker
           (snd (append_record sample_settings (keyed "k" "one") 5 fresh_worker)) (keyed "k" "one") 5
           {| pa_partition := 1; pa_offset := 0 |} 1000).
  - apply sample_settings_ok.
  - apply fresh_worker_ok.
  - split; exact I.
  - reflexivity.
  - by apply roomy_by_check.
  - discriminate.
  - vm_compute. reflexivity.
Defined.
