(* ===== verification/Queue.v ===== *)
(** * Queue: the storage queue of [crates/broker/src/lib.rs].

    Handlers do not touch the storage: a [StorageHandle] sends a command over a
    bounded channel and waits for its answer; [run_storage_worker] takes the
    commands off one after the other.  The channel is a library ([tokio::mpsc]);
    [ChannelLaws] says what its documentation promises. *)

From stdpp Require Import base numbers list strings gmap.
From Stdlib Require Import ZArith Lia Sorting.Sorted.
From S2P Require Import Prelude Text Files Protocol Record RecordFacts Log LogRep Storage Worker WorkerSpec WorkerFacts Whole WorkerOpen Topics.

(* ------------------------------------------------------------------ *)
(** ** Channels                                                         *)
(* ------------------------------------------------------------------ *)

Class Channel (Q : Type -> Type) := {
  ch_new {M : Type} : nat -> Q M;
  ch_capacity {M : Type} : Q M -> nat;
  ch_contents {M : Type} : Q M -> list M;
  (** nothing if there is no room *)
  ch_send {M : Type} : M -> Q M -> option (Q M);
  ch_recv {M : Type} : Q M -> option (M * Q M)
}.
Class ChannelLaws (Q : Type -> Type) `{!Channel Q} := {
  ch_new_empty {M : Type} n : ch_contents (ch_new (M := M) n) = [];
  ch_new_capacity {M : Type} n : ch_capacity (ch_new (M := M) n) = n;
  ch_send_room {M : Type} (m : M) (q : Q M) : (length (ch_contents q) < ch_capacity q)%nat ->
    exists q', ch_send m q = Some q' /\ ch_contents q' = ch_contents q ++ [m] /\ ch_capacity q' = ch_capacity q;
  ch_send_full {M : Type} (m : M) (q : Q M) : (ch_capacity q <= length (ch_contents q))%nat -> ch_send m q = None;
  ch_recv_empty {M : Type} (q : Q M) : ch_contents q = [] -> ch_recv q = None;
  ch_recv_first {M : Type} (m : M) ms (q : Q M) : ch_contents q = m :: ms ->
    exists q', ch_recv q = Some (m, q') /\ ch_contents q' = ms /\ ch_capacity q' = ch_capacity q
}.

(* ------------------------------------------------------------------ *)
(** ** The handle and the worker                                        *)
(* ------------------------------------------------------------------ *)

(** What a caller of the handle gets. *)
Inductive QueueAnswer :=
| Answered (o : outcome StorageError StorageReply)
| Busy
| Unavailable.
Abbreviation Ticket := (nat * StorageCommand)%type.

Section queue.
Context {Q : Type -> Type} `{!Channel Q} `{!Crc32}.
Context (settings : StorageSettings).

(** Commands are numbered in the order of their calls; the worker lives until it panics. *)
Record StorageQueue := {
  qs_worker : Worker;
  qs_queue : Q Ticket;
  qs_alive : bool;
  qs_next : nat;
  qs_answers : gmap nat QueueAnswer
}.
Definition start_queue (capacity : nat) (w : Worker) : StorageQueue :=
  {| qs_worker := w; qs_queue := ch_new capacity; qs_alive := true; qs_next := 0; qs_answers := ∅ |}.
(** [queue_depth] *)
Definition queue_depth (st : StorageQueue) : nat := length (ch_contents (qs_queue st)).

(** The answer a caller gets when the command does not enter the queue. *)
Definition refuse (a : QueueAnswer) (st : StorageQueue) : StorageQueue :=
  {| qs_worker := qs_worker st; qs_queue := qs_queue st; qs_alive := qs_alive st;
     qs_next := S (qs_next st); qs_answers := <[qs_next st := a]> (qs_answers st) |}.
(** [enqueue]: the command is sent while there is room, or the timeout passes
    while there is none; a worker that has panicked has dropped the channel. *)
Definition enqueue (c : StorageCommand) (st : StorageQueue) : StorageQueue :=
  if qs_alive st then
    match ch_send (qs_next st, c) (qs_queue st) with
    | Some q => {| qs_worker := qs_worker st; qs_queue := q; qs_alive := true; qs_next := S (qs_next st);
                   qs_answers := qs_answers st |}
    | None => refuse Busy st
    end
  else refuse Unavailable st.

(** The channels of their answers close. *)
Definition abandon (ts : list Ticket) (answers : gmap nat QueueAnswer) : gmap nat QueueAnswer :=
  foldr (fun t m => <[t.1 := Unavailable]> m) answers ts.
(** A turn of the loop of [run_storage_worker]; when it panics, the callers that
    wait find the channel of their answer closed. *)
Definition work (env : Ambient) (st : StorageQueue) : StorageQueue :=
  if qs_alive st then
    match ch_recv (qs_queue st) with
    | None => st
    | Some ((id, c), q) =>
        let '(o, w) := run_command settings env c (qs_worker st) in
        match o with
        | Panic =>
            {| qs_worker := w; qs_queue := q; qs_alive := false; qs_next := qs_next st;
               qs_answers := abandon ((id, c) :: ch_contents q) (qs_answers st) |}
        | _ =>
            {| qs_worker := w; qs_queue := q; qs_alive := true; qs_next := qs_next st;
               qs_answers := <[id := Answered o]> (qs_answers st) |}
        end
    end
  else st.

(** The states of a queue that started with the worker [w0], with the commands
    its callers have asked for so far. *)
Inductive queue_run (capacity : nat) (w0 : Worker) : list StorageCommand -> StorageQueue -> Prop :=
| starts : queue_run capacity w0 [] (start_queue capacity w0)
| asks calls st c : queue_run capacity w0 calls st -> queue_run capacity w0 (calls ++ [c]) (enqueue c st)
| works calls st env : queue_run capacity w0 calls st -> queue_run capacity w0 calls (work env st).

(** The worker alone, given the commands one after the other. *)
Abbreviation Job := (nat * StorageCommand * Ambient)%type.
Fixpoint run_jobs (jobs : list Job) (w : Worker) : list (nat * outcome StorageError StorageReply) * Worker :=
  match jobs with
  | [] => ([], w)
  | (id, c, env) :: jobs =>
      let '(o, w) := run_command settings env c w in
      let '(os, w) := run_jobs jobs w in ((id, o) :: os, w)
  end.

Lemma run_jobs_app a b w :
  run_jobs (a ++ b) w =
  (fst (run_jobs a w) ++ fst (run_jobs b (snd (run_jobs a w))), snd (run_jobs b (snd (run_jobs a w)))).
Proof.
  revert w. induction a as [|[[id c] env] a IH]; intros w; cbn [app run_jobs fst snd].
  { by destruct (run_jobs b w) as [os w2]. }
  destruct (run_command settings env c w) as [o w1]. rewrite IH. destruct (run_jobs a w1) as [os w2]. cbn [fst snd].
  by destruct (run_jobs b w2) as [os2 w3].
Qed.
Lemma run_jobs_ids jobs w : (fst (run_jobs jobs w)).*1 = (fun j => j.1.1) <$> jobs.
Proof.
  revert w. induction jobs as [|[[id c] env] jobs IH]; intros w; cbn [run_jobs]; [done|].
  destruct (run_command settings env c w) as [o w1]. specialize (IH w1).
  destruct (run_jobs jobs w1). cbn in *. by rewrite IH.
Qed.

Lemma abandon_lookup ts m id : id ∈ ts.*1 -> abandon ts m !! id = Some Unavailable.
Proof.
  induction ts as [|t ts IH]; cbn; [by intros ?%not_elem_of_nil|]. intros Hin.
  destruct (decide (id = t.1)) as [->|Hd]; [by rewrite lookup_insert_eq|]. rewrite lookup_insert_ne by done.
  apply elem_of_cons in Hin as [?|?]; [done|auto].
Qed.
Lemma abandon_other ts m id : id ∉ ts.*1 -> abandon ts m !! id = m !! id.
Proof.
  induction ts as [|t ts IH]; cbn; [done|]. rewrite not_elem_of_cons. intros [Hd Hni].
  rewrite lookup_insert_ne by done. auto.
Qed.

Context `{!ChannelLaws Q}.

(* ------------------------------------------------------------------ *)
(** ** The invariant                                                    *)
(* ------------------------------------------------------------------ *)

Definition job_ids (jobs : list Job) : list nat := (fun j => j.1.1) <$> jobs.
(** The commands whose callers wait. *)
Definition pending (st : StorageQueue) : list Ticket :=
  if qs_alive st then ch_contents (qs_queue st) else [].

(** [jobs] are the commands that were run, in the order in which they were asked for. *)
Record served (calls : list StorageCommand) (w0 : Worker) (st : StorageQueue) (jobs : list Job) : Prop := {
  sv_next : qs_next st = length calls;
  sv_worker : qs_alive st = true -> qs_worker st = snd (run_jobs jobs w0);
  sv_answers id o : qs_answers st !! id = Some (Answered o) <-> (id, o) ∈ fst (run_jobs jobs w0);
  sv_order : StronglySorted lt (job_ids jobs ++ (pending st).*1);
  sv_jobs : Forall (fun j : Job => calls !! j.1.1 = Some j.1.2) jobs;
  sv_pending : Forall (fun t : Ticket => calls !! t.1 = Some t.2) (pending st);
  sv_waiting id : id ∈ (pending st).*1 -> qs_answers st !! id = None;
  sv_known id a : qs_answers st !! id = Some a -> (id < length calls)%nat;
  sv_all id : (id < length calls)%nat ->
    id ∈ job_ids jobs \/ id ∈ (pending st).*1 \/ qs_answers st !! id = Some Busy \/
    (qs_alive st = false /\ qs_answers st !! id = Some Unavailable);
  sv_unavailable id : qs_answers st !! id = Some Unavailable -> qs_alive st = false;
  sv_returns id o : qs_answers st !! id = Some (Answered o) -> o <> Panic
}.

Lemma sorted_snoc l x : StronglySorted lt l -> Forall (fun y => (y < x)%nat) l -> StronglySorted lt (l ++ [x]).
Proof.
  induction 1 as [|y l Hl IH Hy]; intros HF; cbn; [repeat constructor|].
  apply Forall_cons in HF as [Hyx HF]. constructor; [auto|]. apply Forall_app. split; [done|by repeat constructor].
Qed.
Lemma sorted_prefix (a b : list nat) : StronglySorted lt (a ++ b) -> StronglySorted lt a.
Proof.
  induction a as [|x a IH]; cbn; intros Hs; [constructor|]. inversion Hs as [|? ? Hs' HF]; subst.
  constructor; [auto|]. by apply Forall_app in HF as [HF _].
Qed.
Lemma sorted_before (a b : list nat) x : StronglySorted lt (a ++ x :: b) -> Forall (fun y => (y < x)%nat) a.
Proof.
  induction a as [|y a IH]; cbn; intros Hs; [done|]. inversion Hs as [|? ? Hs' HF]; subst.
  constructor; [|auto]. rewrite Forall_forall in HF. apply HF, elem_of_app. right. by left.
Qed.
Lemma sorted_once a b x : StronglySorted lt (a ++ x :: b) -> (x ∉ a) /\ (x ∉ b).
Proof.
  induction a as [|y a IH]; cbn; intros Hs; inversion Hs as [|? ? Hs' HF]; subst.
  - split; [apply not_elem_of_nil|]. intros Hin. rewrite Forall_forall in HF. specialize (HF x Hin). lia.
  - destruct (IH Hs') as [Ha Hb]. split; [|done]. rewrite not_elem_of_cons. split; [|done].
    rewrite Forall_forall in HF. specialize (HF x ltac:(apply elem_of_app; right; by left)). lia.
Qed.
Lemma called_below {A} (calls : list StorageCommand) (f : A -> nat) (g : A -> StorageCommand) l :
  Forall (fun x => calls !! f x = Some (g x)) l -> Forall (fun id => (id < length calls)%nat) (f <$> l).
Proof. rewrite Forall_fmap. intros HF. eapply Forall_impl; [exact HF|]. intros x. apply lookup_lt_Some. Qed.
Lemma called_more {A} (calls : list StorageCommand) (f : A -> nat) (g : A -> StorageCommand) l c :
  Forall (fun x => calls !! f x = Some (g x)) l -> Forall (fun x => (calls ++ [c]) !! f x = Some (g x)) l.
Proof. intros HF. eapply Forall_impl; [exact HF|]. intros x. apply lookup_app_l_Some. Qed.

Section invariant.
Context {calls : list StorageCommand} {w0 : Worker} {st : StorageQueue} {jobs : list Job}.
Hypothesis Hserved : served calls w0 st jobs.

Lemma served_below : Forall (fun id => (id < length calls)%nat) (job_ids jobs ++ (pending st).*1).
Proof. destruct Hserved. apply Forall_app. split;
  [exact (called_below calls (fun j : Job => j.1.1) (fun j => j.1.2) _ sv_jobs0)|exact (called_below calls fst snd _ sv_pending0)].
Qed.
Lemma served_fresh : length calls ∉ job_ids jobs ++ (pending st).*1.
Proof. intros Hin. pose proof served_below as HF. rewrite Forall_forall in HF. specialize (HF _ Hin). lia. Qed.

Lemma refuse_served c a :
  (a = Busy \/ qs_alive st = false /\ a = Unavailable) ->
  served (calls ++ [c]) w0 (refuse a st) jobs.
Proof.
  intros Hkind. pose proof served_fresh as Hfresh. rewrite not_elem_of_app in Hfresh. destruct Hfresh as [Hj Hp].
  destruct Hserved as [Hn Hw Ha Ho Hjobs Hpend Hwt Hk Hall Hun Hret].
  split; unfold pending in *; cbn [refuse qs_worker qs_answers qs_next qs_queue qs_alive]; rewrite ?Hn, ?length_app; cbn; try done.
  - lia.
  - intros id o. destruct (decide (id = length calls)) as [->|Hd]; [|by rewrite lookup_insert_ne].
    rewrite lookup_insert_eq. split; [intros [= ->]; by destruct Hkind as [|[]]|]. intros Hin. destruct Hj.
    unfold job_ids. rewrite <- (run_jobs_ids jobs w0). by apply (list_elem_of_fmap_2 fst) in Hin.
  - by apply (called_more calls _ _ _ c).
  - by apply (called_more calls _ _ _ c).
  - intros id Hin. rewrite lookup_insert_ne; [by apply Hwt|]. by intros <-.
  - intros id b. destruct (decide (id = length calls)) as [->|Hd]; [lia|]. rewrite lookup_insert_ne by done.
    intros Hid. specialize (Hk id b Hid). lia.
  - intros id Hid. destruct (decide (id = length calls)) as [->|Hd].
    + rewrite lookup_insert_eq. destruct Hkind as [->|[Hdead ->]]; auto.
    + rewrite lookup_insert_ne by done. apply Hall. lia.
  - intros id. destruct (decide (id = length calls)) as [->|Hd]; [|rewrite lookup_insert_ne by done; apply Hun].
    rewrite lookup_insert_eq. intros [= ->]. by destruct Hkind as [|[]].
  - intros id o. destruct (decide (id = length calls)) as [->|Hd]; [|rewrite lookup_insert_ne by done; apply Hret].
    rewrite lookup_insert_eq. intros [= ->]. by destruct Hkind as [|[]].
Qed.

Lemma enqueue_served c : served (calls ++ [c]) w0 (enqueue c st) jobs.
Proof.
  unfold enqueue. destruct (qs_alive st) eqn:Halive; [|apply refuse_served; auto].
  destruct (decide (length (ch_contents (qs_queue st)) < ch_capacity (qs_queue st))%nat) as [Hroom|Hfull];
    [|rewrite ch_send_full by lia; apply refuse_served; auto].
  pose proof served_fresh as Hfresh. rewrite not_elem_of_app in Hfresh. destruct Hfresh as [Hj Hp].
  pose proof served_below as Hbelow.
  destruct (ch_send_room (qs_next st, c) _ Hroom) as (q & -> & Hq & _).
  destruct Hserved as [Hn Hw Ha Ho Hjobs Hpend Hwt Hk Hall Hun Hret]. unfold pending in *. rewrite Halive in *.
  assert (qs_answers st !! length calls = None) as Hnone.
  { destruct (qs_answers st !! length calls) eqn:E; [|done]. apply Hk in E. lia. }
  split; unfold pending in *; cbn [qs_worker qs_answers qs_next qs_queue qs_alive];
    rewrite ?Hq, ?fmap_app, ?Hn, ?length_app, ?app_assoc; cbn; try done.
  - lia.
  - by apply sorted_snoc.
  - by apply (called_more calls _ _ _ c).
  - apply Forall_app. split; [by apply called_more|]. constructor; [|done]. cbn.
    by rewrite lookup_app_r, Nat.sub_diag.
  - intros id [Hin| ->%list_elem_of_singleton]%elem_of_app; [by apply Hwt|done].
  - intros id b Hid. specialize (Hk id b Hid). lia.
  - intros id Hid. destruct (decide (id = length calls)) as [->|Hd].
    + right. left. apply elem_of_app. right. by left.
    + rewrite elem_of_app. destruct (Hall id ltac:(lia)) as [?|[?|[?|[]]]]; auto.
Qed.

(** When the worker panics, everyone who waits is told that the storage is unavailable. *)
Lemma panic_served q w t ms :
  qs_alive st = true -> pending st = t :: ms ->
  served calls w0
    {| qs_worker := w; qs_queue := q; qs_alive := false; qs_next := qs_next st;
       qs_answers := abandon (t :: ms) (qs_answers st) |} jobs.
Proof.
  intros Halive Hp. destruct Hserved as [Hn Hw Ha Ho Hjobs Hpend Hwt Hk Hall Hun Hret]. rewrite Hp in *.
  split; unfold pending; cbn [qs_worker qs_answers qs_next qs_queue qs_alive]; try done.
  - intros id o. destruct (decide (id ∈ (t :: ms).*1)) as [Hin|Hni]; [|by rewrite abandon_other].
    rewrite abandon_lookup by done. split; [done|]. rewrite <- Ha. by rewrite (Hwt id).
  - cbn. rewrite app_nil_r. by apply sorted_prefix in Ho.
  - by intros id ?%not_elem_of_nil.
  - intros id a. destruct (decide (id ∈ (t :: ms).*1)) as [Hin|Hni]; [|rewrite abandon_other by done; eauto].
    intros _. pose proof (called_below calls fst snd _ Hpend) as HF. rewrite Forall_forall in HF. eauto.
  - intros id Hid. destruct (decide (id ∈ (t :: ms).*1)) as [Hin|Hni].
    { rewrite abandon_lookup by done. auto. }
    rewrite abandon_other by done. destruct (Hall id Hid) as [?|[?|[?|[]]]]; auto. congruence.
  - intros id o. destruct (decide (id ∈ (t :: ms).*1)) as [Hin|Hni]; [by rewrite abandon_lookup|].
    rewrite abandon_other by done. apply Hret.
Qed.

(** A command that returns is the next of the run. *)
Lemma answer_served env q id c ms o w :
  qs_alive st = true -> pending st = (id, c) :: ms -> ch_contents q = ms ->
  run_command settings env c (qs_worker st) = (o, w) -> o <> Panic ->
  served calls w0
    {| qs_worker := w; qs_queue := q; qs_alive := true; qs_next := qs_next st;
       qs_answers := <[id := Answered o]> (qs_answers st) |} (jobs ++ [(id, c, env)]).
Proof.
  intros Halive Hp Hq Hrun Hnp. destruct Hserved as [Hn Hw Ha Ho Hjobs Hpend Hwt Hk Hall Hun Hret]. rewrite Hp in *.
  cbn in Ho. destruct (sorted_once _ _ _ Ho) as [Hnj Hnm].
  apply Forall_cons in Hpend as [Hc Hpend]. cbn in Hc.
  assert (run_jobs (jobs ++ [(id, c, env)]) w0 = (fst (run_jobs jobs w0) ++ [(id, o)], w)) as Hjob.
  { rewrite run_jobs_app. cbn [run_jobs]. by rewrite <- Hw, Hrun. }
  split; unfold pending; cbn [qs_worker qs_answers qs_next qs_queue qs_alive]; rewrite ?Hjob, ?Hq; unfold job_ids in *;
    rewrite ?fmap_app; cbn [fmap list_fmap fst snd]; try done.
  - intros i o'. rewrite elem_of_app, list_elem_of_singleton. destruct (decide (i = id)) as [->|Hd].
    + rewrite lookup_insert_eq. split; [intros [= ->]; auto|]. intros [Hin|[= ->]]; [|done].
      destruct Hnj. rewrite <- (run_jobs_ids jobs w0). by apply (list_elem_of_fmap_2 fst) in Hin.
    + rewrite lookup_insert_ne, Ha by done. split; [auto|]. intros [?|[= -> ->]]; done.
  - by rewrite <- app_assoc.
  - apply Forall_app. split; [done|by constructor].
  - intros i Hin. rewrite lookup_insert_ne by (intros ->; done). apply Hwt. cbn. by right.
  - intros i a. destruct (decide (i = id)) as [->|Hd]; [intros _; by apply lookup_lt_Some in Hc|].
    rewrite lookup_insert_ne by done. eauto.
  - intros i Hid. rewrite elem_of_app, list_elem_of_singleton. destruct (decide (i = id)) as [->|Hd]; [auto|].
    rewrite lookup_insert_ne by done. cbn in Hall.
    destruct (Hall i Hid) as [?|[[?|?]%elem_of_cons|[?|[]]]]; auto; congruence.
  - intros i. destruct (decide (i = id)) as [->|Hd]; [by rewrite lookup_insert_eq|].
    rewrite lookup_insert_ne by done. rewrite <- Halive. apply Hun.
  - intros i o'. destruct (decide (i = id)) as [->|Hd]; [rewrite lookup_insert_eq; congruence|].
    rewrite lookup_insert_ne by done. apply Hret.
Qed.

(** A turn of the worker serves the first command that waits. *)
Lemma work_served env : exists more,
  served calls w0 (work env st) (jobs ++ more) /\ (length (pending (work env st)) <= length (pending st) - 1)%nat.
Proof.
  unfold work. destruct (qs_alive st) eqn:Halive.
  2: { exists []. rewrite app_nil_r. split; [done|]. unfold pending. by rewrite Halive. }
  destruct (ch_contents (qs_queue st)) as [|[id c] ms] eqn:Eq.
  { exists []. rewrite app_nil_r, ch_recv_empty by done. split; [done|]. unfold pending. by rewrite Halive, Eq. }
  assert (pending st = (id, c) :: ms) as Hp by (unfold pending; by rewrite Halive).
  destruct (ch_recv_first (id, c) ms _ Eq) as (q & -> & Hq & _).
  destruct (run_command settings env c (qs_worker st)) as [o w] eqn:Erun.
  destruct o; rewrite Hp; unfold pending at 1; cbn [qs_alive qs_queue].
  3: { exists []. rewrite app_nil_r, Hq. split; [by apply panic_served|cbn; lia]. }
  all: exists [(id, c, env)]; rewrite Hq; split; [by eapply answer_served|cbn; lia].
Qed.
End invariant.

Lemma run_served capacity w0 calls st :
  queue_run capacity w0 calls st -> exists jobs, served calls w0 st jobs.
Proof.
  induction 1 as [|calls st c _ [jobs IH]|calls st env _ [jobs IH]].
  - exists []. split; unfold pending, start_queue; cbn; rewrite ?ch_new_empty; cbn; try done; try constructor.
    + by rewrite lookup_empty.
    + by intros ?%not_elem_of_nil.
    + lia.
  - exists jobs. by apply enqueue_served.
  - destruct (work_served IH env) as (more & IH' & _). by exists (jobs ++ more).
Qed.
Lemma drained_served envs : forall calls w0 st jobs, served calls w0 st jobs -> (length (pending st) <= length envs)%nat ->
  exists jobs', served calls w0 (fold_left (fun s env => work env s) envs st) jobs' /\
    pending (fold_left (fun s env => work env s) envs st) = [].
Proof.
  induction envs as [|env envs IH]; intros calls w0 st jobs Hs Hle; cbn in *.
  { exists jobs. split; [done|]. by apply length_zero_iff_nil; lia. }
  destruct (work_served Hs env) as (more & Hs' & Hless). eapply IH; [exact Hs'|lia].
Qed.

(** ** Properties *)

(** C12 The storage queue serialises the storage: whatever the interleaving of
    callers and worker, the answers given are those of running the commands one
    after the other, each once, in the order in which they were asked for, and the
    state of the worker is the one that run ends in.  A command refused as busy or
    unavailable has no effect. *)
Theorem storage_serial capacity w0 calls st :
  queue_run capacity w0 calls st ->
  exists jobs : list Job,
    StronglySorted lt (job_ids jobs) /\
    (forall id c env, (id, c, env) ∈ jobs -> calls !! id = Some c) /\
    (forall id o, qs_answers st !! id = Some (Answered o) <-> (id, o) ∈ fst (run_jobs jobs w0)) /\
    (qs_alive st = true -> qs_worker st = snd (run_jobs jobs w0)).
Proof.
  intros Hrun. destruct (run_served _ _ _ _ Hrun) as [jobs Hs]. exists jobs.
  split_and!; [by destruct Hs; eapply sorted_prefix| |apply Hs|apply Hs].
  intros id c env Hin. pose proof (sv_jobs _ _ _ _ Hs) as HF. rewrite Forall_forall in HF. by apply HF in Hin.
Qed.

(** C13 Every call is answered: from any state the worker reaches, as many turns
    as commands wait leave no caller without an answer, also when one of those
    commands panics; in a queue whose worker lives, [queue_depth] says how many
    turns that is. *)
Theorem calls_answered capacity w0 calls st envs :
  queue_run capacity w0 calls st ->
  (queue_depth st <= length envs)%nat ->
  forall id, (id < length calls)%nat ->
    is_Some (qs_answers (fold_left (fun s env => work env s) envs st) !! id).
Proof.
  intros Hrun Hle id Hid. destruct (run_served _ _ _ _ Hrun) as [jobs Hs].
  destruct (drained_served envs _ _ _ _ Hs) as (jobs' & Hs' & Hnone).
  { etrans; [|exact Hle]. unfold pending, queue_depth. destruct (qs_alive st); cbn; lia. }
  destruct (sv_all _ _ _ _ Hs' id Hid) as [Hin|[Hin|[Ha|[_ Ha]]]]; [|by rewrite Hnone in Hin; apply not_elem_of_nil in Hin|by eexists|by eexists].
  unfold job_ids in Hin. rewrite <- (run_jobs_ids jobs' w0) in Hin.
  apply list_elem_of_fmap in Hin as ([i o] & -> & Hin). eexists. by apply (sv_answers _ _ _ _ Hs').
Qed.
End queue.

(* ------------------------------------------------------------------ *)
(** ** A channel, and a run                                             *)
(* ------------------------------------------------------------------ *)

#[local] Existing Instance length_crc.

(** The channel of the documentation: its capacity and what it holds. *)
Definition ListQueue (M : Type) : Type := nat * list M.
#[export] Instance list_channel : Channel ListQueue := {|
  ch_new M n := (n, []);
  ch_capacity M q := q.1;
  ch_contents M q := q.2;
  ch_send M m q := if (length q.2 <? q.1)%nat then Some (q.1, q.2 ++ [m]) else None;
  ch_recv M q := match q.2 with [] => None | m :: ms => Some (m, (q.1, ms)) end
|}.
#[export] Instance list_channel_laws : ChannelLaws ListQueue.
Proof.
  split; intros M; unfold ch_new, ch_send, ch_recv, ch_contents, ch_capacity, list_channel; try done.
  - intros m [n l] Hlt%Nat.ltb_lt. rewrite Hlt. by eexists.
  - intros m [n l] Hlt%Nat.ltb_ge. by rewrite Hlt.
  - by intros [n l] ->.
  - intros m ms [n l] Hl. rewrite Hl. by eexists.
Qed.

(** A queue with room for two commands: the third caller is refused while the
    worker is busy, and the next one is served once there is room again. *)
Definition busy_calls : list StorageCommand :=
  [CreateTopic "payments" 2; CreateTopic "payments" 2; ListTopics; ListTopics].
Definition busy_queue : StorageQueue (Q := ListQueue) :=
  let turn := work sample_settings sample_ambient in
  enqueue ListTopics (turn (enqueue ListTopics (enqueue (CreateTopic "payments" 2)
    (enqueue (CreateTopic "payments" 2) (start_queue 2 fresh_worker))))).

Lemma busy_run : queue_run sample_settings 2 fresh_worker busy_calls busy_queue.
Proof.
  apply (asks _ _ _ [CreateTopic "payments" 2; CreateTopic "payments" 2; ListTopics]), works.
  apply (asks _ _ _ [CreateTopic "payments" 2; CreateTopic "payments" 2]).
  apply (asks _ _ _ [CreateTopic "payments" 2]). apply (asks _ _ _ []), starts.
Qed.

Lemma storage_serial_witness :
  qs_answers busy_queue !! 2%nat = Some Busy /\ queue_depth busy_queue = 2%nat /\
  exists jobs : list (nat * StorageCommand * Ambient),
    StronglySorted lt (job_ids jobs) /\
    (forall id c env, (id, c, env) ∈ jobs -> busy_calls !! id = Some c) /\
    (forall id o, qs_answers busy_queue !! id = Some (Answered o) <->
                  (id, o) ∈ fst (run_jobs sample_settings jobs fresh_worker)) /\
    (qs_alive busy_queue = true -> qs_worker busy_queue = snd (run_jobs sample_settings jobs fresh_worker)).
Proof.
  split; [vm_compute; reflexivity|]. split; [vm_compute; reflexivity|].
  exact (storage_serial sample_settings 2 fresh_worker busy_calls busy_queue busy_run).
Defined.
Lemma calls_answered_witness :
  is_Some (qs_answers (fold_left (fun s env => work sample_settings env s) [sample_ambient; sample_ambient] busy_queue)
             !! 3%nat).
Proof.
  exact (calls_answered sample_settings 2 fresh_worker busy_calls busy_queue [sample_ambient; sample_ambient] busy_run
           ltac:(vm_compute; lia) 3%nat ltac:(vm_compute; lia)).
Defined.
