(* ===== verification/Broker.v ===== *)
(** * Broker: request processing and replication of [crates/broker/src/lib.rs].

    A broker is its storage worker, its leadership registry and its group
    coordinator.  Handlers run without interleaving; what a handler would do in
    the background or send without waiting for an answer is recorded: spawned
    replication in [bk_tasks], metadata broadcasts in [bk_outbox].  The other
    brokers and the network are parameters: [deliver] sends a record to a
    follower and returns its acknowledgement, [query] asks a broker for the end
    of a log. *)

From stdpp Require Import base numbers list strings gmap sorting.
From Stdlib Require Import ZArith Lia.
From S2P Require Import Prelude Text Files Protocol Record Log Groups Leadership Worker.

(* ------------------------------------------------------------------ *)
(** ** State                                                            *)
(* ------------------------------------------------------------------ *)

Inductive ConnectionError :=
| CProtocol (e : ProtocolError)
| CLeadership (e : LeadershipError)
| TruncatedFrame
| CStorage (e : StorageError)
| StorageUnavailable
| BrokerBusy
| ReplicationClosed
| ReplicationTimeout
| InvalidReplicationAck
| MissingAppendedRecord
| StaleLeaderEpoch
| NotEnoughInSyncReplicas (required available : Z)
| InvalidClusterMetadata
| LeaderEpochOverflow
| PromotionCandidateUnavailable
| UnsafePromotion (candidate highest available : Z).

(** What [Response::Error] says when the handler itself refuses a request. *)
Inductive Refusal :=
| PartitionRequired
| NotPartitionLeader (partition leader_id leader_epoch : Z)
| NotController (controller : ClusterNode)
| NotPartitionReplica
| TopicFailed (e : StorageError)
| GroupFailed (e : GroupError)
| InvalidGroupResponse.
Inductive Answer := Reply (r : Response) | Refuse (e : Refusal).

(** Messages to other brokers that nobody waits for. *)
Inductive Message :=
| TellLeadership (broker : Z) (topic : string) (l : PartitionLeadership)
| TellTopic (broker : Z) (topic : string) (partitions : Z).
(** Replication that a produce with [AckMode::Leader] spawns. *)
Record Task := { tk_topic : string; tk_records : list (Z * FetchedRecord) }.

Record ClusterConfig := {
  cc_metadata : ClusterMetadata;
  cc_replication_factor : Z;
  cc_min_in_sync_replicas : Z;
  cc_settings : StorageSettings
}.
Record Broker := {
  bk_worker : Worker;
  bk_leadership : LeadershipRegistry;
  bk_groups : GroupCoordinator;
  bk_outbox : list Message;
  bk_tasks : list Task
}.
Definition set_worker (b : Broker) (w : Worker) : Broker :=
  {| bk_worker := w; bk_leadership := bk_leadership b; bk_groups := bk_groups b;
     bk_outbox := bk_outbox b; bk_tasks := bk_tasks b |}.
Definition set_leadership (b : Broker) (r : LeadershipRegistry) : Broker :=
  {| bk_worker := bk_worker b; bk_leadership := r; bk_groups := bk_groups b;
     bk_outbox := bk_outbox b; bk_tasks := bk_tasks b |}.
Definition set_coordinator (b : Broker) (c : GroupCoordinator) : Broker :=
  {| bk_worker := bk_worker b; bk_leadership := bk_leadership b; bk_groups := c;
     bk_outbox := bk_outbox b; bk_tasks := bk_tasks b |}.
Definition add_messages (b : Broker) (ms : list Message) : Broker :=
  {| bk_worker := bk_worker b; bk_leadership := bk_leadership b; bk_groups := bk_groups b;
     bk_outbox := bk_outbox b ++ ms; bk_tasks := bk_tasks b |}.
Definition add_task (b : Broker) (t : Task) : Broker :=
  {| bk_worker := bk_worker b; bk_leadership := bk_leadership b; bk_groups := bk_groups b;
     bk_outbox := bk_outbox b; bk_tasks := bk_tasks b ++ [t] |}.

Abbreviation broker A := (SM Broker ConnectionError A).

(** Calls on the broker's parts, with their errors wrapped. *)
Definition storage {A} (m : SM Worker StorageError A) : broker A := fun b =>
  let '(o, w) := m (bk_worker b) in (omap_err CStorage o, set_worker b w).
Definition leadership {A} (m : SM LeadershipRegistry LeadershipError A) : broker A := fun b =>
  let '(o, r) := m (bk_leadership b) in (omap_err CLeadership o, set_leadership b r).
Definition coordinator_call {A} (m : SM GroupCoordinator GroupError A) (b : Broker)
  : outcome GroupError A * Broker :=
  let '(o, c) := m (bk_groups b) in (o, set_coordinator b c).

Section broker.
Context `{!Crc32}.
Context (cc : ClusterConfig).

Definition nodes : list ClusterNode := cm_nodes (cc_metadata cc).
Definition self_id : Z := cm_responding_broker_id (cc_metadata cc).
Definition is_controller : bool :=
  match nodes with n :: _ => cn_id n =? self_id | [] => false end.
Definition other_nodes : list ClusterNode := filter (fun n => cn_id n <> self_id) nodes.

(* ------------------------------------------------------------------ *)
(** ** Replica placement                                                *)
(* ------------------------------------------------------------------ *)

(** [(0..replication_factor).map(|i| &nodes[(leader_index + i) % len])]; without
    nodes the code panics, here there is no replica. *)
Definition replicas (partition : Z) : list ClusterNode :=
  let len := Z.of_nat (length nodes) in
  omap (fun i => nodes !! Z.to_nat ((partition mod len + i) mod len))
       (seqZ 0 (cc_replication_factor cc)).
Definition replica_followers (partition : Z) : list ClusterNode :=
  filter (fun n => cn_id n <> self_id) (replicas partition).
Definition is_partition_replica (broker_id partition : Z) : bool :=
  existsb (fun n => cn_id n =? broker_id) (replicas partition).

(* ------------------------------------------------------------------ *)
(** ** The storage handle                                               *)
(* ------------------------------------------------------------------ *)

Definition settings_of : StorageSettings := cc_settings cc.

(** [StorageHandle::read]: when there is nothing to read, wait for records to
    arrive and read again until the deadline.  [waits]: what the worker did
    until each wake-up before the deadline. *)
Fixpoint storage_read (waits : list (Worker -> Worker)) (topic : string)
    (partition offset max_bytes max_wait_ms : Z) : broker (list FetchedRecord) :=
  records <- storage (read_records settings_of topic partition offset max_bytes) ;;
  if negb (bool_decide (records = [])) || (max_wait_ms =? 0) then ret records
  else
    match waits with
    | [] => ret records
    | wait :: waits =>
        modify (fun b => set_worker b (wait (bk_worker b))) ;;;
        storage_read waits topic partition offset max_bytes max_wait_ms
    end.

Definition RECORD_AT_BYTES : Z := 16 * 1024 * 1024.
Definition read_record_at (topic : string) (partition offset : Z) : broker FetchedRecord :=
  records <- storage (read_records settings_of topic partition offset RECORD_AT_BYTES) ;;
  ok_or (List.find (fun r => fd_offset r =? offset) records) MissingAppendedRecord.
Definition describe_topic (topic : string) : broker TopicMetadata :=
  b <- get ;;
  ok_or (List.find (fun m => String.eqb (tm_topic m) topic)
           (storage_topic_metadata (wk_topics (bk_worker b)))) (CStorage UnknownTopic).

(* ------------------------------------------------------------------ *)
(** ** The follower                                                     *)
(* ------------------------------------------------------------------ *)

(** The body of the loop of [handle_replication_connection]. *)
Definition handle_replica (record : ReplicateRecord) : broker ReplicateAck :=
  let topic := rr_topic record in
  let partition := rr_partition record in
  current <- leadership (registry_partition topic partition) ;;
  reject_if ((rr_leader_epoch record <? pl_leader_epoch current) ||
             ((rr_leader_epoch record =? pl_leader_epoch current) &&
              negb (rr_leader_id record =? pl_leader_id current))) StaleLeaderEpoch ;;;
  (if pl_leader_epoch current <? rr_leader_epoch record then
     local_offset <- storage (partition_offset topic partition) ;;
     (if rr_offset record <? local_offset
      then storage (truncate_partition topic partition (rr_offset record)) else ret tt) ;;;
     leadership (registry_apply topic
       {| pl_partition := partition; pl_leader_id := rr_leader_id record;
          pl_leader_epoch := rr_leader_epoch record;
          pl_high_watermark := pl_high_watermark current |})
   else ret tt) ;;;
  expected <- storage (partition_offset topic partition) ;;
  next_offset <- (if expected <? rr_offset record then ret expected
                  else storage (worker_append_replica record)) ;;
  ret {| ra_partition := partition; ra_next_offset := next_offset |}.

(* ------------------------------------------------------------------ *)
(** ** The leader                                                       *)
(* ------------------------------------------------------------------ *)

Definition replication_record (topic : string) (record : FetchedRecord) (ack_mode : AckMode)
    (l : PartitionLeadership) : ReplicateRecord :=
  {| rr_topic := topic; rr_partition := pl_partition l; rr_offset := fd_offset record;
     rr_timestamp_ms := fd_timestamp_ms record; rr_key := fd_key record;
     rr_value := fd_value record;
     rr_durable := match ack_mode with AckDurable => true | AckLeader => false end;
     rr_leader_id := pl_leader_id l; rr_leader_epoch := pl_leader_epoch l |}.

(** [commit]: raise the high watermark and tell the other brokers. *)
Definition commit_replicated (topic : string) (partition high_watermark : Z) : broker unit :=
  l <- leadership (registry_partition topic partition) ;;
  if high_watermark <=? pl_high_watermark l then ret tt
  else
    let l := {| pl_partition := pl_partition l; pl_leader_id := pl_leader_id l;
                pl_leader_epoch := pl_leader_epoch l; pl_high_watermark := high_watermark |} in
    leadership (registry_apply topic l) ;;;
    modify (fun b => add_messages b ((fun n => TellLeadership (cn_id n) topic l) <$> other_nodes)).

(* ------------------------------------------------------------------ *)
(** ** Candidates for promotion                                         *)
(* ------------------------------------------------------------------ *)

(** The order of the keys [(offset, Reverse(id))]. *)
Definition candidate_le (a b : Z * Z) : bool :=
  (a.2 <? b.2) || ((a.2 =? b.2) && (b.1 <=? a.1)).
(** [max_by_key]: the last of the greatest. *)
Definition max_candidate (offsets : list (Z * Z)) : option (Z * Z) :=
  fold_left (fun best x =>
    match best with
    | Some b => if candidate_le b x then Some x else Some b
    | None => Some x
    end) offsets None.
Definition choose_automatic_candidate (offsets : list (Z * Z)) (min_in_sync high_watermark : Z)
  : option Z :=
  if Z.of_nat (length offsets) <? min_in_sync then None
  else fst <$> max_candidate (filter (fun x => high_watermark <= x.2) offsets).

Section network.
Context {Net : Type}.
(** Send a record to the broker with this id and wait for its answer. *)
Context (deliver : Z -> ReplicateRecord -> SM Net ConnectionError ReplicateAck).
(** The end of a partition's log on another broker, if it answers in time. *)
Context (query : Z -> string -> Z -> Net -> option Z).

Abbreviation site A := (SM (Broker * Net) ConnectionError A).

Definition on_broker {A} (m : broker A) : site A := fun s =>
  let '(o, b) := m s.1 in (o, (b, s.2)).
Definition on_net {A} (m : SM Net ConnectionError A) : site A := fun s =>
  let '(o, n) := m s.2 in (o, (s.1, n)).

Definition send_replica (follower : ClusterNode) (request : ReplicateRecord) : site Z :=
  ack <- on_net (deliver (cn_id follower) request) ;;
  reject_if (negb (ra_partition ack =? rr_partition request)) InvalidReplicationAck ;;;
  ret (ra_next_offset ack).

(** The [while] loop of [replicate_to_follower]; [fuel]: how many records can be
    sent before the time limit of the replication ends it. *)
Fixpoint catch_up (fuel : nat) (follower : ClusterNode) (topic : string) (partition : Z)
    (offset : Z) (ack_mode : AckMode) (l : PartitionLeadership) (next_offset : Z) : site unit :=
  if offset <? next_offset then ret tt
  else
    match fuel with
    | O => throw ReplicationTimeout
    | Datatypes.S fuel =>
        missing <- on_broker (read_record_at topic partition next_offset) ;;
        next_offset <- send_replica follower (replication_record topic missing ack_mode l) ;;
        catch_up fuel follower topic partition offset ack_mode l next_offset
    end.
Definition replicate_to_follower (fuel : nat) (follower : ClusterNode) (topic : string)
    (partition : Z) (record : FetchedRecord) (ack_mode : AckMode) : site unit :=
  l <- on_broker (leadership (registry_partition topic partition)) ;;
  next_offset <- send_replica follower (replication_record topic record ack_mode l) ;;
  reject_if (saturating_add (fd_offset record) 1 <? next_offset) InvalidReplicationAck ;;;
  catch_up fuel follower topic partition (fd_offset record) ack_mode l next_offset.

(** The loop of [replicate] over the followers: how many hold the record. *)
Fixpoint replicate_all (fuel : nat) (followers : list ClusterNode) (topic : string) (partition : Z)
    (record : FetchedRecord) (ack_mode : AckMode) (acknowledgements : Z) : site Z := fun s =>
  match followers with
  | [] => (Ok acknowledgements, s)
  | follower :: rest =>
      match replicate_to_follower fuel follower topic partition record ack_mode s with
      | (Ok _, s) => replicate_all fuel rest topic partition record ack_mode (acknowledgements + 1) s
      | (Err _, s) => replicate_all fuel rest topic partition record ack_mode acknowledgements s
      | (Panic, s) => (Panic, s)
      end
  end.
Definition replicate (fuel : nat) (topic : string) (partition : Z) (record : FetchedRecord)
    (ack_mode : AckMode) : site unit :=
  acknowledgements <-
    replicate_all fuel (replica_followers partition) topic partition record ack_mode 1 ;;
  let enough := cc_min_in_sync_replicas cc <=? acknowledgements in
  (if enough then on_broker (commit_replicated topic partition (saturating_add (fd_offset record) 1))
   else ret tt) ;;;
  match ack_mode with
  | AckDurable =>
      reject_if (negb enough)
        (NotEnoughInSyncReplicas (cc_min_in_sync_replicas cc) acknowledgements)
  | AckLeader => ret tt
  end.

Definition replicate_records (fuel : nat) (topic : string) (records : list (Z * FetchedRecord))
    (ack_mode : AckMode) : site unit :=
  for_each records (fun r => replicate fuel topic r.1 r.2 ack_mode).
(** A durable produce waits for its replication, another one spawns it. *)
Definition dispatch_replication (fuel : nat) (topic : string) (records : list (Z * FetchedRecord))
    (ack_mode : AckMode) : site unit :=
  match ack_mode with
  | AckLeader => on_broker (modify (fun b => add_task b {| tk_topic := topic; tk_records := records |}))
  | AckDurable => replicate_records fuel topic records ack_mode
  end.
End network.
End broker.
