(* ===== verification/Handle.v ===== *)
(** * Handle: the calls of [StorageHandle], [crates/broker/src/lib.rs].

    A method of the handle sends one command to the storage worker and makes its
    result of the answer.  [Broker] and the handlers above it use the operations
    of the worker directly; the laws of this file say that through the queue a
    call gives the same result, at the moment the worker takes its command. *)

From stdpp Require Import base numbers list strings gmap.
From Stdlib Require Import ZArith Lia Sorting.Sorted.
From S2P Require Import Prelude Text Files Protocol Record Log Storage Worker Topics Queue Groups Leadership Broker.

(** A method: the command it sends, what it makes of the reply to it, and the
    operation on the broker it stands for. *)
Record Call `{!Crc32} (settings : StorageSettings) (A : Type) := {
  call_command : StorageCommand;
  (** nothing for a reply that the command's channel cannot carry *)
  call_reply : StorageReply -> option (outcome ConnectionError A);
  call_direct : Ambient -> broker A
}.
Arguments call_command {_ _ _} _.
Arguments call_reply {_ _ _} _ _.
Arguments call_direct {_ _ _} _ _.

(** What the method returns; [None]: the caller still waits. *)
Definition call_result `{!Crc32} {settings A} (c : Call settings A) (a : QueueAnswer)
  : option (outcome ConnectionError A) :=
  match a with
  | Answered (Ok r) => call_reply c r
  | Answered (Err e) => Some (Err (CStorage e))
  | Answered Panic => None
  | Busy => Some (Err BrokerBusy)
  | Unavailable => Some (Err StorageUnavailable)
  end.

(** A method does what it stands for if the worker, given its command, answers
    what the operation returns and is left as the operation leaves it. *)
Class CallLaw `{!Crc32} {settings A} (c : Call settings A) : Prop := {
  call_law env b :
    let '(o, w) := run_command settings env (call_command c) (bk_worker b) in
    let '(o', b') := call_direct c env b in
    b' = set_worker b w /\
    (forall r, o = Ok r -> call_reply c r = Some o') /\
    (forall e, o = Err e -> o' = Err (CStorage e))
}.

(* ------------------------------------------------------------------ *)
(** ** The methods                                                      *)
(* ------------------------------------------------------------------ *)

Section methods.
Context `{!Crc32} (cc : ClusterConfig).
Abbreviation call A := (Call (settings_of cc) A).

(** The commands whose reply is a result: it is passed on. *)
Definition simple_call {A} (command : StorageCommand) (reply : StorageReply -> option A)
    (direct : Ambient -> SM Worker StorageError A) : call A :=
  {| call_command := command;
     call_reply r := Ok <$> reply r;
     call_direct env := storage (direct env) |}.

Definition call_create_topic (topic : string) (partitions : Z) : call TopicMetadata :=
  simple_call (CreateTopic topic partitions)
    (fun r => match r with TopicReply m => Some m | _ => None end)
    (fun _ => create_topic (settings_of cc) topic partitions).
Definition call_list_topics : call (list TopicMetadata) :=
  simple_call ListTopics
    (fun r => match r with TopicsReply ms => Some ms | _ => None end)
    (fun _ => w <- get ;; ret (storage_topic_metadata (wk_topics w))).
Definition call_describe_topic (topic : string) : call TopicMetadata :=
  {| call_command := ListTopics;
     call_reply r := match r with
       | TopicsReply ms =>
           Some (match List.find (fun m => String.eqb (tm_topic m) topic) ms with
                 | Some m => Ok m | None => Err (CStorage UnknownTopic) end)
       | _ => None end;
     call_direct _ := describe_topic topic |}.
Definition call_snapshot : call (list PartitionSnapshot) :=
  simple_call Snapshot
    (fun r => match r with SnapshotReply ss => Some ss | _ => None end)
    (fun _ => w <- get ;; ret (snapshot_logs (wk_logs w))).
Definition call_append (input : AppendInput) : call ProduceAck :=
  simple_call (Append input)
    (fun r => match r with AckReply a => Some a | _ => None end)
    (fun env => append_record (settings_of cc) input (am_clock env O)).
Definition call_append_batch (input : BatchAppendInput) : call (list ProduceAck) :=
  simple_call (AppendBatch input)
    (fun r => match r with BatchReply acks => Some acks | _ => None end)
    (fun env => append_batch_records (settings_of cc) input (am_clock env)).
Definition call_read_once (topic : string) (partition offset max_bytes : Z) : call (list FetchedRecord) :=
  simple_call (Read topic partition offset max_bytes)
    (fun r => match r with RecordsReply rs => Some rs | _ => None end)
    (fun _ => read_records (settings_of cc) topic partition offset max_bytes).
Definition call_record_at (topic : string) (partition offset : Z) : call FetchedRecord :=
  {| call_command := Read topic partition offset RECORD_AT_BYTES;
     call_reply r := match r with
       | RecordsReply rs =>
           Some (match List.find (fun r => fd_offset r =? offset) rs with
                 | Some r => Ok r | None => Err MissingAppendedRecord end)
       | _ => None end;
     call_direct _ := read_record_at cc topic partition offset |}.
Definition call_replicate (record : ReplicateRecord) : call Z :=
  simple_call (Replicate record)
    (fun r => match r with OffsetReply o => Some o | _ => None end)
    (fun _ => worker_append_replica record).
Definition call_partition_offset (topic : string) (partition : Z) : call Z :=
  simple_call (PartitionOffset topic partition)
    (fun r => match r with OffsetReply o => Some o | _ => None end)
    (fun _ => partition_offset topic partition).
Definition call_truncate (topic : string) (partition offset : Z) : call unit :=
  simple_call (Truncate topic partition offset)
    (fun r => match r with UnitReply => Some tt | _ => None end)
    (fun _ => truncate_partition topic partition offset).

(* ------------------------------------------------------------------ *)
(** ** The laws                                                         *)
(* ------------------------------------------------------------------ *)

(** A command that wraps its result for the channel. *)
Lemma simple_law {A} command (wrap : A -> StorageReply) reply direct :
  (forall env w, run_command (settings_of cc) env command w = bind (direct env) (fun x => ret (wrap x)) w) ->
  (forall x, reply (wrap x) = Some x) ->
  CallLaw (simple_call command reply direct).
Proof.
  intros Hrun Hwrap. split. intros env b. cbn. rewrite Hrun. unfold storage, bind.
  destruct (direct env (bk_worker b)) as [[x|e|] w]; cbn; split_and!; try done.
  - intros r [= <-]. by rewrite Hwrap.
  - by intros e' [= ->].
Qed.
Ltac simple_law W := apply simple_law with (wrap := W); [reflexivity|done].

#[export] Instance create_topic_law t n : CallLaw (call_create_topic t n).
Proof. simple_law TopicReply. Qed.
#[export] Instance list_topics_law : CallLaw call_list_topics.
Proof. simple_law TopicsReply. Qed.
#[export] Instance snapshot_law : CallLaw call_snapshot.
Proof. simple_law SnapshotReply. Qed.
#[export] Instance append_law i : CallLaw (call_append i).
Proof. simple_law AckReply. Qed.
#[export] Instance append_batch_law i : CallLaw (call_append_batch i).
Proof. simple_law BatchReply. Qed.
#[export] Instance read_once_law t p o n : CallLaw (call_read_once t p o n).
Proof. simple_law RecordsReply. Qed.
#[export] Instance replicate_law r : CallLaw (call_replicate r).
Proof. simple_law OffsetReply. Qed.
#[export] Instance partition_offset_law t p : CallLaw (call_partition_offset t p).
Proof. simple_law OffsetReply. Qed.
#[export] Instance truncate_law t p o : CallLaw (call_truncate t p o).
Proof. apply simple_law with (wrap := fun _ : unit => UnitReply); [reflexivity|by intros []]. Qed.
#[export] Instance describe_topic_law t : CallLaw (call_describe_topic t).
Proof.
  split. intros env b. cbn. unfold describe_topic, bind, get, ret, ok_or, throw. cbn.
  destruct (List.find _ _) eqn:E; split_and!; try done; try (by destruct b).
  all: intros r [= <-]; by rewrite E.
Qed.
#[export] Instance record_at_law t p o : CallLaw (call_record_at t p o).
Proof.
  split. intros env b. cbn. unfold read_record_at, storage, bind.
  destruct (read_records _ _ _ _ _ (bk_worker b)) as [[rs|e|] w]; cbn; [|split_and!; try done; by intros e' [= ->]|done].
  unfold ok_or, ret, throw. destruct (List.find _ _) eqn:E; split_and!; try done; intros r [= <-]; by rewrite E.
Qed.
End methods.

(* ------------------------------------------------------------------ *)
(** ** Calls through the queue                                          *)
(* ------------------------------------------------------------------ *)

(** An answer in a run is what some command of the run returned. *)
Lemma run_jobs_answer `{!Crc32} settings jobs w0 id o :
  (id, o) ∈ fst (run_jobs settings jobs w0) ->
  exists before c env after, jobs = before ++ (id, c, env) :: after /\
    o = fst (run_command settings env c (snd (run_jobs settings before w0))).
Proof.
  revert w0. induction jobs as [|[[i c] env] jobs IH]; intros w0; cbn [run_jobs].
  { by intros ?%not_elem_of_nil. }
  destruct (run_command settings env c w0) as [o' w1] eqn:E. specialize (IH w1).
  destruct (run_jobs settings jobs w1) as [os w2] eqn:E2. cbn [fst] in *. intros [[= -> ->]|Hin]%elem_of_cons.
  - exists [], c, env, jobs. cbn. by rewrite E.
  - destruct (IH Hin) as (before & c' & env' & after & -> & ->). exists ((i, c, env) :: before), c', env', after.
    split; [done|]. cbn [run_jobs]. rewrite E. by destruct (run_jobs settings before w1).
Qed.


(* ------------------------------------------------------------------ *)
(** ** A call in a run                                                  *)
(* ------------------------------------------------------------------ *)

#[local] Existing Instance length_crc.
Definition lone_broker : ClusterConfig := {|
  cc_metadata := {| cm_responding_broker_id := 1; cm_nodes := [] |};
  cc_replication_factor := 1; cc_min_in_sync_replicas := 1; cc_settings := sample_settings
|}.
Definition created : QueueAnswer := Answered (Ok (TopicReply (metadata_of "payments" 2))).
