(* ===== verification/Replication.v ===== *)
(** * Replication: how a follower's log follows the leader's. *)

From stdpp Require Import base numbers list strings gmap sorting.
From Stdlib Require Import ZArith Lia.
From S2P Require Import Prelude Text Files Runs Protocol Record RecordFacts Log LogRep LogFacts LogAppend LogRead LogOpen LogShrink Storage Groups Leadership Worker WorkerSpec WorkerFacts Whole Topics Broker.

(** Replicas agree on what consumers see: key, value and time.  The identity of
    the producer is not replicated. *)
Definition same_content (r r' : LogRecord) : Prop :=
  rec_timestamp_ms r = rec_timestamp_ms r' /\ rec_key r = rec_key r' /\ rec_value r = rec_value r'.
Definition anonymous (r : LogRecord) : LogRecord :=
  {| rec_key := rec_key r; rec_value := rec_value r; rec_timestamp_ms := rec_timestamp_ms r;
     rec_producer := None |}.
(** The records of one log are a prefix of the other's. *)
Definition mirrors (lf ll : ALog) : Prop :=
  low (al_chunks lf) = 0 /\ low (al_chunks ll) = 0 /\
  Forall2 same_content (flat (al_chunks lf))
    (take (length (flat (al_chunks lf))) (flat (al_chunks ll))).

Lemma next_mirror l : low (al_chunks l) = 0 -> next (al_chunks l) = clen (flat (al_chunks l)).
Proof. unfold next. lia. Qed.

Lemma record_at_zero l o :
  low (al_chunks l) = 0 -> 0 <= o ->
  record_at (al_chunks l) o = flat (al_chunks l) !! Z.to_nat o.
Proof.
  intros Hl Ho. unfold record_at. rewrite Hl. destruct (Z.ltb_spec o 0); [lia|]. by rewrite Z.sub_0_r.
Qed.

Lemma mirrors_at lf ll o r :
  mirrors lf ll -> record_at (al_chunks ll) o = Some r -> o < next (al_chunks lf) ->
  exists r', record_at (al_chunks lf) o = Some r' /\ same_content r' r.
Proof.
  intros (Hf & Hl & HF) Hr Ho. apply record_at_in in Hr as Hrange. rewrite Hl in Hrange.
  rewrite record_at_zero in Hr |- * by (done || lia). rewrite next_mirror in Ho by done. unfold clen in Ho.
  destruct (flat (al_chunks lf) !! Z.to_nat o) as [r'|] eqn:Hr'; [|apply lookup_ge_None in Hr'; lia].
  exists r'. split; [done|]. eapply Forall2_lookup_lr; [exact HF|done|].
  by rewrite lookup_take_lt by lia.
Qed.

Lemma mirrors_push lf lf' ll r r' :
  mirrors lf ll -> record_at (al_chunks ll) (next (al_chunks lf)) = Some r -> same_content r' r ->
  flat (al_chunks lf') = flat (al_chunks lf) ++ [r'] -> low (al_chunks lf') = low (al_chunks lf) ->
  mirrors lf' ll.
Proof.
  intros (Hf & Hl & HF) Hr Hs Hflat Hlow. rewrite next_mirror in Hr by done.
  rewrite record_at_zero in Hr by (done || apply clen_nonneg). unfold clen in Hr. rewrite Nat2Z.id in Hr.
  split; [congruence|]. split; [done|]. rewrite Hflat, length_app, Nat.add_comm. cbn [length Nat.add].
  rewrite (take_S_r _ _ _ Hr). apply Forall2_app; [done|]. by constructor.
Qed.

Lemma mirrors_le lf ll : mirrors lf ll -> next (al_chunks lf) <= next (al_chunks ll).
Proof.
  intros (Hf & Hl & HF). rewrite !next_mirror by done. apply Forall2_length in HF.
  rewrite length_take in HF. unfold clen. lia.
Qed.

Section follower.
Context `{!Crc32} `{!Crc32Ok}.
Context (s : StorageSettings) (Hs : settings_ok s).

Lemma anonymous_same r : same_content (anonymous r) r.
Proof. by repeat split. Qed.
Lemma anonymous_len r : record_len (anonymous r) <= record_len r.
Proof.
  unfold record_len, producer_id_len, str_len. cbn [anonymous rec_producer rec_key rec_value].
  destruct (rec_producer r) as [p|]; [|lia]. pose proof (blen_nonneg (as_bytes (producer_id p))). lia.
Qed.

(** The leader's record [r] of offset [o], as a follower gets it. *)
Definition request_for (t : string) (o : Z) (r : LogRecord) (ack_mode : AckMode)
    (l : PartitionLeadership) : ReplicateRecord :=
  replication_record t (fetched (stored o r)) ack_mode l.
Lemma replica_record_for t o r ack_mode l : replica_record (request_for t o r ack_mode l) = anonymous r.
Proof. done. Qed.

Lemma replica_of_mirror lf ll o r :
  a_inv (cfg s) lf -> mirrors lf ll -> record_at (al_chunks ll) o = Some r -> record_ok r ->
  o <= next (al_chunks lf) ->
  exists lf', a_append_replica (cfg s) lf o (anonymous r) = (Ok o, lf') /\ mirrors lf' ll /\
    next (al_chunks lf') = Z.max (next (al_chunks lf)) (o + 1).
Proof.
  intros ([Hne _] & _) Hm Hr (Hlen & _) Ho. unfold a_append_replica.
  destruct (Z.ltb_spec o (next (al_chunks lf))).
  - destruct (mirrors_at lf ll o r Hm Hr) as (r' & -> & Hts & Hk & Hv); [done|]. cbn [anonymous rec_timestamp_ms rec_key rec_value].
    rewrite Hts, Hk, Hv, Z.eqb_refl, !bool_decide_eq_true_2 by done. exists lf. split; [done|].
    split; [done|]. lia.
  - assert (o = next (al_chunks lf)) as -> by lia. rewrite Z.eqb_refl.
    assert (a_append (cfg s) lf (anonymous r) = (Ok (next (al_chunks lf)), a_push (cfg s) lf (anonymous r))) as Ha.
    { unfold a_append. cbn [anonymous rec_producer]. fold (anonymous r). pose proof (anonymous_len r).
      destruct (Z.ltb_spec MAX_RECORD_SIZE (record_len (anonymous r))); [lia|done]. }
    exists (a_push (cfg s) lf (anonymous r)). split; [done|].
    destruct (plain_append s lf (anonymous r) _ _ eq_refl Hne Ha) as (_ & Hflat & Hlow & _ & Hnext).
    split; [|lia]. by eapply mirrors_push; [..|apply anonymous_same| |].
Qed.

(** A follower of partition [k] under leadership [l], whose log mirrors [ll]
    and ends at [n]. *)
Definition follower_ok (k : PartitionKey) (l : PartitionLeadership) (ll : ALog) (b : Broker) (n : Z)
  : Prop :=
  exists a lf cur, represents s (bk_worker b) a /\ aworker_ok s a /\ aw_logs a !! k = Some lf /\
    mirrors lf ll /\ next (al_chunks lf) = n /\
    lr_entries (bk_leadership b) !! k = Some cur /\
    pl_leader_epoch cur = pl_leader_epoch l /\ pl_leader_id cur = pl_leader_id l.

Lemma leadership_partition b t p cur :
  lr_entries (bk_leadership b) !! (t, p) = Some cur ->
  leadership (registry_partition t p) b = (Ok cur, b).
Proof.
  intros Hcur. unfold leadership, registry_partition. erewrite bind_Ok by done. cbv beta.
  rewrite Hcur. by destruct b.
Qed.

Lemma storage_offset b a t p l :
  represents s (bk_worker b) a -> aw_logs a !! (t, p) = Some l ->
  storage (partition_offset t p) b = (Ok (next (al_chunks l)), b).
Proof.
  intros Hr Hl. unfold storage, partition_offset. erewrite bind_Ok by done. cbv beta.
  rewrite (wk_log s _ a) by done. rewrite Hl. by destruct b.
Qed.

(** Calls of the storage worker, with its specification. *)
Lemma storage_refines {A} (m : SM Worker StorageError A) b (o : outcome StorageError A) a :
  refines s (m (bk_worker b)) (o, a) ->
  exists w, storage m b = (omap_err CStorage o, set_worker b w) /\ represents s w a /\ aworker_ok s a.
Proof.
  intros (Ho & Hr & Hok). unfold storage. destruct (m (bk_worker b)) as [o' w]. cbn [fst snd] in *.
  subst o'. by exists w.
Qed.

Lemma handle_replica_spec t p l ll b n o r ack_mode :
  follower_ok (t, p) l ll b n -> a_inv (cfg s) ll -> record_at (al_chunks ll) o = Some r ->
  next (al_chunks ll) < U64_MAX -> pl_partition l = p ->
  exists b' n', handle_replica (request_for t o r ack_mode l) b =
      (Ok {| ra_partition := p; ra_next_offset := n' |}, b') /\
    follower_ok (t, p) l ll b' n' /\ n' = (if o =? n then n + 1 else n).
Proof.
  intros (a & lf & cur & Hr & Hok & Hlf & Hm & <- & Hcur & Hep & Hid) Hll Ho Hroom Hp.
  pose proof (ao_logs _ _ Hok _ _ Hlf) as Hinv. destruct (a_keys s a t p lf Hok Hlf) as [Hpu _].
  pose proof (mirrors_le lf ll Hm) as Hle_ll.
  apply record_at_in in Ho as Hrange. pose proof Hm as (_ & Hl0 & _). rewrite Hl0 in Hrange.
  assert (record_ok r) as Hrok.
  { rewrite record_at_zero in Ho by (done || lia). destruct Hll as ((_ & _ & _ & _ & HFr) & _).
    by eapply Forall_lookup_1. }
  unfold handle_replica. cbv zeta.
  cbn [request_for replication_record rr_topic rr_partition rr_leader_epoch rr_leader_id rr_offset]. rewrite Hp.
  erewrite bind_Ok by by apply leadership_partition. cbv beta.
  rewrite Hep, Hid, Z.ltb_irrefl, !Z.eqb_refl. cbn [negb andb orb].
  erewrite bind_Ok by done. erewrite bind_Ok by done. cbv beta.
  erewrite bind_Ok by by eapply storage_offset. cbv beta. cbn [fetched stored sr_offset fd_offset].
  destruct (Z.ltb_spec (next (al_chunks lf)) o) as [Hgt|Hle].
  { exists b, (next (al_chunks lf)). rewrite (proj2 (Z.eqb_neq o _)) by lia.
    split; [done|]. split; [|done]. by exists a, lf, cur. }
  destruct (replica_of_mirror lf ll o r) as (lf' & Happ & Hm' & Hnext); [done..|].
  pose proof (replicate_refines s Hs (bk_worker b) a (request_for t o r ack_mode l) Hr Hok) as Hrep.
  destruct (proj1 (ao_keys _ _ Hok t p)) as (cnt & Hcnt & Hpc); [eauto|].
  unfold a_replicate in Hrep. cbn [request_for replication_record rr_topic rr_partition rr_offset] in Hrep.
  rewrite Hp, Hcnt, (proj2 (Z.leb_gt cnt p)) in Hrep by lia. unfold a_on in Hrep. rewrite Hlf in Hrep.
  cbn [fetched stored sr_offset fd_offset] in Hrep. fold (request_for t o r ack_mode l) in Hrep.
  rewrite replica_record_for, Happ in Hrep.
  destruct (storage_refines (worker_append_replica (request_for t o r ack_mode l)) b
              (Ok (next (al_chunks lf'))) (aw_set_log a (t, p) lf')) as (w & Hrun & Hr' & Hok').
  { apply Hrep.
    - split; [cbn; by rewrite Hp|]. split; [cbn; range|]. by destruct Hrok as (_ & ? & _).
    - intros l1 [= <-]. lia. }
  exists (set_worker b w), (next (al_chunks lf')). erewrite bind_Ok by exact Hrun. cbv beta.
  split; [done|]. split.
  - exists (aw_set_log a (t, p) lf'), lf', cur. split_and?; try done. cbn [aw_set_log aw_logs].
    apply lookup_insert_eq.
  - rewrite Hnext. destruct (Z.eqb_spec o (next (al_chunks lf))); lia.
Qed.
End follower.

(* ------------------------------------------------------------------ *)
(** ** The leader and its network                                       *)
(* ------------------------------------------------------------------ *)

(** A network of brokers that loses requests and answers, but changes none. *)
Abbreviation Brokers := (gmap Z Broker).
Definition delivers `{!Crc32} (deliver : Z -> ReplicateRecord -> SM Brokers ConnectionError ReplicateAck)
  : Prop :=
  forall id request net,
    (exists e, deliver id request net = (Err e, net)) \/
    (exists b o b', net !! id = Some b /\ handle_replica request b = (o, b') /\
       snd (deliver id request net) = <[id := b']> net /\
       ((exists ack, o = Ok ack /\ fst (deliver id request net) = Ok ack) \/
        (exists e, fst (deliver id request net) = Err e))).

(** A broker reads a record that its log holds. *)
Lemma read_record_at_held `{!Crc32} `{!Crc32Ok} cc t p b a l o r :
  settings_ok (cc_settings cc) -> represents (cc_settings cc) (bk_worker b) a ->
  aworker_ok (cc_settings cc) a -> aw_logs a !! (t, p) = Some l -> record_at (al_chunks l) o = Some r ->
  exists w, read_record_at cc t p o b = (Ok (fetched (stored o r)), set_worker b w) /\
    represents (cc_settings cc) w a.
Proof.
  intros Hs Hr Hok Hll Ho. destruct (ao_logs _ _ Hok _ _ Hll) as [Hwf _].
  pose proof Hwf as (_ & Hlo & _). apply record_at_in in Ho as Hrange.
  destruct (proj1 (ao_keys _ _ Hok t p)) as (n & Hn & Hpn); [eauto|].
  apply (ao_topics _ _ Hok) in Hn as Hn2. destruct Hn2 as [_ ?].
  pose proof (read_records_refines _ Hs (bk_worker b) a t p o RECORD_AT_BYTES Hr Hok ltac:(range)) as Href.
  unfold a_read_records, a_ensure in Href. rewrite Hn in Href. cbn [a_bind] in Href. rewrite Hll in Href.
  unfold a_read in Href. change (RECORD_AT_BYTES =? 0) with false in Href.
  destruct (storage_refines (cc_settings cc) _ b _ _ Href) as (w & Hrun & Hr' & _).
  exists w. split; [|done].
  unfold read_record_at. erewrite bind_Ok by exact Hrun. cbv beta.
  pose proof (find_record l o Hwf) as Hfind. rewrite Ho in Hfind.
  assert (forall rs : list StoredRecord,
    List.find (fun r => fd_offset r =? o) (fetched <$> rs) =
    fetched <$> List.find (fun e => sr_offset e =? o) rs) as Hmap.
  { induction rs as [|x rs IH]; [done|]. cbn [fmap list_fmap List.find fetched fd_offset].
    destruct (sr_offset x =? o); [done|]. exact IH. }
  rewrite Hmap. change RECORD_AT_BYTES with MAX_RECORD_SIZE. rewrite Hfind by lia. done.
Qed.

Section leader.
Context `{!Crc32} `{!Crc32Ok}.
Context (cc : ClusterConfig).
Abbreviation s := (cc_settings cc).
Context (Hs : settings_ok s).
Context (deliver : Z -> ReplicateRecord -> SM Brokers ConnectionError ReplicateAck).
Context (Hnet : delivers deliver).
(** The partition, its leadership and the leader's log. *)
Context (t : string) (p : Z) (l : PartitionLeadership) (ll : ALog).
Context (Hp : pl_partition l = p).
Context (Hinv : a_inv (cfg s) ll) (Hroom : next (al_chunks ll) < U64_MAX).

Definition leader_ok (b : Broker) : Prop :=
  exists a, represents s (bk_worker b) a /\ aworker_ok s a /\ aw_logs a !! (t, p) = Some ll /\
    lr_entries (bk_leadership b) !! (t, p) = Some l.
(** The reachable brokers are followers whose logs mirror the leader's. *)
Definition net_ok (net : Brokers) : Prop :=
  forall id b, net !! id = Some b -> exists n, follower_ok s (t, p) l ll b n.
(** A reachable broker whose log ends at [n]. *)
Definition follower_at (net : Brokers) (id n : Z) : Prop :=
  exists b, net !! id = Some b /\ follower_ok s (t, p) l ll b n.
Definition net_grows (net net' : Brokers) : Prop :=
  forall id n, follower_at net id n -> exists n', follower_at net' id n' /\ n <= n'.
Definition keeps (st st' : Broker * Brokers) : Prop :=
  leader_ok st'.1 /\ net_ok st'.2 /\ net_grows st.2 st'.2 /\
  bk_leadership st'.1 = bk_leadership st.1.

#[local] Instance net_grows_preorder : PreOrder net_grows.
Proof.
  split.
  - intros net id n ?. exists n. split; [done|lia].
  - intros n1 n2 n3 H1 H2 id n Hn. destruct (H1 id n Hn) as (m & Hm & ?).
    destruct (H2 id m Hm) as (k & ? & ?). exists k. split; [done|lia].
Qed.

Lemma site_keeps_refl b net : leader_ok b -> net_ok net -> keeps (b, net) (b, net).
Proof. intros Hb Hn. split; [done|]. split; [done|]. by split. Qed.
Lemma site_keeps_trans st1 st2 st3 : keeps st1 st2 -> keeps st2 st3 -> keeps st1 st3.
Proof.
  intros (_ & _ & Hg1 & He1) (? & ? & Hg2 & He2). split; [done|]. split; [done|].
  split; [by etrans|congruence].
Qed.

Lemma follower_end net id n b : net !! id = Some b -> follower_ok s (t, p) l ll b n ->
  forall m, follower_at net id m -> m = n.
Proof.
  intros Hb (a & lf & cur & Hr & _ & Hlf & _ & <- & _) m
    (b' & Hb' & a' & lf' & cur' & Hr' & _ & Hlf' & _ & <- & _).
  rewrite Hb in Hb'. injection Hb' as <-.
  pose proof (wk_log s _ a (t, p) Hr) as H1. pose proof (wk_log s _ a' (t, p) Hr') as H2.
  rewrite H1, Hlf, Hlf' in H2. cbn [fmap option_fmap option_map] in H2. injection H2 as H2. done.
Qed.

Lemma insert_follower net id b b' n n' :
  net_ok net -> net !! id = Some b -> follower_ok s (t, p) l ll b n ->
  follower_ok s (t, p) l ll b' n' -> n <= n' ->
  net_ok (<[id := b']> net) /\ net_grows net (<[id := b']> net) /\ follower_at (<[id := b']> net) id n'.
Proof.
  intros Hok Hb Hf Hf' Hle. split; [|split].
  - intros id' b1. destruct (decide (id = id')) as [<-|].
    + rewrite lookup_insert_eq. intros [= <-]. eauto.
    + rewrite lookup_insert_ne by done. apply Hok.
  - intros id' m Hm. destruct (decide (id = id')) as [<-|].
    + exists n'. pose proof (follower_end net id n b Hb Hf m Hm) as ->. split; [|done].
      exists b'. by rewrite lookup_insert_eq.
    + destruct Hm as (b1 & ? & ?). exists m. split; [|lia]. exists b1. by rewrite lookup_insert_ne.
  - exists b'. by rewrite lookup_insert_eq.
Qed.

(** One record sent: it is lost, or the follower answers with the end of its
    log, which now has the record if it fitted there. *)
Lemma send_replica_spec b net follower o r ack_mode :
  leader_ok b -> net_ok net -> record_at (al_chunks ll) o = Some r ->
  wp (send_replica deliver follower (request_for t o r ack_mode l))
    (fun n' st' => keeps (b, net) st' /\ st'.1 = b /\ follower_at st'.2 (cn_id follower) n' /\
       forall n, follower_at net (cn_id follower) n -> n' = (if o =? n then n + 1 else n))
    (fun _ st' => keeps (b, net) st') (b, net).
Proof.
  intros Hb Hok Ho. unfold send_replica. apply wp_bind. unfold wp at 1, on_net. cbn [fst snd].
  destruct (Hnet (cn_id follower) (request_for t o r ack_mode l) net)
    as [(e & ->)|(fb & res & fb' & Hfb & Hres & Hsnd & Hfst)].
  { split; [done|]. split; [done|]. split; [done|done]. }
  destruct (Hok _ _ Hfb) as [n Hn].
  destruct (handle_replica_spec s Hs t p l ll fb n o r ack_mode) as (fb2 & n' & Hrun & Hf' & Hn'); [done..|].
  rewrite Hrun in Hres. injection Hres as <- <-.
  destruct (insert_follower net (cn_id follower) fb fb2 n n') as (Hok' & Hg & Hat); [done..|subst n'; destruct (o =? n); lia|].
  destruct (deliver _ _ net) as [out net'] eqn:Hd. cbn [fst snd] in *. subst net'.
  destruct Hfst as [(ack & [= <-] & ->)|(e & ->)]; [|by split_and!].
  apply wp_bind, wp_reject_if; cbn [ra_partition request_for replication_record rr_partition].
  - intros _. by split_and!.
  - intros _. unfold wp, ret. cbn [ra_next_offset]. split_and!; try done.
    intros m Hm. by rewrite (follower_end net _ n fb Hfb Hn m Hm).
Qed.

Lemma leader_set_worker b w a :
  leader_ok b -> represents s w a -> aworker_ok s a -> aw_logs a !! (t, p) = Some ll ->
  leader_ok (set_worker b w).
Proof. intros (a0 & _ & _ & _ & Hl) ? ? ?. by exists a. Qed.

(** The leader reads its own record. *)
Lemma read_record_at_spec b o r :
  leader_ok b -> record_at (al_chunks ll) o = Some r ->
  exists w, read_record_at cc t p o b = (Ok (fetched (stored o r)), set_worker b w) /\
    leader_ok (set_worker b w).
Proof.
  intros Hb Ho. pose proof Hb as (a & Hr & Hok & Hll & Hl).
  destruct (read_record_at_held cc t p b a ll o r Hs Hr Hok Hll Ho) as (w & Hrun & Hr').
  exists w. split; [exact Hrun|]. by eapply leader_set_worker.
Qed.

Lemma catch_up_spec fuel follower o ack_mode b net n :
  leader_ok b -> net_ok net -> o < next (al_chunks ll) -> 0 <= n ->
  follower_at net (cn_id follower) n ->
  wp (catch_up cc deliver fuel follower t p o ack_mode l n)
    (fun _ st' => keeps (b, net) st' /\ exists n', follower_at st'.2 (cn_id follower) n' /\ o < n')
    (fun _ st' => keeps (b, net) st') (b, net).
Proof.
  revert b net n. induction fuel as [|fuel IH]; intros b net n Hb Hok Ho Hn0 Hn; cbn [catch_up];
    (destruct (Z.ltb_spec o n); [split; [by apply site_keeps_refl|by exists n]|]).
  - by apply site_keeps_refl.
  - pose proof Hb as (a & _ & Hoka & Hll & _). destruct (record_at (al_chunks ll) n) as [r|] eqn:Hr.
    2:{ exfalso. destruct Hn as (fb & _ & a' & lf & cur & _ & _ & _ & Hm & Hnx & _).
        destruct Hm as (_ & Hl0 & _). rewrite record_at_zero in Hr by done. apply lookup_ge_None in Hr.
        rewrite next_mirror in Ho by done. unfold clen in Ho. lia. }
    apply wp_bind. unfold wp at 1, on_broker. cbn [fst snd].
    destruct (read_record_at_spec b n r Hb Hr) as (w & -> & Hb').
    apply wp_bind. eapply wp_mono; [by apply send_replica_spec| |].
    + intros n' [b1 net1] ((Hb1 & Hok1 & Hg1 & Hl1) & Hb1eq & Hat & Hn'). cbn [fst snd] in *. subst b1.
      specialize (Hn' n Hn). rewrite Z.eqb_refl in Hn'.
      eapply wp_mono; [apply (IH (set_worker b w) net1 n'); try done; lia| |].
      * intros [] st' [Hk Hex]. split; [|done]. eapply site_keeps_trans; [|exact Hk]. split_and!; cbn [fst snd]; done || congruence.
      * intros e st' Hk. eapply site_keeps_trans; [|exact Hk]. split_and!; cbn [fst snd]; done || congruence.
    + intros e [b1 net1] (? & ? & ? & ?). by split_and!.
Qed.

Lemma replicate_to_follower_spec fuel follower o r ack_mode b net :
  leader_ok b -> net_ok net -> record_at (al_chunks ll) o = Some r -> 0 <= o ->
  wp (replicate_to_follower cc deliver fuel follower t p (fetched (stored o r)) ack_mode)
    (fun _ st' => keeps (b, net) st' /\ exists n', follower_at st'.2 (cn_id follower) n' /\ o < n')
    (fun _ st' => keeps (b, net) st') (b, net).
Proof.
  intros Hb Hok Ho Ho0. apply record_at_in in Ho as Hrange. unfold replicate_to_follower.
  pose proof Hb as (a & _ & _ & _ & Hl). apply wp_bind. unfold wp at 1, on_broker. cbn [fst snd].
  rewrite (leadership_partition b t p l Hl). cbn [fetched stored sr_offset fd_offset].
  apply wp_bind. eapply wp_mono; [by apply (send_replica_spec b net follower o r)| |done].
  intros n' [b1 net1] (Hk & Hb1 & Hat & Hn'). cbn [fst snd] in *. subst b1.
  pose proof Hk as (_ & Hok1 & _). apply wp_bind, wp_reject_if; [done|]. intros _.
  assert (0 <= n') as Hn0.
  { destruct Hat as (fb & _ & a' & lf & cur & _ & _ & _ & (Hf & _) & <- & _).
    rewrite next_mirror by done. apply clen_nonneg. }
  eapply wp_mono; [apply (catch_up_spec fuel follower o ack_mode b net1 n'); try done; lia| |].
  - intros [] st' [Hk' Hex]. split; [by eapply site_keeps_trans|done].
  - intros e st' Hk'. by eapply site_keeps_trans.
Qed.

(** The acknowledgements are those of followers that hold the record. *)
Lemma replicate_all_spec fuel followers o r ack_mode b net acks :
  leader_ok b -> net_ok net -> record_at (al_chunks ll) o = Some r -> 0 <= o ->
  wp (replicate_all cc deliver fuel followers t p (fetched (stored o r)) ack_mode acks)
    (fun acks' st' => keeps (b, net) st' /\
       exists held, held ⊆+ (cn_id <$> followers) /\ acks' = acks + Z.of_nat (length held) /\
         Forall (fun id => exists n, follower_at st'.2 id n /\ o < n) held)
    (fun _ _ => False) (b, net).
Proof.
  intros Hb Hok Ho Ho0. revert b net acks Hb Hok.
  induction followers as [|f followers IH]; intros b net acks Hb Hok.
  { split; [by apply site_keeps_refl|]. exists []. cbn. split_and!; [done|lia|constructor]. }
  unfold wp at 1. cbn [replicate_all].
  pose proof (replicate_to_follower_spec fuel f o r ack_mode b net Hb Hok Ho Ho0) as Hone. unfold wp in Hone.
  destruct (replicate_to_follower _ _ _ _ _ _ _ _ _) as [[[]|e|] [b1 net1]]; [| |done].
  - destruct Hone as (Hk & n & Hn & Hon). pose proof Hk as (Hb1 & Hok1 & _). cbn [fst snd] in *.
    specialize (IH b1 net1 (acks + 1) Hb1 Hok1). unfold wp in IH.
    destruct (replicate_all _ _ _ _ _ _ _ _ _ _) as [[acks'|e|] st2]; [|done..].
    destruct IH as (Hk2 & held & Hsub & -> & HF). split; [by eapply site_keeps_trans|].
    exists (cn_id f :: held). cbn [fmap list_fmap length]. split_and!; [by constructor|lia|].
    constructor; [|done]. destruct Hk2 as (_ & _ & Hg & _). destruct (Hg _ _ Hn) as (n2 & ? & ?).
    exists n2. split; [done|lia].
  - pose proof Hone as (Hb1 & Hok1 & _). cbn [fst snd] in *.
    specialize (IH b1 net1 acks Hb1 Hok1). unfold wp in IH.
    destruct (replicate_all _ _ _ _ _ _ _ _ _ _) as [[acks'|e'|] st2]; [|done..].
    destruct IH as (Hk2 & held & Hsub & -> & HF). split; [by eapply site_keeps_trans|].
    exists held. split_and!; [by apply submseteq_cons|done|done].
Qed.
End leader.
