(* ===== verification/Cluster.v ===== *)
(** * Cluster: what replication and leader election in [crates/broker] promise. *)

From stdpp Require Import base numbers list strings gmap sorting.
From Stdlib Require Import ZArith Lia.
From S2P Require Import Prelude Text Files Runs Protocol Record RecordFacts Log LogRep LogFacts LogAppend LogRead LogOpen LogShrink Storage Groups Leadership LeadershipFacts Worker WorkerSpec WorkerFacts Whole Topics Broker Replication.

(* ------------------------------------------------------------------ *)
(** ** Helpers                                                          *)
(* ------------------------------------------------------------------ *)

(** A network that delivers every request and answer. *)
Definition reliable `{!Crc32} (id : Z) (request : ReplicateRecord) : SM Brokers ConnectionError ReplicateAck :=
  fun net =>
    match net !! id with
    | None => (Err ReplicationClosed, net)
    | Some b =>
        match handle_replica request b with
        | (Ok ack, b') => (Ok ack, <[id := b']> net)
        | (_, b') => (Err ReplicationClosed, <[id := b']> net)
        end
    end.

Lemma reliable_delivers `{!Crc32} : delivers reliable.
Proof.
  intros id request net. unfold reliable. destruct (net !! id) as [b|] eqn:Hb; [|left; eauto].
  right. destruct (handle_replica request b) as [o b'] eqn:Ho. exists b, o, b'.
  split; [done|]. split; [done|]. destruct o as [ack|e|]; cbn [fst snd]; split; eauto.
Qed.

Section commit.
Context `{!Crc32} (cc : ClusterConfig).

Lemma leadership_apply b t l :
  leadership (registry_apply t l) b =
  (omap_err CLeadership (fst (registry_apply t l (bk_leadership b))),
   set_leadership b (snd (registry_apply t l (bk_leadership b)))).
Proof. unfold leadership. by destruct (registry_apply _ _ _). Qed.

(** A commit leaves the storage alone; when it succeeds, the high watermark is
    at least the one asked for. *)
Lemma commit_replicated_spec b t p l hw :
  lr_entries (bk_leadership b) !! (t, p) = Some l -> pl_partition l = p ->
  wp (commit_replicated cc t p hw)
    (fun _ b' => bk_worker b' = bk_worker b /\
       exists l', lr_entries (bk_leadership b') !! (t, p) = Some l' /\ hw <= pl_high_watermark l' /\
         pl_leader_id l' = pl_leader_id l /\ pl_leader_epoch l' = pl_leader_epoch l)
    (fun _ b' => b' = b) b.
Proof.
  intros Hl Hp. unfold commit_replicated. apply wp_bind. unfold wp at 1.
  rewrite (leadership_partition b t p l Hl). destruct (Z.leb_spec hw (pl_high_watermark l)).
  { split; [done|]. by exists l. }
  set (l' := {| pl_partition := pl_partition l; pl_leader_id := pl_leader_id l;
                pl_leader_epoch := pl_leader_epoch l; pl_high_watermark := hw |}).
  apply wp_bind. unfold wp at 1. rewrite leadership_apply, registry_apply_spec.
  cbn [l' pl_partition pl_leader_id]. fold l'. rewrite Hp, Hl.
  destruct (existsb _ _); [|cbn [fst snd omap_err]; by destruct b].
  destruct (is_stale l l'); [cbn [fst snd omap_err]; by destruct b|].
  assert (bool_decide (l' = l) = false) as -> by (apply bool_decide_eq_false_2; intros Heq;
    apply (f_equal pl_high_watermark) in Heq; cbn in Heq; lia).
  cbn [fst snd omap_err]. unfold wp, modify. split; [done|]. exists l'.
  cbn [add_messages set_leadership bk_leadership reg_with lr_entries].
  rewrite lookup_insert_eq. split; [done|]. by cbn.
Qed.
End commit.

(** ** Replication over a reliable network *)
Section catching_up.
Context `{!Crc32} `{!Crc32Ok}.
Context (cc : ClusterConfig).
Abbreviation s := (cc_settings cc).
Context (Hs : settings_ok s).
Context (t : string) (p : Z) (l : PartitionLeadership) (ll : ALog).
Context (Hp : pl_partition l = p).
Context (Hinv : a_inv (cfg s) ll) (Hroom : next (al_chunks ll) < U64_MAX).

Lemma follower_at_nonneg net id n : follower_at cc t p l ll net id n -> 0 <= n.
Proof.
  intros (b & _ & a & lf & cur & _ & _ & _ & (Hf & _) & <- & _). rewrite next_mirror by done. apply clen_nonneg.
Qed.

Lemma send_reliable b net follower o r ack_mode n :
  leader_ok cc t p l ll b -> net_ok cc t p l ll net -> record_at (al_chunks ll) o = Some r ->
  follower_at cc t p l ll net (cn_id follower) n ->
  exists net', send_replica reliable follower (request_for t o r ack_mode l) (b, net) =
      (Ok (if o =? n then n + 1 else n), (b, net')) /\
    net_ok cc t p l ll net' /\
    follower_at cc t p l ll net' (cn_id follower) (if o =? n then n + 1 else n).
Proof.
  intros Hb Hok Ho (fb & Hfb & Hf).
  destruct (handle_replica_spec s Hs t p l ll fb n o r ack_mode) as (fb' & n' & Hrun & Hf' & Hn'); [done..|].
  rewrite <- Hn'. destruct (insert_follower cc t p l ll net (cn_id follower) fb fb' n n') as (Hok' & _ & Hat);
    [done..|subst n'; destruct (o =? n); lia|].
  exists (<[cn_id follower := fb']> net). split; [|done].
  unfold send_replica. erewrite bind_Ok.
  2:{ unfold on_net, reliable. cbn [fst snd]. by rewrite Hfb, Hrun. }
  cbv beta. erewrite bind_Ok; [done|]. cbn [ra_partition request_for replication_record rr_partition].
  by rewrite Hp, Z.eqb_refl.
Qed.

Lemma catch_up_reliable fuel follower o ack_mode b net n :
  leader_ok cc t p l ll b -> net_ok cc t p l ll net -> o < next (al_chunks ll) ->
  follower_at cc t p l ll net (cn_id follower) n -> n <= o + 1 -> o + 1 - n <= Z.of_nat fuel ->
  exists st', catch_up cc reliable fuel follower t p o ack_mode l n (b, net) = (Ok tt, st') /\
    follower_at cc t p l ll st'.2 (cn_id follower) (o + 1).
Proof.
  revert b net n. induction fuel as [|fuel IH]; intros b net n Hb Hok Ho Hn Hle Hfuel; cbn [catch_up];
    (destruct (Z.ltb_spec o n); [exists (b, net); split; [done|]; by replace (o + 1) with n by lia|]); [lia|].
  pose proof (follower_at_nonneg _ _ _ Hn) as Hn0.
  destruct (record_at (al_chunks ll) n) as [r|] eqn:Hr.
  2:{ exfalso. destruct Hn as (fb & _ & a' & lf & cur & _ & _ & _ & (_ & Hl0 & _) & _).
      rewrite record_at_zero in Hr by done. apply lookup_ge_None in Hr.
      rewrite next_mirror in Ho by done. unfold clen in Ho. lia. }
  destruct (read_record_at_spec cc Hs t p l ll b n r Hb Hr) as (w & Hrun & Hb').
  erewrite bind_Ok by (unfold on_broker; cbn [fst snd]; rewrite Hrun; reflexivity). cbv beta.
  destruct (send_reliable (set_worker b w) net follower n r ack_mode n) as (net' & Hsend & Hok' & Hat); [done..|].
  rewrite Z.eqb_refl in Hsend, Hat. erewrite bind_Ok by exact Hsend. cbv beta.
  apply IH; done || lia.
Qed.
End catching_up.

(** Candidates in the order of [max_by_key]. *)
Lemma candidate_le_trans a b c :
  candidate_le a b = true -> candidate_le b c = true -> candidate_le a c = true.
Proof. unfold candidate_le. lia. Qed.
Lemma candidate_le_total a b : candidate_le a b = false -> candidate_le b a = true.
Proof. unfold candidate_le. lia. Qed.

Lemma max_candidate_from xs best :
  exists m, fold_left (fun best x =>
      match best with
      | Some b => if candidate_le b x then Some x else Some b
      | None => Some x
      end) xs (Some best) = Some m /\
    m ∈ best :: xs /\ forall x, x ∈ best :: xs -> candidate_le x m = true.
Proof.
  assert (forall a : Z * Z, candidate_le a a = true) as Hrefl by (intros a; unfold candidate_le; lia).
  revert best. induction xs as [|y xs IH]; intros best.
  { exists best. split; [done|]. split; [by left|]. by intros x ->%list_elem_of_singleton. }
  cbn [fold_left]. destruct (candidate_le best y) eqn:E.
  - destruct (IH y) as (m & -> & Hin & Hmax). exists m. split; [done|]. split; [by right|].
    intros x [->|Hx]%elem_of_cons; [|by apply Hmax]. eapply candidate_le_trans; [done|]. apply Hmax. by left.
  - destruct (IH best) as (m & -> & Hin & Hmax). exists m. split; [done|].
    split; [apply elem_of_cons in Hin as [->|]; [by left|by do 2 right]|].
    intros x [->|[->|Hx]%elem_of_cons]%elem_of_cons.
    + apply Hmax. by left.
    + eapply candidate_le_trans; [by apply candidate_le_total|]. apply Hmax. by left.
    + apply Hmax. by right.
Qed.

(** Picking nodes by position. *)
Lemma pick_NoDup (ns : list ClusterNode) (f : Z -> nat) xs :
  NoDup (cn_id <$> ns) -> NoDup (f <$> xs) ->
  NoDup (cn_id <$> omap (fun i => ns !! f i) xs).
Proof.
  intros Hns. induction xs as [|x xs IH]; [intros _; constructor|].
  cbn [fmap list_fmap omap list_omap]. intros [Hx Hxs]%NoDup_cons.
  destruct (ns !! f x) as [n|] eqn:Hn; [|by apply IH]. cbn [fmap list_fmap]. constructor; [|by apply IH].
  intros (n' & Hid & (y & Hy & Hn')%list_elem_of_omap)%list_elem_of_fmap.
  apply Hx. replace (f x) with (f y); [by apply list_elem_of_fmap_2|].
  eapply (NoDup_lookup (cn_id <$> ns)); [done| |]; rewrite list_lookup_fmap; [by rewrite Hn'|].
  rewrite Hn. cbn. by rewrite Hid.
Qed.
Lemma pick_length (ns : list ClusterNode) (f : Z -> nat) xs :
  (forall x, x ∈ xs -> (f x < length ns)%nat) -> length (omap (fun i => ns !! f i) xs) = length xs.
Proof.
  induction xs as [|x xs IH]; intros Hf; [done|]. cbn [omap list_omap length].
  destruct (lookup_lt_is_Some_2 ns (f x)) as [n Hn]; [apply Hf; by left|].
  change (length (match ns !! f x with
                  | Some y => y :: omap (fun i => ns !! f i) xs
                  | None => omap (fun i => ns !! f i) xs end) = Datatypes.S (length xs)).
  rewrite Hn. cbn [length]. f_equal. apply IH. intros y Hy. apply Hf. by right.
Qed.

Lemma mod_wrap x n : 0 <= x < 2 * n -> x mod n = if x <? n then x else x - n.
Proof.
  intros Hx. destruct (Z.ltb_spec x n); [apply Z.mod_small; lia|].
  replace x with ((x - n) + 1 * n) by lia. rewrite Z.mod_add, Z.mod_small by lia. lia.
Qed.

(* ------------------------------------------------------------------ *)
(** ** Examples                                                         *)
(* ------------------------------------------------------------------ *)

Definition sample_node (id : Z) : ClusterNode :=
  {| cn_id := id; cn_host := "localhost"; cn_port := 7000 + id; cn_admin_port := 8000 + id;
     cn_replication_port := 9000 + id |}.
(** Three brokers, two replicas a partition, both in sync for a commit. *)
Definition sample_config (id : Z) : ClusterConfig :=
  {| cc_metadata := {| cm_responding_broker_id := id; cm_nodes := sample_node <$> [1; 2; 3] |};
     cc_replication_factor := 2; cc_min_in_sync_replicas := 2; cc_settings := sample_settings |}.

#[local] Existing Instance length_crc.
#[local] Existing Instance length_crc_ok.

(** Broker 2 leads partition 1 of a topic and has two records; broker 3 follows
    and has none. *)
Definition sample_registry (id : Z) : LeadershipRegistry :=
  snd (registry_ensure_topic "payments" 2
         {| lr_dir := ∅; lr_cluster := cc_metadata (sample_config id); lr_entries := ∅ |}).
Definition sample_broker (id : Z) (w : Worker) : Broker :=
  {| bk_worker := w; bk_leadership := sample_registry id;
     bk_groups := {| gc_offsets_dir := ∅; gc_default_partition_count := 2;
                     gc_topic_partition_counts := ∅; gc_session_timeout := 10; gc_groups := ∅ |};
     bk_outbox := []; bk_tasks := [] |}.
Definition topic_worker : Worker := snd (create_topic sample_settings "payments" 2 fresh_worker).
Definition topic_state : AWorker := snd (a_create no_topics "payments" 2).
Definition leader_worker : Worker :=
  snd (append_batch_records sample_settings two_records (fun _ => 7) topic_worker).
Definition sample_leader : Broker := sample_broker 2 leader_worker.
Definition sample_follower : Broker := sample_broker 3 topic_worker.
Definition sample_leadership : PartitionLeadership :=
  {| pl_partition := 1; pl_leader_id := 2; pl_leader_epoch := 0; pl_high_watermark := 0 |}.
Definition leader_records : list LogRecord :=
  batch_records "payments" (Some 1) (fun _ => 7) (ba_records two_records).
Definition leader_log : ALog := a_appends (cfg sample_settings) empty_log leader_records.

Lemma topic_represents : represents sample_settings topic_worker topic_state /\
  aworker_ok sample_settings topic_state.
Proof.
  destruct (create_topic_refines sample_settings sample_settings_ok fresh_worker no_topics "payments" 2
              fresh_represents no_topics_ok) as (_ & Hr & Hok); [split; vm_compute; discriminate|].
  split; [exact Hr|exact Hok].
Qed.

Lemma sample_leader_ok : leader_ok (sample_config 2) "payments" 1 sample_leadership leader_log sample_leader.
Proof.
  destruct topic_represents as [Hr Hok].
  destruct (append_batch_refines sample_settings sample_settings_ok topic_worker topic_state two_records
              (fun _ => 7) Hr Hok) as (_ & Hr' & Hok').
  - split; vm_compute; discriminate.
  - apply (roomy_room sample_settings _ _ _ Hr), roomy_by_check. vm_compute. reflexivity.
  - eexists. split; [exact Hr'|]. split; [exact Hok'|]. split; vm_compute; reflexivity.
Qed.

Lemma leader_log_inv : a_inv (cfg sample_settings) leader_log /\ next (al_chunks leader_log) = 2.
Proof.
  destruct (appends_spec (cfg sample_settings) empty_log 0 leader_records) as (_ & Hi & _).
  - apply sample_settings_ok.
  - apply inv_empty.
  - repeat constructor; vm_compute; (reflexivity || discriminate).
  - repeat split.
  - vm_compute. discriminate.
  - split; [exact Hi|vm_compute; reflexivity].
Qed.

Lemma sample_follower_ok :
  follower_ok sample_settings ("payments", 1) sample_leadership leader_log sample_follower 0.
Proof.
  destruct topic_represents as [Hr Hok]. exists topic_state, empty_log, sample_leadership.
  split; [exact Hr|]. split; [exact Hok|]. split; [vm_compute; reflexivity|].
  split; [|by split_and!]. split; [done|]. split; [vm_compute; reflexivity|constructor].
Qed.
Definition sample_net : Brokers := {[3 := sample_follower]}.
Lemma sample_net_ok : net_ok (sample_config 2) "payments" 1 sample_leadership leader_log sample_net.
Proof. unfold sample_net. intros id b [<- <-]%lookup_singleton_Some. exists 0. apply sample_follower_ok. Qed.

Lemma replicas_length cc p :
  0 < cc_replication_factor cc <= Z.of_nat (length (nodes cc)) ->
  Z.of_nat (length (replicas cc p)) = cc_replication_factor cc.
Proof.
  intros Hrf. unfold replicas. set (len := Z.of_nat (length (nodes cc))) in *.
  assert (forall i, 0 <= (p mod len + i) mod len < len) as Hf by (intros; apply Z.mod_pos_bound; lia).
  rewrite (pick_length (nodes cc) (fun i => Z.to_nat ((p mod len + i) mod len))), length_seqZ
    by (intros x _; specialize (Hf x); lia). lia.
Qed.

(** Replica placement: a partition has as many replicas as configured, all on
    different brokers, the first of them the broker that every member of the
    cluster computes as the initial leader; its followers are the replicas other
    than this broker. *)
Theorem replica_placement cc p :
  NoDup (cn_id <$> nodes cc) -> 0 < cc_replication_factor cc <= Z.of_nat (length (nodes cc)) ->
  Z.of_nat (length (replicas cc p)) = cc_replication_factor cc /\
  NoDup (cn_id <$> replicas cc p) /\
  (exists leader rest, replicas cc p = leader :: rest /\
     deterministic_leader (cc_metadata cc) p = Some (cn_id leader)) /\
  (forall id, id ∈ (cn_id <$> replica_followers cc p) <->
     is_partition_replica cc id p = true /\ id <> self_id cc).
Proof.
  intros Hnd Hrf. pose proof (replicas_length cc p Hrf) as Hlength. revert Hlength.
  unfold replicas. set (len := Z.of_nat (length (nodes cc))) in *. intros Hlength.
  set (f := fun i => Z.to_nat ((p mod len + i) mod len)).
  assert (forall i, 0 <= (p mod len + i) mod len < len) as Hf by (intros; apply Z.mod_pos_bound; lia).
  split_and!.
  - exact Hlength.
  - apply (pick_NoDup (nodes cc) f); [done|]. apply NoDup_fmap_2_strong; [|apply NoDup_seqZ].
    intros i j ?%elem_of_seqZ ?%elem_of_seqZ Heq. pose proof (Hf i). pose proof (Hf j). unfold f in Heq.
    assert ((p mod len + i) mod len = (p mod len + j) mod len) as Hm by lia.
    pose proof (Z.mod_pos_bound p len ltac:(lia)).
    rewrite (mod_wrap (p mod len + i)), (mod_wrap (p mod len + j)) in Hm by lia. revert Hm. destruct (Z.ltb_spec (p mod len + i) len), (Z.ltb_spec (p mod len + j) len); lia.
  - rewrite seqZ_cons by lia. cbn [omap list_omap]. rewrite Z.add_0_r, Z.mod_mod by lia.
    pose proof (Z.mod_pos_bound p len ltac:(lia)).
    destruct (lookup_lt_is_Some_2 (nodes cc) (Z.to_nat (p mod len))) as [n Hn]; [lia|].
    exists n. rewrite Hn. eexists. split; [done|]. unfold deterministic_leader. fold (nodes cc) len.
    by rewrite Hn.
  - intros id. unfold replica_followers, is_partition_replica, replicas. fold len.
    rewrite list_elem_of_fmap, existsb_exists. setoid_rewrite list_elem_of_filter.
    setoid_rewrite <- list_elem_of_In. setoid_rewrite Z.eqb_eq. split.
    + intros (n & -> & ? & ?). eauto.
    + intros ((n & ? & <-) & ?). eauto.
Qed.

Lemma replica_placement_witness :
  Z.of_nat (length (replicas (sample_config 2) 4)) = 2 /\
  NoDup (cn_id <$> replicas (sample_config 2) 4) /\
  (exists leader rest, replicas (sample_config 2) 4 = leader :: rest /\
     deterministic_leader (cc_metadata (sample_config 2)) 4 = Some (cn_id leader)) /\
  (forall id, id ∈ (cn_id <$> replica_followers (sample_config 2) 4) <->
     is_partition_replica (sample_config 2) id 4 = true /\ id <> self_id (sample_config 2)).
Proof.
  apply (replica_placement (sample_config 2) 4).
  - apply (bool_decide_unpack _). vm_compute. exact I.
  - split; vm_compute; (reflexivity || discriminate).
Defined.

(** C18 The candidate for an automatic promotion: there is one exactly when enough
    replicas answered and one of them has every committed record; it is a replica
    that answered, it has every committed record, no such replica has a longer
    log, and among the longest the lowest id wins. *)
Theorem candidate_is_safe offsets min_in_sync high_watermark :
  match choose_automatic_candidate offsets min_in_sync high_watermark with
  | Some id =>
      min_in_sync <= Z.of_nat (length offsets) /\
      exists offset, (id, offset) ∈ offsets /\ high_watermark <= offset /\
        forall id' offset', (id', offset') ∈ offsets ->
          offset' <= offset /\ (offset' = offset -> id <= id')
  | None =>
      Z.of_nat (length offsets) < min_in_sync \/
      forall id offset, (id, offset) ∈ offsets -> offset < high_watermark
  end.
Proof.
  unfold choose_automatic_candidate. destruct (Z.ltb_spec (Z.of_nat (length offsets)) min_in_sync); [by left|].
  set (safe := filter _ offsets).
  assert (forall x, x ∈ safe <-> x ∈ offsets /\ high_watermark <= x.2) as Hsafe.
  { intros x. unfold safe. rewrite list_elem_of_filter. tauto. }
  unfold max_candidate. destruct safe as [|x rest] eqn:Hs.
  { right. intros id offset Hin. destruct (Z.le_gt_cases high_watermark offset); [|done].
    exfalso. apply (elem_of_nil (id, offset)), Hsafe. by split. }
  cbn [fold_left]. destruct (max_candidate_from rest x) as (m & -> & Hin & Hmax). cbn [fmap option_fmap option_map].
  split; [done|]. destruct m as [id offset]. exists offset. apply Hsafe in Hin as [Hin Hhw]. cbn [fst snd] in *.
  split; [done|]. split; [done|]. intros id' offset' Hin'.
  destruct (Z.le_gt_cases high_watermark offset').
  - assert ((id', offset') ∈ x :: rest) as Hm%Hmax by by apply Hsafe. unfold candidate_le in Hm.
    cbn [fst snd] in Hm. lia.
  - lia.
Qed.





(** A follower that is ahead is taken for broken: when the follower already
    holds records after this one (the produce is a retry, or a later record's
    replication brought it up to date first), it answers with the end of its log
    and the leader refuses the acknowledgement, although the follower has the
    record. *)
Theorem replica_ahead_refused `{!Crc32} `{!Crc32Ok} cc fuel follower t p l ll o r n ack_mode b net :
  settings_ok (cc_settings cc) -> pl_partition l = p ->
  a_inv (cfg (cc_settings cc)) ll -> next (al_chunks ll) < U64_MAX ->
  leader_ok cc t p l ll b -> net_ok cc t p l ll net ->
  record_at (al_chunks ll) o = Some r -> follower_at cc t p l ll net (cn_id follower) n ->
  o + 1 < n ->
  exists st', replicate_to_follower cc reliable fuel follower t p (fetched (stored o r)) ack_mode (b, net) =
      (Err InvalidReplicationAck, st') /\ follower_at cc t p l ll st'.2 (cn_id follower) n.
Proof.
  intros Hs Hp Hinv Hroom Hb Hok Ho Hn Hlt. apply record_at_in in Ho as Hrange.
  unfold replicate_to_follower. pose proof Hb as (a & _ & _ & _ & Hl).
  erewrite bind_Ok by (unfold on_broker; cbn [fst snd]; rewrite (leadership_partition b t p l Hl); reflexivity).
  cbv beta. destruct (send_reliable cc Hs t p l ll Hp Hinv Hroom b net follower o r ack_mode n)
    as (net' & Hsend & Hok' & Hat); [done..|].
  rewrite (proj2 (Z.eqb_neq o n)) in Hsend, Hat by lia.
  exists (b, net'). split; [|done]. erewrite bind_Ok by exact Hsend. cbv beta.
  apply bind_Err. unfold reject_if. cbn [fetched stored sr_offset fd_offset].
  assert ((saturating_add o 1 <? n) = true) as -> by (unfold saturating_add; lia). done.
Qed.

Lemma replica_ahead_refused_witness :
  exists st', replicate_to_follower (sample_config 2) reliable 2 (sample_node 3) "payments" 1
      (fetched (stored 0 (batch_record_at "payments" (Some 1) 7
         {| br_key := []; br_payload := as_bytes "one" |}))) AckLeader
      (sample_leader, {[3 := sample_broker 3 leader_worker]}) =
      (Err InvalidReplicationAck, st') /\
    follower_at (sample_config 2) "payments" 1 sample_leadership leader_log st'.2 3 2.
Proof.
  assert (follower_ok sample_settings ("payments", 1) sample_leadership leader_log
            (sample_broker 3 leader_worker) 2) as Hf.
  { destruct sample_leader_ok as (a & Hr & Hok & Hl & Hcur). exists a, leader_log, sample_leadership.
    split_and!; try done. split_and!; [done..|]. rewrite firstn_all.
    induction (flat (al_chunks leader_log)) as [|x xs IH]; constructor; [by repeat split|exact IH]. }
  apply (replica_ahead_refused (sample_config 2) 2 (sample_node 3) "payments" 1 sample_leadership leader_log 0
           (batch_record_at "payments" (Some 1) 7 {| br_key := []; br_payload := as_bytes "one" |}) 2 AckLeader
           sample_leader {[3 := sample_broker 3 leader_worker]}).
  - apply sample_settings_ok.
  - reflexivity.
  - apply leader_log_inv.
  - vm_compute. reflexivity.
  - apply sample_leader_ok.
  - intros id b [<- <-]%lookup_singleton_Some. by exists 2.
  - vm_compute. reflexivity.
  - exists (sample_broker 3 leader_worker). split; [by rewrite lookup_singleton_eq|exact Hf].
  - vm_compute. reflexivity.
Defined.

(** A partition whose leadership moved to broker 2 while broker 3 kept a record
    that was never committed. *)
Definition batch_of (values : list string) : BatchAppendInput :=
  {| ba_topic := "payments"; ba_partition := Some 1;
     ba_records := (fun v => {| br_key := []; br_payload := as_bytes v |}) <$> values;
     ba_ack_mode := AckLeader |}.
Definition worker_with (values : list string) : Worker :=
  snd (append_batch_records sample_settings (batch_of values) (fun _ => 7) topic_worker).
Definition new_leadership : PartitionLeadership :=
  {| pl_partition := 1; pl_leader_id := 2; pl_leader_epoch := 1; pl_high_watermark := 1 |}.
Definition new_leader : Broker :=
  let b := sample_broker 2 (worker_with ["one"; "two"; "three"]) in
  set_leadership b (snd (registry_apply "payments" new_leadership (bk_leadership b))).
Definition old_follower : Broker := sample_broker 3 (worker_with ["one"; "old"]).
Definition value_at (cc : ClusterConfig) (b : Broker) (o : Z) : option string :=
  match fst (read_record_at cc "payments" 1 o b) with
  | Ok r => Some (of_bytes (fd_value r))
  | _ => None
  end.

(** A divergent replica acknowledges: a follower that still has a record of an
    earlier epoch, never committed, at offset 1 accepts the new leader's record at
    offset 2, since it truncates its log only from the offset of the record it is
    sent.  The leader counts it as in sync and commits, although the two logs
    differ at a committed offset. *)
Theorem divergent_replica_acknowledges :
  let record := {| fd_offset := 2; fd_timestamp_ms := 7; fd_key := None; fd_value := as_bytes "three" |} in
  match replicate (sample_config 2) reliable 3 "payments" 1 record AckDurable
          (new_leader, {[3 := old_follower]}) with
  | (Ok _, (leader, net)) =>
      option_map pl_high_watermark (lr_entries (bk_leadership leader) !! ("payments", 1)) = Some 3 /\
      value_at (sample_config 2) leader 1 = Some "two" /\
      value_at (sample_config 2) leader 2 = Some "three" /\
      option_map (fun b => value_at (sample_config 3) b 1) (net !! 3) = Some (Some "old") /\
      option_map (fun b => value_at (sample_config 3) b 2) (net !! 3) = Some (Some "three")
  | _ => False
  end.
Proof. vm_compute. by split_and!. Qed.
