(* ===== verification/Requests.v ===== *)
(** * Requests: request handlers, promotion and follower recovery of
    [crates/broker/src/lib.rs].

    [process_request] and the handlers it dispatches to, as functions on the
    broker and its network; the leader monitor and the synchronisation of a
    follower.  The texts of error responses are values of [Refusal]. *)

From stdpp Require Import base numbers list strings gmap sorting.
From Stdlib Require Import ZArith Lia.
From S2P Require Import Prelude Text Files Protocol Record Log Groups Leadership Worker Broker.

(** What a handler sees of the world: the storage worker's view, the time of
    group calls, the order of the hash map of groups, what happens while a read
    waits, and how many records a replication has time to send. *)
Record World := {
  wd_ambient : Ambient;
  wd_now : Z;
  wd_group_order : list (string * string);
  wd_waits : list (Worker -> Worker);
  wd_sends : nat
}.

Section requests.
Context `{!Crc32}.
Context (cc : ClusterConfig).
Context (world : World).
Context {Net : Type}.
Context (deliver : Z -> ReplicateRecord -> SM Net ConnectionError ReplicateAck).
Context (query : Z -> string -> Z -> Net -> option Z).

Abbreviation site A := (SM (Broker * Net) ConnectionError A).

(* ------------------------------------------------------------------ *)
(** ** Leadership of a request                                          *)
(* ------------------------------------------------------------------ *)

Definition cluster_leadership_error (topic : string) (partition : option Z) : broker (option Refusal) :=
  if Z.of_nat (length (nodes cc)) =? 1 then ret None
  else
    match partition with
    | None => ret (Some PartitionRequired)
    | Some partition =>
        l <- leadership (registry_partition topic partition) ;;
        ret (if negb (pl_leader_id l =? self_id cc)
             then Some (NotPartitionLeader partition (pl_leader_id l) (pl_leader_epoch l))
             else None)
    end.
(** [if let Some(error) = cluster_leadership_error(..)? { return Ok(error) }] *)
Definition as_leader {S} (check : SM S ConnectionError (option Refusal))
    (handler : SM S ConnectionError Answer) : SM S ConnectionError Answer :=
  error <- check ;;
  match error with
  | Some error => ret (Refuse error)
  | None => handler
  end.

Definition with_leaders (metadata : TopicMetadata) : broker TopicMetadata :=
  ls <- leadership (registry_topic (tm_topic metadata) (tm_partitions metadata)) ;;
  ret {| tm_topic := tm_topic metadata; tm_partitions := tm_partitions metadata;
         tm_leaders := pl_leader_id <$> ls; tm_leader_epochs := pl_leader_epoch <$> ls;
         tm_high_watermarks := pl_high_watermark <$> ls |}.

(* ------------------------------------------------------------------ *)
(** ** Producing                                                        *)
(* ------------------------------------------------------------------ *)

Definition produce_input (request : ProduceRequest) : AppendInput :=
  {| ai_topic := pr_topic request; ai_partition := pr_partition request; ai_key := pr_key request;
     ai_value := pr_payload request; ai_ack_mode := pr_ack_mode request;
     ai_producer := (fun p => {| producer_id := pi_id p; producer_sequence := pi_sequence p |})
                      <$> pr_producer request |}.
Definition process_produce (request : ProduceRequest) : site Answer :=
  as_leader (on_broker (cluster_leadership_error (pr_topic request) (pr_partition request)))
    (ack <- on_broker (storage (append_record (settings_of cc) (produce_input request)
                                  (am_clock (wd_ambient world) O))) ;;
     record <- on_broker (read_record_at cc (pr_topic request) (pa_partition ack) (pa_offset ack)) ;;
     dispatch_replication cc deliver (wd_sends world) (pr_topic request)
       [(pa_partition ack, record)] (pr_ack_mode request) ;;;
     ret (Reply (PProduceAck ack))).

Definition batch_request_input (request : ProduceBatchRequest) : BatchAppendInput :=
  {| ba_topic := pb_topic request; ba_partition := pb_partition request;
     ba_records := pb_records request; ba_ack_mode := pb_ack_mode request |}.
Definition produce_batch (request : ProduceBatchRequest) : site Answer :=
  acks <- on_broker (storage (append_batch_records (settings_of cc) (batch_request_input request)
                                (am_clock (wd_ambient world)))) ;;
  records <- map_m (fun ack =>
    record <- on_broker (read_record_at cc (pb_topic request) (pa_partition ack) (pa_offset ack)) ;;
    ret (pa_partition ack, record)) acks ;;
  dispatch_replication cc deliver (wd_sends world) (pb_topic request) records (pb_ack_mode request) ;;;
  ret (Reply (PProduceBatchAck acks)).

(* ------------------------------------------------------------------ *)
(** ** Fetching                                                         *)
(* ------------------------------------------------------------------ *)

(** Records at and above the high watermark are not shown. *)
Definition committed (high_watermark : Z) (records : list FetchedRecord) : list FetchedRecord :=
  filter (fun r => fd_offset r < high_watermark) records.
Definition fetch_records (request : FetchRequest) : broker Answer :=
  as_leader (cluster_leadership_error (fr_topic request) (Some (fr_partition request)))
    (records <- storage_read cc (wd_waits world) (fr_topic request) (fr_partition request)
                  (fr_offset request) (fr_max_bytes request) (fr_max_wait_ms request) ;;
     l <- leadership (registry_partition (fr_topic request) (fr_partition request)) ;;
     ret (Reply (PFetch {| fp_records := committed (pl_high_watermark l) records |}))).

Definition execute_group_request (request : Request) : SM GroupCoordinator GroupError Response :=
  let now := wd_now world in
  match request with
  | RJoinGroup r =>
      let* (generation, partitions) := join (gm_group r) (gm_topic r) (gm_member r) now in
      ret (PJoinGroup {| jg_generation := generation; jg_partitions := partitions |})
  | RHeartbeat r => heartbeat (gg_group r) (gg_topic r) (gg_member r) (gg_generation r) now ;;; ret PGroupAck
  | RLeaveGroup r => leave (gg_group r) (gg_topic r) (gg_member r) (gg_generation r) now ;;; ret PGroupAck
  | RCommitOffset r =>
      commit {| gi_group := co_group r; gi_topic := co_topic r; gi_member := co_member r;
                gi_generation := co_generation r |} (co_partition r) (co_offset r) now ;;;
      ret PGroupAck
  | RFetchCommittedOffset r =>
      o <- committed_offset (fc_group r) (fc_topic r) (fc_partition r) ;; ret (PCommittedOffset o)
  | RGroupFetch r =>
      authorize_fetch {| gi_group := gf_group r; gi_topic := gf_topic r; gi_member := gf_member r;
                         gi_generation := gf_generation r |} (gf_partition r) now ;;;
      ret PGroupAck
  | _ => panic
  end.
Definition groups_execute (request : Request) : broker Answer := fun b =>
  match coordinator_call (execute_group_request request) b with
  | (Ok response, b) => (Ok (Reply response), b)
  | (Err e, b) => (Ok (Refuse (GroupFailed e)), b)
  | (Panic, b) => (Panic, b)
  end.
Definition group_fetch (request : GroupFetchRequest) (high_watermark : Z) : broker Answer :=
  authorized <- groups_execute (RGroupFetch request) ;;
  match authorized with
  | Reply PGroupAck =>
      records <- storage_read cc (wd_waits world) (gf_topic request) (gf_partition request)
                   (gf_offset request) (gf_max_bytes request) (gf_max_wait_ms request) ;;
      ret (Reply (PFetch {| fp_records := committed high_watermark records |}))
  | Refuse e => ret (Refuse e)
  | Reply _ => ret (Refuse InvalidGroupResponse)
  end.

(* ------------------------------------------------------------------ *)
(** ** Promotion                                                        *)
(* ------------------------------------------------------------------ *)

(** The ends of the logs of the replicas that answer, in node order. *)
Definition replica_offset (topic : string) (partition : Z) (node : ClusterNode) : site (option Z) := fun s =>
  if cn_id node =? self_id cc then
    match on_broker (storage (partition_offset topic partition)) s with
    | (Ok o, s) => (Ok (Some o), s)
    | (Err _, s) => (Ok None, s)
    | (Panic, s) => (Panic, s)
    end
  else (Ok (query (cn_id node) topic partition s.2), s).
Fixpoint replica_offsets (topic : string) (partition : Z) (except : option Z) (ns : list ClusterNode)
  : site (list (Z * Z)) :=
  match ns with
  | [] => ret []
  | n :: ns =>
      if bool_decide (except = Some (cn_id n)) || negb (is_partition_replica cc (cn_id n) partition)
      then replica_offsets topic partition except ns
      else
        o <- replica_offset topic partition n ;;
        rest <- replica_offsets topic partition except ns ;;
        ret (match o with Some o => (cn_id n, o) :: rest | None => rest end)
  end.

Definition highest_offset (offsets : list (Z * Z)) : Z := foldr Z.max 0 offsets.*2.
Definition verify_promotion_candidate (request : PromoteLeaderRequest) (committed_high_watermark : Z)
  : site unit :=
  offsets <- replica_offsets (plr_topic request) (plr_partition request) None (nodes cc) ;;
  candidate <- ok_or (snd <$> List.find (fun x => x.1 =? plr_leader_id request) offsets)
                 PromotionCandidateUnavailable ;;
  reject_if ((Z.of_nat (length offsets) <? cc_min_in_sync_replicas cc) ||
             (candidate <? committed_high_watermark))
    (UnsafePromotion candidate (highest_offset offsets) (Z.of_nat (length offsets))).

Definition broadcast_leadership (topic : string) (l : PartitionLeadership) : broker unit :=
  modify (fun b => add_messages b ((fun n => TellLeadership (cn_id n) topic l) <$> other_nodes cc)).
Definition broadcast_topic (topic : string) (partitions : Z) : broker unit :=
  modify (fun b => add_messages b ((fun n => TellTopic (cn_id n) topic partitions) <$> other_nodes cc)).
(** Drop the records of the log above the high watermark. *)
Definition truncate_uncommitted (topic : string) (partition high_watermark : Z) : broker unit :=
  local_offset <- storage (partition_offset topic partition) ;;
  if high_watermark <? local_offset
  then storage (truncate_partition topic partition high_watermark) else ret tt.

Definition promote_leader (request : PromoteLeaderRequest) : site Answer :=
  match nodes cc with
  | [] => throw InvalidClusterMetadata
  | controller :: _ =>
      if negb (cn_id controller =? self_id cc) then ret (Refuse (NotController controller))
      else
        current <- on_broker (leadership (registry_partition (plr_topic request) (plr_partition request))) ;;
        if negb (is_partition_replica cc (plr_leader_id request) (plr_partition request))
        then ret (Refuse NotPartitionReplica)
        else
          verify_promotion_candidate request (pl_high_watermark current) ;;;
          leader_epoch <- ok_or (checked_add (pl_leader_epoch current) 1) LeaderEpochOverflow ;;
          let l := {| pl_partition := plr_partition request; pl_leader_id := plr_leader_id request;
                      pl_leader_epoch := leader_epoch;
                      pl_high_watermark := pl_high_watermark current |} in
          (if plr_leader_id request =? self_id cc
           then on_broker (truncate_uncommitted (plr_topic request) (plr_partition request)
                             (pl_high_watermark l))
           else ret tt) ;;;
          on_broker (leadership (registry_apply (plr_topic request) l)) ;;;
          on_broker (broadcast_leadership (plr_topic request) l) ;;;
          ret (Reply (PLeadershipChanged l))
  end.

Definition select_automatic_candidate (topic : string) (current : PartitionLeadership)
  : site (option Z) :=
  offsets <- replica_offsets topic (pl_partition current) (Some (pl_leader_id current)) (nodes cc) ;;
  ret (choose_automatic_candidate offsets (cc_min_in_sync_replicas cc) (pl_high_watermark current)).

(** The failed probes of each partition's leader, as [u8] counters, are the
    monitor's own state. *)
Abbreviation Failures := (gmap (string * Z) Z).
Abbreviation monitor A := (SM (Broker * Net * Failures) ConnectionError A).
Definition on_site {A} (m : site A) : monitor A := fun s =>
  let '(o, st) := m s.1 in (o, (st, s.2)).
Definition set_failures (f : Failures -> Failures) : monitor unit :=
  modify (fun s => (s.1, f s.2)).
(** One partition in [monitor_partition_leaders]. *)
Definition monitor_partition (topic : string) (current : PartitionLeadership) : monitor unit :=
  let key := (topic, pl_partition current) in
  if pl_leader_id current =? self_id cc then set_failures (delete key)
  else
    leader <- ok_or (List.find (fun n => cn_id n =? pl_leader_id current) (nodes cc))
                InvalidClusterMetadata ;;
    s <- get ;;
    match query (cn_id leader) topic (pl_partition current) s.1.2 with
    | Some _ => set_failures (delete key)
    | None =>
        let attempts := Z.min U8_MAX (default 0 (s.2 !! key) + 1) in
        set_failures (<[key := attempts]>) ;;;
        if attempts <? 3 then ret tt
        else
          candidate <- on_site (select_automatic_candidate topic current) ;;
          match candidate with
          | None => ret tt
          | Some candidate =>
              answer <- on_site (promote_leader {| plr_topic := topic;
                plr_partition := pl_partition current; plr_leader_id := candidate |}) ;;
              match answer with
              | Reply (PLeadershipChanged _) => set_failures (delete key)
              | _ => ret tt
              end
          end
    end.
Definition monitor_topic (m : TopicMetadata) : monitor unit :=
  ls <- on_site (on_broker (leadership (registry_topic (tm_topic m) (tm_partitions m)))) ;;
  for_each ls (monitor_partition (tm_topic m)).
Definition monitor_partition_leaders : monitor unit :=
  s <- get ;;
  for_each (storage_topic_metadata (wk_topics (bk_worker s.1.1))) monitor_topic.

(* ------------------------------------------------------------------ *)
(** ** Topics                                                           *)
(* ------------------------------------------------------------------ *)

Definition apply_leadership_request (request : ApplyLeadershipRequest) : broker Answer :=
  let topic := alr_topic request in
  let l := alr_leadership request in
  current <- leadership (registry_partition topic (pl_partition l)) ;;
  (if pl_leader_epoch current <? pl_leader_epoch l
   then truncate_uncommitted topic (pl_partition l) (pl_high_watermark l) else ret tt) ;;;
  leadership (registry_apply topic l) ;;;
  ret (Reply (PLeadershipChanged l)).

(** A storage error of [create_topic] or [describe_topic] is answered at once. *)
Definition or_refuse {A} (m : broker A) (k : A -> broker Answer) : broker Answer := fun b =>
  match m b with
  | (Ok a, b) => k a b
  | (Err (CStorage e), b) => (Ok (Refuse (TopicFailed e)), b)
  | (Err e, b) => (Err e, b)
  | (Panic, b) => (Panic, b)
  end.
Definition create_topic_request (request : CreateTopicRequest) : broker Answer :=
  or_refuse (storage (create_topic (settings_of cc) (ct_topic request) (ct_partitions request)))
    (fun metadata =>
      (fun b => match coordinator_call (set_topic_partitions (wd_group_order world) (tm_topic metadata)
                                          (tm_partitions metadata)) b with
                | (Ok _, b) => (Ok tt, b)
                | (Err _, b) => (Err StorageUnavailable, b)
                | (Panic, b) => (Panic, b)
                end) ;;;
      leadership (registry_ensure_topic (tm_topic metadata) (tm_partitions metadata)) ;;;
      (if is_controller cc then broadcast_topic (tm_topic metadata) (tm_partitions metadata)
       else ret tt) ;;;
      metadata <- with_leaders metadata ;;
      ret (Reply (PTopics [metadata]))).

Definition process_topic_request (request : Request) : site Answer :=
  match request with
  | RCreateTopic request => on_broker (create_topic_request request)
  | RListTopics =>
      s <- get ;;
      topics <- on_broker (map_m with_leaders (storage_topic_metadata (wk_topics (bk_worker s.1)))) ;;
      ret (Reply (PTopics topics))
  | RDescribeTopic topic =>
      on_broker (or_refuse (describe_topic topic) (fun metadata =>
        metadata <- with_leaders metadata ;; ret (Reply (PTopics [metadata]))))
  | RClusterMetadata => ret (Reply (PClusterMetadata (cc_metadata cc)))
  | RPartitionStatus request =>
      o <- on_broker (storage (partition_offset (psr_topic request) (psr_partition request))) ;;
      ret (Reply (PPartitionStatus o))
  | RApplyLeadership request => on_broker (apply_leadership_request request)
  | RPromoteLeader request => promote_leader request
  | _ => panic
  end.

Definition process_request (request : Request) : site Answer :=
  match request with
  | RProduce request => process_produce request
  | RProduceBatch request =>
      as_leader (on_broker (cluster_leadership_error (pb_topic request) (pb_partition request)))
        (produce_batch request)
  | RFetch request => on_broker (fetch_records request)
  | RGroupFetch request =>
      on_broker
        (as_leader (cluster_leadership_error (gf_topic request) (Some (gf_partition request)))
           (l <- leadership (registry_partition (gf_topic request) (gf_partition request)) ;;
            group_fetch request (pl_high_watermark l)))
  | RJoinGroup _ | RHeartbeat _ | RLeaveGroup _ | RCommitOffset _ | RFetchCommittedOffset _ =>
      on_broker (groups_execute request)
  | RCreateTopic _ | RListTopics | RDescribeTopic _ | RClusterMetadata | RPromoteLeader _
  | RApplyLeadership _ | RPartitionStatus _ => process_topic_request request
  end.

(* ------------------------------------------------------------------ *)
(** ** Following the controller and the leader                          *)
(* ------------------------------------------------------------------ *)

(** The entries of [topic.leaders.enumerate().zip(epochs).zip(watermarks)]. *)
Fixpoint zip_leaders (partition : Z) (leaders epochs watermarks : list Z) : list PartitionLeadership :=
  match leaders, epochs, watermarks with
  | leader :: leaders, epoch :: epochs, hw :: watermarks =>
      {| pl_partition := partition; pl_leader_id := leader; pl_leader_epoch := epoch;
         pl_high_watermark := hw |} :: zip_leaders (partition + 1) leaders epochs watermarks
  | _, _, _ => []
  end.
Definition sync_partition (topic : string) (l : PartitionLeadership) : broker unit :=
  current <- leadership (registry_partition topic (pl_partition l)) ;;
  if (pl_leader_epoch current <? pl_leader_epoch l) ||
     ((pl_leader_epoch l =? pl_leader_epoch current) &&
      (pl_high_watermark current <? pl_high_watermark l))
  then leadership (registry_apply topic l) else ret tt.
Definition sync_topic (m : TopicMetadata) : broker unit :=
  b <- get ;;
  (if bool_decide (is_Some (wk_topics (bk_worker b) !! tm_topic m)) then ret tt
   else _m <- storage (create_topic (settings_of cc) (tm_topic m) (tm_partitions m)) ;; ret tt) ;;;
  leadership (registry_ensure_topic (tm_topic m) (tm_partitions m)) ;;;
  for_each (zip_leaders 0 (tm_leaders m) (tm_leader_epochs m) (tm_high_watermarks m))
    (sync_partition (tm_topic m)).
(** [sync_controller_metadata], with the controller's answer to [list_topics]. *)
Definition sync_controller_metadata (topics : outcome ConnectionError (list TopicMetadata)) : broker unit :=
  match nodes cc with
  | [] => throw InvalidClusterMetadata
  | controller :: _ =>
      if cn_id controller =? self_id cc then ret tt
      else topics <- lift topics ;; for_each topics sync_topic
  end.

(** [recover_follower_partition]: fetch from the leader until it has no more.
    [fetch] is the leader's answer at an offset. *)
Definition recovered_record (topic : string) (partition leader_id : Z) (r : FetchedRecord) (epoch : Z)
  : ReplicateRecord :=
  {| rr_topic := topic; rr_partition := partition; rr_offset := fd_offset r;
     rr_timestamp_ms := fd_timestamp_ms r; rr_key := fd_key r; rr_value := fd_value r;
     rr_durable := true; rr_leader_id := leader_id; rr_leader_epoch := epoch |}.
Fixpoint recover_records (topic : string) (partition leader_id : Z) (records : list FetchedRecord)
    (offset : Z) : broker Z :=
  match records with
  | [] => ret offset
  | r :: records =>
      current <- leadership (registry_partition topic partition) ;;
      offset <- storage (worker_append_replica
                  (recovered_record topic partition leader_id r (pl_leader_epoch current))) ;;
      recover_records topic partition leader_id records offset
  end.
Fixpoint recover_follower_partition (fuel : nat)
    (fetch : Z -> outcome ConnectionError (list FetchedRecord))
    (topic : string) (partition leader_id offset : Z) : broker unit :=
  match fuel with
  | O => throw ReplicationTimeout
  | Datatypes.S fuel =>
      records <- lift (fetch offset) ;;
      match records with
      | [] => ret tt
      | _ =>
          offset <- recover_records topic partition leader_id records offset ;;
          recover_follower_partition fuel fetch topic partition leader_id offset
      end
  end.

(** [if let Err(error) = m { debug!(..) }] *)
Definition attempt {S E A} (m : SM S E A) : SM S E unit := fun st =>
  match m st with
  | (Panic, st) => (Panic, st)
  | (_, st) => (Ok tt, st)
  end.
(** One partition in the loop of [start_follower_recovery].  [fetch] is the
    answer of a leader for a partition at an offset. *)
Definition follow_partition (fuel : nat)
    (fetch : Z -> string -> Z -> Z -> outcome ConnectionError (list FetchedRecord))
    (snapshot : PartitionSnapshot) : broker unit :=
  let topic := ps_topic snapshot in
  let partition := ps_partition snapshot in
  attempt
    (current <- leadership (registry_partition topic partition) ;;
     match List.find (fun n => cn_id n =? pl_leader_id current) (nodes cc) with
     | None => ret tt
     | Some leader =>
         if (cn_id leader =? self_id cc) || negb (is_partition_replica cc (self_id cc) partition)
         then ret tt
         else recover_follower_partition fuel (fetch (cn_id leader) topic partition) topic partition
                (cn_id leader) (ps_high_watermark snapshot)
     end).
(** One turn of [start_follower_recovery]. *)
Definition follower_cycle (fuel : nat) (topics : outcome ConnectionError (list TopicMetadata))
    (fetch : Z -> string -> Z -> Z -> outcome ConnectionError (list FetchedRecord)) : broker unit :=
  attempt (sync_controller_metadata topics) ;;;
  b <- get ;;
  for_each (snapshot_logs (wk_logs (bk_worker b))) (follow_partition fuel fetch).
End requests.
