(* ===== verification/Serving.v ===== *)
(** * Serving: what the request handlers of [crates/broker] promise. *)

From stdpp Require Import base numbers list strings gmap sorting.
From Stdlib Require Import ZArith Lia.
From S2P Require Import Prelude Text Files Runs Protocol Record RecordFacts Log LogRep LogFacts LogAppend LogRead LogOpen LogShrink Storage Groups Leadership LeadershipFacts Worker WorkerSpec WorkerFacts Whole Topics Broker Replication Requests Cluster.

(* ------------------------------------------------------------------ *)
(** ** Helpers                                                          *)
(* ------------------------------------------------------------------ *)

Section serving.
Context `{!Crc32} `{!Crc32Ok}.
Context (cc : ClusterConfig).

(** Looking at the storage does not change it. *)
Lemma storage_offset_same b t p : snd (storage (partition_offset t p) b) = b.
Proof.
  unfold storage, partition_offset. erewrite bind_Ok by done. cbv beta.
  destruct (wk_logs (bk_worker b) !! (t, p)); by destruct b.
Qed.

Section network.
Context {Net : Type} (query : Z -> string -> Z -> Net -> option Z).

(** What a replica says about the end of its log. *)
Definition reported (t : string) (p id o : Z) (s : Broker * Net) : Prop :=
  if id =? self_id cc then fst (storage (partition_offset t p) s.1) = Ok o
  else query id t p s.2 = Some o.

Lemma replica_offset_inv t p node s o s' :
  replica_offset cc query t p node s = (Ok o, s') ->
  s' = s /\ forall v, o = Some v -> reported t p (cn_id node) v s.
Proof.
  unfold replica_offset, reported. destruct (cn_id node =? self_id cc); [|by intros [= <- <-]].
  unfold on_broker. pose proof (storage_offset_same s.1 t p) as Hsame.
  destruct (storage (partition_offset t p) s.1) as [[v|e|] b]; cbn [fst snd] in *; subst b;
    intros [= <- <-]; (split; [by destruct s|]); intros v' Hv; [congruence|done].
Qed.

Lemma replica_offsets_inv t p except ns s offsets s' :
  replica_offsets cc query t p except ns s = (Ok offsets, s') ->
  s' = s /\ forall id o, (id, o) ∈ offsets ->
    is_partition_replica cc id p = true /\ except <> Some id /\ reported t p id o s.
Proof.
  revert offsets s'. induction ns as [|n ns IH]; intros offsets s'.
  { intros [= <- <-]. split; [done|]. by intros id o ?%elem_of_nil. }
  cbn [replica_offsets]. destruct (bool_decide_reflect (except = Some (cn_id n))) as [He|He]; [apply IH|].
  destruct (is_partition_replica cc (cn_id n) p) eqn:Hrep; [|apply IH]. cbn [orb negb].
  intros (o & s1 & (-> & Ho)%replica_offset_inv & Hrest)%bind_inv.
  apply bind_inv in Hrest as (rest & s2 & (-> & Hin)%IH & [= <- <-]). split; [done|].
  intros id v. destruct o as [v0|]; [|apply Hin].
  intros [[= -> ->]|?]%elem_of_cons; [|by apply Hin]. split_and!; [done|done|by apply Ho].
Qed.
End network.

(** Inverting the steps of a promotion. *)
Lemma on_broker_inv {A Net} (m : SM Broker ConnectionError A) (s : Broker * Net) v s' :
  on_broker m s = (Ok v, s') -> m s.1 = (Ok v, s'.1) /\ s'.2 = s.2.
Proof. unfold on_broker. destruct (m s.1) as [o b]. by intros [= -> <-]. Qed.

Lemma leadership_partition_inv b t p cur b' :
  leadership (registry_partition t p) b = (Ok cur, b') ->
  lr_entries (bk_leadership b) !! (t, p) = Some cur /\ b' = b.
Proof.
  unfold leadership, registry_partition. erewrite bind_Ok by done. cbv beta.
  destruct (lr_entries (bk_leadership b) !! (t, p)); [|done]. intros [= -> <-]. by destruct b.
Qed.

Lemma truncate_uncommitted_keeps b t p hw :
  let b' := snd (truncate_uncommitted t p hw b) in
  bk_leadership b' = bk_leadership b /\ bk_outbox b' = bk_outbox b.
Proof.
  cbv zeta. unfold truncate_uncommitted, bind. pose proof (storage_offset_same b t p) as Hsame.
  destruct (storage (partition_offset t p) b) as [[o|e|] b1]; cbn [snd] in Hsame; subst b1; [|done..].
  destruct (hw <? o); [|done]. unfold storage. by destruct (truncate_partition _ _ _ _).
Qed.

Lemma apply_inv b t l b' :
  leadership (registry_apply t l) b = (Ok tt, b') ->
  lr_entries (bk_leadership b') !! (t, pl_partition l) = Some l /\ bk_outbox b' = bk_outbox b.
Proof.
  rewrite leadership_apply, registry_apply_spec. destruct (existsb _ _); [|done].
  destruct (lr_entries (bk_leadership b) !! _) as [cur|] eqn:Hcur.
  - destruct (is_stale cur l); [done|]. case_bool_decide as Heq; cbn [fst snd omap_err]; intros [= <-].
    + by subst.
    + cbn [set_leadership bk_leadership reg_with lr_entries]. by rewrite lookup_insert_eq.
  - cbn [fst snd omap_err]. intros [= <-]. cbn [set_leadership bk_leadership reg_with lr_entries].
    by rewrite lookup_insert_eq.
Qed.

Lemma committed_fetched hw rs :
  committed hw (fetched <$> rs) = fetched <$> filter (fun r => sr_offset r < hw) rs.
Proof.
  unfold committed. induction rs as [|r rs IH]; [done|]. rewrite fmap_cons, !filter_cons, IH.
  cbn [fetched fd_offset]. by destruct (decide (sr_offset r < hw)).
Qed.

(** A read that does not wait. *)
Lemma storage_read_once waits t p o m b a l :
  settings_ok (cc_settings cc) -> represents (cc_settings cc) (bk_worker b) a ->
  aworker_ok (cc_settings cc) a -> aw_logs a !! (t, p) = Some l -> m <> 0 ->
  exists rs w, a_read l o m = Ok rs /\ represents (cc_settings cc) w a /\
    storage_read cc waits t p o m 0 b = (Ok (fetched <$> rs), set_worker b w).
Proof.
  intros Hs Hr Hok Hl Hm. destruct (a_keys (cc_settings cc) a _ _ l Hok Hl) as [Hp _].
  destruct (proj1 (ao_keys _ _ Hok t p)) as (n & Hn & _); [eauto|].
  pose proof (read_records_refines (cc_settings cc) Hs (bk_worker b) a t p o m Hr Hok Hp) as Href.
  unfold a_read_records, a_ensure in Href. rewrite Hn in Href. cbn [a_bind] in Href. rewrite Hl in Href.
  unfold a_read in *. rewrite (proj2 (Z.eqb_neq _ 0) Hm) in *.
  destruct (storage_refines (cc_settings cc) _ b _ _ Href) as (w & Hrun & Hr' & _).
  eexists _, w. split; [reflexivity|]. split; [done|].
  destruct waits; cbn [storage_read]; (erewrite bind_Ok by exact Hrun); cbv beta;
    rewrite orb_true_r; reflexivity.
Qed.

(** What a fetch reads, when the log is there and it does not wait. *)
Lemma read_committed world request b a l cur :
  settings_ok (cc_settings cc) -> represents (cc_settings cc) (bk_worker b) a ->
  aworker_ok (cc_settings cc) a -> aw_logs a !! (fr_topic request, fr_partition request) = Some l ->
  lr_entries (bk_leadership b) !! (fr_topic request, fr_partition request) = Some cur ->
  fr_max_bytes request <> 0 -> fr_max_wait_ms request = 0 ->
  exists b', bk_leadership b' = bk_leadership b /\ represents (cc_settings cc) (bk_worker b') a /\
  exists rs, a_read l (fr_offset request) (fr_max_bytes request) = Ok rs /\
    (records <- storage_read cc (wd_waits world) (fr_topic request) (fr_partition request)
                  (fr_offset request) (fr_max_bytes request) (fr_max_wait_ms request) ;;
     l <- leadership (registry_partition (fr_topic request) (fr_partition request)) ;;
     ret (Reply (PFetch {| fp_records := committed (pl_high_watermark l) records |}))) b =
    (Ok (Reply (PFetch {| fp_records :=
       fetched <$> filter (fun r => sr_offset r < pl_high_watermark cur) rs |})), b').
Proof.
  intros Hs Hr Hok Hl Hcur Hm Hw.
  destruct (storage_read_once (wd_waits world) _ _ (fr_offset request) _ b a l Hs Hr Hok Hl Hm)
    as (rs & w & Hrs & Hr' & Hrun).
  exists (set_worker b w). split; [done|]. split; [done|]. exists rs. split; [done|].
  rewrite Hw. erewrite bind_Ok by exact Hrun. cbv beta.
  erewrite bind_Ok by (by apply leadership_partition). cbv beta. by rewrite committed_fetched.
Qed.
End serving.

Definition sample_world : World :=
  {| wd_ambient := sample_ambient; wd_now := 5; wd_group_order := []; wd_waits := []; wd_sends := 3 |}.
Definition sample_fetch : FetchRequest :=
  {| fr_topic := "payments"; fr_partition := 1; fr_offset := 0; fr_max_bytes := 1000; fr_max_wait_ms := 0 |}.

#[local] Existing Instance length_crc.
#[local] Existing Instance length_crc_ok.




(** The controller of the sample cluster, whose partition is led by broker 2. *)
Definition controller_query (id : Z) (t : string) (p : Z) (_ : unit) : option Z :=
  if (id =? 2) || (id =? 3) then Some 2 else None.
Definition sample_promotion : PromoteLeaderRequest :=
  {| plr_topic := "payments"; plr_partition := 1; plr_leader_id := 3 |}.
Definition controller : Broker * unit := (sample_broker 1 topic_worker, tt).
Definition promoted : PartitionLeadership :=
  {| pl_partition := 1; pl_leader_id := 3; pl_leader_epoch := 1; pl_high_watermark := 0 |}.


(** The registry does not know the partition. *)
Lemma leadership_missing b t p :
  lr_entries (bk_leadership b) !! (t, p) = None ->
  leadership (registry_partition t p) b = (Err (CLeadership (MissingPartition p)), b).
Proof.
  intros H. unfold leadership, registry_partition. erewrite bind_Ok by done. cbv beta. rewrite H. by destruct b.
Qed.

(** A topic that the storage created on its own is not usable: on a single
    broker, a durable produce that creates its topic stores the record and then
    fails, since the leadership registry has no entry for the partition; the
    record is in the log, and every fetch of the partition fails too. *)
Theorem auto_created_topic_fails `{!Crc32} `{!Crc32Ok} cc world {Net}
    (deliver : Z -> ReplicateRecord -> SM Net ConnectionError ReplicateAck) request b net ack w' :
  let t := pr_topic request in
  let p := pa_partition ack in
  settings_ok (cc_settings cc) -> worker_ok (cc_settings cc) (bk_worker b) ->
  input_typed (produce_input request) -> pr_producer request = None -> roomy 1 (bk_worker b) ->
  length (nodes cc) = 1%nat -> replica_followers cc p = [] -> cc_min_in_sync_replicas cc <= 1 ->
  append_record (cc_settings cc) (produce_input request) (am_clock (wd_ambient world) O) (bk_worker b) =
    (Ok ack, w') ->
  lr_entries (bk_leadership b) !! (t, p) = None -> pr_ack_mode request = AckDurable ->
  exists b', process_produce cc world deliver request (b, net) =
      (Err (CLeadership (MissingPartition p)), (b', net)) /\
    (exists r, fst (read_record_at cc t p (pa_offset ack) b') = Ok r /\ fd_value r = pr_payload request) /\
    forall offset max_bytes, max_bytes <> 0 ->
      fst (fetch_records cc world {| fr_topic := t; fr_partition := p; fr_offset := offset;
        fr_max_bytes := max_bytes; fr_max_wait_ms := 0 |} b') = Err (CLeadership (MissingPartition p)).
Proof.
  intros t p Hs (a & Hr & Hok & _) Hi Hprod Hroom%(roomy_room (cc_settings cc) _ _ a) Hone Hnone Hmin He Hmiss Hack; [|done].
  destruct (append_record_refines _ Hs (bk_worker b) a (produce_input request) (am_clock (wd_ambient world) O))
    as (Ho & Hr' & Hok'); [done..|].
  destruct (a_append_record _ a _ _) as [o a'] eqn:Ha. rewrite He in Ho, Hr'. cbn [fst snd] in *. subst o.
  destruct (append_effect _ Hs a _ _ ack a' Hok Hi Ha) as (n & l & Hn & Hpn & _ & _ & Hap & Hl & _).
  set (r := input_record (produce_input request) (am_clock (wd_ambient world) O)) in *.
  assert (record_at (al_chunks l) (pa_offset ack) = Some r) as Hat.
  { apply (appended_at (cc_settings cc)) in Hap; [done|by subst r; cbn; rewrite Hprod|].
    destruct (aw_logs a !! _) as [l0|] eqn:Hl0; [by apply (ao_logs _ _ Hok) in Hl0|apply inv_empty]. }
  destruct (read_record_at_held cc t p (set_worker b w') a' l (pa_offset ack) r Hs Hr' Hok' Hl Hat)
    as (w1 & Hread & Hr1).
  exists (set_worker b w1). split; [|split].
  - unfold process_produce, as_leader. erewrite bind_Ok.
    2:{ unfold on_broker, cluster_leadership_error. rewrite Hone. reflexivity. }
    cbv beta iota. erewrite bind_Ok.
    2:{ unfold on_broker, storage. cbn [fst]. unfold settings_of. rewrite He. reflexivity. }
    cbv beta. erewrite bind_Ok.
    2:{ unfold on_broker. cbn [fst snd]. fold t p. rewrite Hread. reflexivity. }
    cbv beta. erewrite bind_Err; [reflexivity|]. rewrite Hack. cbn [dispatch_replication replicate_records for_each fst snd].
    erewrite bind_Err; [reflexivity|]. unfold replicate. fold p. rewrite Hnone. cbn [replicate_all].
    erewrite bind_Ok by reflexivity. cbv beta zeta. rewrite (proj2 (Z.leb_le _ _) Hmin).
    erewrite bind_Err; [reflexivity|]. unfold on_broker, commit_replicated. cbn [fst snd].
    erewrite bind_Err by (by apply leadership_missing). reflexivity.
  - destruct (read_record_at_held cc t p (set_worker b w1) a' l (pa_offset ack) r Hs Hr1 Hok' Hl Hat)
      as (w2 & Hread2 & _).
    exists (fetched (stored (pa_offset ack) r)). split; [by rewrite Hread2|done].
  - intros offset m Hm. unfold fetch_records, as_leader.
    destruct (storage_read_once cc (wd_waits world) t p offset m (set_worker b w1) a' l Hs Hr1 Hok' Hl Hm)
      as (rs & w2 & _ & _ & Hrun).
    erewrite bind_Ok. 2:{ unfold cluster_leadership_error. rewrite Hone. reflexivity. }
    cbv beta iota. cbn [fr_topic fr_partition fr_offset fr_max_bytes fr_max_wait_ms].
    erewrite bind_Ok by exact Hrun. cbv beta. erewrite bind_Err by (by apply leadership_missing). reflexivity.
Qed.

Definition single_config : ClusterConfig :=
  {| cc_metadata := {| cm_responding_broker_id := 1; cm_nodes := [sample_node 1] |};
     cc_replication_factor := 1; cc_min_in_sync_replicas := 1; cc_settings := sample_settings |}.
Definition single_broker : Broker :=
  {| bk_worker := fresh_worker;
     bk_leadership := {| lr_dir := ∅; lr_cluster := cc_metadata single_config; lr_entries := ∅ |};
     bk_groups := bk_groups (sample_broker 1 fresh_worker); bk_outbox := []; bk_tasks := [] |}.
Definition first_produce : ProduceRequest :=
  {| pr_topic := "payments"; pr_partition := None; pr_key := as_bytes "k"; pr_payload := as_bytes "one";
     pr_ack_mode := AckDurable; pr_producer := None |}.
Definition no_network (_ : Z) (_ : ReplicateRecord) : SM unit ConnectionError ReplicateAck :=
  throw ReplicationClosed.

Lemma auto_created_topic_fails_witness :
  exists b', process_produce single_config sample_world no_network first_produce (single_broker, tt) =
      (Err (CLeadership (MissingPartition 1)), (b', tt)) /\
    (exists r, fst (read_record_at single_config "payments" 1 0 b') = Ok r /\ fd_value r = as_bytes "one") /\
    forall offset max_bytes, max_bytes <> 0 ->
      fst (fetch_records single_config sample_world {| fr_topic := "payments"; fr_partition := 1;
        fr_offset := offset; fr_max_bytes := max_bytes; fr_max_wait_ms := 0 |} b') =
      Err (CLeadership (MissingPartition 1)).
Proof.
  apply (auto_created_topic_fails single_config sample_world no_network first_produce single_broker tt
           {| pa_partition := 1; pa_offset := 0 |}
           (snd (append_record sample_settings (produce_input first_produce)
                   (am_clock (wd_ambient sample_world) O) fresh_worker))).
  - apply sample_settings_ok.
  - apply fresh_worker_ok.
  - split; exact I.
  - reflexivity.
  - by apply roomy_by_check.
  - reflexivity.
  - vm_compute. reflexivity.
  - apply Z.leb_le. reflexivity.
  - vm_compute. reflexivity.
  - vm_compute. reflexivity.
  - reflexivity.
Defined.
