(* ===== verification/Connection.v ===== *)
(** * Connection: the connection loops of [crates/broker/src/lib.rs].

    [handle_connection] and [handle_replication_connection] read bytes as they
    arrive, take whole frames off the front of the buffer, and write one answer
    a request.  The loop is the same for both and is a [Section] over a decoder,
    a handler and an encoder; [FrameDecoder] is what it needs of a decoder. *)

From stdpp Require Import base numbers list strings gmap.
From Stdlib Require Import ZArith Lia.
From S2P Require Import Prelude Text Files Protocol Record Log Groups Leadership Worker Broker Requests.

(* ------------------------------------------------------------------ *)
(** ** Error texts                                                      *)
(* ------------------------------------------------------------------ *)

(** The text of an error of the operating system. *)
Class OsMessage := os_message : string.

Section texts.
Context `{!OsMessage}.

Definition storage_text (e : StorageError) : string :=
  match e with
  | Io => "storage I/O failed: " +:+ os_message
  | InvalidRecord => "record is malformed or truncated"
  | RecordTooLarge => "record exceeds the configured limit"
  | ChecksumMismatch => "record checksum does not match its contents"
  | UnsupportedVersion v => "record version " +:+ show_uint v +:+ " is not supported"
  | SInvalidTopic => "topic name is invalid"
  | TopicAlreadyExists => "topic already exists"
  | UnknownTopic => "topic does not exist"
  | SInvalidProducerId => "producer id is invalid"
  | UnexpectedProducerSequence id expected actual =>
      "producer " +:+ id +:+ " expected sequence " +:+ show_uint expected +:+
      ", received " +:+ show_uint actual
  | OffsetOverflow => "offset space is exhausted"
  | UnexpectedOffset expected actual =>
      "expected offset " +:+ show_uint expected +:+ ", found " +:+ show_uint actual
  | ReplicaDiverged offset => "replica content diverges at offset " +:+ show_uint offset
  | InvalidSegmentLimit => "segment size limit must be greater than zero"
  | InvalidIndexInterval => "index interval must be greater than zero"
  | MissingActiveSegment => "partition has no active segment"
  | InvalidSegmentName => "segment filename is invalid"
  | InvalidPartitionName => "partition directory name is invalid"
  | UnexpectedSegmentBase expected actual =>
      "expected segment base offset " +:+ show_uint expected +:+ ", found " +:+ show_uint actual
  | IncompleteClosedSegment base =>
      "closed segment at offset " +:+ show_uint base +:+ " has an incomplete tail"
  | InvalidTimestamp => "record timestamp is outside the supported range"
  | InvalidReadLimit => "read limit must be greater than zero"
  | UnknownPartition partition => "partition " +:+ show_uint partition +:+ " does not exist"
  end.
Definition leadership_text (e : LeadershipError) : string :=
  match e with
  | LIo => "leadership metadata I/O failed: " +:+ os_message
  | InvalidMetadata => "leadership metadata is malformed"
  | Poisoned => "leadership metadata lock is poisoned"
  | MissingPartition partition =>
      "partition " +:+ show_uint partition +:+ " has no leadership metadata"
  | UnknownBroker id => "broker " +:+ show_uint id +:+ " is not in cluster membership"
  | StaleEpoch => "leadership epoch is not newer than the current epoch"
  end.
Definition group_text (e : GroupError) : string :=
  match e with
  | GInvalidId => "group, topic, or member id is invalid"
  | UnknownGroup => "consumer group does not exist"
  | UnknownMember => "consumer member does not exist"
  | StaleGeneration expected actual =>
      "stale generation: expected " +:+ show_uint expected +:+ ", received " +:+ show_uint actual
  | PartitionNotAssigned partition =>
      "partition " +:+ show_uint partition +:+ " is not assigned to this member"
  | GenerationOverflow => "consumer group generation space is exhausted"
  | InvalidOffsetFile => "committed offset file is invalid"
  | CoordinatorPoisoned => "consumer group coordinator lock is poisoned"
  | GIo => "consumer group I/O failed: " +:+ os_message
  end.
(** What a handler answers when it refuses a request. *)
Definition refusal_text (r : Refusal) : string :=
  match r with
  | PartitionRequired => "partition is required for clustered produce"
  | NotPartitionLeader partition leader_id leader_epoch =>
      "not partition leader: partition=" +:+ show_uint partition +:+ " leader_id=" +:+
      show_uint leader_id +:+ " leader_epoch=" +:+ show_uint leader_epoch
  | NotController controller =>
      "not controller: controller_id=" +:+ show_uint (cn_id controller) +:+ " controller=" +:+
      cn_host controller +:+ ":" +:+ show_uint (cn_port controller)
  | NotPartitionReplica => "candidate is not a partition replica"
  | TopicFailed e => storage_text e
  | GroupFailed e => group_text e
  | InvalidGroupResponse => "invalid group authorization response"
  end.
Definition response_of (a : Answer) : Response :=
  match a with
  | Reply r => r
  | Refuse e => PError (refusal_text e)
  end.

(** The errors of a request that the client is told about; another error ends
    the connection. *)
Definition error_response (e : ConnectionError) : option Response :=
  match e with
  | BrokerBusy => Some (PError "broker busy: storage queue timeout")
  | CStorage e => Some (PError (storage_text e))
  | NotEnoughInSyncReplicas required available =>
      Some (PError ("not enough in-sync replicas: required=" +:+ show_uint required +:+
                    " available=" +:+ show_uint available))
  | PromotionCandidateUnavailable => Some (PError "promotion candidate is unavailable")
  | UnsafePromotion candidate highest available =>
      Some (PError ("unsafe promotion: candidate_offset=" +:+ show_uint candidate +:+
                    " highest_offset=" +:+ show_uint highest +:+
                    " available_replicas=" +:+ show_uint available))
  | LeaderEpochOverflow => Some (PError "leader epoch space is exhausted")
  | StaleLeaderEpoch => Some (PError "replication request came from a stale leader epoch")
  | CLeadership e => Some (PError (leadership_text e))
  | _ => None
  end.
Definition answered {S} (m : SM S ConnectionError Answer) : SM S ConnectionError Response := fun s =>
  match m s with
  | (Ok a, s) => (Ok (response_of a), s)
  | (Err e, s) => (match error_response e with Some r => Ok r | None => Err e end, s)
  | (Panic, s) => (Panic, s)
  end.
End texts.

(* ------------------------------------------------------------------ *)
(** ** Reading frames off a stream                                      *)
(* ------------------------------------------------------------------ *)

(** What the loop relies on: a decoder waits without taking bytes, or takes a
    frame off the front; what it decides does not depend on what follows. *)
Class FrameDecoder {Req} (decode : codec (option Req)) : Prop := {
  decode_waits b b' : decode b = (Ok None, b') -> b' = b;
  decode_takes b r b' : decode b = (Ok (Some r), b') ->
    (length b' < length b)%nat /\ forall rest, decode (b ++ rest) = (Ok (Some r), b' ++ rest);
  decode_rejects b e b' : decode b = (Err e, b') -> forall rest, fst (decode (b ++ rest)) = Err e;
  decode_total b : fst (decode b) <> Panic
}.

(** A connection: what has been received and not decoded, what has been
    written, and the state of the handlers. *)
Record Conn (St : Type) := {
  cn_read : bytes;
  cn_written : bytes;
  cn_state : St
}.
Arguments cn_read {St} _.
Arguments cn_written {St} _.
Arguments cn_state {St} _.

Section connection.
Context {Req Res St : Type}.
Context (decode : codec (option Req)).
Context (handle : Req -> SM St ConnectionError Res).
Context (encode : Res -> codec unit).
Abbreviation conn A := (SM (Conn St) ConnectionError A).

Definition on_read {A} (m : codec A) : conn A := fun c =>
  let '(o, b) := m (cn_read c) in
  (omap_err CProtocol o, {| cn_read := b; cn_written := cn_written c; cn_state := cn_state c |}).
Definition on_state {A} (m : SM St ConnectionError A) : conn A := fun c =>
  let '(o, st) := m (cn_state c) in
  (o, {| cn_read := cn_read c; cn_written := cn_written c; cn_state := st |}).
(** Encode into the empty write buffer and send it. *)
Definition send_response (response : Res) : conn unit := fun c =>
  match encode response [] with
  | (Ok _, w) =>
      (Ok tt, {| cn_read := cn_read c; cn_written := cn_written c ++ w; cn_state := cn_state c |})
  | (Err e, _) => (Err (CProtocol e), c)
  | (Panic, _) => (Panic, c)
  end.
Definition answer_request (request : Req) : conn unit :=
  response <- on_state (handle request) ;; send_response response.

(** [while let Some(request) = decode(&mut read_buffer)?]: every turn takes at
    least a byte, so that the length of the buffer bounds the turns. *)
Fixpoint frames_loop (fuel : nat) : conn unit :=
  match fuel with
  | O => ret tt
  | Datatypes.S fuel =>
      request <- on_read decode ;;
      match request with
      | None => ret tt
      | Some request => answer_request request ;;; frames_loop fuel
      end
  end.
Definition serve_frames : conn unit := fun c => frames_loop (Datatypes.S (length (cn_read c))) c.

Definition receive (chunk : bytes) : conn unit :=
  modify (fun c => {| cn_read := cn_read c ++ chunk; cn_written := cn_written c;
                      cn_state := cn_state c |}).
(** The loop of the connection, with what each read returns; a read of no bytes
    is the end of the stream. *)
Fixpoint serve (chunks : list bytes) : conn unit :=
  match chunks with
  | [] | [] :: _ => c <- get ;; reject_if (negb (bool_decide (cn_read c = []))) TruncatedFrame
  | chunk :: chunks => receive chunk ;;; serve_frames ;;; serve chunks
  end.
End connection.

(* ------------------------------------------------------------------ *)
(** ** The two connections                                              *)
(* ------------------------------------------------------------------ *)

Section handlers.
Context `{!Crc32} `{!Zstd} `{!OsMessage}.
Context (cc : ClusterConfig) (world : World).
Context {Net : Type}.
Context (deliver : Z -> ReplicateRecord -> SM Net ConnectionError ReplicateAck).
Context (query : Z -> string -> Z -> Net -> option Z).

Definition handle_connection : list bytes -> SM (Conn (Broker * Net)) ConnectionError unit :=
  serve decode_request (fun request => answered (process_request cc world deliver query request))
    encode_response.
Definition handle_replication_connection : list bytes -> SM (Conn Broker) ConnectionError unit :=
  serve decode_replicate_record handle_replica encode_replicate_ack.
End handlers.
