(* ===== verification/Connections.v ===== *)
(** * Connections: what the connection loops promise. *)

From stdpp Require Import base numbers list strings gmap.
From Stdlib Require Import ZArith Lia.
From S2P Require Import Prelude Text Files Runs Protocol Wire ProtocolFacts RoundTrip ResponseTrip CodecSafety Codec Record RecordFacts Log LogRep Storage Groups Leadership Worker WorkerSpec Topics Broker Replication Cluster Requests Serving Connection.

(* ------------------------------------------------------------------ *)
(** ** Decoders of frames                                               *)
(* ------------------------------------------------------------------ *)

Lemma take_frame_eq b :
  take_frame b =
  if blen b <? FRAME_HEADER_SIZE then (Ok None, b)
  else
    let n := be_val (take (Z.to_nat FRAME_HEADER_SIZE) b) in
    if n =? 0 then (Err InvalidFrame, b)
    else if MAX_FRAME_SIZE <? n then (Err FrameTooLarge, b)
    else if blen b <? FRAME_HEADER_SIZE + n then (Ok None, b)
    else (advance FRAME_HEADER_SIZE ;;; frame <- split_to n ;; ret (Some frame)) b.
Proof.
  unfold take_frame. erewrite bind_Ok by done. cbv beta zeta.
  by repeat (destruct (_ : bool); [done|]).
Qed.

(** How [take_frame] ends, and that bytes that arrive later do not change it. *)
Lemma take_frame_cases b :
  take_frame b = (Ok None, b) \/
  (exists f b', b = frame f ++ b' /\ 1 <= blen f <= MAX_FRAME_SIZE) \/
  (exists e, take_frame b = (Err e, b) /\ forall rest, fst (take_frame (b ++ rest)) = Err e).
Proof.
  rewrite take_frame_eq. cbv zeta.
  destruct (Z.ltb_spec (blen b) FRAME_HEADER_SIZE) as [|Hlen]; [by left|].
  assert (forall rest, take (Z.to_nat FRAME_HEADER_SIZE) (b ++ rest) = take (Z.to_nat FRAME_HEADER_SIZE) b) as Htake.
  { intros rest. apply take_app_le. unfold blen in Hlen. lia. }
  assert (forall rest, (blen (b ++ rest) <? FRAME_HEADER_SIZE) = false) as Hlong.
  { intros rest. apply Z.ltb_ge. rewrite blen_app. pose proof (blen_nonneg rest). lia. }
  set (n := be_val (take (Z.to_nat FRAME_HEADER_SIZE) b)) in *.
  destruct (Z.eqb_spec n 0) as [Hn|Hn].
  { right; right. exists InvalidFrame. split; [done|]. intros rest.
    rewrite take_frame_eq, Hlong, Htake. fold n. by rewrite Hn. }
  destruct (Z.ltb_spec MAX_FRAME_SIZE n) as [Hbig|].
  { right; right. exists FrameTooLarge. split; [done|]. intros rest.
    rewrite take_frame_eq, Hlong, Htake. fold n. cbv zeta.
    by rewrite (proj2 (Z.eqb_neq _ 0) Hn), (proj2 (Z.ltb_lt _ _) Hbig). }
  destruct (Z.ltb_spec (blen b) (FRAME_HEADER_SIZE + n)) as [|Hfull]; [by left|].
  right; left. unfold FRAME_HEADER_SIZE in *. change (Z.to_nat 4) with 4%nat in *.
  exists (take (Z.to_nat n) (drop 4 b)), (drop (Z.to_nat n) (drop 4 b)).
  pose proof (be_val_range (take 4 b)).
  assert (blen (take (Z.to_nat n) (drop 4 b)) = n) as Hf.
  { unfold blen in *. rewrite length_take, length_drop. lia. }
  split; [|lia]. unfold frame. rewrite Hf, <- app_assoc, take_drop.
  assert (length (take 4 b) = 4%nat) as Hfour by (rewrite length_take; unfold blen in *; lia).
  rewrite <- Hfour at 1. subst n. rewrite be_be_val. by rewrite take_drop.
Qed.

Definition whole_frame {R} (d : codec R) : codec (option R) :=
  frame <- take_frame ;;
  match frame with
  | None => ret None
  | Some frame => r <- on_frame frame d ;; ret (Some r)
  end.

Lemma frame_decoder {R} (d : codec R) :
  (forall b, fst (whole_frame d b) <> Panic) -> FrameDecoder (whole_frame d).
Proof.
  intros Hd.
  assert (forall b, whole_frame d b = (Ok None, b) \/
    (exists e b', whole_frame d b = (Err e, b') /\
       forall rest, fst (whole_frame d (b ++ rest)) = Err e) \/
    (exists r b', whole_frame d b = (Ok (Some r), b') /\ (length b' < length b)%nat /\
       forall rest, whole_frame d (b ++ rest) = (Ok (Some r), b' ++ rest))) as Hcases.
  { intros b. destruct (take_frame_cases b) as [Hw|[(f & b' & -> & Hf)|(e & He & Hrest)]].
    - left. unfold whole_frame. by rewrite (bind_Ok _ _ _ _ _ Hw).
    - right. assert (forall rest, whole_frame d ((frame f ++ b') ++ rest) =
        (match fst (d f) with Ok r => Ok (Some r) | Err e => Err e | Panic => Panic end, b' ++ rest)) as Hrun.
      { intros rest. rewrite <- app_assoc. unfold whole_frame.
        rewrite (bind_Ok _ _ _ _ _ (take_frame_app f (b' ++ rest) Hf)).
        unfold on_frame, lift, bind, ret. by destruct (fst (d f)). }
      pose proof (Hrun []) as Hnil. rewrite !app_nil_r in Hnil. specialize (Hd (frame f ++ b')).
      rewrite Hnil in Hd. destruct (fst (d f)) as [r|e|]; [right|left|done].
      + exists r, b'. split; [done|]. split; [|done]. unfold frame. rewrite !length_app, length_be. lia.
      + exists e, b'. split; [done|]. intros rest. by rewrite Hrun.
    - right; left. exists e, b. unfold whole_frame. split; [by rewrite (bind_Err _ _ _ _ _ He)|].
      intros rest. unfold bind. specialize (Hrest rest).
      destruct (take_frame (b ++ rest)) as [o b']. cbn [fst] in Hrest. by subst o. }
  split.
  - intros b b'. destruct (Hcases b) as [->|[(? & ? & -> & _)|(? & ? & -> & _)]]; congruence.
  - intros b r b'. destruct (Hcases b) as [->|[(? & ? & -> & _)|(? & ? & -> & ? & ?)]]; [done..|].
    intros [= <- <-]. done.
  - intros b e b'. destruct (Hcases b) as [->|[(? & ? & -> & Hr)|(? & ? & -> & _)]]; [done| |done].
    intros [= <- <-]. exact Hr.
  - intros b. by destruct (Hcases b) as [->|[(? & ? & -> & _)|(? & ? & -> & _)]].
Qed.

Lemma wp_no_panic {S E A} (m : SM S E A) Q (s : S) : wp m Q (fun _ _ => True) s -> fst (m s) <> Panic.
Proof. unfold wp. by destruct (m s) as [[] ?]. Qed.

#[export] Instance decode_request_frames `{!Zstd} : FrameDecoder decode_request.
Proof.
  change decode_request with (whole_frame decode_request_frame). apply frame_decoder. intros b.
  exact (wp_no_panic decode_request _ b (wp_decode_request b)).
Qed.
#[export] Instance decode_replicate_frames : FrameDecoder decode_replicate_record.
Proof.
  change decode_replicate_record with (whole_frame decode_replicate_record_frame).
  apply frame_decoder. intros b.
  exact (wp_no_panic decode_replicate_record _ b (wp_decode_replicate_record b)).
Qed.

(* ------------------------------------------------------------------ *)
(** ** The loop                                                         *)
(* ------------------------------------------------------------------ *)

(** Same result, same bytes written, same state of the handlers. *)
Definition same_effect {St} (x y : outcome ConnectionError unit * Conn St) : Prop :=
  x.1 = y.1 /\ cn_written x.2 = cn_written y.2 /\ cn_state x.2 = cn_state y.2.
#[export] Instance same_effect_equiv {St} : Equivalence (@same_effect St).
Proof. split; [by intros [] |by intros ?? (?&?&?)|intros ??? (?&?&?) (?&?&?); split_and!; congruence]. Qed.

Definition extend {St} (c : Conn St) (more : bytes) : Conn St :=
  {| cn_read := cn_read c ++ more; cn_written := cn_written c; cn_state := cn_state c |}.
Lemma extend_app {St} (c : Conn St) a b : extend (extend c a) b = extend c (a ++ b).
Proof. unfold extend. cbn. by rewrite app_assoc. Qed.

Section loop.
Context {Req Res St : Type} (decode : codec (option Req)) `{!FrameDecoder decode}.
Context (handle : Req -> SM St ConnectionError Res) (encode : Res -> codec unit).
Abbreviation answer := (answer_request handle encode).
Abbreviation frames := (serve_frames decode handle encode).
Abbreviation run := (serve decode handle encode).
Implicit Types c : Conn St.

(** A handler does not look at what has been received after its request. *)
Lemma answer_extend r c more :
  answer r (extend c more) = (fst (answer r c), extend (snd (answer r c)) more) /\
  cn_read (snd (answer r c)) = cn_read c.
Proof.
  unfold answer_request, bind, on_state, send_response, extend. destruct c as [b w st]. cbn [cn_read cn_written cn_state].
  destruct (handle r st) as [[p|e|] st']; [|done..]. by destruct (encode p []) as [[] ?].
Qed.

Lemma on_read_cases c :
  on_read decode c = (Ok None, c) \/
  (exists r b', on_read decode c = (Ok (Some r), {| cn_read := b'; cn_written := cn_written c; cn_state := cn_state c |}) /\
     (length b' < length (cn_read c))%nat /\
     forall more, on_read decode (extend c more) =
       (Ok (Some r), {| cn_read := b' ++ more; cn_written := cn_written c; cn_state := cn_state c |})) \/
  (exists e b', on_read decode c = (Err e, {| cn_read := b'; cn_written := cn_written c; cn_state := cn_state c |}) /\
     forall more, exists b2, on_read decode (extend c more) =
       (Err e, {| cn_read := b2; cn_written := cn_written c; cn_state := cn_state c |})).
Proof.
  unfold on_read. destruct c as [b w st]. cbn [cn_read cn_written cn_state extend].
  pose proof (decode_total b) as Htot. destruct (decode b) as [[[r|]|e|] b'] eqn:Hd; [right; left|left|right; right|done].
  - apply decode_takes in Hd as [? Hr]. exists r, b'. split_and!; [done..|]. intros more. by rewrite Hr.
  - apply decode_waits in Hd as ->. done.
  - exists (CProtocol e), b'. split; [done|]. intros more.
    pose proof (decode_rejects _ _ _ Hd more) as Hr. destruct (decode (b ++ more)) as [o b2]. cbn [fst] in Hr.
    subst o. by exists b2.
Qed.

Lemma frames_fuel n m c :
  (length (cn_read c) < n)%nat -> (length (cn_read c) < m)%nat ->
  frames_loop decode handle encode n c = frames_loop decode handle encode m c.
Proof.
  revert m c. induction n as [|n IH]; intros m c Hn Hm; [lia|]. destruct m as [|m]; [lia|].
  cbn [frames_loop]. unfold bind. destruct (on_read_cases c) as [->|[(r & b' & -> & Hlen & _)|(e & b' & -> & _)]]; [done| |done].
  set (c1 := {| cn_read := b' |}). destruct (answer_extend r c1 []) as [_ Hread].
  destruct (answer r c1) as [[u|e|] c2]; [|done..]. cbn [snd] in Hread. apply IH; rewrite Hread; cbn; lia.
Qed.

(** The loop, turn by turn. *)
Lemma frames_eq c :
  frames c = (request <- on_read decode ;;
              match request with None => ret tt | Some r => answer r ;;; frames end) c.
Proof.
  unfold serve_frames at 1. cbn [frames_loop]. unfold bind.
  destruct (on_read_cases c) as [->|[(r & b' & -> & Hlen & _)|(e & b' & -> & _)]]; [done| |done].
  set (c1 := {| cn_read := b' |}). destruct (answer_extend r c1 []) as [_ Hread].
  destruct (answer r c1) as [[u|e|] c2]; [|done..]. cbn [snd] in Hread.
  unfold serve_frames. apply frames_fuel; rewrite Hread; cbn; lia.
Qed.

(** Bytes that arrive later: the loop goes on where it was waiting. *)
Lemma frames_more c more :
  match frames c with
  | (Ok _, c') => frames (extend c more) = frames (extend c' more)
  | (Err e, c') => same_effect (frames (extend c more)) (Err e, c')
  | (Panic, c') => same_effect (frames (extend c more)) (Panic, c')
  end.
Proof.
  remember (length (cn_read c)) as n eqn:Hn. revert c Hn.
  induction (lt_wf n) as [n _ IH]. intros c Hn. rewrite (frames_eq c). unfold bind.
  destruct (on_read_cases c) as [->|[(r & b' & -> & Hlen & Hmore)|(e & b' & -> & Hmore)]].
  - done.
  - rewrite (frames_eq (extend c more)). unfold bind. rewrite Hmore.
    set (c1 := {| cn_read := b' |}). destruct (answer_extend r c1 more) as [Hans Hread].
    change {| cn_read := b' ++ more; cn_written := cn_written c; cn_state := cn_state c |} with (extend c1 more).
    rewrite Hans. destruct (answer r c1) as [[u|e|] c2]; cbn [fst snd] in *; [|done..].
    apply (IH (length (cn_read c2))); [rewrite Hread; cbn; lia|done].
  - destruct (Hmore more) as [b2 Hb2]. rewrite (frames_eq (extend c more)). unfold bind. by rewrite Hb2.
Qed.

Lemma serve_extend chunks c :
  Forall (fun chunk => chunk <> []) chunks -> same_effect (run chunks c) (run [concat chunks] c).
Proof.
  intros Hne. revert c. induction Hne as [|chunk chunks Hc Hne IH]; intros c; [done|].
  destruct chunks as [|next chunks].
  { cbn [concat]. by rewrite app_nil_r. }
  cbn [concat]. set (rest := concat (next :: chunks)) in *. assert (rest <> []) as Hrest.
  { subst rest. inv Hne. cbn. destruct next; done. }
  assert (forall b, b <> [] -> forall cs, run (b :: cs) c = (frames ;;; run cs) (extend c b)) as Hrun.
  { intros b Hb cs. by destruct b. }
  rewrite (Hrun chunk) by done. rewrite (Hrun (chunk ++ rest)) by (by destruct chunk).
  rewrite <- extend_app. unfold bind. pose proof (frames_more (extend c chunk) rest) as Hmore.
  destruct (frames (extend c chunk)) as [[u|e|] c'].
  - rewrite Hmore. etrans; [apply IH|]. assert (run [rest] c' = (frames ;;; run []) (extend c' rest)) as ->.
    { clear -Hrest. by destruct rest. }
    done.
  - destruct (frames (extend (extend c chunk) rest)) as [o c2]. destruct Hmore as (Ho & ? & ?). cbn [fst snd] in *. subst o. done.
  - destruct (frames (extend (extend c chunk) rest)) as [o c2]. destruct Hmore as (Ho & ? & ?). cbn [fst snd] in *. subst o. done.
Qed.

(** Requests that arrive whole are answered one after the other. *)
Lemma frames_answers rs ws ps vs st st' out :
  Forall2 (fun r w => forall rest, decode (w ++ rest) = (Ok (Some r), rest)) rs ws ->
  decode [] = (Ok None, []) -> map_m handle rs st = (Ok ps, st') ->
  Forall2 (fun p v => encode p [] = (Ok tt, v)) ps vs ->
  frames {| cn_read := concat ws; cn_written := out; cn_state := st |} =
  (Ok tt, {| cn_read := []; cn_written := out ++ concat vs; cn_state := st' |}).
Proof.
  intros Hws Hnil. revert ps vs st out. induction Hws as [|r w rs ws Hw _ IH]; intros ps vs st out Hrun Hvs.
  - injection Hrun as <- <-. inv Hvs. rewrite frames_eq. unfold bind, on_read. cbn [cn_read concat]. rewrite Hnil.
    cbn. by rewrite app_nil_r.
  - cbn [map_m] in Hrun. apply bind_inv in Hrun as (p & st1 & Hp & (ps' & st2 & Hps & [= <- <-])%bind_inv).
    inv Hvs. rewrite frames_eq. cbn [concat]. unfold bind at 1, on_read at 1. cbn [cn_read cn_written cn_state].
    rewrite Hw. cbn [omap_err]. unfold answer_request, bind, on_state, send_response. cbn [cn_read cn_written cn_state].
    rewrite Hp. match goal with H : encode p [] = _ |- _ => rewrite H end. cbn [concat cn_read cn_written cn_state].
    rewrite app_assoc. by apply (IH ps').
Qed.
(** The whole connection, in whatever pieces the requests arrive. *)
Lemma serve_answers rs ws ps vs st st' chunks :
  Forall2 (fun r w => forall rest, decode (w ++ rest) = (Ok (Some r), rest)) rs ws ->
  decode [] = (Ok None, []) -> map_m handle rs st = (Ok ps, st') ->
  Forall2 (fun p v => encode p [] = (Ok tt, v)) ps vs ->
  Forall (fun chunk => chunk <> []) chunks -> concat chunks = concat ws ->
  exists c', run chunks {| cn_read := []; cn_written := []; cn_state := st |} = (Ok tt, c') /\
    cn_state c' = st' /\ cn_written c' = concat vs.
Proof.
  intros Hws Hnil Hrun Hvs Hne Hcat.
  pose proof (frames_answers rs ws ps vs st st' [] Hws Hnil Hrun Hvs) as Hframes.
  pose proof (serve_extend chunks {| cn_read := []; cn_written := []; cn_state := st |} Hne) as Hsame.
  rewrite Hcat in Hsame.
  assert (run [concat ws] {| cn_read := []; cn_written := []; cn_state := st |} =
          (Ok tt, {| cn_read := []; cn_written := concat vs; cn_state := st' |})) as Hone.
  { destruct (concat ws) as [|b bs] eqn:Hcw.
    - unfold serve, bind, get. cbn [cn_read]. revert Hframes. rewrite frames_eq.
      unfold bind, on_read. cbn [cn_read]. rewrite Hnil. done.
    - cbn [serve]. erewrite bind_Ok by done. cbv beta. cbn [cn_read app cn_written cn_state].
      erewrite bind_Ok by exact Hframes. done. }
  rewrite Hone in Hsame. destruct (run chunks _) as [o c'].
  destruct Hsame as (Ho & Hw & Hst). cbn [fst snd cn_written cn_state] in *. subst o. by exists c'.
Qed.
End loop.

(* ------------------------------------------------------------------ *)
(** ** Properties                                                       *)
(* ------------------------------------------------------------------ *)

(** C25 How the bytes of a client's stream are split over reads does not matter:
    the connection gives the same answers, leaves the broker in the same state
    and ends in the same way as if all bytes had arrived at once. *)
Theorem connection_chunking `{!Crc32} `{!Zstd} `{!OsMessage} cc world {Net}
    (deliver : Z -> ReplicateRecord -> SM Net ConnectionError ReplicateAck) query chunks c :
  Forall (fun chunk => chunk <> []) chunks ->
  same_effect (handle_connection cc world deliver query chunks c)
              (handle_connection cc world deliver query [concat chunks] c).
Proof. intros Hne. unfold handle_connection. exact (serve_extend decode_request _ encode_response chunks c Hne). Qed.

(** Requests are answered in order over one connection: when a client sends
    the encodings of requests, in whatever pieces they arrive, the bytes that the
    broker writes decode to the answers of the handlers to these requests, one
    after the other, and the broker's state is theirs. *)
Theorem connection_answers `{!Crc32} `{!Zstd} `{!ZstdOk} `{!OsMessage} cc world {Net}
    (deliver : Z -> ReplicateRecord -> SM Net ConnectionError ReplicateAck) query requests ws chunks responses st st' :
  Forall2 (fun r w => wf_request r /\ encode_request r [] = (Ok tt, w)) requests ws ->
  map_m (fun r => answered (process_request cc world deliver query r)) requests st = (Ok responses, st') ->
  Forall (fun p => wf_response p /\ blen (wire_response p) <= MAX_FRAME_SIZE) responses ->
  Forall (fun chunk => chunk <> []) chunks -> concat chunks = concat ws ->
  exists c' vs, handle_connection cc world deliver query chunks
      {| cn_read := []; cn_written := []; cn_state := st |} = (Ok tt, c') /\
    cn_state c' = st' /\ cn_written c' = concat vs /\
    Forall2 (fun p v => forall rest, decode_response (v ++ rest) = (Ok (Some p), rest)) responses vs.
Proof.
  intros Hws Hrun Hps Hne Hcat.
  set (handle := fun r => answered (process_request cc world deliver query r)) in *.
  assert (exists vs, Forall2 (fun p v => encode_response p [] = (Ok tt, v) /\
    forall rest, decode_response (v ++ rest) = (Ok (Some p), rest)) responses vs) as [vs Hvs].
  { clear -Hps. induction Hps as [|p ps [Hwf Hsize] _ [vs IH]]; [by exists []|].
    exists (frame (wire_response p) :: vs). constructor; [|done]. split; [by apply (encode_response_run p [])|].
    intros rest. by apply decode_response_wire. }
  assert (Forall2 (fun r w => forall rest, decode_request (w ++ rest) = (Ok (Some r), rest)) requests ws) as Hdec.
  { eapply Forall2_impl; [exact Hws|]. intros r w [Hwf Henc] rest.
    apply encode_request_layout in Henc as [-> He]; [|done]. by apply decode_request_wire. }
  assert (Forall2 (fun p v => encode_response p [] = (Ok tt, v)) responses vs) as Henc
    by (eapply Forall2_impl; [exact Hvs|]; by intros p v [? _]).
  destruct (serve_answers decode_request handle encode_response requests ws responses vs st st' chunks)
    as (c' & ? & ? & ?); [done..|].
  exists c', vs. split_and!; [done..|]. eapply Forall2_impl; [exact Hvs|]. by intros p v [_ ?].
Qed.

(** The replication stream carries what the leader means: the encoding of a
    record, in whatever pieces it arrives, makes the follower handle that record
    (an empty key arrives as no key), and the bytes it writes decode to its
    acknowledgement, which is for the record's partition. *)
Theorem replication_answers `{!Crc32} r w chunks b ack b' :
  wf_replicate r -> encode_replicate_record r [] = (Ok tt, w) ->
  Forall (fun chunk => chunk <> []) chunks -> concat chunks = w ->
  handle_replica (norm_replicate r) b = (Ok ack, b') -> is_u64 (ra_next_offset ack) ->
  exists c', handle_replication_connection chunks
      {| cn_read := []; cn_written := []; cn_state := b |} = (Ok tt, c') /\
    cn_state c' = b' /\ ra_partition ack = rr_partition r /\
    decode_replicate_ack (cn_written c') = (Ok (Some ack), []).
Proof.
  intros Hwf Henc Hne Hcat Hrun Hn.
  assert (ra_partition ack = rr_partition r) as Hp.
  { clear -Hrun. unfold handle_replica in Hrun.
    repeat (apply bind_inv in Hrun as (? & ? & _ & Hrun); cbv beta in Hrun). by injection Hrun as <- _. }
  rewrite encode_replicate_record_run in Henc by done. injection Henc as <-. cbn [app] in Hcat.
  assert (is_u32 (ra_partition ack)) as Hpr by (rewrite Hp; apply Hwf).
  pose proof (encode_replicate_ack_run ack []) as Hack.
  destruct (serve_answers decode_replicate_record handle_replica encode_replicate_ack [norm_replicate r]
              [frame (wire_replicate r)] [ack] [frame (be 1 REPLICATE_ACK ++ be 4 (ra_partition ack) ++ be 8 (ra_next_offset ack))] b b' chunks) as (c' & ? & ? & Hw).
  - constructor; [|constructor]. intros rest. by apply decode_replicate_record_wire.
  - done.
  - cbn [map_m]. erewrite bind_Ok by exact Hrun. done.
  - constructor; [done|constructor].
  - done.
  - cbn [concat]. by rewrite app_nil_r.
  - exists c'. split_and!; [done..|]. rewrite Hw. cbn [concat]. by apply decode_replicate_ack_wire.
Qed.

(** Examples: the controller of the sample cluster, and a follower. *)
#[local] Existing Instance length_crc.
#[local] Existing Instance stored_zstd.
#[local] Existing Instance stored_zstd_ok.
#[local] Instance sample_message : OsMessage := "file not found".
Definition sample_requests : list Request :=
  [RClusterMetadata; RPartitionStatus {| psr_topic := "payments"; psr_partition := 1 |};
   RPromoteLeader sample_promotion].
Definition encoded (r : Request) : bytes := snd (encode_request r []).
Definition sample_handler (r : Request) : SM (Broker * unit) ConnectionError Response :=
  answered (process_request (sample_config 1) sample_world no_network controller_query r).
Definition sample_responses : list Response :=
  match fst (map_m sample_handler sample_requests controller) with Ok ps => ps | _ => [] end.
(** The stream in pieces of three bytes. *)
Fixpoint pieces (fuel : nat) (b : bytes) : list bytes :=
  match fuel, b with
  | Datatypes.S fuel, _ :: _ => take 3 b :: pieces fuel (drop 3 b)
  | _, _ => []
  end.
Definition sample_stream : bytes := concat (encoded <$> sample_requests).
Definition in_pieces : list bytes := pieces (length sample_stream) sample_stream.
Definition opened {St} (st : St) : Conn St := {| cn_read := []; cn_written := []; cn_state := st |}.

Lemma connection_chunking_witness :
  same_effect
    (handle_connection (sample_config 1) sample_world no_network controller_query in_pieces (opened controller))
    (handle_connection (sample_config 1) sample_world no_network controller_query [concat in_pieces] (opened controller)).
Proof.
  apply (connection_chunking (sample_config 1) sample_world no_network controller_query in_pieces (opened controller)).
  apply (bool_decide_unpack _). vm_compute. exact I.
Defined.

Lemma connection_answers_witness :
  exists c' vs, handle_connection (sample_config 1) sample_world no_network controller_query in_pieces
      (opened controller) = (Ok tt, c') /\
    cn_state c' = snd (map_m sample_handler sample_requests controller) /\ cn_written c' = concat vs /\
    Forall2 (fun p v => forall rest, decode_response (v ++ rest) = (Ok (Some p), rest))
      [PClusterMetadata (cc_metadata (sample_config 1)); PPartitionStatus 0; PLeadershipChanged promoted] vs.
Proof.
  apply (connection_answers (sample_config 1) sample_world no_network controller_query sample_requests
           (encoded <$> sample_requests) in_pieces _ controller
           (snd (map_m sample_handler sample_requests controller))).
  - repeat constructor; try (vm_compute; reflexivity); closed.
  - vm_compute. reflexivity.
  - repeat constructor; try (vm_compute; discriminate); closed.
  - apply (bool_decide_unpack _). vm_compute. exact I.
  - vm_compute. reflexivity.
Defined.

Definition sample_replica : ReplicateRecord :=
  {| rr_topic := "payments"; rr_partition := 1; rr_offset := 0; rr_timestamp_ms := 7; rr_key := Some [];
     rr_value := as_bytes "one"; rr_durable := true; rr_leader_id := 2; rr_leader_epoch := 0 |}.
Definition replica_stream : bytes := snd (encode_replicate_record sample_replica []).
Definition replica_pieces : list bytes := pieces (length replica_stream) replica_stream.

Lemma replication_answers_witness :
  exists c', handle_replication_connection replica_pieces (opened sample_follower) = (Ok tt, c') /\
    cn_state c' = snd (handle_replica (norm_replicate sample_replica) sample_follower) /\ 1 = 1 /\
    decode_replicate_ack (cn_written c') = (Ok (Some {| ra_partition := 1; ra_next_offset := 1 |}), []).
Proof.
  apply (replication_answers sample_replica replica_stream replica_pieces sample_follower
           {| ra_partition := 1; ra_next_offset := 1 |}
           (snd (handle_replica (norm_replicate sample_replica) sample_follower))).
  - closed.
  - vm_compute. reflexivity.
  - apply (bool_decide_unpack _). vm_compute. exact I.
  - vm_compute. reflexivity.
  - vm_compute. reflexivity.
  - closed.
Defined.
