(* ===== verification/HandlerFacts.v ===== *)
(** * HandlerFacts: every handler keeps the parts of a broker in order.

    [broker_ok] puts the invariants of the storage worker, the leadership
    registry and the group coordinator together; [progress] says what may
    change.  [goes] is the specification of a handler that makes progress, keeps
    the invariant whether it succeeds or fails, and does not panic. *)

From stdpp Require Import base numbers list strings gmap sorting.
From Stdlib Require Import ZArith Lia.
From S2P Require Import Prelude Text Files Runs Protocol ProtocolFacts CodecSafety Record RecordFacts Log LogRep LogFacts LogAppend LogOpen LogShrink Groups GroupFacts GroupSteps Leadership LeadershipFacts Worker WorkerSpec WorkerFacts Whole Topics Broker Replication Requests.

Section handlers.
Context `{!Crc32} `{!Crc32Ok}.
Context (cc : ClusterConfig).
Abbreviation s := (cc_settings cc).
Context (Hs : settings_ok s) (Hcl : cluster_ok (cc_metadata cc)).

(* ------------------------------------------------------------------ *)
(** ** The invariant                                                    *)
(* ------------------------------------------------------------------ *)

Definition broker_ok (b : Broker) : Prop :=
  worker_ok s (bk_worker b) /\ registry_ok (bk_leadership b) /\
  lr_cluster (bk_leadership b) = cc_metadata cc /\ coord_ok (bk_groups b).
(** Topics stay; leadership and group generations only move forward. *)
Definition topics_kept (w w' : Worker) : Prop :=
  forall t n, wk_topics w !! t = Some n -> wk_topics w' !! t = Some n.
Definition progress (b b' : Broker) : Prop :=
  broker_ok b' /\ topics_kept (bk_worker b) (bk_worker b') /\
  advances (bk_leadership b) (bk_leadership b') /\ GroupSteps.evolves (bk_groups b) (bk_groups b').

Lemma progress_refl b : broker_ok b -> progress b b.
Proof. intros Hok. split; [done|]. split; [by intros t n|]. split; reflexivity. Qed.
Lemma progress_trans b1 b2 b3 : progress b1 b2 -> progress b2 b3 -> progress b1 b3.
Proof.
  intros (_ & Ht & Ha & Hg) (Hok & Ht' & Ha' & Hg'). split; [done|].
  split; [intros t n ?; by apply Ht', Ht|]. split; by etransitivity.
Qed.

Definition goes {S A} (view : S -> Broker) (m : SM S ConnectionError A) (P : A -> S -> Prop) (st : S) : Prop :=
  wp m (fun a st' => progress (view st) (view st') /\ P a st') (fun _ st' => progress (view st) (view st')) st.
Definition anything {S A} : A -> S -> Prop := fun _ _ => True.

Section rules.
Context {S : Type} (view : S -> Broker).
Implicit Types st : S.

Lemma goes_ret {A} (a : A) (P : A -> S -> Prop) st : broker_ok (view st) -> P a st -> goes view (ret a) P st.
Proof. intros Hok HP. split; [by apply progress_refl|done]. Qed.
Lemma goes_throw {A} e (P : A -> S -> Prop) st : broker_ok (view st) -> goes view (throw e) P st.
Proof. intros Hok. by apply progress_refl. Qed.
Lemma goes_bind {A B} (m : SM S ConnectionError A) (k : A -> SM S ConnectionError B) P Q st :
  goes view m P st ->
  (forall a st', progress (view st) (view st') -> P a st' -> goes view (k a) Q st') ->
  goes view (bind m k) Q st.
Proof.
  unfold goes. intros Hm Hk. apply wp_bind. eapply wp_mono; [exact Hm| |done]. intros a st' [Hp HP].
  eapply wp_mono; [by apply Hk| |]; cbv beta.
  - intros b st'' [? ?]. split; [by eapply progress_trans|done].
  - intros e st'' ?. by eapply progress_trans.
Qed.
Lemma goes_mono {A} (m : SM S ConnectionError A) (P Q : A -> S -> Prop) st :
  goes view m P st -> (forall a st', progress (view st) (view st') -> P a st' -> Q a st') -> goes view m Q st.
Proof. intros Hm HPQ. eapply wp_mono; [exact Hm| |done]. intros a st' [? ?]. split; [done|by apply HPQ]. Qed.
Lemma goes_reject_if c e (P : unit -> S -> Prop) st :
  broker_ok (view st) -> (c = false -> P tt st) -> goes view (reject_if c e) P st.
Proof. intros Hok HP. unfold reject_if. destruct c; [by apply goes_throw|by apply goes_ret; [|apply HP]]. Qed.
Lemma goes_ok_or {A} (o : option A) e (P : A -> S -> Prop) st :
  broker_ok (view st) -> (forall a, o = Some a -> P a st) -> goes view (ok_or o e) P st.
Proof. intros Hok HP. unfold ok_or. destruct o; [by apply goes_ret; [|apply HP]|by apply goes_throw]. Qed.
Lemma goes_get st : broker_ok (view st) -> goes view get (fun a st' => a = st /\ st' = st) st.
Proof. intros Hok. split; [by apply progress_refl|done]. Qed.
(** Loops. *)
Lemma goes_for_each {A} (xs : list A) (body : A -> SM S ConnectionError unit) (I : S -> Prop) st :
  broker_ok (view st) -> I st ->
  (forall x st', x ∈ xs -> broker_ok (view st') -> I st' -> goes view (body x) (fun _ => I) st') ->
  goes view (for_each xs body) (fun _ => I) st.
Proof.
  revert st. induction xs as [|x xs IH]; intros st Hok HI Hbody; [by apply goes_ret|]. cbn [for_each].
  eapply goes_bind; [apply Hbody; [left|done|done]|]. intros [] st' Hp HI'. apply IH; [apply Hp|done|].
  intros y st'' Hy. apply Hbody. by right.
Qed.
Lemma goes_map_m {A B} (xs : list A) (body : A -> SM S ConnectionError B) (P : B -> Prop) st :
  broker_ok (view st) ->
  (forall x st', x ∈ xs -> broker_ok (view st') -> goes view (body x) (fun y _ => P y) st') ->
  goes view (map_m body xs) (fun ys _ => Forall P ys) st.
Proof.
  revert st. induction xs as [|x xs IH]; intros st Hok Hbody; [by apply goes_ret|]. cbn [map_m].
  eapply goes_bind; [apply Hbody; [left|done]|]. intros y st' Hp HP. eapply goes_bind.
  { apply IH; [apply Hp|]. intros z st'' Hz. apply Hbody. by right. }
  intros ys st'' Hp' HPs. apply goes_ret; [apply Hp'|]. by constructor.
Qed.
End rules.

(* ------------------------------------------------------------------ *)
(** ** The parts                                                        *)
(* ------------------------------------------------------------------ *)

Definition own (b : Broker) : Broker := b.

Lemma roomy_zero w : worker_ok s w -> roomy 0 w.
Proof.
  intros (a & Hr & Hok & _). apply (roomy_room s 0 w a Hr). split; [done|]. intros k l Hl.
  destruct (ao_logs _ _ Hok _ _ Hl) as [(_ & _ & ? & _) _]. lia.
Qed.

(** A storage command, through its refinement. *)
Lemma storage_goes {A} (m : SM Worker StorageError A) (f : A -> StorageReply) c env (P : A -> Broker -> Prop) b :
  (forall w, run_command s env c w = (v <- m ;; ret (f v)) w) ->
  command_typed c -> roomy (demand c) (bk_worker b) -> broker_ok b ->
  (forall a a' v w, represents s (bk_worker b) a -> aworker_ok s a -> represents s w a' -> aworker_ok s a' ->
     fst (a_run s env c a) = Ok (f v) -> snd (a_run s env c a) = a' -> m (bk_worker b) = (Ok v, w) ->
     P v (set_worker b w)) ->
  goes own (storage m) P b.
Proof.
  intros Hrun Hc Hn Hok HP. pose proof Hok as ((a & Hr & Ha & Hk) & Hreg & Hcc & Hco).
  destruct (step_refines s Hs (bk_worker b) a env c Hr Ha Hc Hn) as (Hr' & Ha' & Ho).
  pose proof (a_run_total s env c a) as Htot. rewrite <- Ho in Htot.
  pose proof (evolves_run s false env c a Ha ltac:(done)) as [Ht _].
  apply (run_unshortened s env c) in Hk. rewrite Hrun in Hr', Ho, Htot. unfold bind, ret in Hr', Ho, Htot.
  unfold goes, wp, storage. destruct (m (bk_worker b)) as [[v|e|] w] eqn:Hm; cbn [fst snd omap_err] in *; [| |done].
  all: assert (progress b (set_worker b w)) as Hp
    by (split; [by split; [by eexists|]|]; split; [|split; reflexivity];
        intros t n; cbn [set_worker bk_worker]; rewrite (rp_topics _ _ _ Hr), (rp_topics _ _ _ Hr'); apply Ht).
  - split; [exact Hp|]. by eapply HP.
  - exact Hp.
Qed.

Definition at_clock (clock : nat -> Z) : Ambient :=
  {| am_clock := clock; am_reached := fun _ _ => false; am_order := [] |}.

Lemma partition_offset_goes t p b :
  is_u32 p -> broker_ok b -> goes own (storage (partition_offset t p)) (fun _ b' => b' = b) b.
Proof.
  intros Hp Hok.
  apply (storage_goes _ OffsetReply (PartitionOffset t p) (at_clock (fun _ => 0)));
    [done|done|apply roomy_zero, Hok|done|].
  intros a a' v w _ _ _ _ _ _. unfold partition_offset. erewrite bind_Ok by done. cbv beta.
  destruct (wk_logs _ !! _); [|done]. intros [= _ <-]. by destruct b.
Qed.
Lemma read_goes t p o m b :
  is_u32 p -> broker_ok b -> goes own (storage (read_records s t p o m)) anything b.
Proof.
  intros Hp Hok. apply (storage_goes _ RecordsReply (Read t p o m) (at_clock (fun _ => 0)));
    [done|done|apply roomy_zero, Hok|done|done].
Qed.
Lemma append_goes input now b :
  input_typed input -> roomy 1 (bk_worker b) -> broker_ok b ->
  goes own (storage (append_record s input now)) (fun ack _ => is_u32 (pa_partition ack)) b.
Proof.
  intros Hi Hn Hok. apply (storage_goes _ AckReply (Append input) (at_clock (fun _ => now))); [done..|].
  intros a a' ack w _ _ _ Hok' Hrun Ha' _. cbn [a_run] in Hrun, Ha'. unfold a_reply in Hrun, Ha'.
  destruct (a_append_record s a input _) as [[ack'|e|] a1] eqn:E; try done.
  cbn [a_bind fst snd] in *. injection Hrun as ->. subst a1.
  destruct (append_ack _ _ _ _ _ _ E) as [l Hl]. by apply (a_keys _ _ _ _ _ Hok') in Hl as [? _].
Qed.
Lemma append_batch_goes input clock b :
  opt_u32 (ba_partition input) -> roomy (Z.of_nat (length (ba_records input))) (bk_worker b) -> broker_ok b ->
  goes own (storage (append_batch_records s input clock))
    (fun acks _ => Forall (fun ack => is_u32 (pa_partition ack)) acks) b.
Proof.
  intros Hi Hn Hok. apply (storage_goes _ BatchReply (AppendBatch input) (at_clock clock)); [done..|].
  intros a a' acks w _ _ _ Hok' Hrun Ha' _. cbn [a_run] in Hrun, Ha'. unfold a_reply in Hrun, Ha'.
  destruct (a_append_each s a _ _ _ _) as [[acks'|e|] a1] eqn:E; try done.
  cbn [a_bind fst snd] in *. injection Hrun as ->. subst a1.
  destruct (append_each_acks _ _ _ _ _ _ _ _ E) as [_ HF]. eapply Forall_impl; [exact HF|].
  intros ack [l Hl]. by apply (a_keys _ _ _ _ _ Hok') in Hl as [? _].
Qed.
Lemma create_topic_goes t n b :
  is_u32 n -> broker_ok b ->
  goes own (storage (create_topic s t n)) (fun m _ => m = metadata_of t n /\ valid_topic t = true) b.
Proof.
  intros Hn Hok. apply (storage_goes _ TopicReply (CreateTopic t n) (at_clock (fun _ => 0)));
    [done|done|apply roomy_zero, Hok|done|].
  intros a a' m w _ _ _ _ Hrun _ _. cbn [a_run] in Hrun. unfold a_reply, a_create in Hrun.
  destruct (n =? 0); [done|]. case_bool_decide; [done|]. destruct (valid_topic t); [|done].
  by injection Hrun as <-.
Qed.
(** A replica adds at most a record. *)
Lemma replicate_longer a r n :
  room (n + 1) a -> 0 <= n -> room n (snd (a_replicate s a r)).
Proof.
  intros [Hn HF] Hn0. unfold a_replicate, a_on.
  assert (room n a) as Hroom by (split; [lia|]; eapply map_Forall_impl; [exact HF|]; cbv beta; lia).
  destruct (aw_topics a !! _) as [k|]; [|done]. destruct (k <=? _); [done|].
  destruct (aw_logs a !! _) as [l|] eqn:Hl; [|done].
  assert (next (al_chunks (snd (a_append_replica (cfg s) l (rr_offset r) (replica_record r)))) <=
          next (al_chunks l) + 1) as Hle.
  { unfold a_append_replica. pose proof (next_append s l (replica_record r)) as Hap.
    destruct (_ <? _); [destruct (record_at _ _) as [r'|]; [destruct (_ && _)|]; cbn; lia|].
    destruct (_ =? _); [|cbn; lia]. by destruct (a_append _ _ _) as [[] ?]. }
  specialize (HF _ _ Hl) as Hll. cbv beta in Hll.
  destruct (a_append_replica _ _ _ _) as [[o|e|] l']; cbn [snd aw_set_log aw_logs] in *.
  all: split; [lia|]; apply map_Forall_insert_2; [lia|apply Hroom].
Qed.
(** Whatever comes of a replica, at most one record was added. *)
Lemma replica_room r w n :
  command_typed (Replicate r) -> roomy 1 w -> worker_ok s w -> 0 <= n -> roomy (n + 1) w ->
  roomy n (snd (worker_append_replica r w)).
Proof.
  intros Hc Hn (a & Hr & Ha & _) Hn0. rewrite (roomy_room s _ _ a Hr). intros Hroom.
  destruct (step_refines s Hs w a (at_clock (fun _ => 0)) (Replicate r) Hr Ha Hc Hn) as (Hr' & _).
  apply (replicate_longer a r n) in Hroom; [|done].
  assert (room n (snd (a_run s (at_clock (fun _ => 0)) (Replicate r) a))) as Hroom'.
  { cbn [a_run]. unfold a_reply. by destruct (a_replicate s a r) as [[] ?]. }
  apply (roomy_room s n _ _ Hr') in Hroom'. cbn [run_command] in Hroom'. unfold bind, ret in Hroom'.
  by destruct (worker_append_replica r w) as [[] ?].
Qed.
Lemma replica_goes r b :
  is_u32 (rr_partition r) -> is_u64 (rr_offset r) -> is_u64 (rr_timestamp_ms r) ->
  roomy 1 (bk_worker b) -> broker_ok b -> goes own (storage (worker_append_replica r)) anything b.
Proof.
  intros ? ? ? Hn Hok. by apply (storage_goes _ OffsetReply (Replicate r) (at_clock (fun _ => 0))).
Qed.

(** A truncated log is not longer. *)
Lemma rewrite_shorter cf l rs :
  next (al_chunks (snd (a_rewrite cf l rs))) <= next (al_chunks l) + clen rs.
Proof.
  revert l. induction rs as [|r rs IH]; intros l; [cbn; unfold clen; cbn; lia|].
  cbn [a_rewrite]. rewrite clen_cons. pose proof (clen_nonneg rs).
  assert (next (al_chunks (snd (a_append cf l r))) <= next (al_chunks l) + 1) as Hstep.
  { destruct (a_append_cases cf l r) as [->|(-> & _)]; [lia|]. cbn [snd a_push al_chunks].
    destruct (decide (al_chunks l = [])) as [->|]; [cbn; lia|]. rewrite next_push by done. lia. }
  destruct (a_append cf l r) as [[o|e|] l']; cbn [snd] in *; [|lia..]. specialize (IH l'). lia.
Qed.
Lemma truncate_shorter cf o l :
  a_inv cf l -> next (al_chunks (snd (a_truncate cf o l))) <= next (al_chunks l).
Proof.
  intros [(_ & Hlo & _) _]. unfold a_truncate. destruct (_ <? _); [cbn; lia|].
  destruct (_ =? _); [cbn; lia|]. pose proof (rewrite_shorter cf empty_log (kept l o)) as Hr.
  assert (clen (kept l o) <= clen (flat (al_chunks l))) as Hk.
  { unfold kept, clen. rewrite length_take. lia. }
  change (next (al_chunks empty_log)) with 0 in Hr. unfold next at 2. lia.
Qed.
Lemma truncate_goes t p o b :
  is_u32 p -> is_u64 o -> broker_ok b ->
  goes own (storage (truncate_partition t p o))
    (fun _ b' => forall n, roomy n (bk_worker b) -> roomy n (bk_worker b')) b.
Proof.
  intros Hp Ho Hok.
  apply (storage_goes _ (fun _ => UnitReply) (Truncate t p o) (at_clock (fun _ => 0)));
    [done|done|apply roomy_zero, Hok|done|].
  intros a a' [] w Hr Ha Hr' Ha' _ Hst _ n. cbn [set_worker bk_worker].
  rewrite (roomy_room s n _ a Hr), (roomy_room s n w a' Hr'). intros [Hn HF]. split; [done|].
  subst a'. cbn [a_run]. unfold a_reply, a_on. destruct (aw_logs a !! (t, p)) as [l|] eqn:Hl; [|exact HF].
  pose proof (truncate_shorter (cfg s) o l ltac:(by eapply (ao_logs _ _ Ha))) as Hle.
  destruct (a_truncate (cfg s) o l) as [[u|e|] l']; cbn [a_bind snd aw_set_log aw_logs] in *.
  all: apply map_Forall_insert_2; [|exact HF]; specialize (HF _ _ Hl); cbn in HF; lia.
Qed.
(** Calls on the registry. *)
Lemma leadership_goes {A} (m : SM LeadershipRegistry LeadershipError A) (P : A -> Broker -> Prop) b :
  broker_ok b ->
  wp m (fun v r => registry_ok r /\ advances (bk_leadership b) r /\ P v (set_leadership b r))
       (fun _ r => registry_ok r /\ advances (bk_leadership b) r) (bk_leadership b) ->
  goes own (leadership m) P b.
Proof.
  intros Hok Hm. pose proof Hok as (Hw & Hr & Hcc & Hg).
  assert (forall r, registry_ok r -> advances (bk_leadership b) r -> progress b (set_leadership b r)) as Hp.
  { intros r Hr' [Hcl' Had]. split; [split; [done|]; split; [done|]; split; [cbn; congruence|done]|].
    split; [by intros t n|]. split; [by split|reflexivity]. }
  unfold goes, wp, leadership in *. destruct (m (bk_leadership b)) as [[v|e|] r]; cbn [omap_err]; [| |done].
  - destruct Hm as (? & ? & ?). split; [by apply Hp|done].
  - destruct Hm as [? ?]. by apply Hp.
Qed.
Lemma entry_of b t p l :
  broker_ok b -> lr_entries (bk_leadership b) !! (t, p) = Some l ->
  topic_text t /\ pl_partition l = p /\ leadership_ok l.
Proof. intros (_ & (_ & Hes & _) & _) Hl. exact (Hes _ _ Hl). Qed.
Lemma partition_goes t p b :
  broker_ok b ->
  goes own (leadership (registry_partition t p))
    (fun l b' => b' = b /\ lr_entries (bk_leadership b) !! (t, p) = Some l) b.
Proof.
  intros Hok. pose proof Hok as (_ & Hr & _). apply leadership_goes; [done|].
  unfold registry_partition. apply wp_bind. unfold wp at 1, get. cbv beta iota.
  apply wp_ok_or; [done|]. intros l Hl. split; [done|]. split; [done|]. split; [by destruct b|done].
Qed.
Lemma registry_op_goes op b :
  registry_typed op -> broker_ok b -> goes own (leadership (run_registry op)) anything b.
Proof.
  intros Hop Hok. pose proof Hok as (_ & Hr & _). apply leadership_goes; [done|].
  pose proof (run_registry_ok op _ Hr Hop) as Hrun. unfold wp.
  destruct (run_registry op (bk_leadership b)) as [[v|e|] r]; by destruct Hrun as (? & ? & _ & ?).
Qed.
Lemma apply_goes t l b :
  topic_text t -> leadership_ok l -> broker_ok b -> goes own (leadership (registry_apply t l)) anything b.
Proof. intros ? ? Hok. by apply (registry_op_goes (OpApply t l)). Qed.
Lemma ensure_goes t n b :
  topic_text t -> is_u32 n -> broker_ok b -> goes own (leadership (registry_ensure_topic t n)) anything b.
Proof. intros ? ? Hok. by apply (registry_op_goes (OpEnsure t n)). Qed.
Lemma topic_goes t n b :
  topic_text t -> is_u32 n -> broker_ok b ->
  goes own (leadership (registry_topic t n)) (fun ls _ => Forall leadership_ok ls) b.
Proof.
  intros Ht Hn Hok. pose proof Hok as (_ & Hr & _). apply leadership_goes; [done|].
  destruct (registry_ensure_spec t n _ Hr Ht Hn) as (r0 & Hens & _).
  pose proof (run_registry_ok (OpEnsure t n) _ Hr (conj Ht Hn)) as Hrun. cbn [run_registry] in Hrun.
  rewrite Hens in Hrun. destruct Hrun as (Hr0 & Had & _).
  destruct (registry_topic_spec t n _ Hr Ht Hn) as (r1 & Htop & Hc1 & Hes & Hl & Hagain).
  assert (r1 = r0) as ->.
  { revert Htop. unfold registry_topic. rewrite (bind_Ok _ _ _ _ _ Hens).
    intros Htop. apply (f_equal snd) in Htop. cbn [snd] in Htop. rewrite <- Htop.
    clear. generalize (seqZ 0 n). intros ps. induction ps as [|p ps IH]; [done|].
    cbn [map_m]. unfold bind at 1, registry_partition at 1, bind at 1, get at 1.
    destruct (lr_entries r0 !! (t, p)); [|done]. cbn [ok_or ret]. unfold bind at 1.
    destruct (map_m _ ps r0) as [[] ?]; exact IH. }
  unfold wp. rewrite Htop. split; [done|]. split; [done|].
  apply Forall_fmap, Forall_forall. intros p Hp. cbn.
  assert (is_Some (lr_entries r0 !! (t, p))) as [l Hlp].
  { rewrite Hl. destruct (lr_entries (bk_leadership b) !! _); [done|]. by rewrite decide_True. }
  rewrite Hlp. cbn. by destruct (Hes _ _ Hlp) as (_ & _ & ?).
Qed.

(** Calls on the coordinator. *)
Lemma coordinator_goes {A} (m : SM GroupCoordinator GroupError A) (P : outcome GroupError A -> Prop) b :
  broker_ok b ->
  wp m (fun v c => GroupSteps.moves (bk_groups b) c /\ P (Ok v))
       (fun e c => GroupSteps.moves (bk_groups b) c /\ P (Err e)) (bk_groups b) ->
  let '(o, b') := coordinator_call m b in progress b b' /\ P o /\ o <> Panic.
Proof.
  intros Hok Hm. pose proof Hok as (Hw & Hr & Hcc & _). unfold wp, coordinator_call in *.
  destruct (m (bk_groups b)) as [[v|e|] c]; [| |done]; destruct Hm as [[Hc Hev] HP].
  all: split; [|by split]; split; [by split_and!|]; split; [by intros t n|]; split; [reflexivity|exact Hev].
Qed.

(** Topics of the storage. *)
Lemma topic_text_valid t : valid_topic t = true -> topic_text t.
Proof. unfold valid_topic, topic_text. destruct (is_empty t), (starts_with "__" t), (forallb id_byte _); done. Qed.
Lemma stored_topics b :
  broker_ok b ->
  Forall (fun m => topic_text (tm_topic m) /\ is_u32 (tm_partitions m))
    (storage_topic_metadata (wk_topics (bk_worker b))).
Proof.
  intros ((a & Hr & Ha & _) & _). rewrite (rp_topics _ _ _ Hr). unfold storage_topic_metadata.
  rewrite merge_sort_Permutation. apply Forall_fmap, Forall_forall. intros [t n] Hin%elem_of_map_to_list. cbn.
  destruct (ao_topics _ _ Ha _ _ Hin) as [Hv ?]. split; [by apply topic_text_valid|range].
Qed.
(* ------------------------------------------------------------------ *)
(** ** Reading                                                          *)
(* ------------------------------------------------------------------ *)

(** What other work the storage may do while a read waits. *)
Definition waits_ok (waits : list (Worker -> Worker)) : Prop :=
  Forall (fun wait => forall w, worker_ok s w -> worker_ok s (wait w) /\ topics_kept w (wait w)) waits.

Lemma storage_read_goes waits t p o m wait_ms b :
  waits_ok waits -> is_u32 p -> broker_ok b ->
  goes own (storage_read cc waits t p o m wait_ms) anything b.
Proof.
  intros Hw Hp. revert b. induction Hw as [|wait waits Hwait Hw IH]; intros b Hok; cbn [storage_read].
  all: eapply goes_bind; [by apply read_goes|]; intros rs b1 [Hok1 _] _;
    destruct (_ || _); [by apply goes_ret|].
  - by apply goes_ret.
  - eapply (goes_bind own _ _ anything); [|intros [] b2 [Hok2 _] _; by apply IH].
    destruct Hok1 as (Hw1 & Hr & Hcc & Hg). destruct (Hwait _ Hw1) as [Hw2 Ht].
    split; [|done]. split; [by split|]. split; [exact Ht|]. split; reflexivity.
Qed.
Lemma read_record_at_goes t p o b :
  is_u32 p -> broker_ok b -> goes own (read_record_at cc t p o) anything b.
Proof.
  intros Hp Hok. unfold read_record_at. eapply goes_bind; [by apply read_goes|]. intros rs b1 [Hok1 _] _.
  by apply goes_ok_or.
Qed.

(* ------------------------------------------------------------------ *)
(** ** The follower                                                     *)
(* ------------------------------------------------------------------ *)

Definition replica_typed (r : ReplicateRecord) : Prop :=
  is_u32 (rr_partition r) /\ is_u64 (rr_offset r) /\ is_u64 (rr_timestamp_ms r) /\
  is_u32 (rr_leader_id r) /\ is_u64 (rr_leader_epoch r).

Lemma handle_replica_goes r b :
  replica_typed r -> roomy 1 (bk_worker b) -> broker_ok b ->
  goes own (handle_replica r) anything b.
Proof.
  intros (Hp & Ho & Hts & Hid & Hep) Hn Hok. unfold handle_replica.
  eapply goes_bind; [by apply partition_goes|]. intros cur b1 _ [-> Hcur].
  destruct (entry_of _ _ _ _ Hok Hcur) as (Ht & _ & _ & _ & _ & Hhw).
  eapply (goes_bind own _ _ (fun _ b' => b' = b)); [by apply goes_reject_if|]. intros [] b1 _ ->.
  eapply (goes_bind own _ _ (fun _ b' => roomy 1 (bk_worker b'))).
  { destruct (_ <? _); [|by apply goes_ret].
    eapply goes_bind; [by apply partition_offset_goes|]. intros o b1 _ ->.
    eapply (goes_bind own _ _ (fun _ b' => roomy 1 (bk_worker b'))).
    { destruct (_ <? _); [|by apply goes_ret]. eapply goes_mono; [by apply truncate_goes|].
      intros [] b1 _ Hroom. by apply Hroom. }
    intros [] b1 [Hok1 _] Hn1. unfold goes, wp. cbn beta.
    pose proof (apply_goes (rr_topic r) {| pl_partition := rr_partition r; pl_leader_id := rr_leader_id r;
      pl_leader_epoch := rr_leader_epoch r; pl_high_watermark := pl_high_watermark cur |} b1 Ht
      (conj Hp (conj Hid (conj Hep Hhw))) Hok1) as Ha. unfold goes, wp in Ha.
    assert (bk_worker (snd (leadership (registry_apply (rr_topic r)
      {| pl_partition := rr_partition r; pl_leader_id := rr_leader_id r;
         pl_leader_epoch := rr_leader_epoch r; pl_high_watermark := pl_high_watermark cur |}) b1)) = bk_worker b1) as Hsame.
    { unfold leadership. by destruct (registry_apply _ _ _). }
    destruct (leadership _ b1) as [[u|e|] b2]; cbn [snd] in Hsame; [|done..]. split; [apply Ha|].
    by rewrite Hsame. }
  intros [] b1 [Hok1 _] Hn1. eapply goes_bind; [by apply partition_offset_goes|]. intros expected b2 _ ->.
  eapply (goes_bind own _ _ anything).
  { destruct (_ <? _); [by apply goes_ret|by apply replica_goes]. }
  intros n b2 [Hok2 _] _. by apply goes_ret.
Qed.
End handlers.
