(* ===== verification/RequestFacts.v ===== *)
(** * RequestFacts: the request handlers, promotion and the background work of a
    broker make progress and do not panic. *)

From stdpp Require Import base numbers list strings gmap sorting.
From Stdlib Require Import ZArith Lia.
From S2P Require Import Prelude Text Files Runs Protocol ProtocolFacts ResponseTrip CodecSafety Record RecordFacts Log LogRep LogFacts LogAppend LogOpen LogShrink Groups GroupFacts GroupSteps Leadership LeadershipFacts Worker WorkerSpec WorkerFacts Whole Topics Broker Replication Requests HandlerFacts.

Section requests.
Context `{!Crc32} `{!Crc32Ok}.
Context (cc : ClusterConfig).
Abbreviation s := (cc_settings cc).
Context (Hs : settings_ok s) (Hcl : cluster_ok (cc_metadata cc)).
Context (world : World) (Hwaits : waits_ok cc (wd_waits world)).
Context {Net : Type}.
Context (deliver : Z -> ReplicateRecord -> SM Net ConnectionError ReplicateAck).
Context (Hdeliver : forall id r net, fst (deliver id r net) <> Panic).
Context (query : Z -> string -> Z -> Net -> option Z).
Abbreviation site_goes := (goes cc (@fst Broker Net)).
Abbreviation own_goes := (goes cc own).
Abbreviation ok := (broker_ok cc).

Lemma on_broker_goes {A} (m : SM Broker ConnectionError A) P (st : Broker * Net) :
  own_goes m P st.1 -> site_goes (on_broker m) (fun a st' => P a st'.1) st.
Proof.
  unfold goes, wp, on_broker, own. destruct (m st.1) as [[a|e|] b]; cbn [fst snd]; auto.
Qed.

Lemma on_broker_any {A} (m : SM Broker ConnectionError A) P (st : Broker * Net) :
  own_goes m P st.1 -> site_goes (on_broker m) anything st.
Proof. intros Hm. eapply goes_mono; [by apply on_broker_goes|done]. Qed.

(* ------------------------------------------------------------------ *)
(** ** Replication                                                      *)
(* ------------------------------------------------------------------ *)

Lemma send_replica_goes follower r (st : Broker * Net) :
  ok st.1 -> site_goes (send_replica deliver follower r) anything st.
Proof.
  intros Hok. unfold send_replica. eapply (goes_bind cc fst _ _ anything).
  - pose proof (Hdeliver (cn_id follower) r st.2) as Hd. unfold goes, wp, on_net.
    destruct (deliver _ _ _) as [[ack|e|] net]; cbn [fst snd] in *; [| |done].
    + split; [by apply progress_refl|done].
    + by apply progress_refl.
  - intros ack st1 [Hok1 _] _. eapply (goes_bind cc fst _ _ anything); [by apply goes_reject_if|].
    intros [] st2 [Hok2 _] _. by apply goes_ret.
Qed.
Lemma catch_up_goes fuel follower t p o ack_mode l n (st : Broker * Net) :
  is_u32 p -> ok st.1 -> site_goes (catch_up cc deliver fuel follower t p o ack_mode l n) anything st.
Proof.
  intros Hp. revert n st. induction fuel as [|fuel IH]; intros n st Hok; cbn [catch_up];
    (destruct (o <? n); [by apply goes_ret|]); [by apply goes_throw|].
  eapply (goes_bind cc fst); [apply on_broker_goes; by apply read_record_at_goes|].
  intros missing st1 [Hok1 _] _. eapply (goes_bind cc fst); [by apply send_replica_goes|].
  intros n' st2 [Hok2 _] _. by apply IH.
Qed.
Lemma replicate_to_follower_goes fuel follower t p r ack_mode (st : Broker * Net) :
  is_u32 p -> ok st.1 -> site_goes (replicate_to_follower cc deliver fuel follower t p r ack_mode) anything st.
Proof.
  intros Hp Hok. unfold replicate_to_follower.
  eapply (goes_bind cc fst); [apply on_broker_goes; by apply partition_goes|]. intros l st1 [Hok1 _] _.
  eapply (goes_bind cc fst); [by apply send_replica_goes|]. intros n st2 [Hok2 _] _.
  eapply (goes_bind cc fst _ _ anything); [by apply goes_reject_if|]. intros [] st3 [Hok3 _] _.
  by apply catch_up_goes.
Qed.
Lemma replicate_all_goes fuel followers t p r ack_mode acks (st : Broker * Net) :
  is_u32 p -> ok st.1 -> site_goes (replicate_all cc deliver fuel followers t p r ack_mode acks) anything st.
Proof.
  intros Hp. revert acks st. induction followers as [|f fs IH]; intros acks st Hok; [by apply goes_ret|].
  pose proof (replicate_to_follower_goes fuel f t p r ack_mode st Hp Hok) as Hone.
  unfold goes, wp in *. cbn [replicate_all].
  assert (forall acks st1, progress cc st.1 st1.1 ->
    match replicate_all cc deliver fuel fs t p r ack_mode acks st1 with
    | (Ok a, s') => progress cc st.1 s'.1 /\ anything a s'
    | (Err _, s') => progress cc st.1 s'.1
    | (Panic, _) => False
    end) as Hrest.
  { intros acks' st1 Hp1. specialize (IH acks' st1 (proj1 Hp1)).
    destruct (replicate_all _ _ _ fs _ _ _ _ acks' st1) as [[a|e|] st2]; [|by eapply progress_trans|done].
    split; [by eapply progress_trans; [exact Hp1|apply IH]|done]. }
  destruct (replicate_to_follower _ _ _ _ _ _ _ _ st) as [[u|e|] st1]; [| |done].
  - apply Hrest. apply Hone.
  - by apply Hrest.
Qed.

Lemma add_messages_goes ms b :
  ok b -> own_goes (modify (fun b => add_messages b ms)) anything b.
Proof.
  intros Hok. split; [|done]. split; [exact Hok|]. split; [by intros t n|]. split; reflexivity.
Qed.
Lemma commit_goes t p o b :
  ok b -> own_goes (commit_replicated cc t p (saturating_add o 1)) anything b.
Proof.
  intros Hok. unfold commit_replicated. eapply goes_bind; [by apply partition_goes|].
  intros l b1 [Hok1 _] [-> Hl]. destruct (entry_of _ _ _ _ _ Hok Hl) as (Ht & <- & Hp & Hid & Hep & Hhw).
  destruct (Z.leb_spec (saturating_add o 1) (pl_high_watermark l)); [by apply goes_ret|].
  eapply goes_bind; [apply apply_goes; [done| |done]|].
  { split_and!; try done. pose proof (Z.le_min_l U64_MAX (o + 1)). unfold saturating_add, in_range in *. cbn in *. lia. }
  intros [] b2 [Hok2 _] _. by apply add_messages_goes.
Qed.
Lemma replicate_goes fuel t p r ack_mode (st : Broker * Net) :
  is_u32 p -> ok st.1 -> site_goes (replicate cc deliver fuel t p r ack_mode) anything st.
Proof.
  intros Hp Hok. unfold replicate. eapply (goes_bind cc fst); [by apply replicate_all_goes|].
  intros acks st1 [Hok1 _] _. cbv zeta. eapply (goes_bind cc fst _ _ anything).
  { destruct (_ <=? _); [|by apply goes_ret]. eapply on_broker_any. by apply commit_goes. }
  intros [] st2 [Hok2 _] _. destruct ack_mode; [by apply goes_ret|by apply goes_reject_if].
Qed.
Lemma dispatch_goes fuel t rs ack_mode (st : Broker * Net) :
  Forall (fun r => is_u32 r.1) rs -> ok st.1 ->
  site_goes (dispatch_replication cc deliver fuel t rs ack_mode) anything st.
Proof.
  intros HF Hok. unfold dispatch_replication. destruct ack_mode.
  - apply (on_broker_any _ anything). split; [|done]. split; [exact Hok|]. split; [by intros ??|]. split; reflexivity.
  - unfold replicate_records. eapply goes_mono; [apply (goes_for_each cc fst _ _ (fun _ => True)); [done..|]|done].
    intros r st1 Hin Hok1 _. eapply goes_mono; [apply replicate_goes; [|done]|done].
    by apply (proj1 (Forall_forall _ _) HF).
Qed.

(* ------------------------------------------------------------------ *)
(** ** Producing and fetching                                           *)
(* ------------------------------------------------------------------ *)

Lemma leader_check_goes t q b :
  ok b -> own_goes (cluster_leadership_error cc t q) (fun _ b' => b' = b) b.
Proof.
  intros Hok. unfold cluster_leadership_error. destruct (_ =? 1); [by apply goes_ret|].
  destruct q as [p|]; [|by apply goes_ret].
  eapply goes_bind; [by apply partition_goes|]. intros l b1 [Hok1 _] [-> _]. by apply goes_ret.
Qed.
Lemma as_leader_goes {St} (view : St -> Broker) check handler P st :
  goes cc view check (fun _ st' => P st') st ->
  (forall st', broker_ok cc (view st') -> P st' -> goes cc view handler anything st') ->
  goes cc view (as_leader check handler) anything st.
Proof.
  intros Hc Hh. unfold as_leader. eapply goes_bind; [exact Hc|]. intros [e|] st1 [Hok1 _] HP; [by apply goes_ret|].
  by apply Hh.
Qed.

Lemma produce_goes request (st : Broker * Net) :
  wf_produce request -> roomy 1 (bk_worker st.1) -> ok st.1 ->
  site_goes (process_produce cc world deliver request) anything st.
Proof.
  intros (_ & _ & _ & _ & Hprod & Hpart) Hn Hok.
  assert (input_typed (produce_input request)) as Hi.
  { split; cbn; [by destruct (pr_partition request)|]. destruct (pr_producer request); [apply Hprod|done]. }
  unfold process_produce. eapply as_leader_goes.
  { apply (on_broker_goes _ (fun _ b' => b' = st.1)). by apply leader_check_goes. }
  intros st1 Hok1 Heq. cbv beta in Heq. eapply (goes_bind cc fst).
  { apply on_broker_goes. apply append_goes; [done..|by rewrite Heq|done]. }
  intros ack st2 [Hok2 _] Hp. cbv beta in Hp. eapply (goes_bind cc fst).
  { apply on_broker_goes. by apply read_record_at_goes. }
  intros record st3 [Hok3 _] _. eapply (goes_bind cc fst).
  { apply dispatch_goes; [by apply Forall_singleton|done]. }
  intros [] st4 [Hok4 _] _. by apply goes_ret.
Qed.
Lemma produce_batch_goes request (st : Broker * Net) :
  wf_batch request -> roomy (list_len (pb_records request)) (bk_worker st.1) -> ok st.1 ->
  site_goes (produce_batch cc world deliver request) anything st.
Proof.
  intros (_ & _ & _ & _ & _ & Hpart) Hn Hok. unfold produce_batch.
  eapply (goes_bind cc fst); [apply on_broker_goes; by apply append_batch_goes|].
  intros acks st1 [Hok1 _] HF. cbv beta in HF. eapply (goes_bind cc fst).
  { apply (goes_map_m cc fst acks _ (fun r : Z * FetchedRecord => is_u32 r.1)); [done|].
    intros ack st2 Hin Hok2. assert (is_u32 (pa_partition ack)) as Hp by by apply (proj1 (Forall_forall _ _) HF).
    eapply (goes_bind cc fst); [apply on_broker_goes; by apply read_record_at_goes|].
    intros r st3 [Hok3 _] _. by apply goes_ret. }
  intros rs st2 [Hok2 _] HFs. eapply (goes_bind cc fst); [by apply dispatch_goes|].
  intros [] st3 [Hok3 _] _. by apply goes_ret.
Qed.
Lemma fetch_goes request b :
  is_u32 (fr_partition request) -> ok b -> own_goes (fetch_records cc world request) anything b.
Proof.
  intros Hp Hok. unfold fetch_records. eapply as_leader_goes; [by apply leader_check_goes|].
  intros b1 Hok1 _. eapply goes_bind; [by apply storage_read_goes|]. intros rs b2 [Hok2 _] _.
  eapply goes_bind; [by apply partition_goes|]. intros l b3 [Hok3 _] _. by apply goes_ret.
Qed.

(* ------------------------------------------------------------------ *)
(** ** Groups                                                           *)
(* ------------------------------------------------------------------ *)

Definition is_group (request : Request) : bool :=
  match request with
  | RJoinGroup _ | RHeartbeat _ | RLeaveGroup _ | RCommitOffset _ | RFetchCommittedOffset _ | RGroupFetch _ => true
  | _ => false
  end.
Lemma moved c c' : GroupSteps.keeps c c' -> GroupSteps.moves c c'.
Proof. by intros [? _]. Qed.
Lemma read_offset_total d p : read_offset d p <> Panic.
Proof.
  unfold read_offset. destruct (d !! _) as [b|]; [|done]. unfold parse_offset. by repeat case_match.
Qed.
Lemma execute_moves request c :
  is_group request = true -> wf_request request -> coord_ok c ->
  wp (execute_group_request world request) (fun _ c' => GroupSteps.moves c c')
     (fun _ c' => GroupSteps.moves c c') c.
Proof.
  intros Hg Hwf Hc. destruct request; try done; cbn [execute_group_request wf_request] in *; apply wp_bind.
  - eapply wp_mono; [by apply join_keeps| |]; [intros [g ps] c' [? ?]; by apply wp_ret, moved|by intros e c' ?%moved].
  - eapply wp_mono; [by apply heartbeat_keeps| |]; [intros ? c' ?; by apply wp_ret, moved|by intros e c' ?%moved].
  - eapply wp_mono; [by apply leave_keeps| |]; [intros ? c' ?; by apply wp_ret, moved|by intros e c' ?%moved].
  - eapply wp_mono; [apply commit_keeps; [done|apply Hwf]| |]; [intros ? c' [? _]; by apply wp_ret|by intros e c' ?%moved].
  - assert (GroupSteps.moves c c) as Hm by by split.
    assert (wp (committed_offset (fc_group r) (fc_topic r) (fc_partition r)) (fun _ c' => GroupSteps.moves c c')
              (fun _ c' => GroupSteps.moves c c') c) as Hwp.
    { unfold committed_offset. do 2 (apply wp_bind, wp_reject_if; [done|intros _]). apply wp_bind.
      unfold wp, get, lift. pose proof (read_offset_total (topic_dir (gc_offsets_dir c) (fc_group r) (fc_topic r)) (fc_partition r)).
      by destruct (read_offset _ _). }
    eapply wp_mono; [exact Hwp| |done]. intros o c' ?. by apply wp_ret.
  - eapply wp_mono; [by apply authorize_keeps| |]; [intros ? c' ?; by apply wp_ret, moved|by intros e c' ?%moved].
Qed.
Lemma groups_goes request b :
  is_group request = true -> wf_request request -> ok b -> own_goes (groups_execute world request) anything b.
Proof.
  intros Hg Hwf Hok. pose proof (coordinator_goes cc (execute_group_request world request) (fun _ => True) b Hok) as Hc.
  unfold goes, wp, groups_execute.
  destruct (coordinator_call (execute_group_request world request) b) as [o b'].
  destruct Hc as (Hp & _ & Ho).
  { eapply wp_mono; [apply execute_moves; [done|done|apply Hok]| |]; by split. }
  by destruct o.
Qed.
Lemma group_fetch_goes request hw b :
  wf_request (RGroupFetch request) -> ok b -> own_goes (group_fetch cc world request hw) anything b.
Proof.
  intros Hwf Hok. pose proof Hwf as (_ & _ & _ & _ & Hp & _). unfold group_fetch.
  eapply goes_bind; [by apply groups_goes|]. intros answer b1 [Hok1 _] _.
  destruct answer as [[]|]; try by apply goes_ret.
  eapply goes_bind; [by apply storage_read_goes|]. intros rs b2 [Hok2 _] _. by apply goes_ret.
Qed.

(* ------------------------------------------------------------------ *)
(** ** Promotion                                                        *)
(* ------------------------------------------------------------------ *)

Lemma replica_offset_goes t p node (st : Broker * Net) :
  is_u32 p -> ok st.1 -> site_goes (replica_offset cc query t p node) (fun _ st' => st' = st) st.
Proof.
  intros Hp Hok. unfold goes, wp, replica_offset. destruct (_ =? _).
  - pose proof (partition_offset_goes cc Hs t p st.1 Hp Hok) as Ho. unfold goes, wp, own in Ho.
    unfold on_broker. destruct (storage (partition_offset t p) st.1) as [[o|e|] b] eqn:Hrun; cbn [fst snd]; [| |done].
    + destruct Ho as [? ->]. split; [done|by destruct st].
    + assert (b = st.1) as ->.
      { revert Hrun. unfold storage, partition_offset. erewrite bind_Ok by done. cbv beta.
        destruct (wk_logs _ !! _); intros [= _ <-]. by destruct st.1. }
      split; [done|by destruct st].
  - split; [by apply progress_refl|done].
Qed.
Lemma replica_offsets_goes t p except ns (st : Broker * Net) :
  is_u32 p -> ok st.1 -> site_goes (replica_offsets cc query t p except ns) (fun _ st' => st' = st) st.
Proof.
  intros Hp Hok. revert st Hok. induction ns as [|n ns IH]; intros st Hok; [by apply goes_ret|].
  cbn [replica_offsets]. destruct (_ || _); [by apply IH|].
  eapply (goes_bind cc fst); [by apply replica_offset_goes|]. intros o st1 _ ->.
  eapply (goes_bind cc fst); [by apply IH|]. intros rest st1 _ ->. by apply goes_ret.
Qed.
Lemma verify_goes request hw (st : Broker * Net) :
  is_u32 (plr_partition request) -> ok st.1 ->
  site_goes (verify_promotion_candidate cc query request hw) (fun _ st' => st' = st) st.
Proof.
  intros Hp Hok. unfold verify_promotion_candidate.
  eapply (goes_bind cc fst); [by apply replica_offsets_goes|]. intros offsets st1 _ ->.
  eapply (goes_bind cc fst _ _ (fun _ st' => st' = st)); [by apply goes_ok_or|]. intros o st1 _ ->.
  by apply goes_reject_if.
Qed.
Lemma truncate_uncommitted_goes t p hw b :
  is_u32 p -> is_u64 hw -> ok b -> own_goes (truncate_uncommitted t p hw) anything b.
Proof.
  intros Hp Hhw Hok. unfold truncate_uncommitted. eapply goes_bind; [by apply partition_offset_goes|].
  intros o b1 _ ->. destruct (_ <? _); [|by apply goes_ret]. eapply goes_mono; [by apply truncate_goes|done].
Qed.
Lemma replica_id id p : is_partition_replica cc id p = true -> is_u32 id.
Proof.
  unfold is_partition_replica. rewrite existsb_exists. intros (n & Hin & <-%Z.eqb_eq).
  destruct Hcl as [_ HF]. apply (proj1 (Forall_forall _ _) HF).
  apply list_elem_of_In, list_elem_of_omap in Hin as (i & _ & Hn). by eapply list_elem_of_lookup_2.
Qed.
Lemma promote_goes request (st : Broker * Net) :
  ok st.1 -> site_goes (promote_leader cc query request) anything st.
Proof.
  intros Hok. unfold promote_leader. destruct (nodes cc) as [|controller ns]; [by apply goes_throw|].
  destruct (negb _); [by apply goes_ret|]. eapply (goes_bind cc fst); [apply on_broker_goes; by apply partition_goes|].
  intros cur st1 _ [Heq Hcur]. cbv beta in *. assert (ok st1.1) as Hok1 by by rewrite Heq.
  destruct (entry_of _ _ _ _ _ Hok Hcur) as (Ht & _ & Hp & _ & Hep & Hhw).
  assert (is_u32 (plr_partition request)) as Hpr.
  { destruct (entry_of _ _ _ _ _ Hok Hcur) as (_ & <- & _). exact Hp. }
  destruct (is_partition_replica _ _ _) eqn:Hrep; cbn [negb]; [|by apply goes_ret].
  apply replica_id in Hrep as Hid. eapply (goes_bind cc fst); [by apply verify_goes|].
  intros [] st2 _ ->. eapply (goes_bind cc fst _ _ (fun epoch st' => is_u64 epoch)).
  { apply goes_ok_or; [done|]. intros epoch. unfold checked_add.
    destruct (Z.leb_spec (pl_leader_epoch cur + 1) U64_MAX); [|done]. intros [= <-]. range. }
  intros epoch st2 [Hok2 _] Hepoch. cbv beta in Hepoch. cbv zeta.
  eapply (goes_bind cc fst _ _ anything).
  { destruct (_ =? _); [|by apply goes_ret]. eapply on_broker_any. by apply truncate_uncommitted_goes. }
  intros [] st3 [Hok3 _] _. eapply (goes_bind cc fst).
  { eapply on_broker_any. by apply apply_goes. }
  intros [] st4 [Hok4 _] _. eapply (goes_bind cc fst).
  { eapply on_broker_any. by apply add_messages_goes. }
  intros [] st5 [Hok5 _] _. by apply goes_ret.
Qed.

(* ------------------------------------------------------------------ *)
(** ** Topics                                                           *)
(* ------------------------------------------------------------------ *)

Lemma with_leaders_goes m b :
  topic_text (tm_topic m) -> is_u32 (tm_partitions m) -> ok b -> own_goes (with_leaders m) anything b.
Proof.
  intros Ht Hn Hok. unfold with_leaders. eapply goes_bind; [by apply topic_goes|].
  intros ls b1 [Hok1 _] _. by apply goes_ret.
Qed.
Lemma or_refuse_goes {A} (m : SM Broker ConnectionError A) k P b :
  own_goes m P b -> (forall a b', ok b' -> P a b' -> own_goes (k a) anything b') ->
  own_goes (or_refuse m k) anything b.
Proof.
  intros Hm Hk. unfold goes, wp, or_refuse, own in *. destruct (m b) as [[a|e|] b1]; [| |done].
  - destruct Hm as [Hp HP]. specialize (Hk a b1 (proj1 Hp) HP).
    destruct (k a b1) as [[v|e|] b2]; [|by eapply progress_trans|done].
    split; [by eapply progress_trans; [exact Hp|apply Hk]|done].
  - destruct e; try done.
Qed.
Lemma create_request_goes request b :
  is_u32 (ct_partitions request) -> ok b -> own_goes (create_topic_request cc world request) anything b.
Proof.
  intros Hn Hok. unfold create_topic_request. eapply or_refuse_goes; [by apply create_topic_goes|].
  intros m b1 Hok1 [-> Hv%topic_text_valid]. cbn [metadata_of tm_topic tm_partitions].
  eapply (goes_bind cc own _ _ anything).
  { pose proof (coordinator_goes cc (set_topic_partitions (wd_group_order world) (ct_topic request) (ct_partitions request))
      (fun _ => True) b1 Hok1) as Hc. unfold goes, wp. destruct (coordinator_call _ b1) as [o b2].
    destruct Hc as (Hp & _ & Ho).
    - eapply wp_mono; [apply set_partitions_keeps; [apply Hok1|done]| |].
      + intros [] c ?. by split; [apply moved|].
      + by intros e c [].
    - by destruct o. }
  intros [] b2 [Hok2 _] _. eapply goes_bind; [by apply ensure_goes|]. intros [] b3 [Hok3 _] _.
  eapply (goes_bind cc own _ _ anything).
  { destruct (is_controller cc); [by apply add_messages_goes|by apply goes_ret]. }
  intros [] b4 [Hok4 _] _. eapply goes_bind; [by apply with_leaders_goes|]. intros m b5 [Hok5 _] _.
  by apply goes_ret.
Qed.
Lemma apply_request_goes request b :
  wf_leadership (alr_leadership request) -> ok b -> own_goes (apply_leadership_request request) anything b.
Proof.
  intros Hwf Hok. pose proof Hwf as (Hp & _ & _ & Hhw). unfold apply_leadership_request. cbv zeta.
  eapply goes_bind; [by apply partition_goes|]. intros cur b1 _ [-> Hcur].
  destruct (entry_of _ _ _ _ _ Hok Hcur) as (Ht & _). eapply (goes_bind cc own _ _ anything).
  { destruct (_ <? _); [by apply truncate_uncommitted_goes|by apply goes_ret]. }
  intros [] b2 [Hok2 _] _. eapply goes_bind; [by apply apply_goes|]. intros [] b3 [Hok3 _] _. by apply goes_ret.
Qed.
Lemma describe_goes t b :
  ok b -> own_goes (describe_topic t) (fun m _ => topic_text (tm_topic m) /\ is_u32 (tm_partitions m)) b.
Proof.
  intros Hok. unfold describe_topic. eapply goes_bind; [by apply goes_get|]. intros b1 b2 [Hok2 _] [-> ->].
  apply goes_ok_or; [done|]. intros m Hm. apply find_some in Hm as [Hin _].
  apply (proj1 (Forall_forall _ _) (stored_topics cc b Hok)). by apply list_elem_of_In.
Qed.
Lemma topic_request_goes request (st : Broker * Net) :
  wf_request request -> (match request with
    | RCreateTopic _ | RListTopics | RDescribeTopic _ | RClusterMetadata | RPromoteLeader _
    | RApplyLeadership _ | RPartitionStatus _ => True | _ => False end) ->
  ok st.1 -> site_goes (process_topic_request cc world query request) anything st.
Proof.
  intros Hwf Hk Hok. destruct request; try done; cbn [process_topic_request wf_request] in *.
  - eapply on_broker_any. apply create_request_goes; [apply Hwf|done].
  - eapply (goes_bind cc fst); [by apply goes_get|]. intros st1 st2 [Hok2 _] [-> ->].
    eapply (goes_bind cc fst _ _ anything).
    { eapply on_broker_any. apply (goes_map_m cc own _ _ (fun _ => True)); [done|].
      intros m b Hin Hok1. pose proof (proj1 (Forall_forall _ _) (stored_topics cc st.1 Hok) m Hin) as [? ?].
      eapply goes_mono; [by apply with_leaders_goes|done]. }
    intros ms st1 [Hok1 _] _. by apply goes_ret.
  - eapply on_broker_any. eapply or_refuse_goes; [by apply describe_goes|]. intros m b Hok1 [? ?].
    eapply goes_bind; [by apply with_leaders_goes|]. intros m' b' [Hok2 _] _. by apply goes_ret.
  - by apply goes_ret.
  - by apply promote_goes.
  - eapply on_broker_any. apply apply_request_goes; [apply Hwf|done].
  - eapply (goes_bind cc fst _ _ anything).
    { eapply on_broker_any. apply partition_offset_goes; [done|apply Hwf|done]. }
    intros o st1 [Hok1 _] _. by apply goes_ret.
Qed.

(** How many records a request may add to a log. *)
Definition request_demand (request : Request) : Z :=
  match request with
  | RProduce _ => 1
  | RProduceBatch request => list_len (pb_records request)
  | _ => 0
  end.

Lemma process_request_goes request (st : Broker * Net) :
  wf_request request -> roomy (request_demand request) (bk_worker st.1) -> ok st.1 ->
  site_goes (process_request cc world deliver query request) anything st.
Proof.
  intros Hwf Hn Hok. destruct request; cbn [process_request]; try (by apply topic_request_goes);
    try (eapply on_broker_any; by apply groups_goes).
  - by apply produce_goes.
  - eapply as_leader_goes.
    { apply (on_broker_goes _ (fun _ b' => b' = st.1)). by apply leader_check_goes. }
    intros st1 Hok1 Heq. cbv beta in Heq. apply produce_batch_goes; [done|by rewrite Heq|done].
  - eapply on_broker_any. apply fetch_goes; [apply Hwf|done].
  - eapply on_broker_any. eapply as_leader_goes; [by apply leader_check_goes|].
    intros b1 Hok1 _. eapply goes_bind; [by apply partition_goes|]. intros l b2 [Hok2 _] _.
    by apply group_fetch_goes.
Qed.

(* ------------------------------------------------------------------ *)
(** ** Background work                                                  *)
(* ------------------------------------------------------------------ *)

Definition monitored (st : Broker * Net * gmap (string * Z) Z) : Broker := st.1.1.
Abbreviation monitor_goes := (goes cc monitored).

Lemma on_site_goes {A} (m : SM (Broker * Net) ConnectionError A) P st :
  site_goes m P st.1 -> monitor_goes (on_site m) (fun a st' => P a st'.1) st.
Proof. unfold goes, wp, on_site, monitored. destruct (m st.1) as [[a|e|] s1]; cbn [fst snd]; auto. Qed.
Lemma set_failures_goes f st :
  ok (monitored st) -> monitor_goes (set_failures f) anything st.
Proof. intros Hok. split; [by apply progress_refl|done]. Qed.
Lemma monitor_partition_goes t cur st :
  leadership_ok cur -> ok (monitored st) -> monitor_goes (monitor_partition cc query t cur) anything st.
Proof.
  intros (Hp & _) Hok. unfold monitor_partition. cbv zeta. destruct (_ =? _); [by apply set_failures_goes|].
  eapply (goes_bind cc monitored _ _ (fun _ st' => st' = st)); [by apply goes_ok_or|]. intros leader st1 _ ->.
  eapply (goes_bind cc monitored); [by apply goes_get|]. intros st1 st2 _ [-> ->].
  destruct (query _ _ _ _); [by apply set_failures_goes|].
  eapply (goes_bind cc monitored); [by apply set_failures_goes|]. intros [] st1 [Hok1 _] _.
  destruct (_ <? 3); [by apply goes_ret|].
  eapply (goes_bind cc monitored _ _ anything).
  { eapply goes_mono; [apply (on_site_goes _ anything)|done]. unfold select_automatic_candidate.
    eapply (goes_bind cc fst); [by apply replica_offsets_goes|]. intros offsets st2 _ ->. by apply goes_ret. }
  intros [c|] st2 [Hok2 _] _; [|by apply goes_ret].
  eapply (goes_bind cc monitored _ _ anything).
  { eapply goes_mono; [apply on_site_goes; by apply promote_goes|done]. }
  intros answer st3 [Hok3 _] _. destruct answer as [[]|]; try by apply goes_ret. by apply set_failures_goes.
Qed.
Lemma monitor_goes_on st :
  ok (monitored st) -> monitor_goes (monitor_partition_leaders cc query) anything st.
Proof.
  intros Hok. unfold monitor_partition_leaders.
  eapply (goes_bind cc monitored); [by apply goes_get|]. intros st1 st2 _ [-> ->].
  eapply goes_mono; [apply (goes_for_each cc monitored _ _ (fun _ => True)); [done|done|]|done].
  intros m st1 Hin Hok1 _. pose proof (proj1 (Forall_forall _ _) (stored_topics cc _ Hok) m Hin) as [Ht Hn].
  unfold monitor_topic. eapply (goes_bind cc monitored _ _ (fun ls _ => Forall leadership_ok ls)).
  { apply (on_site_goes _ (fun ls _ => Forall leadership_ok ls)).
    apply (on_broker_goes _ (fun ls _ => Forall leadership_ok ls)). by apply topic_goes. }
  intros ls st2 [Hok2 _] HF. cbv beta in HF.
  apply (goes_for_each cc monitored _ _ (fun _ => True)); [done|done|]. intros l st3 Hl Hok3 _.
  eapply goes_mono; [apply monitor_partition_goes; [|done]|done]. by apply (proj1 (Forall_forall _ _) HF).
Qed.

Lemma attempt_goes {A} (m : SM Broker ConnectionError A) P b : own_goes m P b -> own_goes (attempt m) anything b.
Proof.
  unfold goes, wp, attempt. destruct (m b) as [[a|e|] b'].
  - by intros [? _].
  - intros ?. by split.
  - done.
Qed.

Lemma sync_partition_goes t l b : leadership_ok l -> ok b -> own_goes (sync_partition t l) anything b.
Proof.
  intros Hl Hok. unfold sync_partition. eapply goes_bind; [by apply partition_goes|]. intros cur b1 _ [-> Hcur].
  destruct (entry_of _ _ _ _ _ Hok Hcur) as (Ht & _). destruct (_ || _); [by apply apply_goes|by apply goes_ret].
Qed.
Lemma zip_leaders_ok p leaders epochs watermarks :
  0 <= p -> p + Z.of_nat (length leaders) <= U32_MAX + 1 -> Forall is_u32 leaders -> Forall is_u64 epochs ->
  Forall is_u64 watermarks -> Forall leadership_ok (zip_leaders p leaders epochs watermarks).
Proof.
  intros Hp Hlen Hls Hes Hws. revert p Hp Hlen epochs Hes watermarks Hws.
  induction Hls as [|l ls Hl _ IH]; intros p Hp Hlen; [constructor|].
  intros [|e es] Hes [|w ws] Hws; try constructor; cbn [length] in Hlen; rewrite Nat2Z.inj_succ in Hlen; inv Hes; inv Hws.
  - split_and!; cbn; [unfold in_range; lia|done..].
  - apply IH; [lia|lia|done|done].
Qed.
Lemma sync_topic_goes m b : wf_topic m -> ok b -> own_goes (sync_topic cc m) anything b.
Proof.
  intros (_ & Hn & Hlen & _ & _ & Hls & Hes & Hws) Hok. unfold sync_topic.
  eapply goes_bind; [by apply goes_get|]. intros b1 b2 _ [-> ->].
  eapply (goes_bind cc own _ _ (fun _ _ => topic_text (tm_topic m))).
  { case_bool_decide as Hsome.
    - apply goes_ret; [done|]. destruct Hsome as [n Htn]. destruct Hok as ((a & Hr & Ha & _) & _).
      rewrite (rp_topics _ _ _ Hr) in Htn. destruct (ao_topics _ _ Ha _ _ Htn) as [Hv _]. by apply topic_text_valid.
    - eapply goes_bind; [apply create_topic_goes; [done|range|done]|]. intros m' b1 [Hok1 _] [_ Hv].
      apply goes_ret; [done|by apply topic_text_valid]. }
  intros [] b1 [Hok1 _] Ht. cbv beta in Ht. eapply goes_bind; [apply ensure_goes; [done|range|done]|].
  intros [] b2 [Hok2 _] _. eapply goes_mono; [apply (goes_for_each cc own _ _ (fun _ => True)); [done|done|]|done].
  intros l b3 Hin Hok3 _. eapply goes_mono; [apply sync_partition_goes; [|done]|done].
  revert l Hin. apply Forall_forall, zip_leaders_ok; try done.
  destruct Hlen as [->|Hlen]; [cbn; unfold U32_MAX; lia|]. unfold list_len in Hlen. lia.
Qed.
Lemma sync_goes topics b :
  (forall ts, topics = Ok ts -> Forall wf_topic ts) -> topics <> Panic -> ok b ->
  own_goes (sync_controller_metadata cc topics) anything b.
Proof.
  intros Hts Hpanic Hok. unfold sync_controller_metadata. destruct (nodes cc); [by apply goes_throw|].
  destruct (_ =? _); [by apply goes_ret|]. eapply (goes_bind cc own _ _ (fun ts _ => Forall wf_topic ts)).
  { unfold goes, wp, lift. destruct topics as [ts|e|]; [|by apply progress_refl|done].
    split; [by apply progress_refl|by apply Hts]. }
  intros ts b1 [Hok1 _] HF. cbv beta in HF.
  eapply goes_mono; [apply (goes_for_each cc own _ _ (fun _ => True)); [done|done|]|done].
  intros m b2 Hin Hok2 _. eapply goes_mono; [apply sync_topic_goes; [|done]|done].
  by apply (proj1 (Forall_forall _ _) HF).
Qed.

(** [lasts n]: the work goes on, and however it ends there is room for [n] more
    records. *)
Definition lasts {A} (n : Z) (m : SM Broker ConnectionError A) (b : Broker) : Prop :=
  wp m (fun _ b' => progress cc b b' /\ roomy n (bk_worker b'))
       (fun _ b' => progress cc b b' /\ roomy n (bk_worker b')) b.

Lemma lasts_bind {A B} n k (m : SM Broker ConnectionError A) (f : A -> SM Broker ConnectionError B) b :
  0 <= k <= n -> lasts n m b ->
  (forall a b', progress cc b b' -> roomy n (bk_worker b') -> lasts k (f a) b') -> lasts k (bind m f) b.
Proof.
  intros Hk Hm Hf. assert (forall w, roomy n w -> roomy k w) as Hweak.
  { intros w [? HF]. split; [lia|]. eapply map_Forall_impl; [exact HF|]. cbv beta. lia. }
  apply wp_bind. eapply wp_mono; [exact Hm| |].
  - intros a b' [Hp Hroom]. eapply wp_mono; [by apply Hf| |]; cbv beta; intros ? b2 [? ?];
      (split; [by eapply progress_trans|done]).
  - intros e b' [Hp Hroom]. split; [done|by apply Hweak].
Qed.
Lemma lasts_ret {A} n (a : A) b : ok b -> roomy n (bk_worker b) -> lasts n (ret a) b.
Proof. intros Hok Hn. split; [by apply progress_refl|done]. Qed.
Lemma lasts_partition n t p b : ok b -> roomy n (bk_worker b) -> lasts n (leadership (registry_partition t p)) b.
Proof.
  intros Hok Hn. pose proof (partition_goes cc t p b Hok) as Hp. unfold goes, lasts, wp in *.
  assert (bk_worker (snd (leadership (registry_partition t p) b)) = bk_worker b) as Hw
    by (unfold leadership; by destruct (registry_partition t p _)).
  destruct (leadership _ b) as [[l|e|] b1]; cbn [snd] in Hw; rewrite ?Hw; [|by split|done].
  by destruct Hp as [? _].
Qed.
Lemma lasts_attempt {A} n (m : SM Broker ConnectionError A) b : lasts n m b -> lasts n (attempt m) b.
Proof. unfold lasts, wp, attempt. by destruct (m b) as [[a|e|] b']. Qed.
Lemma lasts_goes {A} n (m : SM Broker ConnectionError A) b : lasts n m b -> own_goes m anything b.
Proof. intros Hm. eapply wp_mono; [exact Hm| |]; [by intros a b' [? _]|by intros e b' [? _]]. Qed.

Lemma recover_records_lasts t p id rs o n b :
  is_u32 p -> Forall wf_fetched rs -> 0 <= n -> roomy (list_len rs + n) (bk_worker b) -> ok b ->
  lasts n (recover_records t p id rs o) b.
Proof.
  intros Hp HF Hn. revert o b. induction HF as [|r rs Hr HF IH]; intros o b Hroom Hok; [by apply lasts_ret|].
  cbn [recover_records]. assert (list_len (r :: rs) = list_len rs + n + 1 - n) as Hlen
    by (unfold list_len; cbn [length]; lia).
  assert (0 <= list_len rs) by (unfold list_len; lia).
  apply (lasts_bind (list_len rs + n + 1)); [lia|apply lasts_partition; [done|]|].
  { by replace (list_len rs + n + 1) with (list_len (r :: rs) + n) by lia. }
  intros cur b1 [Hok1 _] Hroom1. cbv beta.
  assert (roomy 1 (bk_worker b1)) as Hone.
  { destruct Hroom1 as [? HR]. split; [lia|]. eapply map_Forall_impl; [exact HR|]. cbv beta. lia. }
  set (rec := recovered_record t p id r (pl_leader_epoch cur)).
  assert (command_typed (Replicate rec)) as Hc by (split_and!; [done|apply Hr|apply Hr]).
  apply (lasts_bind (list_len rs + n)); [lia| |by intros o' b2 [Hok2 _] Hroom2; apply IH].
  pose proof (replica_goes cc Hs rec b1 Hp (proj1 Hr) (proj1 (proj2 Hr)) Hone Hok1) as Hg.
  pose proof (replica_room cc Hs rec (bk_worker b1) (list_len rs + n) Hc Hone (proj1 Hok1) ltac:(lia) Hroom1) as Hroom2.
  unfold goes, lasts, wp, storage, own in *.
  destruct (worker_append_replica rec (bk_worker b1)) as [[v|e|] w]; cbn [omap_err snd] in *; [|by split|done].
  by destruct Hg as [? _].
Qed.

(** The answers of a leader: no more than [m] records, each well formed. *)
Definition answers_ok (m : Z) (fetch : Z -> outcome ConnectionError (list FetchedRecord)) : Prop :=
  forall o, fetch o <> Panic /\
    forall rs, fetch o = Ok rs -> Forall wf_fetched rs /\ list_len rs <= m.

Lemma recover_lasts fuel fetch t p id o m n b :
  is_u32 p -> 0 <= m -> answers_ok m fetch -> 0 <= n -> roomy (Z.of_nat fuel * m + n) (bk_worker b) -> ok b ->
  lasts n (recover_follower_partition fuel fetch t p id o) b.
Proof.
  intros Hp Hm Hf Hn. revert o b. induction fuel as [|fuel IH]; intros o b Hroom Hok; cbn [recover_follower_partition].
  { split; [by apply progress_refl|done]. }
  assert (roomy (m + (Z.of_nat fuel * m + n)) (bk_worker b)) as Hroom'.
  { by replace (m + (Z.of_nat fuel * m + n)) with (Z.of_nat (Datatypes.S fuel) * m + n) by nia. }
  assert (0 <= Z.of_nat fuel * m + n) by nia. assert (forall k, 0 <= k <= m + (Z.of_nat fuel * m + n) -> roomy k (bk_worker b)) as Hless.
  { intros k Hk. destruct Hroom' as [? HR]. split; [lia|]. eapply map_Forall_impl; [exact HR|]. cbv beta. lia. }
  destruct (Hf o) as [Hnp Hrs]. unfold lasts. apply wp_bind. unfold wp at 1, lift.
  destruct (fetch o) as [rs|e|]; [|split; [by apply progress_refl|apply Hless; lia]|done].
  destruct (Hrs rs eq_refl) as [HF Hlen]. destruct rs as [|r rs]; [apply lasts_ret; [done|apply Hless; lia]|].
  apply (lasts_bind (Z.of_nat fuel * m + n)); [lia| |by intros o' b1 [Hok1 _] Hroom1; apply IH].
  apply recover_records_lasts; [done|done|lia| |done]. apply Hless. unfold list_len in *. lia.
Qed.
End requests.
