(* ===== verification/Sharing.v ===== *)
(** * Sharing: [GroupHandle] of [crates/broker/src/lib.rs], the coordinator behind
    its lock, and the task that ends sessions.

    Every call locks the coordinator for its whole length, on a thread of its
    own, so that calls are served one at a time.  A panic while the lock is held
    poisons it, and every later call fails: the theorems show that none panics. *)

From stdpp Require Import base numbers list strings gmap sorting.
From Stdlib Require Import ZArith Lia.
From S2P Require Import Prelude Text Files Runs Protocol ProtocolFacts Groups GroupFacts GroupSteps Coordination Leadership Worker Broker Requests Connection HandlerFacts RequestFacts.

(* ------------------------------------------------------------------ *)
(** ** A lock that can be poisoned                                      *)
(* ------------------------------------------------------------------ *)

(** [std::sync::Mutex] *)
Record Mutex (S : Type) := { mx_value : S; mx_poisoned : bool }.
Arguments mx_value {S}.
Arguments mx_poisoned {S}.
Definition new_mutex {S} (s : S) : Mutex S := {| mx_value := s; mx_poisoned := false |}.
Definition is_panic {E A} (o : outcome E A) : bool := match o with Panic => true | _ => false end.
(** [lock().map_err(|_| poisoned)?], and then [m] on what it guards. *)
Definition locked {S E A} (poisoned : E) (m : SM S E A) : SM (Mutex S) E A := fun x =>
  if mx_poisoned x then (Err poisoned, x)
  else let '(o, s) := m (mx_value x) in (o, {| mx_value := s; mx_poisoned := is_panic o |}).

(** While the lock is sound, calls do what they do without it. *)
Lemma locked_run {S E A} (poisoned : E) (m : SM S E A) s Q R :
  wp m Q R s ->
  exists o s', m s = (o, s') /\ locked poisoned m (new_mutex s) = (o, new_mutex s') /\
    match o with Ok a => Q a s' | Err e => R e s' | Panic => False end.
Proof.
  unfold wp, locked, new_mutex. cbn [mx_poisoned mx_value]. destruct (m s) as [[a|e|] s']; intros H; [..|done];
    by eexists _, s'.
Qed.

(* ------------------------------------------------------------------ *)
(** ** The errors of the coordinator                                    *)
(* ------------------------------------------------------------------ *)

(** Every error of [m] is in [P]. *)
Definition throws {S E A} (P : E -> Prop) (m : SM S E A) : Prop := forall s e s', m s = (Err e, s') -> P e.
Section throws.
Context {S E : Type} (P : E -> Prop).
Lemma throws_bind {A B} (m : SM S E A) (k : A -> SM S E B) :
  throws P m -> (forall a, throws P (k a)) -> throws P (bind m k).
Proof.
  intros Hm Hk s e s'. unfold bind. destruct (m s) as [[a|e1|] s1] eqn:Hrun; [apply Hk|intros [= -> ->]; by eapply Hm|done].
Qed.
Lemma throws_ret {A} (a : A) : throws P (ret (S:=S) a). Proof. by intros s e s'. Qed.
Lemma throws_get : throws P (get (S:=S)). Proof. by intros s e s'. Qed.
Lemma throws_modify f : throws P (modify (S:=S) f). Proof. by intros s e s'. Qed.
Lemma throws_reject_if c e : P e -> throws P (reject_if (S:=S) c e).
Proof. intros He s e' s'. destruct c; by intros [= <- _]. Qed.
Lemma throws_ok_or {A} (o : option A) e : P e -> throws P (ok_or (S:=S) o e).
Proof. intros He s e' s'. destruct o; by intros [= <- _]. Qed.
Lemma throws_lift {A} (o : outcome E A) : (forall e, o = Err e -> P e) -> throws P (lift (S:=S) o).
Proof. intros Ho s e s' [= He _]. by apply Ho. Qed.
Lemma throws_for_each {A} (xs : list A) body : (forall x, throws P (body x)) -> throws P (for_each (S:=S) xs body).
Proof. intros Hb. induction xs as [|x xs IH]; cbn; [apply throws_ret|by apply throws_bind]. Qed.
End throws.
Create HintDb throws.
#[local] Hint Resolve throws_ret throws_get throws_modify : throws.
Ltac throws_step :=
  match goal with
  | |- throws _ (bind _ _) => apply throws_bind; [|intros ?]
  | |- throws _ (reject_if _ _) => apply throws_reject_if
  | |- throws _ (ok_or _ _) => apply throws_ok_or
  | |- throws _ (for_each _ _) => apply throws_for_each; intros ?
  | |- throws _ (match ?x with _ => _ end) => destruct x
  | |- throws _ (if ?x then _ else _) => destruct x
  | |- throws _ _ => solve [eauto with throws]
  end.
Ltac throws := repeat (cbv zeta; throws_step); try done.

Definition own_error (e : GroupError) : Prop := e <> CoordinatorPoisoned.
Lemma rebalance_throws g n e : rebalance g n = Err e -> e = GenerationOverflow.
Proof.
  pose proof (rebalance_spec g n) as H. destruct (_ <=? _); [destruct H as (g' & -> & _); done|]. rewrite H. by intros [= <-].
Qed.
Lemma rebalance_group_throws key g n : throws (fun e => e = GenerationOverflow) (rebalance_group key g n).
Proof. unfold rebalance_group, put_group. throws. apply throws_lift. intros e. apply rebalance_throws. Qed.
Lemma throws_mono {S E A} (P Q : E -> Prop) (m : SM S E A) : (forall e, P e -> Q e) -> throws P m -> throws Q m.
Proof. intros H Hm s e s' Hr. eapply H, Hm, Hr. Qed.
Lemma rebalance_group_own key g n : throws own_error (rebalance_group key g n).
Proof. eapply throws_mono, rebalance_group_throws. by intros e ->. Qed.
Lemma read_offset_own d p e : read_offset d p = Err e -> own_error e.
Proof.
  unfold read_offset, parse_offset, own_error. destruct (d !! _) as [b|]; [|done].
  destruct (read_to_string b); [destruct (parse_uint _ _)|]; cbn; by intros [= <-].
Qed.
Lemma load_offsets_own tree g t n e : load_offsets tree g t n = Err e -> own_error e.
Proof.
  unfold load_offsets. generalize (∅ : gmap Z Z). induction (seqZ 0 n) as [|p ps IH]; intros m; cbn [load_offsets_from]; [done|].
  destruct (read_offset _ p) as [o|e1|] eqn:E; cbn [obind]; [apply IH| |done]. intros [= <-]. by eapply read_offset_own.
Qed.
#[local] Hint Resolve rebalance_group_own : throws.
Lemma expire_sessions_throws order now : throws (fun e => e = GenerationOverflow) (expire_sessions order now).
Proof. unfold expire_sessions, put_group. throws. apply rebalance_group_throws. Qed.
Lemma active_group_own g t now : throws own_error (active_group g t now).
Proof. unfold active_group, put_group. throws. Qed.
Lemma validate_member_own g m n : throws own_error (validate_member (S:=GroupCoordinator) g m n).
Proof. unfold validate_member. throws. Qed.
#[local] Hint Resolve active_group_own validate_member_own : throws.
Lemma set_partitions_own order t n : throws own_error (set_topic_partitions order t n).
Proof.
  unfold set_topic_partitions, reload_group, put_group. throws. apply throws_lift. intros e. apply load_offsets_own.
Qed.
Lemma execute_own world request : throws own_error (execute_group_request world request).
Proof.
  destruct request; try by intros s e s'.
  - cbn [execute_group_request]. unfold join, validate_id, put_group. throws. apply throws_lift. intros e. apply load_offsets_own.
  - cbn [execute_group_request]. unfold heartbeat, put_group. throws.
  - cbn [execute_group_request]. unfold leave, put_group. throws.
  - cbn [execute_group_request]. unfold commit, put_group. throws.
  - cbn [execute_group_request]. unfold committed_offset, validate_id. throws. apply throws_lift. intros e. apply read_offset_own.
  - cbn [execute_group_request]. unfold authorize_fetch. throws.
Qed.

(* ------------------------------------------------------------------ *)
(** ** The handle                                                       *)
(* ------------------------------------------------------------------ *)

(** The text of the error of a task that panicked. *)
Class JoinMessage := join_message : string.
Definition GroupHandle : Type := Mutex GroupCoordinator.

Section handle.
Context `{!OsMessage} `{!JoinMessage}.

(** [GroupHandle::open] *)
Definition open_handle (tree : Tree) (partition_count session_timeout : Z) : outcome GroupError GroupHandle :=
  obind (open_coordinator tree partition_count session_timeout) (fun c => Ok (new_mutex c)).
(** [GroupHandle::execute] *)
Definition handle_execute (world : World) (request : Request) (h : GroupHandle) : Response * GroupHandle :=
  match locked CoordinatorPoisoned (execute_group_request world request) h with
  | (Ok response, h) => (response, h)
  | (Err e, h) => (PError (group_text e), h)
  | (Panic, h) => (PError ("group coordinator task failed: " +:+ join_message), h)
  end.
(** [GroupHandle::snapshot] *)
Definition handle_snapshot (h : GroupHandle) : outcome ConnectionError (list GroupSnapshot) * GroupHandle :=
  match locked CoordinatorPoisoned (fun c => (Ok (snapshot c), c)) h with
  | (Ok snapshots, h) => (Ok snapshots, h)
  | (_, h) => (Err StorageUnavailable, h)
  end.
(** [GroupHandle::set_topic_partitions]; here a panic is the caller's. *)
Definition handle_set_topic_partitions (order : list (string * string)) (topic : string) (partitions : Z)
  : SM GroupHandle GroupError unit :=
  locked CoordinatorPoisoned (set_topic_partitions order topic partitions).

(** A turn of the session sweeper: the warning that is logged. *)
Definition sweep (order : list (string * string)) (now : Z) (h : GroupHandle) : option string * GroupHandle :=
  match locked CoordinatorPoisoned (expire_sessions order now) h with
  | (Ok _, h) => (None, h)
  | (Err _, h) => (Some "consumer group session sweep failed", h)
  | (Panic, h) => (Some "consumer group session sweep task failed", h)
  end.
(** What a turn meets: whether the coordinator still has an owner, what others did
    to it since the last turn, the order of the hash map, and the time. *)
Record SweepTick := {
  st_owned : bool;
  st_meanwhile : GroupHandle -> GroupHandle;
  st_order : list (string * string);
  st_now : Z
}.
(** [start_group_session_sweeper]: [true] when its loop has ended. *)
Fixpoint start_group_session_sweeper (ticks : list SweepTick) (h : GroupHandle) : bool * list string * GroupHandle :=
  match ticks with
  | [] => (false, [], h)
  | tick :: ticks =>
      if st_owned tick then
        let '(warning, h) := sweep (st_order tick) (st_now tick) (st_meanwhile tick h) in
        let '(ended, warnings, h) := start_group_session_sweeper ticks h in
        (ended, option_list warning ++ warnings, h)
      else (true, [], st_meanwhile tick h)
  end.

(* ------------------------------------------------------------------ *)
(** ** Calls from many tasks                                            *)
(* ------------------------------------------------------------------ *)

(** The calls of all connections and tasks, in the order in which they get the lock. *)
Inductive GroupCall :=
| Execute (world : World) (request : Request)
| TakeSnapshot
| SetPartitions (order : list (string * string)) (topic : string) (partitions : Z)
| Sweep (order : list (string * string)) (now : Z).
Inductive GroupReply :=
| Responded (r : Response)
| Snapshots (o : outcome ConnectionError (list GroupSnapshot))
| PartitionsSet (o : outcome GroupError unit)
| Swept (warning : option string).
Definition call_typed (call : GroupCall) : Prop :=
  match call with
  | Execute _ request => is_group request = true /\ wf_request request
  | SetPartitions _ _ n => is_u32 n
  | _ => True
  end.
Definition call_handle (call : GroupCall) (h : GroupHandle) : GroupReply * GroupHandle :=
  match call with
  | Execute world request => let '(r, h) := handle_execute world request h in (Responded r, h)
  | TakeSnapshot => let '(o, h) := handle_snapshot h in (Snapshots o, h)
  | SetPartitions order topic n => let '(o, h) := handle_set_topic_partitions order topic n h in (PartitionsSet o, h)
  | Sweep order now => let '(w, h) := sweep order now h in (Swept w, h)
  end.
Fixpoint call_all (calls : list GroupCall) (h : GroupHandle) : list GroupReply * GroupHandle :=
  match calls with
  | [] => ([], h)
  | call :: calls =>
      let '(reply, h) := call_handle call h in
      let '(replies, h) := call_all calls h in (reply :: replies, h)
  end.

(** What a call promises: the operation of the coordinator it stands for, and
    its result or its own error. *)
Inductive promised (c : GroupCoordinator) : GroupCall -> GroupReply -> GroupCoordinator -> Prop :=
| promised_response world request r c' :
    execute_group_request world request c = (Ok r, c') -> promised c (Execute world request) (Responded r) c'
| promised_refusal world request e c' :
    execute_group_request world request c = (Err e, c') -> e <> CoordinatorPoisoned ->
    promised c (Execute world request) (Responded (PError (group_text e))) c'
| promised_snapshot : promised c TakeSnapshot (Snapshots (Ok (snapshot c))) c
| promised_partitions order topic n c' :
    set_topic_partitions order topic n c = (Ok tt, c') ->
    promised c (SetPartitions order topic n) (PartitionsSet (Ok tt)) c'
| promised_sweep order now c' :
    expire_sessions order now c = (Ok tt, c') -> promised c (Sweep order now) (Swept None) c'
| promised_overflow order now c' :
    expire_sessions order now c = (Err GenerationOverflow, c') ->
    promised c (Sweep order now) (Swept (Some "consumer group session sweep failed")) c'.
Inductive all_promised : GroupCoordinator -> list GroupCall -> list GroupReply -> GroupCoordinator -> Prop :=
| all_promised_nil c : all_promised c [] [] c
| all_promised_cons c call reply c1 calls replies c2 :
    promised c call reply c1 -> all_promised c1 calls replies c2 ->
    all_promised c (call :: calls) (reply :: replies) c2.

(** One call. *)
Lemma call_promised call c :
  coord_ok c -> call_typed call ->
  exists reply c', call_handle call (new_mutex c) = (reply, new_mutex c') /\ promised c call reply c' /\ coord_ok c'.
Proof.
  intros Hc Ht. destruct call as [world request| |order topic n|order now]; cbn [call_typed call_handle] in *.
  - destruct Ht as [Hg Hwf]. unfold handle_execute.
    destruct (locked_run CoordinatorPoisoned _ _ _ _ (execute_moves world request c Hg Hwf Hc)) as ([r|e|] & c' & Hrun & Hl & Hm);
      [..|done]; rewrite Hl; eexists _, c'; (split; [done|]); (split; [|apply Hm]); [by constructor|].
    econstructor; [exact Hrun|]. by eapply execute_own.
  - exists (Snapshots (Ok (snapshot c))), c. split; [done|]. split; [constructor|done].
  - destruct (set_partitions_run c order topic n Hc Ht) as (c' & Hrun & Hk & _).
    exists (PartitionsSet (Ok tt)), c'. unfold handle_set_topic_partitions, locked, new_mutex. cbn [mx_poisoned mx_value].
    rewrite Hrun. split; [done|]. split; [by constructor|apply Hk].
  - unfold sweep. destruct (locked_run CoordinatorPoisoned _ _ _ _ (expire_keeps c order now Hc)) as ([[]|e|] & c' & Hrun & Hl & Hk);
      [..|done]; rewrite Hl; eexists _, c'; (split; [done|]); (split; [|apply Hk]); [by constructor|].
    pose proof (expire_sessions_throws order now _ _ _ Hrun) as ->. by constructor.
Qed.

(** C37 The coordinator behind its lock is the coordinator: however the calls of
    connections and tasks interleave (group requests, snapshots for the metrics,
    new partition counts and turns of the session sweeper, at any times), they
    are served one at a time, each gets the result or the own error of the
    operation it stands for, and the lock is never poisoned: no call is answered
    that it is, or that its task failed. *)
Theorem handle_serves calls c :
  coord_ok c -> Forall call_typed calls ->
  exists replies c', call_all calls (new_mutex c) = (replies, new_mutex c') /\
    all_promised c calls replies c' /\ coord_ok c'.
Proof.
  intros Hc HF. revert c Hc. induction HF as [|call calls Ht _ IH]; intros c Hc.
  { exists [], c. split; [done|]. split; [constructor|done]. }
  destruct (call_promised call c Hc Ht) as (reply & c1 & Hcall & Hp & Hc1).
  destruct (IH c1 Hc1) as (replies & c2 & Hall & Hps & Hc2).
  exists (reply :: replies), c2. cbn [call_all]. rewrite Hcall, Hall. split; [done|]. split; [by econstructor|done].
Qed.

(* ------------------------------------------------------------------ *)
(** ** The end of sessions                                              *)
(* ------------------------------------------------------------------ *)

(** What a turn does to a group: its members whose session has ended are gone,
    and if there were any the partitions are dealt out again. *)
Definition swept (now timeout count : Z) (g g' : ConsumerGroup) : Prop :=
  let kept := filter (fun kv => now - kv.2 <= timeout) (cg_members g) in
  cg_members g' = kept /\ cg_committed_offsets g' = cg_committed_offsets g /\
  if bool_decide (kept = cg_members g) then cg_generation g' = cg_generation g /\ cg_assignments g' = cg_assignments g
  else cg_generation g' = cg_generation g + 1 /\
       forall m, default [] (cg_assignments g' !! m) =
                 (if bool_decide (kept = ∅) then [] else owned (member_names g') count m).

Lemma expire_flag now timeout g :
  expire_members now timeout g =
  (set_members g (filter (fun kv => now - kv.2 <= timeout) (cg_members g)),
   negb (bool_decide (filter (fun kv => now - kv.2 <= timeout) (cg_members g) = cg_members g))).
Proof.
  unfold expire_members. f_equal. f_equal. apply bool_decide_ext. set (kept := filter _ _). split; [|by intros ->].
  intros Hs. destruct (decide (kept = cg_members g)) as [|Hne]; [done|exfalso].
  assert (kept ⊂ cg_members g) as Hlt%map_subset_size; [|lia].
  split; [apply map_filter_subseteq|]. intros Hsub. apply Hne.
  apply (anti_symm (⊆)); [apply map_filter_subseteq|done].
Qed.
(** The body of the loop. *)
Lemma expire_group_run key now c c' g :
  gc_groups c !! key = Some g -> expire_sessions [key] now c = (Ok tt, c') ->
  exists g', c' = set_groups c (<[key := g']> (gc_groups c)) /\
    swept now (gc_session_timeout c) (partition_count c key.2) g g'.
Proof.
  intros Hg. unfold expire_sessions. cbn [for_each]. intros ([] & c1 & Hbody & [_ ->]%ret_inv)%bind_inv.
  apply bind_inv in Hbody as (c0 & c2 & Hget & Hbody). injection Hget as <- <-.
  rewrite Hg, expire_flag in Hbody. cbn [fst snd] in Hbody. unfold swept. set (kept := filter _ _) in *.
  apply bind_inv in Hbody as ([] & c3 & Hput & Hbody). injection Hput as <-.
  case_bool_decide as Hk; cbn [negb] in Hbody.
  - apply ret_inv in Hbody as [_ Hc1]. exists (set_members g kept). split; [by subst|]. by split_and!.
  - apply bind_inv in Hbody as (g2 & c4 & Hreb & [_ Hc1]%ret_inv). unfold rebalance_group in Hreb.
    apply bind_inv in Hreb as (g3 & c5 & Hl & Hput). injection Hl as Hl <-.
    apply bind_inv in Hput as ([] & c6 & Hput & [_ Hc4]%ret_inv). injection Hput as Hc6.
    pose proof (rebalance_spec (set_members g kept) (partition_count c key.2)) as Hs.
    destruct (_ <=? _); [|congruence]. destruct Hs as (g' & Hr & Hgen & Hm & Hco & He & Ha).
    assert (g' = g3) as -> by congruence. exists g3. split.
    { subst. unfold set_groups. cbn. by rewrite insert_insert_eq. }
    split_and!; [done..|]. intros m. case_bool_decide as Hemp; [by rewrite He|].
    rewrite Ha by done. unfold member_names. by rewrite Hm.
Qed.
Lemma expire_cons key order now c c' :
  expire_sessions (key :: order) now c = (Ok tt, c') ->
  exists c1, expire_sessions [key] now c = (Ok tt, c1) /\ expire_sessions order now c1 = (Ok tt, c').
Proof.
  unfold expire_sessions. cbn [for_each]. intros ([] & c1 & Hbody & Hrest)%bind_inv. exists c1. split; [|done].
  by erewrite bind_Ok by exact Hbody.
Qed.

(** A turn of the session sweeper that logs no warning ends every session that
    is older than the timeout, and no other: in every group the members whose
    last heartbeat is too long ago are gone; a group that lost none keeps its
    generation and assignments, and one that lost some gets the next generation,
    its partitions dealt out among those who are left. *)
Theorem sweep_ends_sessions order now c h :
  NoDup order -> (forall key, is_Some (gc_groups c !! key) -> key ∈ order) ->
  sweep order now (new_mutex c) = (None, h) ->
  forall key g, gc_groups c !! key = Some g ->
    exists g', gc_groups (mx_value h) !! key = Some g' /\
      swept now (gc_session_timeout c) (partition_count c key.2) g g'.
Proof.
  intros Hnd Hall Hsweep.
  assert (expire_sessions order now c = (Ok tt, mx_value h)) as Hrun.
  { unfold sweep, locked, new_mutex in Hsweep. cbn [mx_poisoned mx_value] in Hsweep.
    destruct (expire_sessions order now c) as [[[]|e|] c1]; try done. by injection Hsweep as <-. }
  clear Hsweep. generalize (mx_value h) Hrun. clear h Hrun. intros c' Hrun.
  assert (forall key g, gc_groups c !! key = Some g -> exists g', gc_groups c' !! key = Some g' /\
    if decide (key ∈ order) then swept now (gc_session_timeout c) (partition_count c key.2) g g' else g' = g) as Hkeys.
  2: { intros key g Hg. destruct (Hkeys key g Hg) as (g' & Hg' & Hs). rewrite decide_True in Hs by eauto. eauto. }
  clear Hall. revert c Hrun. induction Hnd as [|k order Hk Hnd IH]; intros c Hrun key g Hg.
  { injection Hrun as <-. exists g. split; [done|]. by rewrite decide_False by apply not_elem_of_nil. }
  apply expire_cons in Hrun as (c1 & Hone & Hrest). specialize (IH c1 Hrest).
  destruct (gc_groups c !! k) as [gk|] eqn:Hgk.
  - destruct (expire_group_run k now c c1 gk Hgk Hone) as (gk' & -> & Hsw). cbn in IH.
    destruct (decide (key = k)) as [->|Hne].
    + destruct (IH k gk') as (g' & Hg' & Hs); [by apply lookup_insert_eq|]. rewrite decide_False in Hs by done. subst g'.
      exists gk'. split; [done|]. rewrite decide_True by by left. by simplify_eq.
    + destruct (IH key g) as (g' & Hg' & Hs); [by rewrite lookup_insert_ne|]. exists g'. split; [done|].
      rewrite (decide_ext (key ∈ k :: order) (key ∈ order)) by (rewrite elem_of_cons; tauto). exact Hs.
  - assert (c1 = c) as ->.
    { unfold expire_sessions in Hone. cbn [for_each] in Hone. unfold bind, get in Hone. cbn in Hone. rewrite Hgk in Hone.
      by injection Hone as <-. }
    destruct (IH key g Hg) as (g' & Hg' & Hs). exists g'. split; [done|].
    assert (key <> k) by congruence.
    rewrite (decide_ext (key ∈ k :: order) (key ∈ order)) by (rewrite elem_of_cons; tauto). exact Hs.
Qed.
End handle.

#[local] Instance sample_message : OsMessage := "no space left on device".
#[local] Instance sample_join : JoinMessage := "panicked".
Definition world_at (now : Z) : World :=
  {| wd_ambient := {| am_clock := fun _ => 0; am_reached := fun _ _ => false; am_order := [] |}; wd_now := now; wd_group_order := [];
     wd_waits := []; wd_sends := 0 |}.
Definition sample_calls : list GroupCall :=
  [Execute (world_at 1) (RJoinGroup {| gm_group := "workers"; gm_topic := "orders"; gm_member := "a" |});
   SetPartitions [("workers", "orders")] "orders" 4;
   Sweep [("workers", "orders")] 20; TakeSnapshot].
Lemma handle_serves_witness :
  exists replies c', call_all sample_calls (new_mutex fresh_coordinator) = (replies, new_mutex c') /\
    all_promised fresh_coordinator sample_calls replies c' /\ coord_ok c'.
Proof.
  apply (handle_serves sample_calls fresh_coordinator); [exact fresh_ok|].
  repeat constructor; vm_compute; try discriminate; try done.
Defined.
Lemma sweep_ends_sessions_witness :
  let c := joined_coordinator in
  forall key g, gc_groups c !! key = Some g ->
    exists g', gc_groups (mx_value (snd (sweep [("workers", "orders")] 12 (new_mutex c)))) !! key = Some g' /\
      swept 12 (gc_session_timeout c) (partition_count c key.2) g g'.
Proof.
  intros c. apply (sweep_ends_sessions [("workers", "orders")] 12 c).
  - apply NoDup_singleton.
  - intros [g t] [x Hx]. apply list_elem_of_singleton.
    assert (gc_groups c = {[("workers", "orders") := default (new_group ∅) (gc_groups c !! ("workers", "orders"))]}) as Hm
      by (vm_compute; reflexivity).
    rewrite Hm in Hx. by apply lookup_singleton_Some in Hx as [<- _].
  - vm_compute. reflexivity.
Defined.
