(* ===== verification/Service.v ===== *)
(** * Service: the broker as a state machine.

    [broker_step] has a constructor for everything that changes a broker: a
    client's request, a record from a leader, spawned replication, the follower's
    synchronisation and recovery, the leader monitor, the session sweeper and
    retention.  Handlers also interleave with each other between the calls that
    they make: a step can be a single storage command, a single call of the
    registry or a single call of the coordinator, so that the steps cover every
    schedule of the parts of concurrent handlers. *)

From stdpp Require Import base numbers list strings gmap sorting.
From Stdlib Require Import ZArith Lia.
From S2P Require Import Prelude Text Files Runs Protocol ProtocolFacts ResponseTrip Codec Record RecordFacts Log LogRep LogFacts LogAppend LogOpen LogShrink Storage Groups GroupFacts GroupSteps Leadership LeadershipFacts Worker WorkerSpec WorkerFacts Whole Topics Broker Replication Cluster Requests Serving HandlerFacts RequestFacts.

Section steps.
Context `{!Crc32}.
Context (cc : ClusterConfig).
Abbreviation s := (cc_settings cc).

Inductive broker_step : Broker -> Broker -> Prop :=
| serves world {Net : Type} (deliver : Z -> ReplicateRecord -> SM Net ConnectionError ReplicateAck)
    query request net b :
    waits_ok cc (wd_waits world) -> (forall id r n, fst (deliver id r n) <> Panic) ->
    wf_request request -> roomy (request_demand request) (bk_worker b) ->
    broker_step b (fst (snd (process_request cc world deliver query request (b, net))))
| receives r b :
    replica_typed r -> roomy 1 (bk_worker b) -> broker_step b (snd (handle_replica r b))
| replicates {Net : Type} (deliver : Z -> ReplicateRecord -> SM Net ConnectionError ReplicateAck)
    fuel task net b :
    (forall id r n, fst (deliver id r n) <> Panic) -> Forall (fun r => is_u32 r.1) (tk_records task) ->
    broker_step b (fst (snd (replicate_records cc deliver fuel (tk_topic task) (tk_records task) AckLeader (b, net))))
| synchronises topics b :
    (forall ts, topics = Ok ts -> Forall wf_topic ts) -> topics <> Panic ->
    broker_step b (snd (sync_controller_metadata cc topics b))
| follows fuel fetch snapshot m b :
    is_u32 (ps_partition snapshot) -> 0 <= m -> (forall id t p, answers_ok m (fetch id t p)) ->
    roomy (Z.of_nat fuel * m) (bk_worker b) -> broker_step b (snd (follow_partition cc fuel fetch snapshot b))
| monitors {Net : Type} (query : Z -> string -> Z -> Net -> option Z) failures net b :
    broker_step b (fst (fst (snd (monitor_partition_leaders cc query (b, net, failures)))))
| sweeps order now b : broker_step b (snd (coordinator_call (expire_sessions order now) b))
| retains env b :
    broker_step b (snd (storage (worker_apply_retention s (am_reached env) (am_order env)) b))
| storage_part env c b :
    command_typed c -> roomy (demand c) (bk_worker b) -> broker_step b (snd (storage (run_command s env c) b))
| registry_part op b : registry_typed op -> broker_step b (snd (leadership (run_registry op) b))
| groups_part op now b : op_typed op -> broker_step b (snd (coordinator_call (run_op op now) b)).
Abbreviation broker_steps := (rtc broker_step).

Context `{!Crc32Ok}.
Context (Hs : settings_ok s) (Hcl : cluster_ok (cc_metadata cc)).

Lemma goes_snd {S A} (view : S -> Broker) (m : SM S ConnectionError A) P st :
  goes cc view m P st -> progress cc (view st) (view (snd (m st))) /\ fst (m st) <> Panic.
Proof. unfold goes, wp. destruct (m st) as [[a|e|] st']; [|done|done]. by intros [? _]. Qed.

Lemma broker_step_progress b b' : broker_step b b' -> broker_ok cc b -> progress cc b b'.
Proof.
  intros Hst Hok. destruct Hst as [world Net deliver query request net b Hw Hd Hwf Hn|r b Hr Hn
    |Net deliver fuel task net b Hd HF|topics b Hts Hp|fuel fetch snapshot m b Hp Hm Ha Hn
    |Net query failures net b|order now b|env b|env c b Hc Hn|op b Hop|op now b Hop].
  - by apply (goes_snd fst _ anything (b, net)), process_request_goes.
  - by apply (goes_snd own _ anything), handle_replica_goes.
  - apply (goes_snd fst _ anything (b, net)). unfold replicate_records.
    eapply goes_mono; [apply (goes_for_each cc fst _ _ (fun _ => True)); [done|done|]|done].
    intros r st Hin Hok1 _. eapply goes_mono; [apply replicate_goes; [done..| |done]|done].
    by apply (proj1 (Forall_forall _ _) HF).
  - by apply (goes_snd own _ anything), sync_goes.
  - apply (goes_snd own _ anything). unfold follow_partition. cbv zeta. apply (attempt_goes cc _ anything).
    eapply goes_bind; [by apply partition_goes|]. intros cur b1 _ [-> _].
    destruct (List.find _ _) as [leader|]; [|by apply goes_ret]. destruct (_ || _); [by apply goes_ret|].
    apply (lasts_goes cc 0). apply (recover_lasts cc Hs fuel _ _ _ _ _ m 0); [done|done|apply Ha|done| |done].
    by rewrite Z.add_0_r.
  - by apply (goes_snd monitored _ anything (b, net, failures)), monitor_goes_on.
  - pose proof (coordinator_goes cc (expire_sessions order now) (fun _ => True) b Hok) as Hc.
    destruct (coordinator_call _ b) as [o b1]. destruct Hc as (Hp & _); [|done].
    eapply wp_mono; [apply expire_keeps, Hok| |]; intros ? c' ?; (split; [by apply moved|done]).
  - apply (goes_snd own _ anything).
    apply (storage_goes cc Hs _ (fun _ => UnitReply) ApplyRetention env); [done|done|apply (roomy_zero cc), Hok|done|done].
  - apply (goes_snd own _ anything).
    apply (storage_goes cc Hs (run_command s env c) (fun v => v) c env); [|done..].
    intros w. unfold bind, ret. by destruct (run_command s env c w) as [[] ?].
  - by apply (goes_snd own _ anything), registry_op_goes.
  - pose proof (coordinator_goes cc (run_op op now) (fun _ => True) b Hok) as Hco.
    destruct (coordinator_call _ b) as [o b1]. destruct Hco as (Hp & _); [|done].
    destruct (run_op_moves op now (bk_groups b) ltac:(apply Hok) Hop) as [Hm Hnp].
    unfold wp. by destruct (run_op op now (bk_groups b)) as [[] ?].
Qed.

Lemma broker_steps_progress b b' : broker_steps b b' -> broker_ok cc b -> progress cc b b'.
Proof.
  induction 1 as [b|b b1 b2 Hstep _ IH]; intros Hok; [by apply progress_refl|].
  eapply progress_trans; [by apply broker_step_progress|]. apply IH. by eapply broker_step_progress.
Qed.
End steps.

(* ------------------------------------------------------------------ *)
(** ** Properties                                                       *)
(* ------------------------------------------------------------------ *)

(** C3 The broker as a whole: over any sequence of requests, replication in both
    directions, synchronisation, recovery, leader monitoring, session expiry and
    retention, interleaved between any of the calls they make, the storage, the leadership registry and the group coordinator
    keep their invariants; no topic disappears, no partition's leadership goes
    back to an older epoch or changes its leader within an epoch, group generations only grow; and whatever
    well-formed request comes next, with room for its records, is handled without
    a panic. *)
Theorem broker_invariant `{!Crc32} `{!Crc32Ok} cc b b' :
  settings_ok (cc_settings cc) -> cluster_ok (cc_metadata cc) -> broker_ok cc b ->
  rtc (broker_step cc) b b' ->
  broker_ok cc b' /\ topics_kept (bk_worker b) (bk_worker b') /\
  advances (bk_leadership b) (bk_leadership b') /\
  GroupSteps.evolves (bk_groups b) (bk_groups b') /\
  (forall world {Net} (deliver : Z -> ReplicateRecord -> SM Net ConnectionError ReplicateAck) query request (net : Net),
     waits_ok cc (wd_waits world) -> (forall id r n, fst (deliver id r n) <> Panic) ->
     wf_request request -> roomy (request_demand request) (bk_worker b') ->
     fst (process_request cc world deliver query request (b', net)) <> Panic).
Proof.
  intros Hs Hcl Hok Hst. destruct (broker_steps_progress cc Hs Hcl b b' Hst Hok) as (Hok' & Ht & Ha & Hg).
  split_and!; [done..|]. intros world Net deliver query request net Hw Hd Hwf Hn.
  by eapply (goes_snd cc fst), process_request_goes.
Qed.

#[local] Existing Instance length_crc.
#[local] Existing Instance length_crc_ok.
Lemma single_broker_ok : broker_ok single_config single_broker /\ cluster_ok (cc_metadata single_config).
Proof.
  assert (cluster_ok (cc_metadata single_config)) as Hcl
    by (split; [discriminate|]; repeat constructor; vm_compute; discriminate).
  split; [|exact Hcl]. split; [apply fresh_worker_ok|]. split; [split; [exact Hcl|split; [done|reflexivity]]|].
  split; [reflexivity|]. split; [split; [split; vm_compute; discriminate|done]|]. split; [|done].
  intros g ts Hg. discriminate Hg.
Qed.
Definition create_payments : Request := RCreateTopic {| ct_topic := "payments"; ct_partitions := 3 |}.
Definition with_payments : Broker :=
  fst (snd (process_request single_config sample_world no_network controller_query create_payments (single_broker, tt))).

Lemma broker_invariant_witness :
  broker_ok single_config with_payments /\ topics_kept fresh_worker (bk_worker with_payments) /\
  advances (bk_leadership single_broker) (bk_leadership with_payments) /\
  GroupSteps.evolves (bk_groups single_broker) (bk_groups with_payments) /\
  (forall world {Net} (deliver : Z -> ReplicateRecord -> SM Net ConnectionError ReplicateAck) query request (net : Net),
     waits_ok single_config (wd_waits world) -> (forall id r n, fst (deliver id r n) <> Panic) ->
     wf_request request -> roomy (request_demand request) (bk_worker with_payments) ->
     fst (process_request single_config world deliver query request (with_payments, net)) <> Panic).
Proof.
  apply (broker_invariant single_config single_broker with_payments).
  - apply sample_settings_ok.
  - apply single_broker_ok.
  - apply single_broker_ok.
  - apply rtc_once. unfold with_payments.
    refine (serves single_config sample_world no_network controller_query create_payments tt single_broker _ _ _ _).
    + constructor.
    + discriminate.
    + split; [vm_compute; reflexivity|split; vm_compute; discriminate].
    + by apply roomy_by_check.
Defined.
