(* ===== verification/Startup.v ===== *)
(** * Startup: [run] of [crates/broker/src/lib.rs], up to the accept loop.

    What a broker finds on its disk, the settings a configuration gives, the
    recovery of the parts, the registration of the recovered topics, and the
    first synchronisation with the controller. *)

From stdpp Require Import base numbers list strings gmap sorting.
From Stdlib Require Import ZArith Lia.
From S2P Require Import Prelude Text Files Protocol Record Log Groups Leadership Worker Addr Config Broker Requests.

(** The data directory: the topics, the files next to them, and the committed
    offsets of the groups. *)
Record Disk := { dk_data : DataDir; dk_files : Dir; dk_offsets : Tree }.
Definition set_dk_data (d : Disk) (data : DataDir) : Disk :=
  {| dk_data := data; dk_files := dk_files d; dk_offsets := dk_offsets d |}.
Definition disk_of (b : Broker) : Disk :=
  {| dk_data := wk_data (bk_worker b); dk_files := lr_dir (bk_leadership b);
     dk_offsets := gc_offsets_dir (bk_groups b) |}.

Inductive BrokerError :=
| BConfig (e : ConfigError)
| Bind (address : SocketAddr)
| ReplicationAddress
| BStorage (e : StorageError)
| BGroup (e : GroupError)
| BLeadership (e : LeadershipError)
| InvalidPartitionCount
| InvalidStorageQueueConfig
| BStorageUnavailable
| BInvalidClusterMetadata
| ControllerUnavailable.

(** What an attempt to synchronise comes to: an answer of the controller in time,
    or a synchronisation dropped after some topics, perhaps with the creation of
    the next one on its way to the storage worker. *)
Inductive SyncAttempt :=
| Answered (topics : outcome ConnectionError (list TopicMetadata))
| Dropped (topics : list TopicMetadata) (next : option TopicMetadata).
Record Surroundings := {
  su_bind : SocketAddr -> bool;
  su_group_order : list (string * string);
  su_attempts : nat -> SyncAttempt
}.

(* ------------------------------------------------------------------ *)
(** ** Settings                                                         *)
(* ------------------------------------------------------------------ *)

Definition cluster_node_of (n : ClusterNodeConfig) : ClusterNode :=
  {| cn_id := nc_id n; cn_host := nc_host n; cn_port := nc_port n; cn_admin_port := nc_admin_port n;
     cn_replication_port := nc_replication_port n |}.
Definition cluster_metadata (c : Config) : outcome ConfigError ClusterMetadata :=
  obind (cluster_nodes c) (fun ns =>
  Ok {| cm_responding_broker_id := cg_broker_id (cf_cluster c); cm_nodes := cluster_node_of <$> ns |}).
Definition when_positive (v : Z) : option Z := if 0 <? v then Some v else None.
Definition storage_settings (b : BrokerConfig) : StorageSettings :=
  {| ss_max_segment_bytes := bc_max_segment_bytes b;
     ss_index_interval_bytes := bc_index_interval_bytes b;
     ss_default_partition_count := bc_default_partition_count b;
     ss_retention_bytes := when_positive (bc_retention_bytes b);
     ss_retention_age := when_positive (bc_retention_ms b);
     ss_auto_create_topics := bc_auto_create_topics b |}.
Definition cluster_runtime (c : Config) (metadata : ClusterMetadata) : Broker.ClusterConfig :=
  {| cc_metadata := metadata;
     cc_replication_factor := cg_replication_factor (cf_cluster c);
     cc_min_in_sync_replicas := cg_min_in_sync_replicas (cf_cluster c);
     cc_settings := storage_settings (cf_broker c) |}.

Section startup.
Context `{!Crc32}.

(** [start_storage_worker]: the files are recovered in place. *)
Definition start_storage_worker (b : BrokerConfig) : SM Disk BrokerError Worker :=
  let settings := storage_settings b in
  reject_if (ss_default_partition_count settings =? 0) InvalidPartitionCount ;;;
  reject_if ((bc_storage_queue_capacity b =? 0) || (bc_storage_enqueue_timeout_ms b =? 0))
    InvalidStorageQueueConfig ;;;
  fun d =>
    let '(o, w) := recover_storage settings (dk_data d) in
    (omap_err BStorage (obind o (fun _ => Ok w)), set_dk_data d (wk_data w)).

(* ------------------------------------------------------------------ *)
(** ** The recovered topics                                             *)
(* ------------------------------------------------------------------ *)

Section prepare.
Context (cc : Broker.ClusterConfig) (env : Surroundings).

Abbreviation boot A := (SM Broker BrokerError A).
(** The error of a part, as startup reports it. *)
Definition boot_error (e : ConnectionError) : BrokerError :=
  match e with
  | CLeadership e => BLeadership e
  | _ => BStorageUnavailable
  end.
Definition groups_set (topic : string) (partitions : Z) : boot unit := fun b =>
  let '(o, b) := coordinator_call (set_topic_partitions (su_group_order env) topic partitions) b in
  (omap_err BGroup o, b).
Definition migrate_topic_high_watermarks (topic : TopicMetadata) : boot unit :=
  for_each (seqZ 0 (tm_partitions topic)) (fun partition =>
    local_end <- map_err boot_error (storage (partition_offset (tm_topic topic) partition)) ;;
    map_err boot_error (leadership (migrate_high_watermark (tm_topic topic) partition local_end))).
Definition register_topic (topic : TopicMetadata) : boot unit :=
  map_err boot_error (leadership (registry_ensure_topic (tm_topic topic) (tm_partitions topic))) ;;;
  migrate_topic_high_watermarks topic ;;;
  groups_set (tm_topic topic) (tm_partitions topic).
Definition register_topics : boot unit :=
  b <- get ;; for_each (storage_topic_metadata (wk_topics (bk_worker b))) register_topic.

(** Whether an attempt synchronised the broker. *)
Definition sync_attempt (a : SyncAttempt) : boot bool := fun b =>
  match a with
  | Answered topics =>
      match sync_controller_metadata cc topics b with
      | (Ok _, b) => (Ok true, b)
      | (Err _, b) => (Ok false, b)
      | (Panic, b) => (Panic, b)
      end
  | Dropped topics next =>
      match attempt (for_each topics (sync_topic cc) ;;;
                     match next with
                     | Some m => _m <- storage (create_topic (cc_settings cc) (tm_topic m) (tm_partitions m)) ;; ret tt
                     | None => ret tt
                     end) b with
      | (Panic, b) => (Panic, b)
      | (_, b) => (Ok false, b)
      end
  end.
Fixpoint sync_attempts (attempts : list SyncAttempt) : boot unit :=
  match attempts with
  | [] => throw ControllerUnavailable
  | a :: attempts =>
      synchronised <- sync_attempt a ;;
      if (synchronised : bool) then ret tt else sync_attempts attempts
  end.
Definition SYNC_ATTEMPTS : nat := 20.
Definition initial_controller_sync : boot unit :=
  if is_controller cc then ret tt else sync_attempts (su_attempts env <$> seq 0 SYNC_ATTEMPTS).
Definition prepare : boot unit := register_topics ;;; initial_controller_sync.
End prepare.

(* ------------------------------------------------------------------ *)
(** ** [run]                                                            *)
(* ------------------------------------------------------------------ *)

Definition bind_listener (env : Surroundings) (a : SocketAddr) : SM Disk BrokerError unit :=
  reject_if (negb (su_bind env a)) (Bind a).
Definition from_config {A} (o : outcome ConfigError A) : SM Disk BrokerError A := lift (omap_err BConfig o).
(** The parts of the broker, and then its disk is where they keep their files. *)
Definition run_parts (cc : Broker.ClusterConfig) (env : Surroundings) (b : Broker)
  : SM Disk BrokerError Broker := fun _ =>
  let '(o, b) := prepare cc env b in (obind o (fun _ => Ok b), disk_of b).
Definition run (env : Surroundings) (config : Config) : SM Disk BrokerError (Broker.ClusterConfig * Broker) :=
  address <- from_config (BrokerConfig_socket_addr (cf_broker config)) ;;
  metadata <- from_config (cluster_metadata config) ;;
  worker <- start_storage_worker (cf_broker config) ;;
  bind_listener env address ;;;
  admin_address <- from_config (AdminConfig_socket_addr (cf_admin config)) ;;
  bind_listener env admin_address ;;;
  local_node <- ok_or (List.find (fun n => cn_id n =? cm_responding_broker_id metadata) (cm_nodes metadata))
                  BInvalidClusterMetadata ;;
  replication_address <- ok_or (endpoint_addr (cn_host local_node) (cn_replication_port local_node))
                           ReplicationAddress ;;
  bind_listener env replication_address ;;;
  d <- get ;;
  registry <- lift (omap_err BLeadership (open_registry (dk_files d) metadata)) ;;
  coordinator <- lift (omap_err BGroup (open_coordinator (dk_offsets d)
                   (bc_default_partition_count (cf_broker config))
                   (bc_group_session_timeout_ms (cf_broker config)))) ;;
  let cc := cluster_runtime config metadata in
  b <- run_parts cc env {| bk_worker := worker; bk_leadership := registry; bk_groups := coordinator;
                           bk_outbox := []; bk_tasks := [] |} ;;
  ret (cc, b).
End startup.
