(* ===== verification/StartupFacts.v ===== *)
(** * StartupFacts: what starting keeps.

    [keeping] says that a computation takes no log away; [registered] what the
    registration of a recovered topic gives; [run] is followed on every branch. *)

From stdpp Require Import base numbers list strings gmap sorting.
From Stdlib Require Import ZArith Lia.
From S2P Require Import Prelude Text Files Runs Protocol ProtocolFacts ResponseTrip Record RecordFacts Log LogRep LogFacts LogAppend LogOpen Groups GroupFacts GroupSteps Leadership LeadershipFacts Worker WorkerSpec WorkerFacts Whole WorkerOpen Topics Addr Config Broker Replication Requests HandlerFacts RequestFacts Startup.

(* ------------------------------------------------------------------ *)
(** ** What a synchronisation leaves alone                              *)
(* ------------------------------------------------------------------ *)

Section keeping.
Context {S E : Type} (R : S -> S -> Prop) `{!PreOrder R}.
Definition keeping {A} (m : SM S E A) : Prop := forall s, R s (snd (m s)).
Lemma keeping_bind {A B} (m : SM S E A) (k : A -> SM S E B) :
  keeping m -> (forall a, keeping (k a)) -> keeping (bind m k).
Proof.
  intros Hm Hk s. specialize (Hm s). unfold bind. destruct (m s) as [[a|e|] s']; [|done..].
  etransitivity; [exact Hm|apply Hk].
Qed.
Lemma keeping_pure {A} (o : outcome E A) : keeping (lift o).
Proof. intros s. reflexivity. Qed.
Lemma keeping_ret {A} (a : A) : keeping (ret a).
Proof. intros s. reflexivity. Qed.
Lemma keeping_get : keeping get.
Proof. intros s. reflexivity. Qed.
Lemma keeping_reject c e : keeping (reject_if c e).
Proof. destruct c; intros s; reflexivity. Qed.
Lemma keeping_modify f : (forall s, R s (f s)) -> keeping (modify f).
Proof. intros Hf s. apply Hf. Qed.
Lemma keeping_for_each {A} (xs : list A) body : (forall x, keeping (body x)) -> keeping (for_each xs body).
Proof. intros Hb. induction xs; [intros s; reflexivity|]. by apply keeping_bind. Qed.
End keeping.

(** Logs stay as they are, and so do the groups. *)
Definition logs_stay (w w' : Worker) : Prop := wk_logs w ⊆ wk_logs w'.
#[export] Instance logs_stay_preorder : PreOrder logs_stay.
Proof. split; [intros w; unfold logs_stay; reflexivity|]. intros w1 w2 w3 H1 H2. unfold logs_stay in *. by etransitivity. Qed.
Definition undisturbed (b b' : Broker) : Prop :=
  logs_stay (bk_worker b) (bk_worker b') /\ bk_groups b' = bk_groups b.
#[export] Instance undisturbed_preorder : PreOrder undisturbed.
Proof.
  split; [intros b; split; reflexivity|]. intros b1 b2 b3 [H1 E1] [H2 E2]. split; [by etransitivity|congruence].
Qed.

Section kept.
Context `{!Crc32}.

Lemma open_vacant_keeping s k : keeping logs_stay (open_vacant s k).
Proof.
  intros w. unfold open_vacant, bind, get. cbv beta iota. destruct (wk_logs w !! k) eqn:Hk; [reflexivity|].
  unfold open_log. destruct (open _ _ _ _) as [[l|e|] d]; [|unfold logs_stay; reflexivity..]. by apply insert_subseteq.
Qed.
Lemma create_topic_keeping s t n : keeping logs_stay (create_topic s t n).
Proof.
  apply (keeping_bind _); [apply (keeping_reject _)|]. intros _.
  apply (keeping_bind _); [apply (keeping_get _)|]. intros w.
  apply (keeping_bind _); [apply (keeping_reject _)|]. intros _.
  apply (keeping_bind _); [apply (keeping_for_each _); intros p; apply open_vacant_keeping|]. intros _.
  apply (keeping_bind _); [apply keeping_modify; intros w'; unfold logs_stay; reflexivity|]. intros _.
  apply (keeping_bind _); [apply keeping_modify; intros w'; unfold logs_stay; reflexivity|]. intros _. apply (keeping_ret _).
Qed.

Lemma storage_keeping {A} (m : SM Worker StorageError A) :
  keeping logs_stay m -> keeping undisturbed (storage m).
Proof. intros Hm b. specialize (Hm (bk_worker b)). unfold storage. by destruct (m (bk_worker b)). Qed.
Lemma leadership_keeping {A} (m : SM LeadershipRegistry LeadershipError A) : keeping undisturbed (leadership m).
Proof. intros b. unfold leadership. destruct (m (bk_leadership b)). split; [unfold logs_stay|]; reflexivity. Qed.

Context (cc : Broker.ClusterConfig).
Lemma create_keeping t n : keeping undisturbed (_m <- storage (create_topic (cc_settings cc) t n) ;; ret tt).
Proof. apply (keeping_bind _); [apply storage_keeping, create_topic_keeping|]. intros _. apply (keeping_ret _). Qed.
Lemma sync_topic_keeping m : keeping undisturbed (sync_topic cc m).
Proof.
  apply (keeping_bind _); [apply (keeping_get _)|]. intros b. apply (keeping_bind _).
  { case_bool_decide; [apply (keeping_ret _)|apply create_keeping]. }
  intros _. apply (keeping_bind _); [apply leadership_keeping|]. intros _. apply (keeping_for_each _). intros l.
  apply (keeping_bind _); [apply leadership_keeping|]. intros cur.
  destruct (_ || _); [apply leadership_keeping|apply (keeping_ret _)].
Qed.
Lemma sync_keeping topics : keeping undisturbed (sync_controller_metadata cc topics).
Proof.
  unfold sync_controller_metadata. destruct (nodes cc); [intros b; reflexivity|]. destruct (_ =? _); [apply (keeping_ret _)|].
  apply (keeping_bind _); [apply (keeping_pure _)|]. intros ts. apply (keeping_for_each _), sync_topic_keeping.
Qed.
End kept.

(* ------------------------------------------------------------------ *)
(** ** The recovered topics                                             *)
(* ------------------------------------------------------------------ *)

Section registration.
Context `{!Crc32} `{!Crc32Ok}.
Context (cc : Broker.ClusterConfig) (env : Surroundings).
Abbreviation s := (cc_settings cc).
Context (Hs : settings_ok s) (Hcl : cluster_ok (cc_metadata cc)).

(** What the registration of [ts] makes of a broker. *)
Record registered (ts : list (string * Z)) (b b' : Broker) : Prop := {
  rg_ok : broker_ok cc b';
  rg_worker : bk_worker b' = bk_worker b;
  rg_leads : advances (bk_leadership b) (bk_leadership b');
  rg_keeps : GroupSteps.keeps (bk_groups b) (bk_groups b');
  rg_same key l : lr_entries (bk_leadership b) !! key = Some l -> pl_high_watermark l <> U64_MAX ->
    lr_entries (bk_leadership b') !! key = Some l;
  rg_entries t n p : (t, n) ∈ ts -> 0 <= p < n -> is_Some (lr_entries (bk_leadership b') !! (t, p));
  rg_counts t n : (t, n) ∈ ts -> gc_topic_partition_counts (bk_groups b') !! t = Some n;
  rg_others t : t ∉ ts.*1 ->
    gc_topic_partition_counts (bk_groups b') !! t = gc_topic_partition_counts (bk_groups b) !! t /\
    forall g, gc_groups (bk_groups b') !! (g, t) = gc_groups (bk_groups b) !! (g, t);
  rg_offsets key g n : gc_groups (bk_groups b) !! key = Some g -> (key.2, n) ∈ ts -> key ∈ su_group_order env ->
    exists g', gc_groups (bk_groups b') !! key = Some g' /\ has_offsets (gc_offsets_dir (bk_groups b)) n key g'
}.
Lemma registered_nil b : broker_ok cc b -> registered [] b b.
Proof.
  intros Hok. split; try done; try (by intros *; rewrite elem_of_nil).
  apply GroupSteps.keeps_refl, Hok.
Qed.
Lemma registered_trans ts1 ts2 b1 b2 b3 :
  (forall t, t ∈ ts1.*1 -> t ∉ ts2.*1) -> registered ts1 b1 b2 -> registered ts2 b2 b3 ->
  registered (ts1 ++ ts2) b1 b3.
Proof.
  intros Hd [Hok Hw Hl Hk Hs1 He Hc Ho Hf] [Hok' Hw' Hl' Hk' Hs1' He' Hc' Ho' Hf'].
  assert (forall t n, (t, n) ∈ ts1 -> t ∉ ts2.*1) as Hd1.
  { intros t n Hin. apply Hd. apply list_elem_of_fmap. by exists (t, n). }
  split; try done.
  - congruence.
  - by etransitivity.
  - by eapply GroupSteps.keeps_trans.
  - intros key l ? ?. apply Hs1'; [by apply Hs1|done].
  - intros t n p Hin Hp. apply elem_of_app in Hin as [Hin|Hin]; [|by eapply He'].
    destruct (He _ _ _ Hin Hp) as [l Hlk]. destruct (proj2 Hl' _ _ Hlk) as (l' & ? & _). by exists l'.
  - intros t n Hin. apply elem_of_app in Hin as [Hin|Hin]; [|by apply Hc'].
    rewrite (proj1 (Ho' t (Hd1 _ _ Hin))). by apply Hc.
  - intros t Hni. rewrite fmap_app, not_elem_of_app in Hni. destruct Hni as [H1 H2].
    destruct (Ho t H1) as [E1 E2], (Ho' t H2) as [E1' E2']. split; [congruence|]. intros g. by rewrite E2', E2.
  - intros [gr t] g n Hg Hin Hord. cbn [snd] in Hin. apply elem_of_app in Hin as [Hin|Hin].
    + destruct (Hf _ _ _ Hg Hin Hord) as (g1 & Hg1 & Hh). exists g1. split; [|done].
      by rewrite (proj2 (Ho' t (Hd1 _ _ Hin))).
    + rewrite <- (proj2 Hk). destruct (proj2 (proj1 Hk) _ _ Hg) as (g1 & Hg1 & _). by apply (Hf' _ g1).
Qed.

(** Replacing the high watermarks of an older file. *)
Lemma migrate_run b a t n ps :
  broker_ok cc b -> represents s (bk_worker b) a -> aworker_ok s a -> aw_topics a !! t = Some n ->
  (forall p, p ∈ ps -> 0 <= p < n /\ is_Some (lr_entries (bk_leadership b) !! (t, p))) ->
  exists r, for_each ps (fun p =>
      local_end <- map_err boot_error (storage (partition_offset t p)) ;;
      map_err boot_error (leadership (migrate_high_watermark t p local_end))) b = (Ok tt, set_leadership b r) /\
    registry_ok r /\ advances (bk_leadership b) r /\
    forall key l, lr_entries (bk_leadership b) !! key = Some l -> pl_high_watermark l <> U64_MAX ->
      lr_entries r !! key = Some l.
Proof.
  intros Hok Hr Ha Ht. revert b Hok Hr. induction ps as [|p ps IH]; intros b Hok Hr Hps; cbn [for_each].
  { exists (bk_leadership b). destruct b. split_and!; try done; apply Hok. }
  destruct (Hps p) as [Hp [l Hl]]; [left|].
  assert (is_Some (aw_logs a !! (t, p))) as [lg Hlg] by (apply (ao_keys _ _ Ha); by exists n).
  assert (is_u64 (next (al_chunks lg))) as Hu64.
  { destruct (ao_logs _ _ Ha _ _ Hlg) as [(_ & Hlo & Hmx & _) _]. pose proof (clen_nonneg (flat (al_chunks lg))).
    split; [unfold next; lia|done]. }
  unfold bind at 1. unfold bind at 1. unfold map_err at 1.
  rewrite (storage_offset s b a t p lg Hr Hlg). cbn [omap_err].
  unfold map_err, leadership. pose proof Hok as (Hw & Hreg & Hcc & Hg).
  pose proof (run_registry_ok (OpMigrate t p (next (al_chunks lg))) _ Hreg Hu64) as Hop.
  pose proof (migrate_spec t p (next (al_chunks lg)) _ Hreg Hu64) as Hm. rewrite Hl in Hm. cbn [run_registry] in Hop.
  assert (exists r, migrate_high_watermark t p (next (al_chunks lg)) (bk_leadership b) = (Ok tt, r) /\
    forall key l, lr_entries (bk_leadership b) !! key = Some l -> pl_high_watermark l <> U64_MAX ->
      lr_entries r !! key = Some l) as (r & Hrun & Hsame).
  { destruct (_ =? _) eqn:Hmax; [|by exists (bk_leadership b)]. destruct Hm as (l' & Hrun & _). eexists.
    split; [exact Hrun|]. intros key l0 Hl0 Hne. cbn. rewrite lookup_insert_ne; [done|]. intros <-. rewrite Hl in Hl0. injection Hl0 as <-. lia. }
  rewrite Hrun in *. destruct Hop as (Hreg' & Had & _). cbn [omap_err].
  destruct (IH (set_leadership b r)) as (r' & Hrun' & Hreg'' & Had' & Hsame').
  - split; [done|]. split; [done|]. split; [|done]. cbn. by rewrite (proj1 Had).
  - done.
  - intros q Hq. destruct (Hps q) as [? [lq Hlq]]; [by right|]. split; [done|].
    destruct (proj2 Had _ _ Hlq) as (l' & ? & _). by exists l'.
  - exists r'. split; [exact Hrun'|]. split; [done|]. split; [by etransitivity|]. intros key l0 ? ?. apply Hsame'; [by apply Hsame|done].
Qed.

Lemma register_topic_run b t n :
  broker_ok cc b -> wk_topics (bk_worker b) !! t = Some n ->
  exists b', register_topic env (metadata_of t n) b = (Ok tt, b') /\ registered [(t, n)] b b'.
Proof.
  intros Hok Ht. pose proof Hok as ((a & Hr & Ha & Hkept) & Hreg & Hcc & Hg).
  rewrite (rp_topics _ _ _ Hr) in Ht. destruct (ao_topics _ _ Ha _ _ Ht) as [Hv%topic_text_valid Hn].
  assert (is_u32 n) as Hn32 by range.
  unfold register_topic, migrate_topic_high_watermarks. cbn [metadata_of tm_topic tm_partitions].
  destruct (registry_ensure_spec t n _ Hreg Hv Hn32) as (r1 & Hrun1 & Hcl1 & _ & _ & Hl1).
  pose proof (run_registry_ok (OpEnsure t n) _ Hreg (conj Hv Hn32)) as Hop. cbn [run_registry] in Hop.
  rewrite Hrun1 in Hop. destruct Hop as (Hreg1 & Had1 & _).
  unfold bind at 1, map_err at 1, leadership at 1. rewrite Hrun1. cbn [omap_err].
  set (b1 := set_leadership b r1).
  assert (broker_ok cc b1) as Hok1 by (split; [by exists a|]; split; [done|]; split; [cbn; congruence|done]).
  assert (forall p, 0 <= p < n -> is_Some (lr_entries r1 !! (t, p))) as Hentries.
  { intros p Hp. rewrite Hl1. destruct (lr_entries _ !! _); [done|]. rewrite decide_True; [done|].
    split; [done|]. cbn. apply elem_of_seqZ. lia. }
  destruct (migrate_run b1 a t n (seqZ 0 n) Hok1 Hr Ha Ht) as (r2 & Hrun2 & Hreg2 & Had2 & Hsame2).
  { intros p Hp%elem_of_seqZ. split; [lia|]. apply Hentries. lia. }
  rewrite (bind_Ok _ _ _ _ _ Hrun2). unfold groups_set, coordinator_call. cbn [set_leadership bk_groups b1].
  destruct (set_partitions_run (bk_groups b) (su_group_order env) t n Hg Hn32)
    as (c & Hrun3 & Hk & Hcnt & _ & Hother & Hload).
  rewrite Hrun3. eexists. split; [done|].
  assert (advances (bk_leadership b) r2) as Had by (etransitivity; [exact Had1|exact Had2]).
  assert (forall t' n', (t', n') ∈ [(t, n)] -> t' = t /\ n' = n) as Hin.
  { intros t' n' Hin%list_elem_of_singleton. by injection Hin as -> ->. }
  split; cbn [bk_worker bk_leadership bk_groups set_coordinator set_leadership b1].
  - split; [by exists a|]. split; [done|]. split; [|apply Hk]. cbn. by rewrite (proj1 Had).
  - done.
  - done.
  - done.
  - intros key l Hl Hne. apply Hsame2; [|done]. cbn. by rewrite Hl1, Hl.
  - intros t' n' p [-> ->]%Hin Hp. destruct (Hentries p Hp) as [l Hl].
    destruct (proj2 Had2 _ _ Hl) as (l' & ? & _). by exists l'.
  - intros t' n' [-> ->]%Hin. rewrite Hcnt. apply lookup_insert_eq.
  - intros t' Hni. cbn in Hni. apply not_elem_of_cons in Hni as [Hne _]. split.
    + rewrite Hcnt. by apply lookup_insert_ne.
    + intros g. by apply Hother.
  - intros key g n' Hgk [Heq ->]%Hin Hord. by apply (Hload key g).
Qed.

Lemma register_loop ts b :
  NoDup ts.*1 -> broker_ok cc b -> (forall t n, (t, n) ∈ ts -> wk_topics (bk_worker b) !! t = Some n) ->
  exists b', for_each ((fun x => metadata_of x.1 x.2) <$> ts) (register_topic env) b = (Ok tt, b') /\
    registered ts b b'.
Proof.
  revert b. induction ts as [|[t n] ts IH]; intros b Hnd Hok Hts; cbn [fmap list_fmap for_each].
  { exists b. split; [done|by apply registered_nil]. }
  apply NoDup_cons in Hnd as [Hni Hnd].
  destruct (register_topic_run b t n Hok) as (b1 & Hrun1 & H1); [apply Hts; left|].
  destruct (IH b1 Hnd) as (b2 & Hrun2 & H2).
  - apply H1.
  - intros t' n' Hin. rewrite (rg_worker _ _ _ H1). apply Hts. by right.
  - exists b2. split; [by erewrite bind_Ok by exact Hrun1|].
    apply (registered_trans [(t, n)] ts b b1 b2); [|done|done]. by intros t' ->%list_elem_of_singleton.
Qed.
Lemma register_topics_run b :
  broker_ok cc b ->
  exists b', register_topics env b = (Ok tt, b') /\
    registered (map_to_list (wk_topics (bk_worker b))) b b'.
Proof.
  intros Hok. unfold register_topics, storage_topic_metadata. erewrite bind_Ok by done. cbv beta.
  set (ms := merge_sort topic_le _).
  assert (ms ≡ₚ (fun x : string * Z => metadata_of x.1 x.2) <$> map_to_list (wk_topics (bk_worker b))) as Hp
    by apply merge_sort_Permutation.
  symmetry in Hp. apply Permutation_sym, Permutation_map_inv in Hp as (ts & -> & Hts).
  destruct (register_loop ts b) as (b' & Hrun & [? ? ? ? ? He Hc Ho Hf]).
  - rewrite <- Hts. apply NoDup_fst_map_to_list.
  - done.
  - intros t n. rewrite <- Hts. by intros ?%elem_of_map_to_list.
  - exists b'. split; [exact Hrun|]. split; try done.
    + intros t n p. rewrite Hts. apply He.
    + intros t n. rewrite Hts. apply Hc.
    + intros t Hni. apply Ho. by rewrite <- Hts.
    + intros key g n Hg. rewrite Hts. intros ? ?. by eapply Hf.
Qed.
End registration.

(* ------------------------------------------------------------------ *)
(** ** The first synchronisation                                        *)
(* ------------------------------------------------------------------ *)

(** What a controller can answer. *)
Definition attempt_ok (a : SyncAttempt) : Prop :=
  match a with
  | Answered topics => (forall ts, topics = Ok ts -> Forall wf_topic ts) /\ topics <> Panic
  | Dropped topics next => Forall wf_topic topics /\ (forall m, next = Some m -> wf_topic m)
  end.

Section synchronisation.
Context `{!Crc32} `{!Crc32Ok}.
Context (cc : Broker.ClusterConfig).
Context (Hs : settings_ok (cc_settings cc)) (Hcl : cluster_ok (cc_metadata cc)).

(** Progress that leaves the logs and the groups as they are. *)
Definition synced (b b' : Broker) : Prop := progress cc b b' /\ undisturbed b b'.
Lemma synced_trans b1 b2 b3 : synced b1 b2 -> synced b2 b3 -> synced b1 b3.
Proof. intros [? ?] [? ?]. split; [by eapply progress_trans|by etransitivity]. Qed.

Lemma synced_run {A} (m : SM Broker ConnectionError A) P b :
  goes cc own m P b -> keeping undisturbed m -> fst (m b) <> Panic /\ synced b (snd (m b)).
Proof.
  intros Hm Hk. specialize (Hk b). unfold goes, wp in Hm. destruct (m b) as [[a|e|] b']; [|by split|done].
  by destruct Hm.
Qed.
Lemma sync_attempt_run a b :
  attempt_ok a -> broker_ok cc b ->
  exists v, fst (sync_attempt cc a b) = Ok v /\ synced b (snd (sync_attempt cc a b)).
Proof.
  intros Ha Hok. destruct a as [topics|topics next]; cbn [attempt_ok sync_attempt] in *.
  - destruct Ha as [Hts Hp]. destruct (synced_run _ _ b (sync_goes cc Hs topics b Hts Hp Hok) (sync_keeping cc topics))
      as [Hn Hsy]. destruct (sync_controller_metadata cc topics b) as [[u|e|] b']; [by eexists|by eexists|done].
  - destruct Ha as [Hts Hnext].
    set (m := for_each topics (sync_topic cc) ;;; _).
    destruct (synced_run m anything b) as [Hn Hsy].
    + eapply (goes_bind cc own _ _ (fun _ _ => True)).
      { apply goes_for_each; [done|done|]. intros x b1 Hin Hok1 _.
        eapply goes_mono; [apply (sync_topic_goes cc Hs); [|done]|done]. by apply (proj1 (Forall_forall _ _) Hts). }
      intros _ b1 [Hok1 _] _. destruct next as [x|]; [|by apply goes_ret]. destruct (Hnext x eq_refl) as (_ & Hn & _).
      eapply goes_bind; [apply create_topic_goes; [done|range|done]|]. intros x' b2 [Hok2 _] _. by apply goes_ret.
    + apply (keeping_bind _); [apply (keeping_for_each _), sync_topic_keeping|]. intros _.
      destruct next; [apply create_keeping|apply (keeping_ret _)].
    + unfold attempt. destruct (m b) as [[u|e|] b']; [by eexists|by eexists|done].
Qed.
Lemma sync_attempts_run attempts b :
  Forall attempt_ok attempts -> broker_ok cc b ->
  match sync_attempts cc attempts b with
  | (Ok _, b') => synced b b'
  | (Err e, b') => e = ControllerUnavailable /\ synced b b'
  | (Panic, _) => False
  end.
Proof.
  intros HF. revert b. induction HF as [|a attempts Ha _ IH]; intros b Hok; cbn [sync_attempts].
  { split; [done|]. split; [by apply progress_refl|done]. }
  destruct (sync_attempt_run a b Ha Hok) as (v & Hv & H1). unfold bind.
  destruct (sync_attempt cc a b) as [o b1]. cbn [fst snd] in *. subst o. destruct v; [done|].
  specialize (IH b1 (proj1 (proj1 H1))). destruct (sync_attempts cc attempts b1) as [[u|e|] b2]; [| |done].
  - by eapply synced_trans.
  - destruct IH. split; [done|by eapply synced_trans].
Qed.
End synchronisation.
