(* ===== verification/Restart.v ===== *)
(** * Restart: a broker that starts again has what it had.

    [run] on the disk of a broker that stopped, whether it was shut down or
    killed while it wrote; and what brokers that are configured alike agree on. *)

From stdpp Require Import base numbers list strings gmap sorting.
From Stdlib Require Import ZArith Lia.
From S2P Require Import Prelude Text Files Runs Protocol ProtocolFacts ResponseTrip Record RecordFacts Log LogRep LogFacts LogAppend LogOpen Storage Groups GroupFacts GroupSteps Leadership LeadershipFacts Worker WorkerSpec WorkerFacts Whole WorkerOpen Topics Addr Config Broker Replication Cluster Requests Serving HandlerFacts RequestFacts Service Startup StartupFacts.

(* ------------------------------------------------------------------ *)
(** ** The configured cluster                                           *)
(* ------------------------------------------------------------------ *)

(** What the types of a configuration guarantee. *)
Definition config_typed (c : Config.Config) : Prop :=
  is_u32 (cg_broker_id (cf_cluster c)) /\ Forall (fun n => is_u32 (nc_id n)) (cg_nodes (cf_cluster c)) /\
  0 <= cg_min_in_sync_replicas (cf_cluster c) /\ 0 <= cg_replication_factor (cf_cluster c).

Lemma cluster_nodes_ok c ns :
  config_typed c -> cluster_nodes c = Ok ns ->
  Forall (fun n => is_u32 (nc_id n)) ns /\ valid_nodes ns /\ cg_broker_id (cf_cluster c) ∈ nc_id <$> ns /\
  valid_policy (Z.of_nat (length ns)) (cf_cluster c) /\ StronglySorted by_id ns.
Proof.
  intros (Hid & Hids & Hmin & Hrf) Hns.
  destruct (cluster_nodes_Ok c ns Hmin Hrf Hns) as (cs & Hcs & Hv & Hin & Hpol & Hp & Hst).
  split_and!; [|by rewrite Hp|done..].
  rewrite Hp. unfold configured_nodes in Hcs. destruct (cg_nodes (cf_cluster c)) as [|n l].
  - destruct (_ <=? _); [|done]. injection Hcs as <-. by apply Forall_singleton.
  - by injection Hcs as <-.
Qed.

Lemma cluster_metadata_Ok c m :
  config_typed c -> cluster_metadata c = Ok m ->
  exists ns, cluster_nodes c = Ok ns /\ cm_nodes m = cluster_node_of <$> ns /\
    cm_responding_broker_id m = cg_broker_id (cf_cluster c) /\ cluster_ok m /\
    NoDup (cn_id <$> cm_nodes m) /\
    exists n, List.find (fun n => cn_id n =? cm_responding_broker_id m) (cm_nodes m) = Some n /\
      is_Some (endpoint_addr (cn_host n) (cn_replication_port n)).
Proof.
  intros Ht. unfold cluster_metadata. destruct (cluster_nodes c) as [ns|e|] eqn:Hns; [|done..].
  intros [= <-]. destruct (cluster_nodes_ok c ns Ht Hns) as (Hids & (_ & Hnd & _ & Hp) & Hin & _).
  exists ns. cbn [cm_nodes cm_responding_broker_id]. split_and!; [done..| | |].
  - split; [by destruct ns; [apply elem_of_nil in Hin|]|]. by apply Forall_fmap.
  - rewrite <- list_fmap_compose. exact Hnd.
  - clear Hids Hnd Hns. induction ns as [|n ns IH]; [by apply elem_of_nil in Hin|].
    cbn [fmap list_fmap List.find]. rewrite bind_cons, Forall_app in Hp. destruct Hp as [Hpn Hp].
    destruct (Z.eqb_spec (cn_id (cluster_node_of n)) (cg_broker_id (cf_cluster c))) as [|Hne].
    + exists (cluster_node_of n). split; [done|]. unfold endpoints_of in Hpn. rewrite !Forall_cons in Hpn. by destruct Hpn as (_ & _ & ? & _).
    + apply IH; [done|]. apply elem_of_cons in Hin as [Heq|Hin]; [by destruct Hne|done].
Qed.

(* ------------------------------------------------------------------ *)
(** ** [run]                                                            *)
(* ------------------------------------------------------------------ *)

Section restart.
Context `{!Crc32} `{!Crc32Ok}.
Context (env : Surroundings) (config : Config.Config) (metadata : ClusterMetadata).
Abbreviation cc := (cluster_runtime config metadata).
Abbreviation s := (cc_settings cc).

(** A configuration the broker starts with: its addresses can be listened on. *)
Record startable : Prop := {
  sb_typed : config_typed config;
  sb_metadata : cluster_metadata config = Ok metadata;
  sb_settings : settings_ok s;
  sb_queue : 0 < bc_storage_queue_capacity (cf_broker config) /\
             0 < bc_storage_enqueue_timeout_ms (cf_broker config);
  sb_address : exists a, BrokerConfig_socket_addr (cf_broker config) = Ok a;
  sb_admin : exists a, AdminConfig_socket_addr (cf_admin config) = Ok a;
  sb_bind a : su_bind env a = true;
  sb_attempts n : attempt_ok (su_attempts env n)
}.

(** What a started broker has of the broker [b] that stopped. *)
Record restored (b b' : Broker) : Prop := {
  rs_ok : broker_ok cc b';
  rs_topics : topics_kept (bk_worker b) (bk_worker b');
  rs_logs : wk_logs (bk_worker b) ⊆ wk_logs (bk_worker b');
  rs_leads : advances (bk_leadership b) (bk_leadership b');
  rs_entries t n p : wk_topics (bk_worker b) !! t = Some n -> 0 <= p < n ->
    is_Some (lr_entries (bk_leadership b') !! (t, p));
  rs_counts t n : wk_topics (bk_worker b) !! t = Some n -> partition_count (bk_groups b') t = n;
  rs_offsets g t n : wk_topics (bk_worker b) !! t = Some n ->
    is_Some (find_dir (gc_offsets_dir (bk_groups b)) (g, t)) ->
    exists grp, gc_groups (bk_groups b') !! (g, t) = Some grp /\
      has_offsets (gc_offsets_dir (bk_groups b)) n (g, t) grp
}.

(** The parts, recovered. *)
Lemma parts_recovered b a data :
  startable -> broker_ok cc b -> represents s (bk_worker b) a -> aworker_ok s a ->
  map_Forall (fun _ => complete) (aw_logs a) ->
  data = wk_data (bk_worker b) \/ salvageable s a data ->
  exists w c b0, recover_storage s data = (Ok tt, w) /\
    open_registry (lr_dir (bk_leadership b)) metadata = Ok (bk_leadership b0) /\
    open_coordinator (gc_offsets_dir (bk_groups b)) (bc_default_partition_count (cf_broker config))
      (bc_group_session_timeout_ms (cf_broker config)) = Ok c /\
    b0 = {| bk_worker := w; bk_leadership := bk_leadership b0; bk_groups := c; bk_outbox := []; bk_tasks := [] |} /\
    broker_ok cc b0 /\ wk_topics w = wk_topics (bk_worker b) /\ wk_logs w = wk_logs (bk_worker b) /\
    lr_entries (bk_leadership b0) = lr_entries (bk_leadership b) /\
    gc_offsets_dir c = gc_offsets_dir (bk_groups b) /\
    (forall key, is_Some (find_dir (gc_offsets_dir (bk_groups b)) key) -> is_Some (gc_groups c !! key)).
Proof.
  intros Hst Hok Hr Ha Hc Hdata. pose proof (sb_settings Hst) as Hs.
  destruct Hok as (_ & (_ & Hes & Hload) & _ & Hg).
  destruct (restart_recovers s (bk_worker b) a data Hs Hr Ha Hc Hdata) as (w & Hrec & Hr' & Ha' & Hlogs & Htop).
  destruct (cluster_metadata_Ok config metadata (sb_typed Hst) (sb_metadata Hst)) as (ns & _ & _ & _ & Hcl & _).
  assert (is_u32 (bc_default_partition_count (cf_broker config))) as Hn.
  { destruct Hs as [_ Hn]. cbn in Hn. range. }
  pose proof Hg as (_ & Htree & _).
  destruct (open_coordinator_spec _ _ Htree Hn (bc_group_session_timeout_ms (cf_broker config)))
    as (c & Hopen & Hc' & Hdir & _ & _ & Hgs).
  eexists w, c, {| bk_worker := w; bk_leadership := {| lr_dir := lr_dir (bk_leadership b); lr_cluster := metadata;
    lr_entries := lr_entries (bk_leadership b) |}; bk_groups := c; bk_outbox := []; bk_tasks := [] |}.
  split_and!; try done.
  - unfold open_registry. by rewrite Hload.
  - split; [|split; [by split|by split]]. exists (recovered a). split_and!; [done..|]. intros _. by apply (complete_wholes s).
  - intros key [d Hd]. rewrite Hgs, Hd. by eexists.
Qed.

Lemma prepare_run b :
  settings_ok s -> cluster_ok metadata -> (forall n, attempt_ok (su_attempts env n)) -> broker_ok cc b ->
  exists b1, registered cc env (map_to_list (wk_topics (bk_worker b))) b b1 /\
    match prepare cc env b with
    | (Ok _, b2) => synced cc b1 b2
    | (Err e, b2) => e = ControllerUnavailable /\ is_controller cc = false /\ synced cc b1 b2
    | (Panic, _) => False
    end.
Proof.
  intros Hs Hcl Ha Hok. destruct (register_topics_run cc env b Hok) as (b1 & Hrun & Hreg).
  exists b1. split; [done|]. unfold prepare. rewrite (bind_Ok _ _ _ _ _ Hrun). unfold initial_controller_sync.
  pose proof (rg_ok _ _ _ _ _ Hreg) as Hok1.
  destruct (is_controller cc); [split; [by apply progress_refl|reflexivity]|].
  pose proof (sync_attempts_run cc Hs (su_attempts env <$> seq 0 SYNC_ATTEMPTS) b1) as Hsync.
  destruct (sync_attempts cc _ b1) as [[u|e|] b2]; [apply Hsync| |apply Hsync]; try done.
  - apply Forall_fmap, Forall_forall. intros n _. apply Ha.
  - destruct Hsync as [-> ?]; [|done|done]. apply Forall_fmap, Forall_forall. intros n _. apply Ha.
  - apply Forall_fmap, Forall_forall. intros n _. apply Ha.
Qed.

(** Recovery, registration and synchronisation put together. *)
Lemma started_restored b b0 b1 b2 :
  broker_ok cc b0 -> wk_topics (bk_worker b0) = wk_topics (bk_worker b) ->
  wk_logs (bk_worker b0) = wk_logs (bk_worker b) -> lr_cluster (bk_leadership b0) = lr_cluster (bk_leadership b) ->
  lr_entries (bk_leadership b0) = lr_entries (bk_leadership b) ->
  gc_offsets_dir (bk_groups b0) = gc_offsets_dir (bk_groups b) ->
  (forall key, is_Some (find_dir (gc_offsets_dir (bk_groups b)) key) ->
     is_Some (gc_groups (bk_groups b0) !! key) /\ key ∈ su_group_order env) ->
  registered cc env (map_to_list (wk_topics (bk_worker b0))) b0 b1 -> synced cc b1 b2 -> restored b b2.
Proof.
  intros Hok Ht Hl Hc He Hd Hgr Hreg [(Hok2 & Htk & Had2 & _) [Hlg Hgs]].
  pose proof Hreg as [Hok1 Hw Had Hk Hsame Hent Hcnt _ Hoff]. rewrite Ht in *.
  assert (advances (bk_leadership b0) (bk_leadership b2)) as Had02 by by etransitivity.
  split.
  - done.
  - intros t n Htn. apply Htk. by rewrite Hw, Ht.
  - etransitivity; [|exact Hlg]. by rewrite Hw, Hl.
  - split; [by rewrite (proj1 Had02)|]. rewrite <- He. apply Had02.
  - intros t n p Htn Hp. destruct (Hent t n p) as [l Hlp]; [by apply elem_of_map_to_list|done|].
    destruct (proj2 Had2 _ _ Hlp) as (l' & ? & _). by exists l'.
  - intros t n Htn. unfold partition_count. rewrite Hgs, (Hcnt t n); [done|by apply elem_of_map_to_list].
  - intros g t n Htn Hdir. destruct (Hgr (g, t) Hdir) as [[grp Hg] Hord]. rewrite Hgs, <- Hd.
    apply (Hoff (g, t) grp n Hg); [by apply elem_of_map_to_list|done].
Qed.
(** Every step before the preparation succeeds. *)
Lemma run_started b0 d w c :
  startable -> recover_storage s (dk_data d) = (Ok tt, w) ->
  open_registry (dk_files d) metadata = Ok (bk_leadership b0) ->
  open_coordinator (dk_offsets d) (bc_default_partition_count (cf_broker config))
    (bc_group_session_timeout_ms (cf_broker config)) = Ok c ->
  b0 = {| bk_worker := w; bk_leadership := bk_leadership b0; bk_groups := c; bk_outbox := []; bk_tasks := [] |} ->
  run env config d =
  let '(o, b) := prepare cc env b0 in (obind o (fun _ => Ok (cc, b)), disk_of b).
Proof.
  intros [Htyped Hmeta [_ Hn] [Hq1 Hq2] [addr Haddr] [adm Hadm] Hbind _] Hrec Hreg Hopen Hb0.
  destruct (cluster_metadata_Ok config metadata Htyped Hmeta) as (ns & _ & _ & _ & _ & _ & ln & Hln & [ra Hra]).
  set (d1 := set_dk_data d (wk_data w)).
  assert (start_storage_worker (cf_broker config) d = (Ok w, d1)) as Hstart.
  { unfold start_storage_worker. cbn [cluster_runtime cc_settings] in Hn, Hrec.
    rewrite (proj2 (Z.eqb_neq _ 0)) by lia. erewrite bind_Ok by done. cbv beta.
    rewrite !(proj2 (Z.eqb_neq _ 0)) by lia. erewrite bind_Ok by done. cbv beta. by rewrite Hrec. }
  assert (forall a d, bind_listener env a d = (Ok tt, d)) as Hlisten
    by (intros a d'; unfold bind_listener; by rewrite Hbind).
  unfold run, from_config. rewrite Haddr, Hmeta, Hadm.
  erewrite bind_Ok by done. cbv beta. erewrite bind_Ok by done. cbv beta.
  erewrite bind_Ok by exact Hstart. cbv beta. erewrite bind_Ok by apply Hlisten. cbv beta.
  erewrite bind_Ok by done. cbv beta. erewrite bind_Ok by apply Hlisten. cbv beta.
  erewrite bind_Ok by (rewrite Hln; done). cbv beta. erewrite bind_Ok by (rewrite Hra; done). cbv beta.
  erewrite bind_Ok by apply Hlisten. cbv beta. erewrite bind_Ok by done. cbv beta.
  change (dk_files d1) with (dk_files d). change (dk_offsets d1) with (dk_offsets d).
  erewrite bind_Ok by (unfold lift; rewrite Hreg; done). cbv beta.
  erewrite bind_Ok by (unfold lift; rewrite Hopen; done). cbv beta zeta.
  rewrite <- Hb0. unfold bind, run_parts. by destruct (prepare cc env b0) as [[u|e|] b'].
Qed.
End restart.

(** A restart, put together. *)
Lemma restarts `{!Crc32} `{!Crc32Ok} env config metadata b a data :
  let cc := cluster_runtime config metadata in
  startable env config metadata -> broker_ok cc b ->
  represents (cc_settings cc) (bk_worker b) a -> aworker_ok (cc_settings cc) a ->
  map_Forall (fun _ => complete) (aw_logs a) ->
  data = wk_data (bk_worker b) \/ salvageable (cc_settings cc) a data ->
  (forall key, is_Some (find_dir (gc_offsets_dir (bk_groups b)) key) -> key ∈ su_group_order env) ->
  let disk := {| dk_data := data; dk_files := lr_dir (bk_leadership b);
                 dk_offsets := gc_offsets_dir (bk_groups b) |} in
  match run env config disk with
  | (Ok (cc', b'), d) => cc' = cc /\ d = disk_of b' /\ restored config metadata b b'
  | (Err e, d) => e = ControllerUnavailable /\ is_controller cc = false /\
      exists b', d = disk_of b' /\ restored config metadata b b'
  | (Panic, _) => False
  end.
Proof.
  intros cc Hst Hok Hr Ha Hc Hdata Hord disk.
  destruct (parts_recovered env config metadata b a data Hst Hok Hr Ha Hc Hdata)
    as (w & c & b0 & Hrec & Hreg & Hopen & Hb0 & Hok0 & Htop & Hlogs & Hent & Hdir & Hgrp).
  destruct (cluster_metadata_Ok config metadata (sb_typed _ _ _ Hst) (sb_metadata _ _ _ Hst)) as (_ & _ & _ & _ & Hcl & _).
  rewrite (run_started env config metadata b0 disk w c Hst Hrec Hreg Hopen Hb0).
  destruct (prepare_run env config metadata b0 (sb_settings _ _ _ Hst) Hcl (sb_attempts _ _ _ Hst) Hok0)
    as (b1 & Hr1 & Hprep).
  assert (forall b2, synced cc b1 b2 -> restored config metadata b b2) as Hres.
  { intros b2 Hsy. apply (started_restored env config metadata b b0 b1 b2); try done.
    - by rewrite Hb0.
    - by rewrite Hb0.
    - destruct Hok as (_ & _ & -> & _). by destruct Hok0 as (_ & _ & -> & _).
    - by rewrite Hb0.
    - intros key Hkey. split; [rewrite Hb0; by apply Hgrp|by apply Hord]. }
  destruct (prepare _ env b0) as [[u|e|] b2]; cbn [obind]; [| |done].
  - split; [done|]. split; [done|]. by apply Hres.
  - destruct Hprep as (-> & Hctl & Hsy). split; [done|]. split; [done|]. exists b2. split; [done|]. by apply Hres.
Qed.

(* ------------------------------------------------------------------ *)
(** ** Properties                                                       *)
(* ------------------------------------------------------------------ *)


#[local] Existing Instance length_crc.
#[local] Existing Instance length_crc_ok.
(** A single broker with two partitions of a topic, on the settings of
    [sample_settings]. *)
Definition small_file : Config.Config :=
  {| cf_broker := {| bc_host := "127.0.0.1"; bc_port := 7400; bc_data_dir := "./data"; bc_max_segment_bytes := 100;
                     bc_index_interval_bytes := 16; bc_default_partition_count := 2;
                     bc_group_session_timeout_ms := 10; bc_retention_bytes := 0; bc_retention_ms := 0;
                     bc_storage_queue_capacity := 16; bc_storage_enqueue_timeout_ms := 100;
                     bc_auto_create_topics := true |};
     cf_admin := AdminConfig_default; cf_logging := {| lg_json := false |}; cf_cluster := ClusterConfig_default |}.
Definition small_metadata : ClusterMetadata :=
  {| cm_responding_broker_id := 1;
     cm_nodes := [{| cn_id := 1; cn_host := "127.0.0.1"; cn_port := 7400; cn_admin_port := 7401;
                     cn_replication_port := 7500 |}] |}.
Definition quiet : Surroundings :=
  {| su_bind := fun _ => true; su_group_order := []; su_attempts := fun _ => Answered (Err ReplicationClosed) |}.
Definition stopped : Broker :=
  {| bk_worker := snd (create_topic sample_settings "payments" 2 fresh_worker);
     bk_leadership := {| lr_dir := ∅; lr_cluster := small_metadata; lr_entries := ∅ |};
     bk_groups := bk_groups single_broker; bk_outbox := []; bk_tasks := [] |}.
Definition stopped_logs : AWorker := snd (a_create no_topics "payments" 2).

Lemma small_startable : startable quiet small_file small_metadata.
Proof.
  split.
  - split; [split; vm_compute; discriminate|]. split; [constructor|]. split; vm_compute; discriminate.
  - vm_compute. reflexivity.
  - apply sample_settings_ok.
  - split; reflexivity.
  - exists (SocketAddrV4 [127; 0; 0; 1] 7400). vm_compute. reflexivity.
  - exists (SocketAddrV4 [127; 0; 0; 1] 7401). vm_compute. reflexivity.
  - done.
  - by intros n; split.
Qed.
Lemma stopped_ok :
  broker_ok (cluster_runtime small_file small_metadata) stopped /\
  represents sample_settings (bk_worker stopped) stopped_logs /\ aworker_ok sample_settings stopped_logs /\
  map_Forall (fun _ => complete) (aw_logs stopped_logs).
Proof.
  destruct (create_topic_refines sample_settings sample_settings_ok fresh_worker no_topics "payments" 2
              fresh_represents no_topics_ok) as (_ & Hr & Ha); [split; vm_compute; discriminate|].
  split; [|split; [exact Hr|split; [exact Ha|]]].
  - destruct single_broker_ok as [(_ & _ & _ & Hg) _].
    split; [exists stopped_logs; split_and!; [done..|]; intros _; by apply create_wholes|]. split; [|by split].
    split; [|by split; [intros ? ? ?|]].
    destruct (cluster_metadata_Ok small_file small_metadata (sb_typed _ _ _ small_startable)
                (sb_metadata _ _ _ small_startable)) as (_ & _ & _ & _ & Hcl & _). exact Hcl.
  - apply map_Forall_union_2; [apply map_Forall_empty|]. intros [t p] l. rewrite new_logs_lookup.
    case_bool_decide; intros [= <-]. by repeat split.
Qed.


(** Brokers configured alike agree: two configurations that list the same
    nodes, in whatever order, and the same replication factor give the same
    cluster, so that both brokers compute the same first leader and the same
    replicas of every partition and take the same one of them for the
    controller; every partition has [replication_factor] replicas. *)
Theorem brokers_agree c1 c2 ns1 ns2 m1 m2 :
  config_typed c1 -> config_typed c2 ->
  configured_nodes c1 = Ok ns1 -> configured_nodes c2 = Ok ns2 -> ns1 ≡ₚ ns2 ->
  cg_replication_factor (cf_cluster c1) = cg_replication_factor (cf_cluster c2) ->
  cluster_metadata c1 = Ok m1 -> cluster_metadata c2 = Ok m2 ->
  cm_nodes m1 = cm_nodes m2 /\
  (forall p, deterministic_leader m1 p = deterministic_leader m2 p) /\
  (forall p, replicas (cluster_runtime c1 m1) p = replicas (cluster_runtime c2 m2) p) /\
  (forall p, Z.of_nat (length (replicas (cluster_runtime c1 m1) p)) = cg_replication_factor (cf_cluster c1)) /\
  (is_controller (cluster_runtime c1 m1) = true -> is_controller (cluster_runtime c2 m2) = true ->
   self_id (cluster_runtime c1 m1) = self_id (cluster_runtime c2 m2)).
Proof.
  intros Ht1 Ht2 Hc1 Hc2 Hp Hrf Hm1 Hm2.
  destruct (cluster_metadata_Ok c1 m1 Ht1 Hm1) as (l1 & Hn1 & Hmn1 & _ & _ & Hnd & _).
  destruct (cluster_metadata_Ok c2 m2 Ht2 Hm2) as (l2 & Hn2 & Hmn2 & _).
  pose proof Ht1 as (_ & _ & Hmin1 & Hrf1). pose proof Ht2 as (_ & _ & Hmin2 & Hrf2).
  destruct (cluster_nodes_Ok c1 l1 Hmin1 Hrf1 Hn1) as (cs1 & E1 & _ & _ & Hpol & Hp1 & Hs1).
  destruct (cluster_nodes_Ok c2 l2 Hmin2 Hrf2 Hn2) as (cs2 & E2 & _ & _ & _ & Hp2 & Hs2).
  assert (cs1 = ns1) as -> by congruence. assert (cs2 = ns2) as -> by congruence.
  assert (l1 = l2) as -> by (apply sorted_unique; [done..|by rewrite Hp1, Hp2]).
  assert (cm_nodes m1 = cm_nodes m2) as Hm by congruence.
  split; [done|]. split; [by intros p; unfold deterministic_leader; rewrite Hm|].
  assert (forall p, replicas (cluster_runtime c1 m1) p = replicas (cluster_runtime c2 m2) p) as Hrep
    by (intros p; unfold replicas, nodes; cbn; by rewrite Hm, Hrf).
  split; [done|]. split.
  - intros p. apply replicas_length; unfold nodes; cbn; rewrite Hmn1, ?length_fmap; destruct Hpol; lia.
  - unfold is_controller, nodes, self_id. cbn. rewrite Hm. destruct (cm_nodes m2); [done|].
    intros <-%Z.eqb_eq <-%Z.eqb_eq. done.
Qed.

(** The configuration of another broker of [sample_file]'s cluster. *)
Definition other_file : Config.Config :=
  {| cf_broker := file_broker; cf_admin := AdminConfig_default; cf_logging := {| lg_json := true |};
     cf_cluster := {| cg_broker_id := 3; cg_replication_factor := 3; cg_min_in_sync_replicas := 2;
                      cg_nodes := [cluster_node 1 7400; cluster_node 3 7600; cluster_node 2 7500] |} |}.
Definition three_nodes (id : Z) : ClusterMetadata :=
  {| cm_responding_broker_id := id;
     cm_nodes := cluster_node_of <$> [cluster_node 1 7400; cluster_node 2 7500; cluster_node 3 7600] |}.
Lemma brokers_agree_witness :
  cm_nodes (three_nodes 1) = cm_nodes (three_nodes 3) /\
  (forall p, deterministic_leader (three_nodes 1) p = deterministic_leader (three_nodes 3) p) /\
  (forall p, replicas (cluster_runtime sample_file (three_nodes 1)) p =
             replicas (cluster_runtime other_file (three_nodes 3)) p) /\
  (forall p, Z.of_nat (length (replicas (cluster_runtime sample_file (three_nodes 1)) p)) =
             cg_replication_factor (cf_cluster sample_file)) /\
  (is_controller (cluster_runtime sample_file (three_nodes 1)) = true ->
   is_controller (cluster_runtime other_file (three_nodes 3)) = true ->
   self_id (cluster_runtime sample_file (three_nodes 1)) = self_id (cluster_runtime other_file (three_nodes 3))).
Proof.
  apply (brokers_agree sample_file other_file (cg_nodes (cf_cluster sample_file))
           (cg_nodes (cf_cluster other_file))).
  - unfold config_typed, in_range. apply (bool_decide_unpack _). vm_compute. exact I.
  - unfold config_typed, in_range. apply (bool_decide_unpack _). vm_compute. exact I.
  - reflexivity.
  - reflexivity.
  - apply (bool_decide_unpack _). vm_compute. exact I.
  - reflexivity.
  - vm_compute. reflexivity.
  - vm_compute. reflexivity.
Defined.
