(* ===== verification/Lives.v ===== *)
(** * Lives: a broker over all its lives.

    A broker starts on an empty disk, serves, is shut down or killed, and starts
    again on what it left, any number of times.  [Restart] says what one start
    recovers, [Service] what the steps of a running broker keep; here they are
    one transition system. *)

From stdpp Require Import base numbers list strings gmap sorting.
From Stdlib Require Import ZArith Lia.
From S2P Require Import Prelude Text Files Runs Protocol ProtocolFacts Record RecordFacts Log LogRep LogFacts LogOpen Storage Groups GroupFacts GroupSteps Leadership LeadershipFacts Worker WorkerSpec WorkerFacts Whole WorkerOpen Topics Addr Config Broker Replication Cluster Requests Serving HandlerFacts RequestFacts Service Startup StartupFacts Restart.

Section lives.
Context `{!Crc32} (config : Config.Config) (metadata : ClusterMetadata).
Abbreviation cc := (cluster_runtime config metadata).
Abbreviation s := (cc_settings cc).

(** What a broker leaves on its disk: at a shutdown all it has; when it is killed,
    perhaps with the index files in any state and a record that was being written
    cut off at the end of each log. *)
Definition leaves (b : Broker) (d : Startup.Disk) : Prop :=
  dk_files d = lr_dir (bk_leadership b) /\ dk_offsets d = gc_offsets_dir (bk_groups b) /\
  (dk_data d = wk_data (bk_worker b) \/
   exists a, represents s (bk_worker b) a /\ aworker_ok s a /\ unshortened s a /\ salvageable s a (dk_data d)).

Inductive Life :=
| Up (b : Broker)
| Down (d : Startup.Disk).
Definition no_disk : Startup.Disk := {| dk_data := ∅; dk_files := ∅; dk_offsets := ∅ |}.
(** The hash map of the groups yields each of them. *)
Definition yields_groups (env : Surroundings) (d : Startup.Disk) : Prop :=
  forall key, is_Some (find_dir (dk_offsets d) key) -> key ∈ su_group_order env.
Definition started (x : outcome BrokerError (Broker.ClusterConfig * Broker) * Startup.Disk) : Life :=
  match x with
  | (Ok (_, b), _) => Up b
  | (_, d) => Down d
  end.
Inductive moves : Life -> Life -> Prop :=
| works b b' : broker_step cc b b' -> moves (Up b) (Up b')
| stops b d : leaves b d -> moves (Up b) (Down d)
| starts env d : startable env config metadata -> yields_groups env d -> moves (Down d) (started (run env config d)).

Context `{!Crc32Ok}.
Context (Ht : config_typed config) (Hm : cluster_metadata config = Ok metadata).
Context (Hs : settings_ok s) (Hret : no_retention s).

Lemma leaves_restart b d env :
  broker_ok cc b -> leaves b d -> startable env config metadata -> yields_groups env d ->
  match run env config d with
  | (Ok (cc', b'), d') => cc' = cc /\ d' = disk_of b' /\ restored config metadata b b'
  | (Err e, d') => e = ControllerUnavailable /\ is_controller cc = false /\
      exists b', d' = disk_of b' /\ restored config metadata b b'
  | (Panic, _) => False
  end.
Proof.
  intros Hok (Hf & Ho & Hd) Hst Hord. destruct d as [data files offsets]. cbn [dk_data dk_files dk_offsets] in *. subst.
  assert (exists a, represents s (bk_worker b) a /\ aworker_ok s a /\ unshortened s a /\
            (data = wk_data (bk_worker b) \/ salvageable s a data)) as (a & Hr & Ha & Hun & Hdata).
  { destruct Hd as [->|(a & ? & ? & ? & ?)]; [|exists a; auto]. destruct Hok as ((a & ? & ? & ?) & _). exists a; auto. }
  apply (restarts env config metadata b a data); [done..| |done|done].
  intros k l Hl. by apply (Hun Hret k).
Qed.
Lemma leaves_disk b : leaves b (disk_of b).
Proof. split_and!; auto. Qed.

(** What all later brokers keep of a broker. *)
Definition outlives (b b' : Broker) : Prop :=
  topics_kept (bk_worker b) (bk_worker b') /\ advances (bk_leadership b) (bk_leadership b').
Lemma outlives_trans b1 b2 b3 : outlives b1 b2 -> outlives b2 b3 -> outlives b1 b3.
Proof. intros [H1 A1] [H2 A2]. split; [intros t n ?; by apply H2, H1|by etransitivity]. Qed.
Lemma restored_outlives b b' : restored config metadata b b' -> outlives b b'.
Proof. intros Hr. split; apply Hr. Qed.
Definition carries (b : Broker) (st : Life) : Prop :=
  match st with
  | Up b' => broker_ok cc b' /\ outlives b b'
  | Down d => exists b', broker_ok cc b' /\ leaves b' d /\ outlives b b'
  end.
Lemma carries_moves b st st' : moves st st' -> carries b st -> carries b st'.
Proof.
  destruct (cluster_metadata_Ok config metadata Ht Hm) as (_ & _ & _ & _ & Hcl & _).
  intros [b1 b2 Hstep|b1 d Hl|env d Hst Hord].
  - intros [Hok Hout]. destruct (broker_step_progress cc Hs Hcl _ _ Hstep Hok) as (Hok' & Htop & Hadv & _).
    split; [done|]. by apply (outlives_trans _ b1).
  - intros [Hok Hout]. by exists b1.
  - intros (b1 & Hok & Hl & Hout). pose proof (leaves_restart b1 d env Hok Hl Hst Hord) as Hrun.
    destruct (run env config d) as [[[cc' b2]|e|] d']; cbn [started]; [| |done].
    + destruct Hrun as (_ & _ & Hres). split; [apply Hres|]. by eapply outlives_trans, restored_outlives.
    + destruct Hrun as (_ & _ & b2 & -> & Hres). exists b2. split; [apply Hres|]. split; [apply leaves_disk|].
      by eapply outlives_trans, restored_outlives.
Qed.
Lemma carries_all b st st' : rtc moves st st' -> carries b st -> carries b st'.
Proof. induction 1; eauto using carries_moves. Qed.

(** The disk before the first start is that of a broker with nothing. *)
Definition nothing_yet : Broker :=
  {| bk_worker := snd (recover_storage s ∅);
     bk_leadership := {| lr_dir := ∅; lr_cluster := metadata; lr_entries := ∅ |};
     bk_groups := {| gc_offsets_dir := ∅; gc_default_partition_count := 1; gc_session_timeout := 0;
                     gc_groups := ∅; gc_topic_partition_counts := ∅ |}; bk_outbox := []; bk_tasks := [] |}.
Lemma nothing_ok : broker_ok cc nothing_yet.
Proof.
  destruct (cluster_metadata_Ok config metadata Ht Hm) as (_ & _ & _ & _ & Hcl & _).
  destruct (worker_start s Hs) as [Hr Ha]. split; [eexists; split_and!; [exact Hr|exact Ha|done]|].
  split; [by split_and!|]. split; [done|]. split; [split; [vm_compute; split; discriminate|done]|].
  split; [|done]. by intros g ts Hg.
Qed.
Lemma first_disk : leaves nothing_yet no_disk.
Proof. split_and!; [done..|]. left. reflexivity. Qed.
Lemma lived st : rtc moves (Down no_disk) st -> carries nothing_yet st.
Proof.
  intros Hst. eapply carries_all; [exact Hst|]. exists nothing_yet. split; [apply nothing_ok|]. split; [apply first_disk|].
  split; [by intros t n|reflexivity].
Qed.
End lives.


#[local] Existing Instance length_crc.
#[local] Existing Instance length_crc_ok.
(** A first start, a topic, and the kill of the broker. *)
Definition first_life : Broker :=
  match started (run quiet small_file no_disk) with Up b => b | Down _ => stopped end.
Abbreviation small_config := (cluster_runtime small_file small_metadata).
Definition with_topic : Broker :=
  fst (snd (process_request small_config sample_world no_network controller_query create_payments (first_life, tt))).
