(* ===== verification/Server.v ===== *)
(** * Server: the end of [run] of [crates/broker/src/lib.rs]: the accept loop, the
    tasks beside it and the shutdown.

    [accept_connections] spawns a task for every connection and joins the tasks
    that end; what a task does is in [Connection], [Broker] and [Admin].  The loop
    reacts to events; tokio chooses among those that are ready. *)

From stdpp Require Import base numbers list strings gmap.
From Stdlib Require Import ZArith Lia.
From S2P Require Import Prelude Text Files Protocol Record Log Storage Worker Topics Queue Groups Leadership Broker Requests.

(* ------------------------------------------------------------------ *)
(** ** The accept loop                                                  *)
(* ------------------------------------------------------------------ *)

Inductive Listener := ClientListener | AdminListener | ReplicationListener.
Record ConnectionTask := { cn_listener : Listener; cn_connection_id : Z }.
(** What [join_next] says of a task. *)
Inductive TaskResult :=
| Finished
| ClosedWith (e : ConnectionError)
| Cancelled
| TaskPanicked.
Inductive ServerEvent :=
| Signal (ok : bool)
| Accepted (l : Listener) (ok : bool)
| Joined (task : nat) (r : TaskResult).
(** Errors of the sockets, of the signal handler and of the storage worker. *)
Inductive ServerError := ServerIo | StorageWorkerFailed.

(** Tasks are numbered in the order in which they are spawned. *)
Record Server := {
  sv_connections : gmap nat ConnectionTask;
  sv_next_task : nat;
  sv_next_connection_id : Z;
  sv_results : list (nat * TaskResult)
}.
Definition new_server : Server :=
  {| sv_connections := ∅; sv_next_task := 0; sv_next_connection_id := 1; sv_results := [] |}.

(** [report_connection_result]: the warning that is logged. *)
Definition report_connection_result (r : TaskResult) : option string :=
  match r with
  | Finished | Cancelled => None
  | ClosedWith _ => Some "connection closed with error"
  | TaskPanicked => Some "connection task failed"
  end.
Definition warnings (sv : Server) : list string := omap (fun r => report_connection_result r.2) (sv_results sv).

(** [connections.spawn(..)]; only clients get a number, from a counter of 64 bits. *)
Definition spawn_connection (l : Listener) (sv : Server) : Server :=
  let id := sv_next_connection_id sv in
  {| sv_connections := <[sv_next_task sv := {| cn_listener := l; cn_connection_id := id |}]> (sv_connections sv);
     sv_next_task := S (sv_next_task sv);
     sv_next_connection_id := match l with ClientListener => (id + 1) mod 2 ^ 64 | _ => id end;
     sv_results := sv_results sv |}.
Definition join_connection (task : nat) (r : TaskResult) (sv : Server) : Server :=
  {| sv_connections := delete task (sv_connections sv); sv_next_task := sv_next_task sv;
     sv_next_connection_id := sv_next_connection_id sv; sv_results := sv_results sv ++ [(task, r)] |}.
(** [abort_all] and the loop that joins what is left; [aborted]: how each ends. *)
Definition abort_all (aborted : nat -> TaskResult) (sv : Server) : Server :=
  foldr (fun task sv => join_connection task (aborted task) sv) sv (map_to_list (sv_connections sv)).*1.

(** [accept_connections] over a sequence of events; [false]: it still runs. *)
Fixpoint accept_connections (aborted : nat -> TaskResult) (events : list ServerEvent)
  : SM Server ServerError bool :=
  match events with
  | [] => ret false
  | Signal ok :: _ =>
      reject_if (negb ok) ServerIo ;;; modify (abort_all aborted) ;;; ret true
  | Accepted l ok :: events =>
      reject_if (negb ok) ServerIo ;;; modify (spawn_connection l) ;;; accept_connections aborted events
  | Joined task r :: events =>
      sv <- get ;;
      (if bool_decide (is_Some (sv_connections sv !! task)) then modify (join_connection task r) else ret tt) ;;;
      accept_connections aborted events
  end.

(** Every task was spawned once, and is running or was joined. *)
Definition accounted (sv : Server) : Prop :=
  (sv_results sv).*1 ++ (map_to_list (sv_connections sv)).*1 ≡ₚ seq 0 (sv_next_task sv).
Lemma accounted_running sv task : accounted sv -> is_Some (sv_connections sv !! task) ->
  (task < sv_next_task sv)%nat /\ task ∉ (sv_results sv).*1.
Proof.
  intros Ha [c Hc]. unfold accounted in Ha. assert (task ∈ (map_to_list (sv_connections sv)).*1) as Hin.
  { apply list_elem_of_fmap. exists (task, c). split; [done|]. by apply elem_of_map_to_list. }
  split.
  - apply (proj1 (elem_of_seq 0 (sv_next_task sv) task)). rewrite <- Ha. apply elem_of_app. by right.
  - assert (NoDup ((sv_results sv).*1 ++ (map_to_list (sv_connections sv)).*1)) as Hnd
      by (rewrite Ha; apply NoDup_seq).
    apply NoDup_app in Hnd as (_ & Hd & _). intros Hr. by apply (Hd task).
Qed.
Lemma spawn_accounted l sv : accounted sv -> accounted (spawn_connection l sv).
Proof.
  intros Ha. assert (sv_connections sv !! sv_next_task sv = None) as Hnone.
  { destruct (sv_connections sv !! sv_next_task sv) eqn:E; [|done].
    destruct (accounted_running sv (sv_next_task sv)); [done|by eexists|lia]. }
  unfold accounted, spawn_connection in *. cbn [sv_results sv_connections sv_next_task].
  rewrite seq_S, map_to_list_insert by done. cbn [fmap list_fmap fst]. rewrite <- Ha.
  rewrite <- Permutation_middle, Nat.add_0_l. by rewrite Permutation_cons_append.
Qed.
Lemma join_accounted task r sv :
  accounted sv -> is_Some (sv_connections sv !! task) -> accounted (join_connection task r sv).
Proof.
  intros Ha [c Hc]. unfold accounted, join_connection in *. cbn [sv_results sv_connections sv_next_task].
  rewrite <- Ha, fmap_app, <- app_assoc. cbn. apply Permutation_app_head.
  by rewrite <- (map_to_list_delete (sv_connections sv) task c Hc).
Qed.
Lemma abort_accounted aborted tasks sv :
  accounted sv -> NoDup tasks -> (forall t, t ∈ tasks -> is_Some (sv_connections sv !! t)) ->
  let sv' := foldr (fun task sv => join_connection task (aborted task) sv) sv tasks in
  accounted sv' /\ sv_next_task sv' = sv_next_task sv /\
  forall t, sv_connections sv' !! t = if bool_decide (t ∈ tasks) then None else sv_connections sv !! t.
Proof.
  induction tasks as [|t tasks IH]; intros Ha Hnd Hin; cbn [foldr].
  { split_and!; [done..|]. intros t. by rewrite bool_decide_eq_false_2 by apply not_elem_of_nil. }
  apply NoDup_cons in Hnd as [Hnt Hnd]. destruct IH as (Ha' & Hn & Hl); [done|done|intros; apply Hin; by right|].
  split_and!; [|done|].
  - apply join_accounted; [done|]. rewrite Hl, bool_decide_eq_false_2 by done. apply Hin. by left.
  - intros t'. cbn [join_connection sv_connections]. destruct (decide (t' = t)) as [->|Hd].
    + by rewrite lookup_delete_eq, bool_decide_eq_true_2 by by left.
    + rewrite lookup_delete_ne, Hl by done.
      by rewrite (bool_decide_ext (t' ∈ t :: tasks) (t' ∈ tasks)) by (rewrite elem_of_cons; tauto).
Qed.

(** However the events come, the loop accounts for every task, and when it ends
    by a signal none is left running: every connection that was accepted has been
    joined, once. *)
Theorem accept_loop_joins aborted events sv :
  accounted sv ->
  let '(o, sv') := accept_connections aborted events sv in
  accounted sv' /\ (sv_next_task sv <= sv_next_task sv')%nat /\
  match o with
  | Ok true => sv_connections sv' = ∅ /\ (sv_results sv').*1 ≡ₚ seq 0 (sv_next_task sv')
  | Ok false => True
  | Err e => e = ServerIo /\ exists before l after, events = before ++ l :: after /\
               (l = Signal false \/ exists k, l = Accepted k false)
  | Panic => False
  end.
Proof.
  revert sv. induction events as [|[ok|l ok|task r] events IH]; intros sv Ha; cbn [accept_connections]; [done|..].
  - destruct ok; cbn; [|split_and!; [done..|]; by exists [], (Signal false), events; auto].
    destruct (abort_accounted aborted (map_to_list (sv_connections sv)).*1 sv Ha) as (Ha' & Hn & Hl).
    { apply NoDup_fst_map_to_list. }
    { intros t Ht. apply list_elem_of_fmap in Ht as ([t' c] & -> & Hin). apply elem_of_map_to_list in Hin. by eexists. }
    fold (abort_all aborted sv) in *. assert (sv_connections (abort_all aborted sv) = ∅) as Hempty.
    { apply map_eq. intros t. rewrite lookup_empty, Hl. case_bool_decide as Ht; [done|].
      destruct (sv_connections sv !! t) as [c|] eqn:E; [|done]. destruct Ht. apply list_elem_of_fmap.
      exists (t, c). split; [done|]. by apply elem_of_map_to_list. }
    split_and!; [done|lia|done|]. unfold accounted in Ha'. rewrite Hempty, map_to_list_empty in Ha'. cbn in Ha'.
    by rewrite app_nil_r in Ha'.
  - destruct ok; cbn; [|split_and!; [done..|]; exists [], (Accepted l false), events; eauto].
    specialize (IH (spawn_connection l sv) (spawn_accounted l sv Ha)).
    destruct (accept_connections aborted events (spawn_connection l sv)) as [[[]|e|] sv'];
      destruct IH as (? & ? & Ho); cbn [spawn_connection sv_next_task] in *; split_and!; try (done || lia); try apply Ho.
    destruct Ho as (_ & before & x & after & -> & Hx). by exists (Accepted l true :: before), x, after.
  - cbn. assert (exists sv1, (if bool_decide (is_Some (sv_connections sv !! task)) then modify (join_connection task r) else ret tt) sv
                      = (Ok (E := ServerError) tt, sv1) /\ accounted sv1 /\ sv_next_task sv1 = sv_next_task sv) as (sv1 & Hrun & Ha1 & Hn1).
    { case_bool_decide as Hr; eexists; (split; [reflexivity|]); [|done]. by split; [apply join_accounted|]. }
    unfold bind. cbn. rewrite Hrun. specialize (IH sv1 Ha1). rewrite Hn1 in IH.
    destruct (accept_connections aborted events sv1) as [[[]|e|] sv']; destruct IH as (? & ? & Ho);
      split_and!; try (done || lia); try apply Ho.
    destruct Ho as (_ & before & x & after & -> & Hx). by exists (Joined task r :: before), x, after.
Qed.

(* ------------------------------------------------------------------ *)
(** ** The monitor beside the loop                                      *)
(* ------------------------------------------------------------------ *)

Section monitor.
Context `{!Crc32} (cc : ClusterConfig) {Net : Type}.
Context (query : Z -> string -> Z -> Net -> option Z).

(** [start_leader_monitor], for as many ticks: it returns at once on a broker that
    is not the controller, and a cycle that fails is tried again at the next tick. *)
Definition start_leader_monitor (ticks : nat) : SM (Broker * Net * gmap (string * Z) Z) ConnectionError unit :=
  if is_controller cc
  then for_each (seq 0 ticks) (fun _ => attempt (monitor_partition_leaders cc query))
  else ret tt.
End monitor.

(* ------------------------------------------------------------------ *)
(** ** The shutdown                                                     *)
(* ------------------------------------------------------------------ *)

Section shutdown.
Context {Q : Type -> Type} `{!Channel Q} `{!ChannelLaws Q} `{!Crc32} (settings : StorageSettings).

(** [drop(storage); storage_worker.await??]: without senders the worker ends when
    its queue is empty, and the broker with it. *)
Definition stop_storage (env : nat -> Ambient) (st : StorageQueue (Q := Q)) : outcome ServerError unit * StorageQueue (Q := Q) :=
  let st := fold_left (fun st i => work settings (env i) st) (seq 0 (queue_depth st)) st in
  (if qs_alive st then Ok tt else Err StorageWorkerFailed, st).
(** The end of [run]: the accept loop, and then the storage. *)
Definition run_server (aborted : nat -> TaskResult) (events : list ServerEvent) (env : nat -> Ambient)
    (sv : Server) (st : StorageQueue (Q := Q)) : outcome ServerError bool * (Server * StorageQueue (Q := Q)) :=
  match accept_connections aborted events sv with
  | (Ok true, sv) => let '(o, st) := stop_storage env st in (obind o (fun _ => Ok true), (sv, st))
  | (o, sv) => (o, (sv, st))
  end.

(** A shutdown drops no command: when it succeeds, the worker has run every
    command that was not refused, in the order in which they were asked for. *)
Theorem shutdown_drains capacity w0 calls st env :
  queue_run settings capacity w0 calls st ->
  let '(o, st') := stop_storage env st in
  match o with
  | Ok _ => exists jobs,
      Sorted.StronglySorted lt (job_ids jobs) /\ qs_worker st' = snd (run_jobs settings jobs w0) /\
      (forall id c env, (id, c, env) ∈ jobs -> calls !! id = Some c) /\
      (forall id, (id < length calls)%nat -> id ∈ job_ids jobs \/ qs_answers st' !! id = Some Busy)
  | Err e => e = StorageWorkerFailed /\ qs_alive st' = false
  | Panic => False
  end.
Proof.
  intros Hrun. destruct (run_served _ _ _ _ _ Hrun) as [jobs Hs]. unfold stop_storage.
  destruct (drained_served settings (env <$> seq 0 (queue_depth st)) _ _ _ _ Hs) as (jobs' & Hs' & Hnone).
  { rewrite length_fmap, length_seq. unfold pending, queue_depth. destruct (qs_alive st); cbn; lia. }
  replace (fold_left _ (env <$> _) _) with
    (fold_left (fun st i => work settings (env i) st) (seq 0 (queue_depth st)) st) in Hs', Hnone.
  2: { generalize (seq 0 (queue_depth st)). clear. intros l. revert st. induction l as [|i l IH]; intros st; cbn; auto. }
  set (st' := fold_left _ _ _) in *. destruct (qs_alive st') eqn:Halive; [|done].
  exists jobs'. pose proof (sv_order _ _ _ _ _ Hs') as Ho. apply sorted_prefix in Ho. split_and!; [done|by apply Hs'|..].
  - intros id c e Hin. pose proof (sv_jobs _ _ _ _ _ Hs') as HF. rewrite Forall_forall in HF. by apply HF in Hin.
  - intros id Hid. destruct (sv_all _ _ _ _ _ Hs' id Hid) as [?|[Hin|[?|[? _]]]]; auto; [|congruence].
    rewrite Hnone in Hin. by apply not_elem_of_nil in Hin.
Qed.
End shutdown.
