(* ===== verification/Daemon.v ===== *)
(** * Daemon: the program [sevlamqd] ([bin/sevlamqd/src/main.rs]) and the tasks that
    [run] of [crates/broker/src/lib.rs] keeps beside its accept loop. *)

From stdpp Require Import base numbers list strings gmap.
From Stdlib Require Import ZArith Lia.
From S2P Require Import Prelude Text Files Protocol Record Log Storage Leadership Worker Topics Groups Config Broker Requests Startup Server.

(* ------------------------------------------------------------------ *)
(** ** [main]                                                           *)
(* ------------------------------------------------------------------ *)

Inductive AppError :=
| AppConfig (e : ConfigError)
| AppBroker (e : BrokerError).

(** [env::args_os().nth(1)]; the first argument is the program. *)
Definition config_path (args : list string) : string := default "config/sevlamq.toml" (args !! 1%nat).

Section main.
Context `{!Crc32}.
(** The TOML parser, and the files that can be read as text. *)
Context (from_str : string -> option Config) (files : string -> option string).

(** [main], up to the accept loop of [run]. *)
Definition main (args : list string) (env : Surroundings)
  : SM Startup.Disk AppError (Broker.ClusterConfig * Broker) :=
  config <- lift (omap_err AppConfig (from_file from_str (files (config_path args)))) ;;
  map_err AppBroker (run env config).

(** Without a configuration that can be read the disk is not touched; with one,
    [main] is [run]. *)
Lemma main_unconfigured args env d :
  (forall text, files (config_path args) = Some text -> from_str text = None) ->
  exists e, main args env d = (Err (AppConfig e), d).
Proof.
  intros Hf. unfold main, from_file. destruct (files (config_path args)) as [text|]; [|by eexists].
  rewrite (Hf text eq_refl). by eexists.
Qed.
Lemma main_runs args env text config d :
  files (config_path args) = Some text -> from_str text = Some config ->
  main args env d = map_err AppBroker (run env config) d.
Proof. intros Hf Hp. unfold main, from_file. by rewrite Hf, Hp. Qed.
End main.

(* ------------------------------------------------------------------ *)
(** ** The tasks beside the accept loop                                 *)
(* ------------------------------------------------------------------ *)

Section tasks.
Context `{!Crc32} (cc : Broker.ClusterConfig) {Net : Type}.
Context (query : Z -> string -> Z -> Net -> option Z).
(** How many fetches a recovery makes at most. *)
Context (fuel : nat).
Abbreviation Fetch := (Z -> string -> Z -> Z -> outcome ConnectionError (list FetchedRecord)).
Abbreviation site A := (SM (Broker * Net * gmap (string * Z) Z) ConnectionError A).
Definition on_own {A} (m : broker A) : site A := fun s => let '(o, b) := m s.1.1 in (o, (b, s.1.2, s.2)).

(** A tick of the follower's recovery, with what the controller and the leaders
    answer, or one of the leader monitor. *)
Inductive Tick :=
| RecoveryTick (topics : outcome ConnectionError (list TopicMetadata)) (fetch : Fetch)
| MonitorTick.
Definition tick (t : Tick) : site unit :=
  match t with
  | RecoveryTick topics fetch => on_own (follower_cycle cc fuel topics fetch)
  | MonitorTick => start_leader_monitor cc query 1
  end.
(** [start_follower_recovery], for as many ticks. *)
Definition start_follower_recovery (answers : list (outcome ConnectionError (list TopicMetadata) * Fetch)) : broker unit :=
  for_each answers (fun a => follower_cycle cc fuel a.1 a.2).
(** [start_cluster_workers] until [stop_cluster_workers] aborts them: the ticks of
    both tasks as they come. *)
Definition cluster_workers (ticks : list Tick) : site unit := for_each ticks tick.

(** On a broker that is not the controller the monitor does nothing. *)
Lemma controller_only_monitors ticks s :
  is_controller cc = false -> Forall (fun t => t = MonitorTick) ticks -> cluster_workers ticks s = (Ok tt, s).
Proof.
  intros Hc HF. unfold cluster_workers. induction HF as [|t ticks -> _ IH]; [done|].
  cbn [for_each tick]. unfold start_leader_monitor. rewrite Hc. exact IH.
Qed.
End tasks.
