(* ===== verification/Client.v ===== *)
(** * Client: [crates/client/src/lib.rs], the protocol client.

    A [Client] is a connection to one broker; a request for another broker goes
    over a connection made for it.  The network is an interface: connections are
    numbered, and writing and reading are what the operating system does. *)

From stdpp Require Import base numbers list strings gmap.
From Stdlib Require Import ZArith Lia.
From S2P Require Import Prelude Text Protocol Record Addr.

Inductive ClientError :=
| ClientIo
| ClientProtocol (e : ProtocolError)
| ConnectionClosed
| UnexpectedResponse
| InvalidBrokerAddress
| EmptyCluster
| InvalidPartition
| UnknownLeader (id : Z)
| BatchSpansPartitions
| Server (message : string)
| StillWaiting. (* the model's: the response is not complete after as many reads as allowed *)

Class Network (Net : Type) := {
  net_connect : SocketAddr -> SM Net ClientError Z;
  net_write : Z -> bytes -> SM Net ClientError unit;
  net_read : Z -> SM Net ClientError bytes
}.

Record Client := {
  cl_address : SocketAddr;
  cl_stream : Z;
  cl_read : bytes;
  cl_write : bytes
}.

Section client.
Context `{!Crc32} `{!Zstd} {Net : Type} `{!Network Net}.
Abbreviation client A := (SM (Client * Net) ClientError A).

Definition set_cl_read (c : Client) (b : bytes) : Client :=
  {| cl_address := cl_address c; cl_stream := cl_stream c; cl_read := b; cl_write := cl_write c |}.
Definition set_cl_write (c : Client) (b : bytes) : Client :=
  {| cl_address := cl_address c; cl_stream := cl_stream c; cl_read := cl_read c; cl_write := b |}.
(** Codecs on the two buffers, and the network. *)
Definition on_write_buffer {A} (m : codec A) : client A := fun s =>
  let '(o, b) := m (cl_write s.1) in (omap_err ClientProtocol o, (set_cl_write s.1 b, s.2)).
Definition on_read_buffer {A} (m : codec A) : client A := fun s =>
  let '(o, b) := m (cl_read s.1) in (omap_err ClientProtocol o, (set_cl_read s.1 b, s.2)).
Definition on_network {A} (m : SM Net ClientError A) : client A := fun s =>
  let '(o, n) := m s.2 in (o, (s.1, n)).
(** Protocol checks that touch no buffer. *)
Definition checked_request {A} (m : SM unit ProtocolError A) : client A := lift (omap_err ClientProtocol (fst (m tt))).

(** [Client::connect] *)
Definition connect (address : SocketAddr) : SM Net ClientError Client :=
  stream <- net_connect address ;;
  ret {| cl_address := address; cl_stream := stream; cl_read := []; cl_write := [] |}.

(** The loop of [request]; [reads] bounds how often it reads. *)
Fixpoint receive_response (reads : nat) : client Response :=
  response <- on_read_buffer decode_response ;;
  match response with
  | Some (PError message) => throw (Server message)
  | Some response => ret response
  | None =>
      match reads with
      | O => throw StillWaiting
      | Datatypes.S reads =>
          s <- get ;;
          chunk <- on_network (net_read (cl_stream s.1)) ;;
          modify (fun s => (set_cl_read s.1 (cl_read s.1 ++ chunk), s.2)) ;;;
          reject_if (bool_decide (chunk = [])) ConnectionClosed ;;;
          receive_response reads
      end
  end.

Context (reads : nat).
Definition request (r : Request) : client Response :=
  on_write_buffer (encode_request r) ;;;
  s <- get ;;
  on_network (net_write (cl_stream s.1) (cl_write s.1)) ;;;
  modify (fun s => (set_cl_write s.1 [], s.2)) ;;;
  receive_response reads.
Definition request_at (address : SocketAddr) (r : Request) : client Response :=
  s <- get ;;
  if bool_decide (address = cl_address s.1) then request r
  else fun s =>
    match connect address s.2 with
    | (Ok c, n) => let '(o, (_, n)) := request r (c, n) in (o, (s.1, n))
    | (Err e, n) => (Err e, (s.1, n))
    | (Panic, n) => (Panic, (s.1, n))
    end.

(** What an operation takes of a response. *)
Definition expect {A} (f : Response -> option A) (m : client Response) : client A :=
  response <- m ;; ok_or (f response) UnexpectedResponse.
Definition as_produce_ack (p : Response) := match p with PProduceAck a => Some a | _ => None end.
Definition as_batch_ack (p : Response) := match p with PProduceBatchAck a => Some a | _ => None end.
Definition as_topics (p : Response) := match p with PTopics ts => Some ts | _ => None end.
Definition as_topic (p : Response) := match p with PTopics [t] => Some t | _ => None end.
Definition as_metadata (p : Response) := match p with PClusterMetadata m => Some m | _ => None end.
Definition as_leadership (p : Response) := match p with PLeadershipChanged l => Some l | _ => None end.
Definition as_status (p : Response) := match p with PPartitionStatus o => Some o | _ => None end.
Definition as_fetch (p : Response) := match p with PFetch r => Some r | _ => None end.
Definition as_join (p : Response) := match p with PJoinGroup r => Some r | _ => None end.
Definition as_committed (p : Response) := match p with PCommittedOffset o => Some o | _ => None end.
Definition as_group_ack (p : Response) := match p with PGroupAck => Some tt | _ => None end.

(* ------------------------------------------------------------------ *)
(** ** Routing                                                          *)
(* ------------------------------------------------------------------ *)

Definition node_address (n : ClusterNode) : client SocketAddr :=
  ok_or (endpoint_addr (cn_host n) (cn_port n)) InvalidBrokerAddress.
Definition controller_address (cluster : ClusterMetadata) : client SocketAddr :=
  match cm_nodes cluster with
  | n :: _ => node_address n
  | [] => throw EmptyCluster
  end.
Definition topic_leader_address (cluster : ClusterMetadata) (topic : TopicMetadata) (partition : Z)
  : client SocketAddr :=
  leader_id <- ok_or (tm_leaders topic !! Z.to_nat partition) InvalidPartition ;;
  n <- ok_or (List.find (fun n => cn_id n =? leader_id) (cm_nodes cluster)) (UnknownLeader leader_id) ;;
  node_address n.

(** [key.map_or(0, |key| hash(key) % partitions)]; a remainder by zero panics. *)
Definition key_partition (key : option bytes) (partitions : Z) : client Z :=
  match key with
  | None => ret 0
  | Some key => if partitions =? 0 then panic else ret (crc32 key mod partitions)
  end.
Definition produce_key (key : bytes) (producer : option ProducerIdentity) : option bytes :=
  match key with
  | [] => match producer with Some p => Some (as_bytes (pi_id p)) | None => None end
  | _ => Some key
  end.
Definition record_key (r : BatchRecord) : option bytes :=
  match br_key r with [] => None | key => Some key end.

(* ------------------------------------------------------------------ *)
(** ** Operations                                                       *)
(* ------------------------------------------------------------------ *)

Definition cluster_metadata : client ClusterMetadata := expect as_metadata (request RClusterMetadata).
Definition is_single (cluster : ClusterMetadata) : bool := Nat.eqb (length (cm_nodes cluster)) 1.
Definition own_address : client SocketAddr := s <- get ;; ret (cl_address s.1).

Definition create_topic (topic : string) (partitions : Z) : client TopicMetadata :=
  cluster <- cluster_metadata ;;
  address <- controller_address cluster ;;
  expect as_topic (request_at address (RCreateTopic {| ct_topic := topic; ct_partitions := partitions |})).
Definition apply_topic (address : SocketAddr) (topic : string) (partitions : Z) : client unit :=
  _ts <- expect as_topics (request_at address (RCreateTopic {| ct_topic := topic; ct_partitions := partitions |})) ;;
  ret tt.
Definition list_topics : client (list TopicMetadata) :=
  cluster <- cluster_metadata ;;
  address <- controller_address cluster ;;
  expect as_topics (request_at address RListTopics).
Definition describe_topic (topic : string) : client TopicMetadata :=
  cluster <- cluster_metadata ;;
  address <- controller_address cluster ;;
  expect as_topic (request_at address (RDescribeTopic topic)).
Definition promote_leader (topic : string) (partition leader_id : Z) : client PartitionLeadership :=
  cluster <- cluster_metadata ;;
  address <- controller_address cluster ;;
  expect as_leadership (request_at address
    (RPromoteLeader {| plr_topic := topic; plr_partition := partition; plr_leader_id := leader_id |})).
Definition apply_leadership (address : SocketAddr) (topic : string) (l : PartitionLeadership) : client unit :=
  _l <- expect as_leadership (request_at address (RApplyLeadership {| alr_topic := topic; alr_leadership := l |})) ;;
  ret tt.
Definition partition_status (address : SocketAddr) (topic : string) (partition : Z) : client Z :=
  expect as_status (request_at address (RPartitionStatus {| psr_topic := topic; psr_partition := partition |})).

Definition produce (topic : string) (key payload : bytes) (ack_mode : AckMode)
    (producer : option ProducerIdentity) : client ProduceAck :=
  cluster <- cluster_metadata ;;
  r <- checked_request (ProduceRequest_new topic key payload ack_mode producer) ;;
  if is_single cluster then
    address <- own_address ;; expect as_produce_ack (request_at address (RProduce r))
  else
    metadata <- describe_topic topic ;;
    partition <- key_partition (produce_key key producer) (tm_partitions metadata) ;;
    address <- topic_leader_address cluster metadata partition ;;
    expect as_produce_ack (request_at address (RProduce (ProduceRequest_with_partition r partition))).

(** [records.iter().any(|r| !r.key.is_empty() && hash(&r.key) % partitions != partition)] *)
Fixpoint spans (records : list BatchRecord) (partitions partition : Z) : client bool :=
  match records with
  | [] => ret false
  | r :: records =>
      match record_key r with
      | None => spans records partitions partition
      | Some key =>
          p <- key_partition (Some key) partitions ;;
          if p =? partition then spans records partitions partition else ret true
      end
  end.
Definition produce_batch (r : ProduceBatchRequest) : client (list ProduceAck) :=
  cluster <- cluster_metadata ;;
  if is_single cluster then
    address <- own_address ;; expect as_batch_ack (request_at address (RProduceBatch r))
  else
    metadata <- describe_topic (pb_topic r) ;;
    partition <- key_partition (head (pb_records r) ≫= record_key) (tm_partitions metadata) ;;
    several <- spans (pb_records r) (tm_partitions metadata) partition ;;
    reject_if several BatchSpansPartitions ;;;
    address <- topic_leader_address cluster metadata partition ;;
    expect as_batch_ack (request_at address (RProduceBatch (ProduceBatchRequest_with_partition r partition))).

Definition fetch (topic : string) (partition offset max_bytes max_wait_ms : Z) : client FetchResponse :=
  r <- checked_request (FetchRequest_new topic partition offset max_bytes max_wait_ms) ;;
  cluster <- cluster_metadata ;;
  address <- (if is_single cluster then own_address
              else metadata <- describe_topic topic ;; topic_leader_address cluster metadata partition) ;;
  expect as_fetch (request_at address (RFetch r)).

Definition join_group (group topic member : string) : client JoinGroupResponse :=
  expect as_join (request (RJoinGroup {| gm_group := group; gm_topic := topic; gm_member := member |})).
Definition group_ack (r : Request) : client unit := expect as_group_ack (request r).
Definition heartbeat (group topic member : string) (generation : Z) : client unit :=
  group_ack (RHeartbeat {| gg_group := group; gg_topic := topic; gg_member := member; gg_generation := generation |}).
Definition leave_group (group topic member : string) (generation : Z) : client unit :=
  group_ack (RLeaveGroup {| gg_group := group; gg_topic := topic; gg_member := member; gg_generation := generation |}).
Definition commit_offset (r : CommitOffsetRequest) : client unit := group_ack (RCommitOffset r).
Definition committed_offset (group topic : string) (partition : Z) : client (option Z) :=
  expect as_committed (request (RFetchCommittedOffset
    {| fc_group := group; fc_topic := topic; fc_partition := partition |})).
Definition group_fetch (r : GroupFetchRequest) : client FetchResponse := expect as_fetch (request (RGroupFetch r)).
End client.
