(* ===== verification/Rpc.v ===== *)
(** * Rpc: a client and a broker over a connection.

    [Link] is a connection between a [Client] and the loop of
    [handle_connection]: what the client writes is fed to the loop, and what the
    loop writes is read by the client, in pieces of any size in both directions.
    It is an instance of the client's [Network]. *)

From stdpp Require Import base numbers list strings gmap.
From Stdlib Require Import ZArith Lia.
From S2P Require Import Prelude Text Files Runs Protocol Wire ProtocolFacts RoundTrip ResponseTrip CodecSafety Codec Record RecordFacts Log LogRep Storage Groups Leadership Worker WorkerSpec Topics Addr Broker Replication Cluster Requests Serving Connection Connections Client.

(* ------------------------------------------------------------------ *)
(** ** The connection                                                   *)
(* ------------------------------------------------------------------ *)

(** The pieces that [sizes] cut_at [b] into; none is empty. *)
Fixpoint cut_at (sizes : list nat) (b : bytes) : list bytes :=
  match b, sizes with
  | [], _ => []
  | _, [] => [b]
  | _, n :: sizes => take (S n) b :: cut_at sizes (drop (S n) b)
  end.
Lemma concat_cut sizes b : concat (cut_at sizes b) = b.
Proof.
  revert b. induction sizes as [|n sizes IH]; intros [|x b]; cbn; rewrite ?app_nil_r; [done..|].
  by rewrite IH, take_drop.
Qed.
Lemma cut_at_nonempty sizes b : b <> [] -> cut_at sizes b <> [].
Proof. by destruct b, sizes. Qed.

Record Link (St : Type) := {
  lk_conn : Conn St;
  lk_open : bool;
  lk_pending : bytes;
  lk_sizes : list nat
}.
Arguments lk_conn {St} _.
Arguments lk_open {St} _.
Arguments lk_pending {St} _.
Arguments lk_sizes {St} _.

Section link.
Context `{!Zstd} {St : Type} (handle : Request -> SM St ConnectionError Response).

(** The body of the loop of [handle_connection], for the pieces that arrive. *)
Definition feed (chunks : list bytes) : SM (Conn St) ConnectionError unit :=
  for_each chunks (fun chunk => receive chunk ;;; serve_frames decode_request handle encode_response).

Definition link_write (b : bytes) : SM (Link St) ClientError unit := fun l =>
  if lk_open l then
    let c := {| cn_read := cn_read (lk_conn l); cn_written := []; cn_state := cn_state (lk_conn l) |} in
    let '(o, c') := feed (cut_at (lk_sizes l) b) c in
    (Ok tt, {| lk_conn := c'; lk_open := is_ok o; lk_pending := lk_pending l ++ cn_written c';
               lk_sizes := lk_sizes l |})
  else (Err ClientIo, l).
(** At least a byte if there is one; nothing at the end of the stream. *)
Definition link_read : SM (Link St) ClientError bytes := fun l =>
  match lk_pending l with
  | [] => (if lk_open l then Err StillWaiting else Ok [], l)
  | _ =>
      let n := S (default O (head (lk_sizes l))) in
      (Ok (take n (lk_pending l)),
       {| lk_conn := lk_conn l; lk_open := lk_open l; lk_pending := drop n (lk_pending l);
          lk_sizes := tail (lk_sizes l) |})
  end.
#[local] Instance link_network : Network (Link St) :=
  {| net_connect := fun _ => throw ClientIo; net_write := fun _ => link_write; net_read := fun _ => link_read |}.

(* ------------------------------------------------------------------ *)
(** ** The broker's side                                                *)
(* ------------------------------------------------------------------ *)

Abbreviation frames := (serve_frames decode_request handle encode_response).

(** Feeding pieces is serving them at once. *)
Lemma feed_frames chunks c :
  chunks <> [] ->
  match frames (extend c (concat chunks)) with
  | (Ok _, c') => feed chunks c = (Ok tt, c')
  | (o, c') => same_effect (feed chunks c) (o, c')
  end.
Proof.
  revert c. induction chunks as [|chunk chunks IH]; intros c Hne; [done|]. clear Hne. unfold feed in *. cbn [concat for_each].
  assert (forall m : SM (Conn St) ConnectionError unit, ((receive chunk ;;; frames) ;;; m) c = (frames ;;; m) (extend c chunk)) as Hrec by done.
  rewrite Hrec. destruct chunks as [|next chunks].
  { cbn [concat for_each]. rewrite app_nil_r. unfold bind, ret.
    by destruct (frames (extend c chunk)) as [[[]|e|] c']. }
  set (rest := next :: chunks) in *. rewrite <- extend_app.
  pose proof (frames_more decode_request handle encode_response (extend c chunk) (concat rest)) as Hmore.
  assert (forall m : SM (Conn St) ConnectionError unit, (frames ;;; m) (extend c chunk) =
    match frames (extend c chunk) with
    | (Ok _, c') => m c' | (Err e, c') => (Err e, c') | (Panic, c') => (Panic, c')
    end) as Hbind by (intros m; reflexivity).
  rewrite !Hbind. destruct (frames (extend c chunk)) as [[u|e|] c1].
  - rewrite Hmore. by apply IH.
  - destruct (frames (extend (extend c chunk) (concat rest))) as [[u'|e'|] c2]; destruct Hmore as (Ho & ? & ?); try done; by split_and!.
  - destruct (frames (extend (extend c chunk) (concat rest))) as [[u'|e'|] c2]; destruct Hmore as (Ho & ? & ?); try done; by split_and!.
Qed.

Definition idle (st : St) : Conn St := {| cn_read := []; cn_written := []; cn_state := st |}.
(** What a whole request makes of a connection that waits for one. *)
Lemma feed_request `{!ZstdOk} r w sizes st :
  wf_request r -> encode_request r [] = (Ok tt, w) ->
  let '(o, st') := handle r st in
  cn_state (snd (feed (cut_at sizes w) (idle st))) = st' /\
  match o with
  | Ok p => wf_response p -> blen (wire_response p) <= MAX_FRAME_SIZE ->
      feed (cut_at sizes w) (idle st) =
      (Ok tt, {| cn_read := []; cn_written := frame (wire_response p); cn_state := st' |})
  | _ => is_ok (fst (feed (cut_at sizes w) (idle st))) = false /\
         cn_written (snd (feed (cut_at sizes w) (idle st))) = []
  end.
Proof.
  intros Hwf Henc. pose proof (encode_request_layout _ _ _ _ Henc Hwf) as [Hw He]. cbn [app] in Hw.
  assert (w <> []) as Hne.
  { intros ->. pose proof (wire_request_size r Hwf He) as Hsz. apply (f_equal blen) in Hw.
    unfold frame in Hw. rewrite blen_app, blen_be, blen_nil in Hw. clear -Hw Hsz. lia. }
  assert (forall rest, decode_request (w ++ rest) = (Ok (Some r), rest)) as Hdec
    by (intros rest; rewrite Hw; by apply decode_request_wire).
  pose proof (feed_frames (cut_at sizes w) (idle st) (cut_at_nonempty sizes w Hne)) as Hfeed. rewrite concat_cut in Hfeed.
  assert (frames (extend (idle st) w) =
    (answer_request handle encode_response r ;;; frames) (idle st)) as Hframes.
  { rewrite (frames_eq decode_request handle encode_response). unfold bind at 1, on_read, extend, idle. cbn [cn_read cn_written cn_state app].
    specialize (Hdec []). rewrite app_nil_r in Hdec. by rewrite Hdec. }
  rewrite Hframes in Hfeed. unfold answer_request, bind at 1 2, on_state in Hfeed. cbn [idle cn_state cn_read cn_written] in Hfeed.
  destruct (handle r st) as [[p|e|] st'].
  - unfold send_response in Hfeed. cbn [cn_state cn_read cn_written] in Hfeed.
    destruct (encode_response p []) as [[u|e|] v] eqn:Hp.
    + rewrite (frames_eq decode_request handle encode_response) in Hfeed. unfold bind, on_read in Hfeed. cbn [cn_state cn_read cn_written] in Hfeed.
      change (decode_request []) with (Ok (E := ProtocolError) (None (A := Request)), [] : bytes) in Hfeed.
      cbn in Hfeed. rewrite Hfeed. split; [done|]. intros Hpw Hsz.
      pose proof (encode_response_run p [] Hpw Hsz) as Hrun. rewrite Hp in Hrun. cbn [app] in Hrun. injection Hrun as -> ->. done.
    + destruct Hfeed as (_ & _ & Hst). split; [exact Hst|]. intros Hpw Hsz.
      pose proof (encode_response_run p [] Hpw Hsz). congruence.
    + destruct Hfeed as (_ & _ & Hst). split; [exact Hst|]. intros Hpw Hsz.
      pose proof (encode_response_run p [] Hpw Hsz). congruence.
  - destruct Hfeed as (Ho & Hw' & Hst). split; [exact Hst|]. by rewrite Ho.
  - destruct Hfeed as (Ho & Hw' & Hst). split; [exact Hst|]. by rewrite Ho.
Qed.

(* ------------------------------------------------------------------ *)
(** ** The client's side                                                *)
(* ------------------------------------------------------------------ *)

Definition with_read (c : Client) (b : bytes) : Client := set_cl_read c b.
Definition server_error (p : Response) : outcome ClientError Response :=
  match p with PError message => Err (Server message) | p => Ok p end.

(** Reading a response that is on its way. *)
Lemma receive_pending reads c l p got rest :
  wf_response p -> blen (wire_response p) <= MAX_FRAME_SIZE ->
  frame (wire_response p) = got ++ rest -> (length rest <= reads)%nat ->
  cl_read c = got -> lk_pending l = rest ->
  exists l', receive_response reads (c, l) = (server_error p, (set_cl_read c [], l')) /\
    lk_conn l' = lk_conn l /\ lk_open l' = lk_open l /\ lk_pending l' = [].
Proof.
  intros Hwf Hsz. revert c l got rest. induction reads as [|reads IH]; intros c l got rest Hf Hlen Hc Hl;
    cbn [receive_response]; unfold bind at 1, on_read_buffer; cbn [fst snd].
  all: destruct (decide (rest = [])) as [Hnil|Hne].
  1, 3: assert (decode_response (cl_read c) = (Ok (Some p), [])) as Hdec by
    (rewrite Hc; rewrite Hnil, app_nil_r in Hf; rewrite <- Hf, <- (app_nil_r (frame _)); by apply decode_response_wire).
  1, 2: rewrite Hdec; cbn [omap_err]; exists l; (split; [by destruct p|]); by rewrite Hl.
  { destruct rest; [done|]. cbn in Hlen. lia. }
  assert (decode_response (cl_read c) = (Ok None, cl_read c)) as Hwait.
  { rewrite Hc. unfold decode_response, take_response_frame.
    rewrite (bind_Ok _ _ _ _ _ (take_frame_incomplete (wire_response p) got rest (conj (wire_response_pos p) Hsz) Hf Hne)). done. }
  rewrite Hwait. cbn [omap_err]. erewrite bind_Ok by done. cbv beta. cbn [fst snd].
  unfold bind at 1, on_network. cbn [net_read link_network snd fst]. unfold link_read.
  destruct rest as [|b rest0] eqn:Hrest; [done|]. rewrite Hl. set (n := S _).
  erewrite bind_Ok by done. cbv beta. cbn [fst snd].
  rewrite (bool_decide_eq_false_2 (take n (b :: rest0) = [])) by done.
  erewrite bind_Ok by done. cbv beta.
  set (l1 := {| lk_pending := drop n (b :: rest0) |}). set (c1 := set_cl_read _ _).
  destruct (IH c1 l1 (got ++ take n (b :: rest0)) (drop n (b :: rest0))) as (l' & Hrun & H1 & H2 & H3).
  - by rewrite <- app_assoc, take_drop.
  - rewrite length_drop. subst n. cbn [length] in *. lia.
  - subst c1. cbn. by rewrite Hc.
  - done.
  - exists l'. split; [|done]. rewrite Hrun. done.
Qed.
(** Reading at the end of the stream. *)
Lemma receive_closed reads c l :
  (0 < reads)%nat -> cl_read c = [] -> lk_pending l = [] -> lk_open l = false ->
  receive_response reads (c, l) = (Err ConnectionClosed, (set_cl_read c [], l)).
Proof.
  intros Hr Hc Hp Ho. destruct reads as [|reads]; [lia|]. cbn [receive_response].
  assert (on_read_buffer decode_response (c, l) = (Ok None, (set_cl_read c [], l))) as Hdec
    by (unfold on_read_buffer; cbn [fst snd]; by rewrite Hc).
  rewrite (bind_Ok _ _ _ _ _ Hdec). cbv beta iota. erewrite bind_Ok by done. cbv beta.
  assert (on_network (net_read (cl_stream (set_cl_read c [], l).1)) (set_cl_read c [], l) =
          (Ok [], (set_cl_read c [], l))) as Hread.
  { unfold on_network. cbn [fst snd net_read link_network]. unfold link_read. by rewrite Hp, Ho. }
  rewrite (bind_Ok _ _ _ _ _ Hread). cbv beta. by erewrite bind_Ok by done.
Qed.

(** A connection between requests. *)
Record ready (c : Client) (l : Link St) : Prop := {
  rd_read : cl_read c = [];
  rd_write : cl_write c = [];
  rd_open : lk_open l = true;
  rd_pending : lk_pending l = [];
  rd_received : cn_read (lk_conn l) = []
}.

Lemma request_run `{!ZstdOk} reads r c l :
  ready c l -> wf_request r -> encodable r -> (0 < reads)%nat ->
  let '(o, st') := handle r (cn_state (lk_conn l)) in
  (forall p, o = Ok p -> wf_response p /\ blen (wire_response p) <= MAX_FRAME_SIZE /\
     blen (frame (wire_response p)) <= Z.of_nat reads) ->
  exists c' l', request reads r (c, l) =
      (match o with Ok p => server_error p | _ => Err ConnectionClosed end, (c', l')) /\
    cl_address c' = cl_address c /\ cn_state (lk_conn l') = st' /\ (is_ok o = true -> ready c' l').
Proof.
  intros [Hcr Hcw Hop Hpe Hre] Hwf He Hreads.
  pose proof (encode_request_run r [] Hwf He) as Henc. cbn [app] in Henc.
  set (w := frame (wire_request r)) in *.
  pose proof (feed_request r w (lk_sizes l) (cn_state (lk_conn l)) Hwf Henc) as Hfeed.
  destruct (handle r (cn_state (lk_conn l))) as [o st'] eqn:Hh. intros Hresp.
  set (fd := feed (cut_at (lk_sizes l) w) (idle (cn_state (lk_conn l)))) in *.
  set (l1 := {| lk_conn := snd fd; lk_open := is_ok (fst fd); lk_pending := cn_written (snd fd);
                lk_sizes := lk_sizes l |}).
  assert (request reads r (c, l) = receive_response reads (c, l1)) as Hrun.
  { unfold request. assert (on_write_buffer (encode_request r) (c, l) = (Ok tt, (set_cl_write c w, l))) as H1
      by (unfold on_write_buffer; cbn [fst snd]; by rewrite Hcw, Henc).
    rewrite (bind_Ok _ _ _ _ _ H1). cbv beta. erewrite bind_Ok by done. cbv beta.
    assert (on_network (net_write (cl_stream (set_cl_write c w, l).1) (cl_write (set_cl_write c w, l).1))
              (set_cl_write c w, l) = (Ok tt, (set_cl_write c w, l1))) as H2.
    { unfold on_network. cbn [fst snd net_write link_network set_cl_write cl_write]. unfold link_write.
      rewrite Hop, Hre, Hpe. fold (idle (cn_state (lk_conn l))). fold fd. cbn [app]. subst l1. by destruct fd. }
    rewrite (bind_Ok _ _ _ _ _ H2). cbv beta. erewrite bind_Ok by done. cbv beta. cbn [fst snd].
    f_equal. f_equal. destruct c. cbn in *. by rewrite Hcw. }
  rewrite Hrun. destruct Hfeed as [Hst Hfeed]. destruct o as [p|e|].
  { destruct (Hresp p eq_refl) as (Hpw & Hpsz & Hrd). specialize (Hfeed Hpw Hpsz).
    destruct (receive_pending reads c l1 p [] (frame (wire_response p)) Hpw Hpsz) as (l2 & Hrec & H1 & H2 & H3).
    + done.
    + unfold blen in Hrd. lia.
    + done.
    + subst l1. cbn [lk_pending]. by rewrite Hfeed.
    + exists (set_cl_read c []), l2. split; [exact Hrec|]. split; [done|]. rewrite H1. split; [exact Hst|].
      intros _. split; [done|by destruct c| |done|].
      * rewrite H2. subst l1. cbn [lk_open]. by rewrite Hfeed.
      * rewrite H1. subst l1. cbn [lk_conn]. by rewrite Hfeed. }
  all: destruct Hfeed as [Hok Hwr]; exists (set_cl_read c []), l1; split; [|done].
  all: by apply receive_closed.
Qed.
End link.

(* ------------------------------------------------------------------ *)
(** ** Routing                                                          *)
(* ------------------------------------------------------------------ *)

Section routing.
Context `{!Crc32} {Net : Type} `{!Network Net}.
Implicit Types s : Client * Net.

Lemma key_partition_run k n s : 0 < n -> key_partition (Some k) n s = (Ok (crc32 k mod n), s).
Proof. intros Hn. unfold key_partition. by rewrite (proj2 (Z.eqb_neq n 0)) by lia. Qed.
Lemma spans_run rs n p s :
  0 < n ->
  exists b, spans rs n p s = (Ok b, s) /\
    (b = false <-> Forall (fun r => forall k, record_key r = Some k -> crc32 k mod n = p) rs).
Proof.
  intros Hn. induction rs as [|r rs (b & IH & Hb)]; cbn [spans]; [by exists false|].
  destruct (record_key r) as [k|] eqn:Hk.
  - rewrite (bind_Ok _ _ _ _ _ (key_partition_run k n s Hn)). cbv beta.
    destruct (Z.eqb_spec (crc32 k mod n) p) as [He|Hne].
    + exists b. split; [done|]. rewrite Hb, Forall_cons, Hk. split; [intros HF; split; [by intros ? [= <-]|done]|by intros [_ ?]].
    + exists true. split; [done|]. split; [done|]. rewrite Forall_cons, Hk. intros [Hp _]. by destruct Hne, (Hp k eq_refl).
  - exists b. split; [done|]. rewrite Hb, Forall_cons, Hk. split; [by intros HF; split|by intros [_ ?]].
Qed.
End routing.

(* ------------------------------------------------------------------ *)
(** ** Properties                                                       *)
(* ------------------------------------------------------------------ *)


(** C20 Clients and brokers put a key into the same partition: the partition that
    the client computes for a produce, from the key or else the producer's id, is
    the one where a broker that is not told a partition would store the record,
    and the broker that is told stores it there; a batch is sent for a partition
    only if every keyed record in it belongs there. *)
Theorem routing_agrees `{!Crc32} {Net} `{!Network Net} (s : Client * Net) w r n k rs topic p b :
  0 < n -> pr_partition r = None -> produce_key (pr_key r) (pr_producer r) = Some k ->
  spans rs n p s = (Ok b, s) ->
  exists q, key_partition (produce_key (pr_key r) (pr_producer r)) n s = (Ok q, s) /\
    choose_partition (produce_input r) n w = (Ok q, w) /\
    choose_partition (produce_input (ProduceRequest_with_partition r q)) n w = (Ok q, w) /\
    (b = false <-> forall record, record ∈ rs -> br_key record <> [] ->
       choose_partition (batch_input topic None record) n w = (Ok p, w)).
Proof.
  intros Hn Hnone Hk Hspans. exists (crc32 k mod n). rewrite Hk, (key_partition_run k n s Hn).
  split; [done|]. assert (routing_key (pr_key r) (ai_producer (produce_input r)) = Some k) as Hrk.
  { revert Hk. unfold routing_key, produce_key. cbn. destruct (pr_key r); cbn; [|done]. by destruct (pr_producer r). }
  split; [unfold choose_partition; cbn; rewrite Hnone; cbn in Hrk; by rewrite Hrk|]. split.
  - unfold choose_partition. cbn. pose proof (Z.mod_pos_bound (crc32 k) n Hn).
    rewrite (proj2 (Z.leb_gt _ _)) by lia. done.
  - destruct (spans_run rs n p s Hn) as (b' & Hrun & Hb). rewrite Hspans in Hrun. injection Hrun as <-.
    rewrite Hb, Forall_forall. apply forall_proper. intros x. unfold record_key, choose_partition, batch_input, routing_key. cbn.
    destruct (br_key x) as [|y ys]; cbn.
    + split; [by intros|]. by intros _ _ ? ?.
    + split.
      * intros Hx Hin _. by rewrite (Hx Hin _ eq_refl).
      * intros Hx Hin ? [= <-]. specialize (Hx Hin ltac:(done)). by injection Hx.
Qed.

#[local] Existing Instance length_crc.
#[local] Existing Instance stored_zstd.
#[local] Existing Instance stored_zstd_ok.
#[local] Instance sample_message : OsMessage := "file not found".
Definition sample_client : Client :=
  {| cl_address := SocketAddrV4 [127; 0; 0; 1] 7400; cl_stream := 0; cl_read := []; cl_write := [] |}.
Definition linked (b : Broker) : Link (Broker * unit) :=
  {| lk_conn := idle (b, tt); lk_open := true; lk_pending := []; lk_sizes := [2; 0; 3; 1]%nat |}.

Definition keyed_produce (key : string) : ProduceRequest :=
  {| pr_topic := "payments"; pr_partition := None; pr_key := as_bytes key; pr_payload := as_bytes "one";
     pr_ack_mode := AckDurable; pr_producer := None |}.
Definition keyed_records (keys : list string) : list BatchRecord :=
  (fun key => {| br_key := as_bytes key; br_payload := as_bytes "one" |}) <$> keys.
Lemma routing_agrees_witness :
  let _network := link_network sample_handler in
  let s := (sample_client, linked (fst controller)) in
  exists q, key_partition (produce_key (pr_key (keyed_produce "order-7")) None) 3 s = (Ok q, s) /\
    choose_partition (produce_input (keyed_produce "order-7")) 3 fresh_worker = (Ok q, fresh_worker) /\
    choose_partition (produce_input (ProduceRequest_with_partition (keyed_produce "order-7") q)) 3 fresh_worker
      = (Ok q, fresh_worker) /\
    (true = false <-> forall record, record ∈ keyed_records ["order-7"; ""; "order-11"] -> br_key record <> [] ->
       choose_partition (batch_input "payments" None record) 3 fresh_worker = (Ok 1, fresh_worker)).
Proof.
  intros _network s.
  apply (routing_agrees s fresh_worker (keyed_produce "order-7") 3 (as_bytes "order-7")
           (keyed_records ["order-7"; ""; "order-11"]) "payments" 1 true); [lia|reflexivity|reflexivity|].
  vm_compute. reflexivity.
Defined.

(** A session with a broker of its own: a topic is created, two records are
    produced, one waits to be read from its partition. *)
Definition lone_config : ClusterConfig :=
  {| cc_metadata := {| cm_responding_broker_id := 1;
       cm_nodes := [{| cn_id := 1; cn_host := "127.0.0.1"; cn_port := 7400; cn_admin_port := 7401;
                       cn_replication_port := 7402 |}] |};
     cc_replication_factor := 1; cc_min_in_sync_replicas := 1; cc_settings := sample_settings |}.
Definition lone_broker : Broker :=
  {| bk_worker := fresh_worker;
     bk_leadership := {| lr_dir := ∅; lr_cluster := cc_metadata lone_config; lr_entries := ∅ |};
     bk_groups := bk_groups single_broker; bk_outbox := []; bk_tasks := [] |}.
Definition lone_handler (r : Request) : SM (Broker * unit) ConnectionError Response :=
  answered (process_request lone_config sample_world no_network controller_query r).
Definition session : SM (Client * Link (Broker * unit)) ClientError (ProduceAck * FetchResponse) :=
  let _network := link_network lone_handler in
  _m <- Client.create_topic 100 "payments" 3 ;;
  _a <- produce 100 "payments" (as_bytes "order-11") (as_bytes "one") AckDurable None ;;
  ack <- produce 100 "payments" (as_bytes "order-7") (as_bytes "two") AckDurable None ;;
  records <- fetch 100 "payments" (pa_partition ack) 0 1000 0 ;;
  ret (ack, records).
Example session_runs :
  fst (session (sample_client, linked lone_broker)) =
  Ok ({| pa_partition := 1; pa_offset := 0 |},
      {| fp_records := [{| fd_offset := 0; fd_timestamp_ms := 5; fd_key := Some (as_bytes "order-7");
                           fd_value := as_bytes "two" |}] |}).
Proof. vm_compute. reflexivity. Qed.
