(* ===== verification/Host.v ===== *)
(** * Host: what the commands of the command-line client work with.

    The operations of the client library ([ClientApi], which [Client] implements)
    and the machine the command runs on ([Host]: processes, clock, signals,
    standard output and the heartbeat task). *)

From stdpp Require Import base numbers list strings gmap.
From Stdlib Require Import ZArith Lia.
From S2P Require Import Prelude Text Protocol Record Addr Client.

Inductive CliError :=
| CliClient (e : ClientError)
| CliProtocol (e : ProtocolError)
| CliOffsetOverflow
| AttemptOverflow
| RetryEnvelopeTooLarge
| InvalidRetryEnvelope
| InvalidSystemTime
| MissingHandlerStdin
| CliIo.

(** The client library over a state that holds the current client. *)
Class ClientApi (St : Type) := {
  api_connect : SocketAddr -> SM St ClientError unit;
  api_produce : string -> bytes -> bytes -> AckMode -> option ProducerIdentity -> SM St ClientError ProduceAck;
  api_produce_batch : ProduceBatchRequest -> SM St ClientError (list ProduceAck);
  api_fetch : string -> Z -> Z -> Z -> Z -> SM St ClientError FetchResponse;
  api_create_topic : string -> Z -> SM St ClientError TopicMetadata;
  api_list_topics : SM St ClientError (list TopicMetadata);
  api_describe_topic : string -> SM St ClientError TopicMetadata;
  api_cluster_metadata : SM St ClientError ClusterMetadata;
  api_promote_leader : string -> Z -> Z -> SM St ClientError PartitionLeadership;
  api_join : string -> string -> string -> SM St ClientError JoinGroupResponse;
  api_heartbeat : string -> string -> string -> Z -> SM St ClientError unit;
  api_leave : string -> string -> string -> Z -> SM St ClientError unit;
  api_commit : CommitOffsetRequest -> SM St ClientError unit;
  api_committed_offset : string -> string -> Z -> SM St ClientError (option Z);
  api_group_fetch : GroupFetchRequest -> SM St ClientError FetchResponse
}.

(** How a process ended: killed at its timeout, or with a status, whose text is
    given, and what it wrote to its standard error. *)
Inductive ProcessResult :=
| TimedOut
| Exited (success : bool) (status : string) (stderr : bytes).

Class Host (St : Type) := {
  run_process : string -> Z -> bytes -> SM St CliError ProcessResult;
  clock : SM St CliError Z;
  sleep : Z -> SM St CliError unit;
  println : string -> SM St CliError unit;
  eprintln : string -> SM St CliError unit;
  (** a signal arrives before the response to the next fetch *)
  interrupted : SM St CliError bool;
  spawn_heartbeat : Z -> SM St CliError unit;
  heartbeat_finished : SM St CliError bool;
  stop_heartbeat : SM St CliError unit
}.

Definition of_client {St A} (m : SM St ClientError A) : SM St CliError A := map_err CliClient m.
(** [let _ = ...]: the error is dropped. *)
Definition ignore {St E A} (m : SM St E A) : SM St E unit := fun s =>
  match m s with
  | (Ok _, s') | (Err _, s') => (Ok tt, s')
  | (Panic, s') => (Panic, s')
  end.

Section instance.
Context `{!Crc32} `{!Zstd} {Net : Type} `{!Network Net}.
Definition reconnect (address : SocketAddr) : SM (Client * Net) ClientError unit := fun s =>
  match connect address s.2 with
  | (Ok c, n) => (Ok tt, (c, n))
  | (Err e, n) => (Err e, (s.1, n))
  | (Panic, n) => (Panic, (s.1, n))
  end.
#[export] Instance client_api (reads : nat) : ClientApi (Client * Net) := {|
  api_connect := reconnect;
  api_produce := produce reads;
  api_produce_batch := produce_batch reads;
  api_fetch := fetch reads;
  api_create_topic := create_topic reads;
  api_list_topics := list_topics reads;
  api_describe_topic := describe_topic reads;
  api_cluster_metadata := cluster_metadata reads;
  api_promote_leader := promote_leader reads;
  api_join := join_group reads;
  api_heartbeat := heartbeat reads;
  api_leave := leave_group reads;
  api_commit := commit_offset reads;
  api_committed_offset := committed_offset reads;
  api_group_fetch := group_fetch reads
|}.
End instance.
