(* ===== verification/Retry.v ===== *)
(** * Retry: [bin/sevlamq-cli/src/commands/retry.rs].

    A message that a handler rejects is published again, in an envelope that
    keeps where it came from, to the retry topic of its attempt or, after the last
    one, to the dead-letter topic. *)

From stdpp Require Import base numbers list strings gmap.
From Stdlib Require Import ZArith Lia.
From S2P Require Import Prelude Text Runs Protocol Record Addr Client Host.

Definition MAGIC : bytes := as_bytes "SVR1".
Definition MAX_ERROR_BYTES : nat := 4096.

Record MessageContext := {
  mc_original_topic : string;
  mc_original_partition : Z;
  mc_original_offset : Z;
  mc_original_timestamp_ms : Z;
  mc_attempt : Z;
  mc_available_at_ms : Z;
  mc_key : bytes;
  mc_payload : bytes
}.

(* ------------------------------------------------------------------ *)
(** ** Envelopes                                                        *)
(* ------------------------------------------------------------------ *)

(** [encode_envelope], on an empty buffer. *)
Definition encode_envelope (context : MessageContext) (attempt available_at_ms : Z) (error : string)
  : outcome CliError bytes :=
  let error := take MAX_ERROR_BYTES (as_bytes error) in
  let '(o, encoded) :=
    (topic_len <- try_from U16_MAX (str_len (mc_original_topic context)) RetryEnvelopeTooLarge ;;
     error_len <- try_from U16_MAX (blen error) RetryEnvelopeTooLarge ;;
     payload_len <- try_from U32_MAX (blen (mc_payload context)) RetryEnvelopeTooLarge ;;
     key_len <- try_from U32_MAX (blen (mc_key context)) RetryEnvelopeTooLarge ;;
     put_slice MAGIC ;;;
     put_u32 attempt ;;;
     put_u64 available_at_ms ;;;
     put_u32 (mc_original_partition context) ;;;
     put_u64 (mc_original_offset context) ;;;
     put_u64 (mc_original_timestamp_ms context) ;;;
     put_u16 topic_len ;;;
     put_u16 error_len ;;;
     put_u32 key_len ;;;
     put_u32 payload_len ;;;
     put_slice (as_bytes (mc_original_topic context)) ;;;
     put_slice error ;;;
     put_slice (mc_key context) ;;;
     put_slice (mc_payload context) ;;;
     len <- remaining ;;
     reject_if (MAX_MESSAGE_SIZE <? len) RetryEnvelopeTooLarge) [] in
  obind o (fun _ => Ok encoded).

(** The fields of an envelope; [usize] has 64 bits. *)
Definition decode_envelope_fields : SM bytes CliError MessageContext :=
  len <- remaining ;;
  reject_if (len <? 48) InvalidRetryEnvelope ;;;
  advance (blen MAGIC) ;;;
  attempt <- get_u32 ;;
  available_at_ms <- get_u64 ;;
  original_partition <- get_u32 ;;
  original_offset <- get_u64 ;;
  original_timestamp_ms <- get_u64 ;;
  topic_len <- get_u16 ;;
  error_len <- get_u16 ;;
  key_len <- get_u32 ;;
  payload_len <- get_u32 ;;
  required <- ok_or (size ← checked_add topic_len error_len;
                     size ← checked_add size key_len;
                     checked_add size payload_len) InvalidRetryEnvelope ;;
  len <- remaining ;;
  reject_if (negb (len =? required)) InvalidRetryEnvelope ;;;
  topic <- split_to topic_len ;;
  original_topic <- ok_or (from_utf8 topic) InvalidRetryEnvelope ;;
  advance error_len ;;;
  key <- split_to key_len ;;
  payload <- split_to payload_len ;;
  ret {| mc_original_topic := original_topic; mc_original_partition := original_partition;
         mc_original_offset := original_offset; mc_original_timestamp_ms := original_timestamp_ms;
         mc_attempt := attempt; mc_available_at_ms := available_at_ms; mc_key := key;
         mc_payload := payload |}.
Definition decode_envelope (record : FetchedRecord) : outcome CliError MessageContext :=
  fst (decode_envelope_fields (fd_value record)).

Definition context (consumed_topic : string) (partition : Z) (record : FetchedRecord)
  : outcome CliError MessageContext :=
  if negb (bytes_prefix MAGIC (fd_value record)) then
    Ok {| mc_original_topic := consumed_topic; mc_original_partition := partition;
          mc_original_offset := fd_offset record; mc_original_timestamp_ms := fd_timestamp_ms record;
          mc_attempt := 0; mc_available_at_ms := 0; mc_key := default [] (fd_key record);
          mc_payload := fd_value record |}
  else decode_envelope record.

(* ------------------------------------------------------------------ *)
(** ** Where a failure goes                                             *)
(* ------------------------------------------------------------------ *)

(** [format!("{v:08x}")] of a [u32]. *)
Definition hex_digit (d : Z) : byte := byte_of_Z (if d <? 10 then 48 + d else 87 + d).
Definition hex8 (v : Z) : string :=
  of_bytes ((fun i => hex_digit (v / 16 ^ i mod 16)) <$> [7; 6; 5; 4; 3; 2; 1; 0]).

(** A [crc32fast::Hasher] hashes what it is given one after the other. *)
Definition retry_producer_id `{!Crc32} (group : string) (context : MessageContext) (attempt : Z)
    (destination : string) : string :=
  "retry-" +:+
  hex8 (crc32 (as_bytes group ++ as_bytes (mc_original_topic context) ++
               be 4 (mc_original_partition context) ++ be 8 (mc_original_offset context) ++
               be 4 attempt ++ as_bytes destination)) +:+
  "-" +:+ show_uint attempt.
Definition format_delay (delay_ms : Z) : string :=
  if delay_ms mod 1000 =? 0 then show_uint (delay_ms / 1000) +:+ "s" else show_uint delay_ms +:+ "ms".

(** The topic, the attempt and the time of what is published. *)
Definition destination (context : MessageContext) (retry_delays_ms : list Z) (now : outcome CliError Z)
  : outcome CliError (string * Z * Z) :=
  match retry_delays_ms !! Z.to_nat (mc_attempt context) with
  | Some delay =>
      if mc_attempt context + 1 <=? U32_MAX then
        obind now (fun now =>
        Ok (mc_original_topic context +:+ ".retry." +:+ format_delay delay, mc_attempt context + 1,
            saturating_add now delay))
      else Err AttemptOverflow
  | None =>
      obind now (fun now => Ok (mc_original_topic context +:+ ".DLQ", mc_attempt context, now))
  end.
(** [now_ms], of a time in milliseconds that may be before the epoch. *)
Definition now_ms (time : Z) : outcome CliError Z :=
  if (time <? 0) || (U64_MAX <? time) then Err InvalidSystemTime else Ok time.

Section handling.
Context {St : Type} `{!Host St}.

Definition read_clock : SM St CliError Z := time <- clock ;; lift (now_ms time).
Definition wait_until_available (context : MessageContext) : SM St CliError unit :=
  now <- read_clock ;;
  if now <? mc_available_at_ms context then sleep (mc_available_at_ms context - now) else ret tt.

(** The verdict on a process that ended: nothing, or the text of the failure. *)
Definition handler_verdict (timeout_ms : Z) (result : ProcessResult) : option string :=
  match result with
  | TimedOut => Some ("handler timed out after " +:+ show_uint timeout_ms +:+ "ms")
  | Exited true _ _ => None
  | Exited false status stderr =>
      let error := trim (from_utf8_lossy (take MAX_ERROR_BYTES stderr)) in
      if is_empty error then Some ("handler exited with status " +:+ status) else Some error
  end.
Definition run_handler (handler : option string) (timeout_ms : Z) (payload : bytes)
  : SM St CliError (option string) :=
  match handler with
  | None => ret None
  | Some handler => result <- run_process handler timeout_ms payload ;; ret (handler_verdict timeout_ms result)
  end.

Context `{!Crc32} `{!ClientApi St}.
Definition publish_failure (group : string) (context : MessageContext) (error : string)
    (retry_delays_ms : list Z) : SM St CliError string :=
  time <- clock ;;
  let* (topic, next_attempt, available_at_ms) :=
    lift (destination context retry_delays_ms (now_ms time)) in
  envelope <- lift (encode_envelope context next_attempt available_at_ms error) ;;
  let producer_id := retry_producer_id group context next_attempt topic in
  let routing_key := if bool_decide (mc_key context = []) then as_bytes producer_id else mc_key context in
  _ack <- of_client (api_produce topic routing_key envelope AckDurable
                       (Some {| pi_id := producer_id; pi_sequence := 0 |})) ;;
  ret topic.
End handling.
