(* ===== verification/RetryFacts.v ===== *)
(** * RetryFacts: what an envelope keeps, and where a message goes that keeps failing. *)

From stdpp Require Import base numbers list strings gmap.
From Stdlib Require Import ZArith Lia.
From S2P Require Import Prelude Text Runs Protocol Record Addr Client Host Retry.

(* ------------------------------------------------------------------ *)
(** ** Envelopes                                                        *)
(* ------------------------------------------------------------------ *)

(** A context that a consumer can have. *)
Definition wf_context (c : MessageContext) : Prop :=
  is_str (mc_original_topic c) /\ is_u32 (mc_original_partition c) /\ is_u64 (mc_original_offset c) /\
  is_u64 (mc_original_timestamp_ms c) /\ is_u32 (mc_attempt c) /\ is_u64 (mc_available_at_ms c).

Definition with_attempt (c : MessageContext) (attempt available_at_ms : Z) : MessageContext :=
  {| mc_original_topic := mc_original_topic c; mc_original_partition := mc_original_partition c;
     mc_original_offset := mc_original_offset c; mc_original_timestamp_ms := mc_original_timestamp_ms c;
     mc_attempt := attempt; mc_available_at_ms := available_at_ms; mc_key := mc_key c;
     mc_payload := mc_payload c |}.

(** The layout of an envelope. *)
Definition wire_envelope (c : MessageContext) (error : bytes) : bytes :=
  MAGIC ++ be 4 (mc_attempt c) ++ be 8 (mc_available_at_ms c) ++ be 4 (mc_original_partition c) ++
  be 8 (mc_original_offset c) ++ be 8 (mc_original_timestamp_ms c) ++
  be 2 (str_len (mc_original_topic c)) ++ be 2 (blen error) ++ be 4 (blen (mc_key c)) ++
  be 4 (blen (mc_payload c)) ++ as_bytes (mc_original_topic c) ++ error ++ mc_key c ++ mc_payload c.
Definition ENVELOPE_HEADER : Z := 48.
Definition envelope_size (c : MessageContext) (error : bytes) : Z :=
  ENVELOPE_HEADER + str_len (mc_original_topic c) + blen error + blen (mc_key c) + blen (mc_payload c).
Definition cut_error (error : string) : bytes := take MAX_ERROR_BYTES (as_bytes error).

Lemma blen_MAGIC : blen MAGIC = 4.
Proof. reflexivity. Qed.
Lemma blen_wire_envelope c error : blen (wire_envelope c error) = envelope_size c error.
Proof.
  unfold wire_envelope, envelope_size, ENVELOPE_HEADER, str_len. autorewrite with blen. rewrite blen_MAGIC. lia.
Qed.
Lemma blen_cut_error error : blen (cut_error error) <= 4096.
Proof. unfold cut_error, blen, MAX_ERROR_BYTES. rewrite length_take. lia. Qed.

(** An encoder ends with the envelope exactly if it fits. *)
Lemma encode_envelope_exact c attempt at_ms error :
  encode_envelope c attempt at_ms error =
  (if (str_len (mc_original_topic c) <=? U16_MAX) &&
      (envelope_size c (cut_error error) <=? MAX_MESSAGE_SIZE)
   then Ok (wire_envelope (with_attempt c attempt at_ms) (cut_error error))
   else Err RetryEnvelopeTooLarge).
Proof.
  pose proof (blen_cut_error error) as Herr. unfold encode_envelope. fold (cut_error error).
  pose proof (blen_wire_envelope (with_attempt c attempt at_ms) (cut_error error)) as Hlen.
  unfold envelope_size, ENVELOPE_HEADER in *. cbn [with_attempt mc_original_topic mc_key mc_payload] in Hlen.
  generalize dependent (cut_error error). intros e Herr Hlen. cbv zeta.
  pose proof (blen_nonneg (mc_payload c)). pose proof (blen_nonneg (mc_key c)). pose proof (blen_nonneg e).
  unfold try_from at 1. unfold str_len in *. pose proof (blen_nonneg (as_bytes (mc_original_topic c))).
  destruct (Z.leb_spec (blen (as_bytes (mc_original_topic c))) U16_MAX); [cbn [andb]|done].
  unfold try_from, bind at 1, ret at 1.
  destruct (Z.leb_spec (blen e) U16_MAX) as [_|]; [|unfold U16_MAX in *; lia].
  unfold bind at 1, ret at 1.
  destruct (Z.leb_spec (48 + blen (as_bytes (mc_original_topic c)) + blen e + blen (mc_key c) + blen (mc_payload c)) MAX_MESSAGE_SIZE) as [Hfit|Hbig].
  - destruct (Z.leb_spec (blen (mc_payload c)) U32_MAX) as [_|]; [|unfold U32_MAX, MAX_MESSAGE_SIZE in *; lia].
    destruct (Z.leb_spec (blen (mc_key c)) U32_MAX) as [_|]; [|unfold U32_MAX, MAX_MESSAGE_SIZE in *; lia].
    unfold put_u16, put_u32, put_u64, put_slice, bind, ret, modify, remaining, gets, reject_if.
    rewrite app_nil_l, <- !app_assoc.
    change (MAGIC ++ _) with (wire_envelope (with_attempt c attempt at_ms) e). rewrite Hlen.
    by destruct (Z.ltb_spec MAX_MESSAGE_SIZE (48 + blen (as_bytes (mc_original_topic c)) + blen e + blen (mc_key c) + blen (mc_payload c))); [lia|].
  - destruct (Z.leb_spec (blen (mc_payload c)) U32_MAX) as [_|]; [|done].
    unfold bind at 1, ret at 1. destruct (Z.leb_spec (blen (mc_key c)) U32_MAX) as [_|]; [|done].
    unfold put_u16, put_u32, put_u64, put_slice, bind, ret, modify, remaining, gets, reject_if.
    rewrite app_nil_l, <- !app_assoc.
    change (MAGIC ++ _) with (wire_envelope (with_attempt c attempt at_ms) e). rewrite Hlen.
    by destruct (Z.ltb_spec MAX_MESSAGE_SIZE (48 + blen (as_bytes (mc_original_topic c)) + blen e + blen (mc_key c) + blen (mc_payload c))); [|lia].
Qed.

Lemma bytes_prefix_app p l : bytes_prefix p (p ++ l) = true.
Proof. induction p as [|x p IH]; [done|]. cbn. by rewrite bool_decide_true. Qed.

(** An envelope is decoded to the context it was made of. *)
Lemma decode_envelope_fields_wire c error :
  wf_context c -> str_len (mc_original_topic c) <= U16_MAX -> envelope_size c error <= MAX_MESSAGE_SIZE ->
  blen error <= 4096 ->
  decode_envelope_fields (wire_envelope c error) = (Ok c, []).
Proof.
  intros (Hs & ? & ? & ? & ? & ?) Ht Hsz He. unfold envelope_size, ENVELOPE_HEADER, MAX_MESSAGE_SIZE, U16_MAX, str_len in *.
  pose proof (blen_wire_envelope c error) as Hlen. unfold envelope_size, ENVELOPE_HEADER, str_len in Hlen.
  pose proof (blen_nonneg (mc_payload c)). pose proof (blen_nonneg (mc_key c)). pose proof (blen_nonneg error).
  pose proof (blen_nonneg (as_bytes (mc_original_topic c))).
  unfold decode_envelope_fields. unfold remaining at 1, bind at 1, gets. rewrite Hlen.
  unfold bind at 1, reject_if. destruct (Z.ltb_spec (48 + blen (as_bytes (mc_original_topic c)) + blen error + blen (mc_key c) + blen (mc_payload c)) 48); [lia|].
  cbn [ret]. unfold wire_envelope, str_len.
  rewrite <- (app_nil_r (mc_payload c)) at 2. unfold advance.
  run_all.
  unfold checked_add. cbn [mbind option_bind].
  destruct (Z.leb_spec (blen (as_bytes (mc_original_topic c)) + blen error) U64_MAX); [|range]. cbn [mbind option_bind].
  destruct (Z.leb_spec (blen (as_bytes (mc_original_topic c)) + blen error + blen (mc_key c)) U64_MAX); [|range]. cbn [mbind option_bind].
  destruct (Z.leb_spec (blen (as_bytes (mc_original_topic c)) + blen error + blen (mc_key c) + blen (mc_payload c)) U64_MAX); [|range].
  erewrite bind_Ok by reflexivity. erewrite bind_Ok by reflexivity. autorewrite with blen.
  erewrite bind_Ok; [|apply reject_if_false; apply negb_false_iff, Z.eqb_eq; lia].
  run_all. rewrite (bind_Ok _ _ _ _ _ (ok_or_Some _ _ _ _ (from_utf8_as_bytes _ Hs))). run_all. by destruct c.
Qed.

Lemma context_of_envelope c error topic partition record :
  wf_context c -> str_len (mc_original_topic c) <= U16_MAX -> envelope_size c error <= MAX_MESSAGE_SIZE ->
  blen error <= 4096 -> fd_value record = wire_envelope c error ->
  context topic partition record = Ok c.
Proof.
  intros Hwf Ht Hsz He Hv. unfold context, decode_envelope. rewrite Hv, decode_envelope_fields_wire by done.
  unfold wire_envelope. by rewrite bytes_prefix_app.
Qed.

(** Of a message that is no envelope the context is the message itself. *)
Lemma context_of_message topic partition record :
  bytes_prefix MAGIC (fd_value record) = false ->
  context topic partition record =
  Ok {| mc_original_topic := topic; mc_original_partition := partition;
        mc_original_offset := fd_offset record; mc_original_timestamp_ms := fd_timestamp_ms record;
        mc_attempt := 0; mc_available_at_ms := 0; mc_key := default [] (fd_key record);
        mc_payload := fd_value record |}.
Proof. unfold context. by intros ->. Qed.

(** Text that only looks like an envelope is refused, whatever else it holds. *)
Lemma context_refuses_short topic partition record :
  bytes_prefix MAGIC (fd_value record) = true -> blen (fd_value record) < ENVELOPE_HEADER ->
  context topic partition record = Err InvalidRetryEnvelope.
Proof.
  unfold context, decode_envelope, ENVELOPE_HEADER. intros -> Hl. cbn [negb].
  unfold decode_envelope_fields, bind at 1, remaining, gets.
  by destruct (Z.ltb_spec (blen (fd_value record)) 48); [|lia].
Qed.

(* ------------------------------------------------------------------ *)
(** ** A message that keeps failing                                     *)
(* ------------------------------------------------------------------ *)

(** The topic of the [n]th failure, from zero. *)
Definition route (topic : string) (retry_delays_ms : list Z) (n : nat) : string :=
  match retry_delays_ms !! n with
  | Some delay => topic +:+ ".retry." +:+ format_delay delay
  | None => topic +:+ ".DLQ"
  end.

(** The handler rejects the message, it is published, and some record that holds
    what was published is consumed. *)
Inductive redelivered (retry_delays_ms : list Z) (c : MessageContext) : string -> MessageContext -> Prop :=
| redeliver error clock topic attempt at_ms partition record c' :
    destination c retry_delays_ms (now_ms clock) = Ok (topic, attempt, at_ms) ->
    encode_envelope c attempt at_ms error = Ok (fd_value record) ->
    context topic partition record = Ok c' ->
    redelivered retry_delays_ms c topic c'.
Inductive redeliveries (retry_delays_ms : list Z) (c : MessageContext) : list string -> MessageContext -> Prop :=
| never_failed : redeliveries retry_delays_ms c [] c
| failed_again topics c1 topic c2 :
    redeliveries retry_delays_ms c topics c1 -> redelivered retry_delays_ms c1 topic c2 ->
    redeliveries retry_delays_ms c (topics ++ [topic]) c2.

Lemma destination_spec c delays clock topic attempt at_ms :
  wf_context c -> Forall (fun d => 0 <= d) delays ->
  destination c delays (now_ms clock) = Ok (topic, attempt, at_ms) ->
  topic = route (mc_original_topic c) delays (Z.to_nat (mc_attempt c)) /\
  attempt = (if bool_decide (Z.to_nat (mc_attempt c) < length delays)%nat then mc_attempt c + 1 else mc_attempt c) /\
  is_u32 attempt /\ is_u64 at_ms.
Proof.
  intros (_ & _ & _ & _ & Ha & _) Hd. unfold destination, route, now_ms.
  assert ((clock <? 0) || (U64_MAX <? clock) = false -> is_u64 clock) as Hclock.
  { intros [?%Z.ltb_ge ?%Z.ltb_ge]%orb_false_iff. by split. }
  destruct (delays !! Z.to_nat (mc_attempt c)) as [d|] eqn:E.
  - pose proof (lookup_lt_Some _ _ _ E). rewrite bool_decide_true by done.
    apply Forall_lookup_1 with (i := Z.to_nat (mc_attempt c)) (x := d) in Hd; [|done].
    destruct (Z.leb_spec (mc_attempt c + 1) U32_MAX); [|done].
    destruct ((clock <? 0) || _); [done|]. specialize (Hclock eq_refl). cbn. intros [= <- <- <-].
    split_and!; [done..|range|unfold saturating_add; range].
  - pose proof (lookup_ge_None_1 _ _ E). rewrite bool_decide_false by lia.
    destruct ((clock <? 0) || _); [done|]. specialize (Hclock eq_refl). cbn. by intros [= <- <- <-].
Qed.

Lemma redelivered_spec c delays topic c' :
  wf_context c -> Forall (fun d => 0 <= d) delays -> redelivered delays c topic c' ->
  topic = route (mc_original_topic c) delays (Z.to_nat (mc_attempt c)) /\ wf_context c' /\
  exists at_ms, c' = with_attempt c
    (if bool_decide (Z.to_nat (mc_attempt c) < length delays)%nat then mc_attempt c + 1 else mc_attempt c) at_ms.
Proof.
  intros Hwf Hd Hre. destruct Hre as [error clock topic attempt at_ms partition record c' Hdest Henc Hctx].
  apply destination_spec in Hdest as (-> & -> & Ha & Hat); [|done..]. rewrite encode_envelope_exact in Henc.
  destruct (_ && _) eqn:Hfit in Henc; [|done]. apply andb_true_iff in Hfit as [?%Z.leb_le ?%Z.leb_le]. injection Henc as Henc.
  set (n := if bool_decide _ then _ else _) in *.
  assert (wf_context (with_attempt c n at_ms)) as Hwf' by (destruct Hwf as (?&?&?&?&?&?); by split_and!).
  rewrite (context_of_envelope (with_attempt c n at_ms) (cut_error error)) in Hctx by (done || apply blen_cut_error).
  injection Hctx as <-. by eauto.
Qed.

Lemma redeliveries_spec c delays topics c' :
  wf_context c -> mc_attempt c = 0 -> Forall (fun d => 0 <= d) delays -> redeliveries delays c topics c' ->
  topics = route (mc_original_topic c) delays <$> seq 0 (length topics) /\ wf_context c' /\
  exists at_ms, c' = with_attempt c (Z.of_nat (Nat.min (length topics) (length delays))) at_ms.
Proof.
  intros Hwf Ha Hd Hre. induction Hre as [|topics c1 topic c2 _ (Ht & Hwf1 & at_ms & ->) Hstep].
  - split_and!; [done..|]. exists (mc_available_at_ms c).
    change (Z.of_nat _) with 0. rewrite <- Ha. by destruct c.
  - apply redelivered_spec in Hstep as (-> & Hwf2 & at2 & ->); [|done..]. split_and!; [|done|].
    + rewrite length_app, seq_app, fmap_app, <- Ht. cbn. do 2 f_equal. rewrite Nat2Z.id. unfold route.
      destruct (decide (length topics < length delays)%nat); [by rewrite Nat.min_l by lia|].
      rewrite Nat.min_r by lia. by rewrite !lookup_ge_None_2 by lia.
    + exists at2. clear Hwf2. cbn [with_attempt mc_attempt]. rewrite Nat2Z.id, length_app. unfold with_attempt; cbn. f_equal.
      case_bool_decide as Hn; cbn [length]; lia.
Qed.

Lemma redelivered_exists c delays error clock :
  wf_context c -> Z.of_nat (length delays) <= U32_MAX -> Forall (fun d => 0 <= d) delays ->
  is_u64 clock -> str_len (mc_original_topic c) <= U16_MAX ->
  envelope_size c (cut_error error) <= MAX_MESSAGE_SIZE ->
  exists topic attempt at_ms env, destination c delays (now_ms clock) = Ok (topic, attempt, at_ms) /\
    encode_envelope c attempt at_ms error = Ok env /\
    forall partition record, fd_value record = env -> exists c', context topic partition record = Ok c'.
Proof.
  intros Hwf Hl Hd Hc Ht Hsz.
  assert (exists topic attempt at_ms, destination c delays (now_ms clock) = Ok (topic, attempt, at_ms)) as (topic & attempt & at_ms & Hdest).
  { unfold destination, now_ms. replace ((clock <? 0) || (U64_MAX <? clock)) with false by (symmetry; apply orb_false_iff; range).
    destruct (delays !! Z.to_nat (mc_attempt c)) eqn:E; [|by eexists _, _, _].
    apply lookup_lt_Some in E. destruct Hwf as (_&_&_&_&[]&_).
    destruct (Z.leb_spec (mc_attempt c + 1) U32_MAX); [by eexists _, _, _|lia]. }
  exists topic, attempt, at_ms. apply destination_spec in Hdest as Hspec; [|done..]. destruct Hspec as (_ & _ & ? & ?).
  exists (wire_envelope (with_attempt c attempt at_ms) (cut_error error)). split_and!; [done| |].
  - rewrite encode_envelope_exact. replace (_ && _) with true; [done|].
    symmetry. apply andb_true_iff. by rewrite !Z.leb_le.
  - intros partition record Hv. exists (with_attempt c attempt at_ms).
    apply (context_of_envelope _ (cut_error error)); [|done..|apply blen_cut_error|done].
    destruct Hwf as (?&?&?&?&?&?). by split_and!.
Qed.

(* ------------------------------------------------------------------ *)
(** ** Properties                                                       *)
(* ------------------------------------------------------------------ *)


Definition sample_context : MessageContext :=
  {| mc_original_topic := "payments"; mc_original_partition := 2; mc_original_offset := 41;
     mc_original_timestamp_ms := 1234; mc_attempt := 0; mc_available_at_ms := 0;
     mc_key := as_bytes "customer-123"; mc_payload := as_bytes "hello" |}.
Definition sample_delays : list Z := [1000; 250].
Definition sample_envelope (attempt at_ms : Z) : FetchedRecord :=
  {| fd_offset := 7; fd_timestamp_ms := 5678; fd_key := None;
     fd_value := wire_envelope (with_attempt sample_context attempt at_ms) (as_bytes "failed") |}.
Lemma sample_redeliveries :
  redeliveries sample_delays sample_context
    ["payments.retry.1s"; "payments.retry.250ms"; "payments.DLQ"; "payments.DLQ"] (with_attempt sample_context 2 9000).
Proof.
  change (redeliveries sample_delays sample_context
    ((([] ++ ["payments.retry.1s"]) ++ ["payments.retry.250ms"]) ++ ["payments.DLQ"] ++ ["payments.DLQ"]) (with_attempt sample_context 2 9000)).
  rewrite app_assoc.
  refine (failed_again _ _ _ (with_attempt sample_context 2 8000) _ _ _ (redeliver _ _ "failed" 9000 _ 2 9000 0 (sample_envelope 2 9000) _ _ _ _)); [|vm_compute; reflexivity..].
  refine (failed_again _ _ _ (with_attempt sample_context 2 7250) _ _ _ (redeliver _ _ "failed" 8000 _ 2 8000 0 (sample_envelope 2 8000) _ _ _ _)); [|vm_compute; reflexivity..].
  refine (failed_again _ _ _ (with_attempt sample_context 1 6000) _ _ _ (redeliver _ _ "failed" 7000 _ 2 7250 0 (sample_envelope 2 7250) _ _ _ _)); [|vm_compute; reflexivity..].
  refine (failed_again _ _ _ sample_context _ _ _ (redeliver _ _ "failed" 5000 _ 1 6000 0 (sample_envelope 1 6000) _ _ _ _)); [|vm_compute; reflexivity..].
  constructor.
Qed.

