(* ===== verification/ToolTests.v ===== *)
(** * ToolTests: the tests of [crates/common] and of
    [bin/sevlamq-cli/src/commands/retry.rs], run on the model.

    The configurations that the TOML parser, a library, reads in the tests are
    given as values, with the defaults of the tables that the text leaves out. *)

From stdpp Require Import base numbers list strings gmap sorting.
From Stdlib Require Import ZArith Lia.
From S2P Require Import Prelude Text Addr Config Protocol Client Host Retry Testing.

#[export] Instance ClusterConfig_eq_dec : EqDecision ClusterConfig.
Proof. solve_decision. Defined.
#[export] Instance LoggingConfig_eq_dec : EqDecision LoggingConfig.
Proof. solve_decision. Defined.
#[export] Instance AdminConfig_eq_dec : EqDecision AdminConfig.
Proof. solve_decision. Defined.

(* ------------------------------------------------------------------ *)
(** ** Configuration                                                    *)
(* ------------------------------------------------------------------ *)

Definition LoggingConfig_default : LoggingConfig := {| lg_json := false |}.
Definition parsed_config (max_segment_bytes index_interval_bytes storage_queue_capacity : Z)
    (auto_create_topics : bool) : Config :=
  {| cf_broker :=
       {| bc_host := "127.0.0.1"; bc_port := 7400; bc_data_dir := "./data";
          bc_max_segment_bytes := max_segment_bytes;
          bc_index_interval_bytes := index_interval_bytes; bc_default_partition_count := 3;
          bc_group_session_timeout_ms := 10000; bc_retention_bytes := 0; bc_retention_ms := 0;
          bc_storage_queue_capacity := storage_queue_capacity;
          bc_storage_enqueue_timeout_ms := 100; bc_auto_create_topics := auto_create_topics |};
     cf_admin := AdminConfig_default; cf_logging := LoggingConfig_default;
     cf_cluster := ClusterConfig_default |}.

(** The end of [parses_broker_configuration]. *)
Definition broker_configuration_is_valid : test Config :=
  config <- get ;;
  nodes <- expect (lift (cluster_nodes config)) ;;
  assert_eq (length nodes) 1%nat ;;;
  addr <- expect (lift (BrokerConfig_socket_addr (cf_broker config))) ;;
  expected <- expect_some (parse_socket_addr "127.0.0.1:7400") ;;
  assert_eq addr expected.

Definition set_cluster (config : Config) (cluster : ClusterConfig) : Config :=
  {| cf_broker := cf_broker config; cf_admin := cf_admin config; cf_logging := cf_logging config;
     cf_cluster := cluster |}.
(** [validates_static_cluster_membership], after the parser. *)
Definition validates_static_cluster_membership : test Config :=
  modify (fun config => set_cluster config
    {| cg_broker_id := cg_broker_id (cf_cluster config); cg_replication_factor := 2;
       cg_min_in_sync_replicas := cg_min_in_sync_replicas (cf_cluster config);
       cg_nodes := cg_nodes (cf_cluster config) |}) ;;;
  config <- get ;;
  assert_err (lift (cluster_nodes config))
    (fun e => match e with InvalidReplicationPolicy => true | _ => false end) ;;;
  modify (fun config => set_cluster config
    {| cg_broker_id := 2; cg_replication_factor := 1; cg_min_in_sync_replicas := 1;
       cg_nodes := [ {| nc_id := 1; nc_host := "127.0.0.1"; nc_port := 7400;
                        nc_admin_port := 7401; nc_replication_port := 7402 |} ] |}) ;;;
  config <- get ;;
  assert_err (lift (cluster_nodes config))
    (fun e => match e with LocalBrokerMissing => true | _ => false end).

Lemma config_tests_pass :
  passes broker_configuration_is_valid (parsed_config 268435456 4096 1024 true) /\
  passes validates_static_cluster_membership (parsed_config 1024 64 16 false).
Proof. split; vm_compute; reflexivity. Qed.

(* ------------------------------------------------------------------ *)
(** ** Retries                                                          *)
(* ------------------------------------------------------------------ *)

Definition preserves_original_message_through_retry_envelope : test unit :=
  let original :=
    {| mc_original_topic := "payments"; mc_original_partition := 2; mc_original_offset := 41;
       mc_original_timestamp_ms := 1234; mc_attempt := 0; mc_available_at_ms := 0;
       mc_key := as_bytes "customer-123"; mc_payload := as_bytes "hello" |} in
  encoded <- expect (lift (encode_envelope original 1 9999 "temporary failure")) ;;
  let retry_record :=
    {| fd_offset := 7; fd_timestamp_ms := 5678; fd_key := None; fd_value := encoded |} in
  decoded <- expect (lift (context "payments.retry.1s" 0 retry_record)) ;;
  assert_eq (mc_original_topic decoded) "payments" ;;;
  assert_eq (mc_original_partition decoded) 2 ;;;
  assert_eq (mc_original_offset decoded) 41 ;;;
  assert_eq (mc_original_timestamp_ms decoded) 1234 ;;;
  assert_eq (mc_attempt decoded) 1 ;;;
  assert_eq (mc_available_at_ms decoded) 9999 ;;;
  assert_eq (mc_key decoded) (as_bytes "customer-123") ;;;
  assert_eq (mc_payload decoded) (as_bytes "hello").

Lemma retry_test_passes : passes preserves_original_message_through_retry_envelope tt.
Proof. vm_compute. reflexivity. Qed.
