(* ===== verification/Consume.v ===== *)
(** * Consume: [bin/sevlamq-cli/src/commands/consume.rs], the consumer of a group.

    A generation of the group: the offsets are loaded, then the assigned
    partitions are fetched in turn and every record goes to the handler, between
    or after the commits that the delivery mode asks for. *)

From stdpp Require Import base numbers list strings gmap.
From Stdlib Require Import ZArith Lia.
From S2P Require Import Prelude Text Runs Protocol Record Addr Client Host Retry.

Inductive DeliveryMode := AtMostOnce | AtLeastOnce.
#[global] Instance DeliveryMode_eq_dec : EqDecision DeliveryMode.
Proof. solve_decision. Defined.

Record Options := {
  op_topic : string;
  op_group : string;
  op_member : string;
  op_delivery : DeliveryMode;
  op_wait_ms : Z;
  op_heartbeat_ms : Z;
  op_max_bytes : Z;
  op_handler : option string;
  op_handler_timeout_ms : Z;
  op_retry_delays_ms : list Z
}.

Inductive GenerationOutcome :=
| Shutdown
| Rejoin
| StillConsuming. (* the model's: the loop goes on after as many turns as asked for *)

Section consume.
Context `{!Crc32} {St : Type} `{!ClientApi St} `{!Host St}.
Abbreviation consumer A := (SM St CliError A).
Context (options : Options).

Definition commit (generation partition offset : Z) : SM St ClientError unit :=
  api_commit {| co_group := op_group options; co_topic := op_topic options; co_member := op_member options;
                co_generation := generation; co_partition := partition; co_offset := offset |}.

(** [commit_requires_rejoin(result)] *)
Definition commit_requires_rejoin (m : SM St ClientError unit) : consumer bool := fun s =>
  match m s with
  | (Ok _, s') => (Ok false, s')
  | (Err (Server _), s') => (Ok true, s')
  | (Err e, s') => (Err (CliClient e), s')
  | (Panic, s') => (Panic, s')
  end.

(** What [load_offsets] puts into the map. *)
Fixpoint load_offsets (partitions : list Z) (offsets : gmap Z Z) : consumer (gmap Z Z) :=
  match partitions with
  | [] => ret offsets
  | partition :: partitions =>
      offset <- of_client (api_committed_offset (op_group options) (op_topic options) partition) ;;
      load_offsets partitions (<[partition := default 0 offset]> offsets)
  end.

Definition key_text (key : bytes) : string :=
  match key with [] => "-" | _ => from_utf8_lossy key end.
Definition processed_line (partition : Z) (record : FetchedRecord) (context : MessageContext) : string :=
  "partition=" +:+ show_uint partition +:+ " offset=" +:+ show_uint (fd_offset record) +:+
  " original_topic=" +:+ mc_original_topic context +:+
  " original_partition=" +:+ show_uint (mc_original_partition context) +:+
  " original_offset=" +:+ show_uint (mc_original_offset context) +:+
  " attempt=" +:+ show_uint (mc_attempt context) +:+
  " key=" +:+ key_text (mc_key context) +:+ " value=" +:+ from_utf8_lossy (mc_payload context).
Definition failed_line (partition : Z) (record : FetchedRecord) (context : MessageContext) (error destination : string) : string :=
  "partition=" +:+ show_uint partition +:+ " offset=" +:+ show_uint (fd_offset record) +:+
  " attempt=" +:+ show_uint (mc_attempt context) +:+ " failed=" +:+ error +:+ " routed_to=" +:+ destination.
Definition print_processed (partition : Z) (record : FetchedRecord) (context : MessageContext) : consumer unit :=
  println (processed_line partition record context).

(** The middle of [process_record]: the handler, and what follows its verdict. *)
Definition handle_record (partition : Z) (record : FetchedRecord) : consumer unit :=
  context <- lift (context (op_topic options) partition record) ;;
  wait_until_available context ;;;
  verdict <- run_handler (op_handler options) (op_handler_timeout_ms options) (mc_payload context) ;;
  match verdict with
  | None => print_processed partition record context
  | Some error =>
      destination <- publish_failure (op_group options) context error (op_retry_delays_ms options) ;;
      eprintln (failed_line partition record context error destination)
  end.
Definition commit_in (mode : DeliveryMode) (generation partition offset : Z) : consumer bool :=
  if bool_decide (op_delivery options = mode)
  then commit_requires_rejoin (commit generation partition offset) else ret false.
Definition process_record (generation partition : Z) (record : FetchedRecord) (next_offset : Z) : consumer bool :=
  rejoin <- commit_in AtMostOnce generation partition next_offset ;;
  if rejoin : bool then ret true
  else
    handle_record partition record ;;;
    commit_in AtLeastOnce generation partition next_offset.

(** The loop over the records of a response: the offsets, and whether to rejoin. *)
Fixpoint consume_records (generation partition : Z) (records : list FetchedRecord) (offsets : gmap Z Z)
  : consumer (gmap Z Z * bool) :=
  match records with
  | [] => ret (offsets, false)
  | record :: records =>
      next_offset <- ok_or (checked_add (fd_offset record) 1) CliOffsetOverflow ;;
      rejoin <- process_record generation partition record next_offset ;;
      if rejoin : bool then ret (offsets, true)
      else consume_records generation partition records (<[partition := next_offset]> offsets)
  end.

(** The result of a fetch: a response, a rejection by the broker, or an error. *)
Definition fetch_result {A} (m : SM St ClientError A) : consumer (option A) := fun s =>
  match m s with
  | (Ok response, s') => (Ok (Some response), s')
  | (Err (Server _), s') => (Ok None, s')
  | (Err e, s') => (Err (CliClient e), s')
  | (Panic, s') => (Panic, s')
  end.
Definition fetch_request (generation partition offset : Z) : GroupFetchRequest :=
  {| gf_group := op_group options; gf_topic := op_topic options; gf_member := op_member options;
     gf_generation := generation; gf_partition := partition; gf_offset := offset;
     gf_max_bytes := op_max_bytes options; gf_max_wait_ms := op_wait_ms options |}.

(** The loop over the partitions: how the generation ends, if it does. *)
Fixpoint consume_partitions (generation : Z) (partitions : list Z) (offsets : gmap Z Z)
  : consumer (gmap Z Z * option GenerationOutcome) :=
  match partitions with
  | [] => ret (offsets, None)
  | partition :: partitions =>
      let offset := default 0 (offsets !! partition) in
      signal <- interrupted ;;
      if signal : bool then ret (offsets, Some Shutdown)
      else
        fetched <- fetch_result (api_group_fetch (fetch_request generation partition offset)) ;;
        match fetched with
        | None => ret (offsets, Some Rejoin)
        | Some response =>
            let* (offsets, rejoin) := consume_records generation partition (fp_records response) offsets in
            if rejoin : bool then ret (offsets, Some Rejoin)
            else consume_partitions generation partitions offsets
        end
  end.

(** The loop of [consume_generation], [turns] times around. *)
Fixpoint consume_turns (turns : nat) (generation : Z) (partitions : list Z) (offsets : gmap Z Z)
  : consumer GenerationOutcome :=
  match turns with
  | O => ret StillConsuming
  | S turns =>
      finished <- heartbeat_finished ;;
      if finished : bool then ret Rejoin
      else
        match partitions with
        | [] => sleep 250 ;;; consume_turns turns generation partitions offsets
        | _ =>
            let* (offsets, outcome) := consume_partitions generation partitions offsets in
            match outcome with
            | Some outcome => ret outcome
            | None => consume_turns turns generation partitions offsets
            end
        end
  end.
Definition consume_generation (turns : nat) (generation : Z) (partitions : list Z) : consumer GenerationOutcome :=
  offsets <- load_offsets partitions ∅ ;;
  consume_turns turns generation partitions offsets.

(** The loop of [execute], over at most [generations] generations; the result
    tells whether the command ended. *)
Fixpoint execute (generations turns : nat) (broker : SocketAddr) : consumer bool :=
  match generations with
  | O => ret false
  | S generations =>
      of_client (api_connect broker) ;;;
      joined <- of_client (api_join (op_group options) (op_topic options) (op_member options)) ;;
      let generation := jg_generation joined in
      let partitions := jg_partitions joined in
      println ("generation=" +:+ show_uint generation +:+ " partitions=" +:+ debug_list partitions) ;;;
      spawn_heartbeat generation ;;;
      outcome <- consume_generation turns generation partitions ;;
      match outcome with
      | StillConsuming => ret false
      | Shutdown =>
          stop_heartbeat ;;;
          of_client (ignore (api_connect broker ;;;
                             api_leave (op_group options) (op_topic options) (op_member options) generation)) ;;;
          ret true
      | Rejoin =>
          stop_heartbeat ;;;
          eprintln "group generation changed; rejoining" ;;;
          execute generations turns broker
      end
  end.

(* ------------------------------------------------------------------ *)
(** ** The heartbeat task                                               *)
(* ------------------------------------------------------------------ *)

(** What wakes the task: its interval, or the channel [stopped], with the value
    it holds or without a sender. *)
Inductive HeartbeatEvent := Tick | StopChanged (dropped value : bool).

(** The loop of the task over the events that wake it; [None]: it still waits.
    The task has a client of its own. *)
Fixpoint heartbeat_loop (generation : Z) (events : list HeartbeatEvent) : SM St ClientError (option unit) :=
  match events with
  | [] => ret None
  | StopChanged dropped value :: events =>
      if dropped || value then ret (Some tt) else heartbeat_loop generation events
  | Tick :: events =>
      api_heartbeat (op_group options) (op_topic options) (op_member options) generation ;;;
      heartbeat_loop generation events
  end.
Definition start_heartbeat (broker : SocketAddr) (generation : Z) (events : list HeartbeatEvent)
  : SM St ClientError (option unit) :=
  api_connect broker ;;; heartbeat_loop generation events.

(** The task ends by itself only when the client fails: with the channel quiet,
    its result is that of as many heartbeats as there were ticks. *)
Lemma heartbeat_ticks generation n s :
  heartbeat_loop generation (List.repeat Tick n) s =
  (for_each (seq 0 n) (fun _ => api_heartbeat (op_group options) (op_topic options) (op_member options) generation) ;;;
   ret None) s.
Proof.
  generalize O. revert s. induction n as [|n IH]; intros s k; [done|].
  cbn [List.repeat heartbeat_loop seq for_each]. rewrite !bind_assoc.
  unfold bind at 1 2. destruct (api_heartbeat _ _ _ _ s) as [[[]|e|] s']; [by rewrite (IH s' (S k))|done|done].
Qed.
(** Once the channel changes, no more heartbeats are sent. *)
Lemma heartbeat_stops generation dropped events s :
  heartbeat_loop generation (StopChanged dropped true :: events) s = (Ok (Some tt), s).
Proof. by destruct dropped. Qed.
End consume.
