(* ===== verification/ConsumeFacts.v ===== *)
(** * ConsumeFacts: what the consumer of a group asks of the world, and in which order.

    [Traced] states what the operations add to a trace of events; the theorems
    hold for every client library and machine that keep such a trace. *)

From stdpp Require Import base numbers list strings gmap.
From Stdlib Require Import ZArith Lia.
From S2P Require Import Prelude Text Runs Protocol Record Addr Client Host Retry RetryFacts Consume.

(* ------------------------------------------------------------------ *)
(** ** Traces                                                           *)
(* ------------------------------------------------------------------ *)

Inductive Event :=
| ELoad (partition offset : Z)
| EFetch (partition offset : Z) (records : list FetchedRecord)
| ERun (handler : string) (payload : bytes) (result : option ProcessResult)
| EPublish (topic : string) (envelope : bytes) (mode : AckMode) (acknowledged : bool)
| EPrint (line : string)
| ECommit (partition offset : Z) (accepted : bool).

Class Traced (St : Type) `{!ClientApi St} `{!Host St} := {
  trace : St -> list Event;
  trace_load g t p s : trace (snd (api_committed_offset g t p s)) =
    trace s ++ match fst (api_committed_offset g t p s) with Ok o => [ELoad p (default 0 o)] | _ => [] end;
  trace_fetch r s : trace (snd (api_group_fetch r s)) =
    trace s ++ match fst (api_group_fetch r s) with
               | Ok p => [EFetch (gf_partition r) (gf_offset r) (fp_records p)] | _ => [] end;
  trace_run h t p s : trace (snd (run_process h t p s)) =
    trace s ++ [ERun h p (match fst (run_process h t p s) with Ok r => Some r | _ => None end)];
  trace_publish t k p m i s : trace (snd (api_produce t k p m i s)) =
    trace s ++ [EPublish t p m (is_ok (fst (api_produce t k p m i s)))];
  trace_print l s : trace (snd (println l s)) = trace s ++ [EPrint l];
  trace_commit r s : trace (snd (api_commit r s)) =
    trace s ++ [ECommit (co_partition r) (co_offset r) (is_ok (fst (api_commit r s)))];
  trace_clock s : trace (snd (clock s)) = trace s;
  trace_sleep t s : trace (snd (sleep t s)) = trace s;
  trace_eprint l s : trace (snd (eprintln l s)) = trace s;
  trace_interrupted s : trace (snd (interrupted s)) = trace s;
  trace_finished s : trace (snd (heartbeat_finished s)) = trace s
}.

(** The offset to be fetched next, and everything fetched, of a partition. *)
Definition after (records : list FetchedRecord) (offset : Z) : Z :=
  match last records with Some r => fd_offset r + 1 | None => offset end.
Definition position_step (p : Z) (o : option Z) (e : Event) : option Z :=
  match e with
  | ELoad q offset => if bool_decide (q = p) then Some offset else o
  | EFetch q offset records => if bool_decide (q = p) then Some (after records offset) else o
  | _ => o
  end.
Definition position (p : Z) (tr : list Event) : option Z := fold_left (position_step p) tr None.
Definition fetched_by (p : Z) (e : Event) : list FetchedRecord :=
  match e with EFetch q _ records => if bool_decide (q = p) then records else [] | _ => [] end.
Definition fetched_from (p : Z) (tr : list Event) : list FetchedRecord := tr ≫= fetched_by p.

Section spec.
Context (options : Options).

(** A record is settled: its handler succeeded and it was reported, or it was
    published for a retry, durably, under what it was originally. *)
Definition settled (p : Z) (tr : list Event) (r : FetchedRecord) : Prop :=
  exists c, context (op_topic options) p r = Ok c /\
    ((match op_handler options with
      | None => True
      | Some handler => exists status stderr, ERun handler (mc_payload c) (Some (Exited true status stderr)) ∈ tr
      end /\ EPrint (processed_line p r c) ∈ tr) \/
     (exists topic attempt at_ms error envelope time,
        destination c (op_retry_delays_ms options) (now_ms time) = Ok (topic, attempt, at_ms) /\
        encode_envelope c attempt at_ms error = Ok envelope /\ EPublish topic envelope AckDurable true ∈ tr)).
(** The record of partition [p] that is next: everything fetched before it is settled. *)
Definition in_turn (p : Z) (tr : list Event) (r : FetchedRecord) : Prop :=
  exists before, before ++ [r] `prefix_of` fetched_from p tr /\ Forall (settled p tr) before.
(** In this mode, the offset after the record has been committed. *)
Definition committed_before (p : Z) (tr : list Event) (r : FetchedRecord) : Prop :=
  op_delivery options = AtMostOnce -> ECommit p (fd_offset r + 1) true ∈ tr.

(** What may happen after [tr]. *)
Definition legit (tr : list Event) (e : Event) : Prop :=
  match e with
  | EFetch p offset _ => position p tr = Some offset /\ Forall (settled p tr) (fetched_from p tr)
  | ECommit p offset _ => exists r, in_turn p tr r /\ offset = fd_offset r + 1 /\
      (op_delivery options = AtLeastOnce -> settled p tr r)
  | ERun _ payload _ => exists p r c, in_turn p tr r /\ context (op_topic options) p r = Ok c /\
      payload = mc_payload c /\ committed_before p tr r
  | EPublish _ envelope mode _ => exists p r c attempt at_ms error, in_turn p tr r /\
      context (op_topic options) p r = Ok c /\ encode_envelope c attempt at_ms error = Ok envelope /\
      mode = AckDurable /\ committed_before p tr r
  | ELoad _ _ | EPrint _ => True
  end.
Definition justified (tr : list Event) : Prop := forall before e later, tr = before ++ e :: later -> legit before e.

Lemma justified_nil : justified [].
Proof. intros before e later H. by destruct before. Qed.
Lemma justified_snoc tr e : justified tr -> legit tr e -> justified (tr ++ [e]).
Proof.
  intros Ht He before e' later Heq. destruct later as [|x later _] using rev_ind.
  - by apply app_inj_tail in Heq as [-> ->].
  - rewrite app_comm_cons, app_assoc in Heq. apply app_inj_tail in Heq as [-> _]. by apply (Ht before e' later).
Qed.

Lemma settled_app p tr more r : settled p tr r -> settled p (tr ++ more) r.
Proof.
  intros (c & Hc & H). exists c. split; [done|].
  destruct H as [[Hrun Hprint]|(t & a & m & err & env & time & Hd & He & Hp)]; [left|right].
  - split; [|apply elem_of_app; by left]. destruct (op_handler options); [|done].
    destruct Hrun as (st & se & ?). exists st, se. apply elem_of_app; by left.
  - exists t, a, m, err, env, time. split_and!; [done..|]. apply elem_of_app; by left.
Qed.
Lemma Forall_settled_app p tr more rs : Forall (settled p tr) rs -> Forall (settled p (tr ++ more)) rs.
Proof. intros H. eapply Forall_impl; [exact H|]. intros r. apply settled_app. Qed.
Lemma fetched_app p tr more : fetched_from p (tr ++ more) = fetched_from p tr ++ fetched_from p more.
Proof. unfold fetched_from. by rewrite bind_app. Qed.
Lemma position_snoc p tr e : position p (tr ++ [e]) = position_step p (position p tr) e.
Proof. unfold position. by rewrite fold_left_app. Qed.
Lemma committed_before_app p tr more r : committed_before p tr r -> committed_before p (tr ++ more) r.
Proof. unfold committed_before. intros H ?. apply elem_of_app. left. auto. Qed.
End spec.

Lemma after_cons r records offset : after (r :: records) offset = after records (fd_offset r + 1).
Proof. unfold after. rewrite last_cons. by destruct (last records). Qed.
Lemma checked_next o n : checked_add o 1 = Some n -> n = o + 1.
Proof. unfold checked_add. destruct (_ <=? _); congruence. Qed.

(** Events that fetch nothing and load nothing. *)
Definition quiet (e : Event) : Prop :=
  match e with ELoad _ _ | EFetch _ _ _ => False | _ => True end.
Lemma quiet_position p tr e : quiet e -> position p (tr ++ [e]) = position p tr.
Proof. rewrite position_snoc. by destruct e. Qed.
Lemma quiet_fetched p tr e : quiet e -> fetched_from p (tr ++ [e]) = fetched_from p tr.
Proof. rewrite fetched_app. destruct e; try done; intros _; by rewrite app_nil_r. Qed.

(* ------------------------------------------------------------------ *)
(** ** The invariant of a generation                                    *)
(* ------------------------------------------------------------------ *)

Section run.
Context `{!Crc32} {St : Type} `{!ClientApi St} `{!Host St} `{!Traced St}.
Context (options : Options) (partitions : list Z).
Implicit Types (tr : list Event) (offsets : gmap Z Z) (rest : list FetchedRecord).
Abbreviation settled := (settled options).
Abbreviation justified := (justified options).
Abbreviation legit := (legit options).

(** Of partition [p] the records [rest] are left of the last response. *)
Definition mid (p : Z) (rest : list FetchedRecord) (offsets : gmap Z Z) (tr : list Event) : Prop :=
  justified tr /\
  forall q, q ∈ partitions -> let left := if bool_decide (q = p) then rest else [] in
    position q tr = Some (after left (default 0 (offsets !! q))) /\
    exists before, fetched_from q tr = before ++ left /\ Forall (settled q tr) before.

Lemma mid_quiet p rest offsets tr e :
  mid p rest offsets tr -> quiet e -> legit tr e -> mid p rest offsets (tr ++ [e]).
Proof.
  intros [Hj Hm] Hq He. split; [by apply justified_snoc|]. intros q Hin left.
  rewrite quiet_position, quiet_fetched by done. destruct (Hm q Hin) as [Hp (before & Hf & Hs)].
  split; [exact Hp|]. exists before. split; [exact Hf|]. by apply Forall_settled_app.
Qed.
Lemma mid_in_turn p r rest offsets tr :
  p ∈ partitions -> mid p (r :: rest) offsets tr -> in_turn options p tr r.
Proof.
  intros Hin [_ Hm]. destruct (Hm p Hin) as [_ (before & Hf & Hs)]. rewrite bool_decide_true in Hf by done.
  exists before. split; [|done]. exists rest. by rewrite Hf, <- app_assoc.
Qed.
Lemma mid_next p r rest offsets tr :
  mid p (r :: rest) offsets tr -> settled p tr r -> mid p rest (<[p := fd_offset r + 1]> offsets) tr.
Proof.
  intros [Hj Hm] Hr. split; [done|]. intros q Hin left. destruct (Hm q Hin) as [Hp (before & Hf & Hs)].
  subst left. destruct (decide (q = p)) as [->|Hne].
  - rewrite bool_decide_true in * by done. rewrite lookup_insert_eq. rewrite after_cons in Hp. split; [exact Hp|].
    exists (before ++ [r]). split; [by rewrite Hf, <- app_assoc|]. apply Forall_app. split; [done|by constructor].
  - rewrite bool_decide_false in * by done. rewrite lookup_insert_ne by done. eauto.
Qed.
Lemma mid_move p q offsets tr : mid p [] offsets tr -> mid q [] offsets tr.
Proof.
  intros [Hj Hm]. split; [done|]. intros x Hin left. specialize (Hm x Hin). subst left.
  by destruct (bool_decide (x = p)), (bool_decide (x = q)).
Qed.
Lemma mid_fetch p offsets tr records :
  p ∈ partitions -> mid p [] offsets tr ->
  mid p records offsets (tr ++ [EFetch p (default 0 (offsets !! p)) records]).
Proof.
  intros Hin [Hj Hm]. split.
  - apply justified_snoc; [done|]. destruct (Hm p Hin) as [Hp (before & Hf & Hs)].
    rewrite bool_decide_true in * by done. rewrite app_nil_r in Hf. by rewrite <- Hf in Hs.
  - intros q Hq left. destruct (Hm q Hq) as [Hp (before & Hf & Hs)]. subst left.
    rewrite position_snoc, fetched_app, Hp, Hf. cbn [position_step]. unfold fetched_from. cbn [mbind list_bind fetched_by].
    destruct (decide (q = p)) as [->|Hne].
    + rewrite !bool_decide_true by done. rewrite !app_nil_r. split; [done|].
      exists before. split; [done|]. by apply Forall_settled_app.
    + rewrite !bool_decide_false by done. rewrite !app_nil_r. split; [done|].
      exists before. split; [by rewrite app_nil_r|]. by apply Forall_settled_app.
Qed.

(* ------------------------------------------------------------------ *)
(** ** Runs that keep it                                                *)
(* ------------------------------------------------------------------ *)

(** However [m] ends, what happened was justified; with a value, [Q] holds. *)
Definition hoare {A} (P : list Event -> Prop) (m : SM St CliError A) (Q : A -> list Event -> Prop) : Prop :=
  forall s, P (trace s) ->
    justified (trace (snd (m s))) /\
    match fst (m s) with Ok a => Q a (trace (snd (m s))) | _ => True end.

Lemma hoare_bind {A B} P (m : SM St CliError A) Q (k : A -> SM St CliError B) R :
  hoare P m Q -> (forall a, hoare (fun tr => justified tr /\ Q a tr) (k a) R) -> hoare P (bind m k) R.
Proof.
  intros Hm Hk s HP. specialize (Hm s HP). unfold bind.
  destruct (m s) as [[a|e|] s']; destruct Hm as [Hj HQ]; [|done..]. by apply Hk.
Qed.
Lemma hoare_ret {A} (P : list Event -> Prop) (a : A) Q :
  (forall tr, P tr -> justified tr /\ Q a tr) -> hoare P (ret a) Q.
Proof. intros Hr s HP. by apply Hr. Qed.
Lemma hoare_pre {A} (P P' : list Event -> Prop) (m : SM St CliError A) Q :
  hoare P m Q -> (forall tr, P' tr -> P tr) -> hoare P' m Q.
Proof. intros Hr HP s Hs. by apply Hr, HP. Qed.
Lemma hoare_silent {A} (P : list Event -> Prop) (m : SM St CliError A) :
  (forall s, trace (snd (m s)) = trace s) -> (forall tr, P tr -> justified tr) -> hoare P m (fun _ => P).
Proof. intros Ht HP s Hs. rewrite Ht. split; [by apply HP|]. by destruct (fst (m s)). Qed.
Lemma hoare_lift {A} (P : list Event -> Prop) (o : outcome CliError A) :
  (forall tr, P tr -> justified tr) -> hoare P (lift o) (fun a tr => P tr /\ o = Ok a).
Proof. intros HP s Hs. cbn. split; [by apply HP|]. by destruct o. Qed.

Section record.
Context (p : Z) (r : FetchedRecord) (rest : list FetchedRecord) (offsets : gmap Z Z) (Hin : p ∈ partitions).
Abbreviation here := (mid p (r :: rest) offsets).
Lemma here_justified tr : here tr -> justified tr.
Proof. by intros [? _]. Qed.

Lemma hoare_commit generation mode (P : list Event -> Prop) :
  (forall tr, P tr -> here tr /\ (op_delivery options = mode -> op_delivery options = AtLeastOnce -> settled p tr r)) ->
  hoare P (commit_in options mode generation p (fd_offset r + 1))
    (fun rejoin tr => rejoin = true \/
       exists tr0, P tr0 /\ tr0 `prefix_of` tr /\ here tr /\
         (op_delivery options = mode -> ECommit p (fd_offset r + 1) true ∈ tr)).
Proof.
  intros HP s Hs. destruct (HP _ Hs) as [Hm Hset]. unfold commit_in. case_bool_decide as Hmode.
  2:{ split; [by apply here_justified|]. right. exists (trace s). by split_and!. }
  unfold commit_requires_rejoin, commit. set (req := Build_CommitOffsetRequest _ _ _ _ _ _).
  pose proof (trace_commit req s) as Ht. cbn [co_partition co_offset req] in Ht.
  assert (here (trace (snd (api_commit req s)))) as Hm'.
  { rewrite Ht. apply mid_quiet; [done|done|]. exists r. split_and!; [by eapply mid_in_turn|done|auto]. }
  destruct (api_commit req s) as [[[]|e|] s']; cbn [fst snd is_ok] in *.
  - split; [by apply here_justified|]. right. exists (trace s). rewrite Ht in *. split_and!; [done|by apply prefix_app_r|done|].
    intros _. apply elem_of_app. right. by left.
  - destruct e; cbn [fst snd]; (split; [by apply here_justified|]); by try left.
  - split; [by apply here_justified|done].
Qed.

Lemma wait_silent c s : trace (snd (wait_until_available c s)) = trace s.
Proof.
  unfold wait_until_available, read_clock, bind, lift. pose proof (trace_clock s) as Ht.
  destruct (clock s) as [[t|e|] s1]; cbn [fst snd] in *; [|done..].
  destruct (now_ms t) as [n|e|]; [|done..]. destruct (n <? mc_available_at_ms c); [|done]. by rewrite trace_sleep.
Qed.

Definition ready (c : MessageContext) (tr : list Event) : Prop :=
  here tr /\ committed_before options p tr r /\ context (op_topic options) p r = Ok c.
Lemma ready_justified c tr : ready c tr -> justified tr.
Proof. intros (Hm & _). by apply here_justified. Qed.
Lemma ready_quiet c tr e : ready c tr -> quiet e -> legit tr e -> ready c (tr ++ [e]).
Proof. intros (Hm & Hc & Hx) Hq He. split_and!; [by apply mid_quiet|by apply committed_before_app|done]. Qed.

Lemma handler_success timeout_ms res :
  handler_verdict timeout_ms res = None -> exists status stderr, res = Exited true status stderr.
Proof.
  destruct res as [|[] status stderr]; [discriminate|by eauto|].
  unfold handler_verdict. destruct (is_empty _); discriminate.
Qed.
Lemma hoare_handler c :
  hoare (ready c) (run_handler (op_handler options) (op_handler_timeout_ms options) (mc_payload c))
    (fun verdict tr => ready c tr /\ (verdict = None ->
       match op_handler options with
       | None => True
       | Some handler => exists status stderr, ERun handler (mc_payload c) (Some (Exited true status stderr)) ∈ tr
       end)).
Proof.
  intros s Hr. unfold run_handler. destruct (op_handler options) as [handler|].
  2:{ split; [by apply (ready_justified c)|]. by split. }
  unfold bind, ret. pose proof (trace_run handler (op_handler_timeout_ms options) (mc_payload c) s) as Ht.
  assert (ready c (trace (snd (run_process handler (op_handler_timeout_ms options) (mc_payload c) s)))) as Hr'.
  { rewrite Ht. apply ready_quiet; [done|done|]. destruct Hr as (Hm & Hc & Hx). exists p, r, c. split_and!; [|done..].
    by eapply mid_in_turn. }
  destruct (run_process _ _ _ s) as [[res|e|] s1]; cbn [fst snd] in *; (split; [by apply (ready_justified c)|]); [|done..].
  split; [done|]. intros (status & stderr & ->)%handler_success. exists status, stderr. rewrite Ht. apply elem_of_app. right. by left.
Qed.

(** A failure that is published settles the record. *)
Lemma hoare_publish c error :
  hoare (ready c) (publish_failure (op_group options) c error (op_retry_delays_ms options))
    (fun _ tr => ready c tr /\ settled p tr r).
Proof.
  intros s Hr. unfold publish_failure, bind, lift, ret. pose proof (trace_clock s) as Ht.
  destruct (clock s) as [[t|e|] s1]; cbn [fst snd] in *; rewrite <- Ht in Hr; [|by split; [apply (ready_justified c)|]..].
  destruct (destination c _ (now_ms t)) as [[[topic n] at_ms]|e|] eqn:Hd; [|by split; [apply (ready_justified c)|]..].
  destruct (encode_envelope c n at_ms error) as [env|e|] eqn:He; [|by split; [apply (ready_justified c)|]..].
  unfold of_client, map_err. set (key := if bool_decide _ then _ else _). set (id := Some _).
  pose proof (trace_publish topic key env AckDurable id s1) as Hp.
  assert (ready c (trace (snd (api_produce topic key env AckDurable id s1)))) as Hr'.
  { rewrite Hp. apply ready_quiet; [done|done|]. destruct Hr as (Hm & Hc & Hx).
    exists p, r, c, n, at_ms, error. split_and!; [|done..]. by eapply mid_in_turn. }
  destruct (api_produce _ _ _ _ _ s1) as [[a|e|] s2]; cbn [fst snd omap_err is_ok] in *;
    (split; [by apply (ready_justified c)|]); [|done..].
  split; [done|]. exists c. split; [apply Hr|]. right. exists topic, n, at_ms, error, env, t. split_and!; [done..|].
  rewrite Hp. apply elem_of_app. right. by left.
Qed.

Lemma hoare_handle :
  hoare (fun tr => here tr /\ committed_before options p tr r) (handle_record options p r)
    (fun _ tr => here tr /\ settled p tr r).
Proof.
  unfold handle_record. eapply hoare_bind; [apply hoare_lift; intros tr []; by apply here_justified|].
  intros c. cbv beta. apply (hoare_pre (ready c)); [|by intros tr (_ & [] & ?)].
  eapply hoare_bind; [apply hoare_silent; [apply wait_silent|apply ready_justified]|]. intros ?.
  eapply hoare_bind; [eapply hoare_pre; [apply hoare_handler|by intros tr []]|]. intros [error|].
  - eapply hoare_bind; [eapply hoare_pre; [apply hoare_publish|by intros tr (_ & [])]|]. intros dest s (Hj & Hr & Hs).
    rewrite trace_eprint. split; [done|]. destruct (fst (eprintln _ s)); [|done..]. by destruct Hr.
  - intros s (Hj & Hr & Hrun). unfold print_processed. rewrite trace_print. split.
    + by apply justified_snoc.
    + destruct (fst (println _ s)); [|done..]. split; [apply mid_quiet; [apply Hr|done..]|].
      exists c. split; [apply Hr|]. left. split; [|apply elem_of_app; right; by left].
      specialize (Hrun eq_refl). destruct (op_handler options); [|done]. destruct Hrun as (st & se & ?).
      exists st, se. apply elem_of_app. by left.
Qed.

Lemma hoare_record generation :
  hoare here (process_record options generation p r (fd_offset r + 1))
    (fun rejoin tr => rejoin = true \/ (here tr /\ settled p tr r)).
Proof.
  unfold process_record. eapply hoare_bind.
  { apply (hoare_commit generation AtMostOnce here). intros tr Hm. split; [done|]. congruence. }
  intros [|]; [apply hoare_ret; intros tr [Hj _]; by auto|].
  eapply hoare_bind.
  { eapply hoare_pre; [apply hoare_handle|]. intros tr (_ & [?|(_ & _ & _ & Hm & Hc)]); [done|]. by split. }
  intros ?. eapply hoare_pre.
  { intros s Hs. pose proof (hoare_commit generation AtLeastOnce (fun tr => here tr /\ settled p tr r)) as Hc.
    destruct (Hc (fun tr H => conj (proj1 H) (fun _ _ => proj2 H)) s Hs) as [Hj Hq]. split; [exact Hj|].
    destruct (fst (commit_in _ _ _ _ _ s)) as [[]|e|]; [by left| |done..]. right.
    destruct Hq as [?|(tr0 & [_ Hset] & [more ->] & Hm & _)]; [done|]. split; [done|]. by apply settled_app. }
  by intros tr [].
Qed.
End record.

Lemma hoare_records generation p records offsets :
  p ∈ partitions ->
  hoare (mid p records offsets) (consume_records options generation p records offsets)
    (fun res tr => res.2 = true \/ mid p [] res.1 tr).
Proof.
  intros Hin. revert offsets. induction records as [|r records IH]; intros offsets; cbn [consume_records].
  { apply hoare_ret. intros tr Hm. split; [apply Hm|by right]. }
  unfold ok_or. destruct (checked_add (fd_offset r) 1) as [n|] eqn:Hn.
  2:{ intros s Hm. cbn. split; [by eapply here_justified|done]. }
  apply checked_next in Hn as ->. apply (hoare_bind _ (ret _) (fun n tr => mid p (r :: records) offsets tr /\ n = fd_offset r + 1)).
  { apply hoare_ret. intros tr Hm. split; [by eapply here_justified|done]. }
  intros n s (_ & Hm & ->). revert s Hm.
  change (hoare (mid p (r :: records) offsets)
    (rejoin <- process_record options generation p r (fd_offset r + 1) ;;
     if rejoin : bool then ret (offsets, true)
     else consume_records options generation p records (<[p := fd_offset r + 1]> offsets))
    (fun res tr => res.2 = true \/ mid p [] res.1 tr)).
  eapply hoare_bind; [by apply hoare_record|]. intros [|].
  - apply hoare_ret. intros tr [Hj _]. split; [done|by left].
  - eapply hoare_pre; [apply IH|]. intros tr (_ & [?|[Hm Hs]]); [done|]. by apply mid_next.
Qed.

Lemma hoare_fetch generation p offsets :
  p ∈ partitions ->
  hoare (mid p [] offsets)
    (fetch_result (api_group_fetch (fetch_request options generation p (default 0 (offsets !! p)))))
    (fun fetched tr => match fetched with Some response => mid p (fp_records response) offsets tr | None => True end).
Proof.
  intros Hin s Hm. unfold fetch_result. set (req := fetch_request _ _ _ _). pose proof (trace_fetch req s) as Ht.
  destruct (api_group_fetch req s) as [[response|e|] s']; cbn [fst snd] in *.
  - assert (mid p (fp_records response) offsets (trace s')) as Hm' by (rewrite Ht; by apply mid_fetch).
    split; [apply Hm'|exact Hm'].
  - rewrite app_nil_r in Ht. destruct e; cbn [fst snd]; rewrite Ht; (split; [apply Hm|done]).
  - rewrite app_nil_r in Ht. rewrite Ht. split; [apply Hm|done].
Qed.

Lemma hoare_partitions generation ps offsets :
  ps ⊆ partitions ->
  hoare (mid 0 [] offsets) (consume_partitions options generation ps offsets)
    (fun res tr => res.2 = None -> mid 0 [] res.1 tr).
Proof.
  revert offsets. induction ps as [|p ps IH]; intros offsets Hsub; cbn [consume_partitions].
  { apply hoare_ret. intros tr Hm. split; [apply Hm|done]. }
  assert (p ∈ partitions) as Hin by (apply Hsub; by left).
  apply (hoare_pre (mid p [] offsets)); [|intros tr; apply mid_move].
  eapply hoare_bind; [apply hoare_silent; [apply trace_interrupted|by intros tr []]|]. intros [|].
  { apply hoare_ret. by intros tr [Hj _]. }
  eapply hoare_bind; [eapply hoare_pre; [by apply hoare_fetch|by intros tr []]|]. intros [response|].
  2:{ apply hoare_ret. by intros tr [Hj _]. }
  eapply hoare_bind; [eapply hoare_pre; [by apply hoare_records|by intros tr []]|]. intros [offsets' [|]]; cbn [fst snd].
  { apply hoare_ret. by intros tr [Hj _]. }
  eapply hoare_pre; [apply IH; set_solver|]. intros tr (_ & [?|Hm]); [done|]. by eapply mid_move.
Qed.

Lemma hoare_turns turns generation ps offsets :
  ps ⊆ partitions ->
  hoare (mid 0 [] offsets) (consume_turns options turns generation ps offsets) (fun _ _ => True).
Proof.
  intros Hsub. revert offsets. induction turns as [|turns IH]; intros offsets; cbn [consume_turns].
  { apply hoare_ret. intros tr []. by split. }
  eapply hoare_bind; [apply hoare_silent; [apply trace_finished|by intros tr []]|]. intros [|].
  { apply hoare_ret. by intros tr []. }
  apply (hoare_pre (mid 0 [] offsets)); [|by intros tr []]. destruct ps as [|p ps].
  - eapply hoare_bind; [apply hoare_silent; [apply trace_sleep|by intros tr []]|].
    intros ?. eapply hoare_pre; [apply IH|]. by intros tr [].
  - eapply hoare_bind; [by apply hoare_partitions|]. intros [offsets' [outcome|]]; cbn [fst snd].
    + apply hoare_ret. by intros tr [].
    + eapply hoare_pre; [apply IH|]. intros tr [_ Hm]. by apply Hm.
Qed.

(** Nothing is fetched yet, and the offsets of these partitions are loaded. *)
Definition loaded (ps : list Z) (offsets : gmap Z Z) (tr : list Event) : Prop :=
  justified tr /\ (forall q, fetched_from q tr = []) /\
  forall q, q ∈ ps -> position q tr = Some (default 0 (offsets !! q)).
Lemma hoare_load ps dn offsets :
  hoare (loaded dn offsets) (load_offsets options ps offsets) (fun offsets tr => loaded (dn ++ ps) offsets tr).
Proof.
  revert dn offsets. induction ps as [|p ps IH]; intros dn offsets; cbn [load_offsets].
  { apply hoare_ret. intros tr Hl. rewrite app_nil_r. split; [apply Hl|exact Hl]. }
  apply (hoare_bind _ _ (fun o => loaded (dn ++ [p]) (<[p := default 0 o]> offsets))).
  - intros s (Hj & Hf & Hp). unfold of_client, map_err.
    pose proof (trace_load (op_group options) (op_topic options) p s) as Ht.
    destruct (api_committed_offset _ _ p s) as [[o|e|] s']; cbn [fst snd omap_err] in *; rewrite ?app_nil_r in Ht; rewrite Ht;
      [|by split..].
    assert (justified (trace s ++ [ELoad p (default 0 o)])) as Hj' by by apply justified_snoc.
    split; [done|]. split; [done|]. split.
    + intros q. rewrite fetched_app, Hf. done.
    + intros q [Hq| ->%list_elem_of_singleton]%elem_of_app; rewrite position_snoc; cbn [position_step].
      * destruct (decide (p = q)) as [->|]; [by rewrite bool_decide_true, lookup_insert_eq|].
        rewrite bool_decide_false, lookup_insert_ne by done. auto.
      * by rewrite bool_decide_true, lookup_insert_eq.
  - intros o. eapply hoare_pre; [|by intros tr []]. replace (dn ++ p :: ps) with ((dn ++ [p]) ++ ps) by by rewrite <- app_assoc.
    apply IH.
Qed.

Lemma hoare_generation turns generation :
  hoare (fun tr => tr = []) (consume_generation options turns generation partitions) (fun _ _ => True).
Proof.
  unfold consume_generation. eapply hoare_bind.
  { eapply hoare_pre; [apply (hoare_load partitions [])|]. intros tr ->. split; [apply justified_nil|]. split; [done|].
    by intros q Hq%not_elem_of_nil. }
  intros offsets. eapply hoare_pre; [by apply hoare_turns|]. intros tr (_ & Hj & Hf & Hp). split; [done|].
  intros q Hq left. subst left. rewrite Hf, Hp by done.
  destruct (bool_decide (q = 0)); (split; [done|by exists []]).
Qed.
End run.
