(* ===== verification/ConsumeRun.v ===== *)
(** * ConsumeRun: a machine that records what the consumer does, and a consumer
    that works on a broker over a connection. *)

From stdpp Require Import base numbers list strings gmap.
From Stdlib Require Import ZArith Lia.
From S2P Require Import Prelude Text Runs Protocol Record Log Storage Groups Leadership Worker WorkerSpec Topics Addr Codec Broker Replication Cluster Requests Serving Connection Connections Client Rpc Host Retry RetryFacts Consume ConsumeFacts.

(* ------------------------------------------------------------------ *)
(** ** A machine                                                        *)
(* ------------------------------------------------------------------ *)

(** What processes answer and when signals come is decided in advance; without
    a further answer there is an error, without a further decision a signal. *)
Record Machine := {
  mc_trace : list Event;
  mc_time : Z;
  mc_results : list ProcessResult;
  mc_signals : list bool
}.
Definition record (e : Event) (m : Machine) : Machine :=
  {| mc_trace := mc_trace m ++ [e]; mc_time := mc_time m; mc_results := mc_results m; mc_signals := mc_signals m |}.

Section machine.
Context {St : Type} `{!ClientApi St}.
Definition on_api {A} (m : SM St ClientError A) (event : outcome ClientError A -> list Event)
  : SM (St * Machine) ClientError A := fun s =>
  let '(o, s') := m s.1 in (o, (s', foldl (fun m e => record e m) s.2 (event o))).
Definition no_event {A} (_ : outcome ClientError A) : list Event := [].
#[export] Instance recorded_api : ClientApi (St * Machine) := {|
  api_connect a := on_api (api_connect a) no_event;
  api_produce t k p m i := on_api (api_produce t k p m i) (fun o => [EPublish t p m (is_ok o)]);
  api_produce_batch r := on_api (api_produce_batch r) no_event;
  api_fetch t p o b w := on_api (api_fetch t p o b w) no_event;
  api_create_topic t p := on_api (api_create_topic t p) no_event;
  api_list_topics := on_api api_list_topics no_event;
  api_describe_topic t := on_api (api_describe_topic t) no_event;
  api_cluster_metadata := on_api api_cluster_metadata no_event;
  api_promote_leader t p l := on_api (api_promote_leader t p l) no_event;
  api_join g t m := on_api (api_join g t m) no_event;
  api_heartbeat g t m n := on_api (api_heartbeat g t m n) no_event;
  api_leave g t m n := on_api (api_leave g t m n) no_event;
  api_commit r := on_api (api_commit r) (fun o => [ECommit (co_partition r) (co_offset r) (is_ok o)]);
  api_committed_offset g t p := on_api (api_committed_offset g t p)
    (fun o => match o with Ok o => [ELoad p (default 0 o)] | _ => [] end);
  api_group_fetch r := on_api (api_group_fetch r)
    (fun o => match o with Ok p => [EFetch (gf_partition r) (gf_offset r) (fp_records p)] | _ => [] end)
|}.

Definition on_machine {A} (f : Machine -> outcome CliError A * Machine) : SM (St * Machine) CliError A := fun s =>
  let '(o, m) := f s.2 in (o, (s.1, m)).
Definition next_result (handler : string) (payload : bytes) (m : Machine) : outcome CliError ProcessResult * Machine :=
  match mc_results m with
  | [] => (Err CliIo, record (ERun handler payload None) m)
  | r :: rs =>
      (Ok r, record (ERun handler payload (Some r))
               {| mc_trace := mc_trace m; mc_time := mc_time m; mc_results := rs; mc_signals := mc_signals m |})
  end.
Definition next_signal (m : Machine) : outcome CliError bool * Machine :=
  match mc_signals m with
  | [] => (Ok true, m)
  | b :: bs => (Ok b, {| mc_trace := mc_trace m; mc_time := mc_time m; mc_results := mc_results m; mc_signals := bs |})
  end.
Definition pass (ms : Z) (m : Machine) : outcome CliError unit * Machine :=
  (Ok tt, {| mc_trace := mc_trace m; mc_time := mc_time m + ms; mc_results := mc_results m; mc_signals := mc_signals m |}).
#[export] Instance recorded_host : Host (St * Machine) := {|
  run_process h _ p := on_machine (next_result h p);
  clock := on_machine (fun m => (Ok (mc_time m), m));
  sleep ms := on_machine (pass ms);
  println l := on_machine (fun m => (Ok tt, record (EPrint l) m));
  eprintln _ := on_machine (fun m => (Ok tt, m));
  interrupted := on_machine next_signal;
  spawn_heartbeat _ := on_machine (fun m => (Ok tt, m));
  heartbeat_finished := on_machine (fun m => (Ok false, m));
  stop_heartbeat := on_machine (fun m => (Ok tt, m))
|}.

Lemma on_api_trace {A} (m : SM St ClientError A) event s :
  mc_trace (snd (on_api m event s)).2 = mc_trace s.2 ++ event (fst (on_api m event s)).
Proof.
  unfold on_api. destruct (m s.1) as [o s']. cbn [fst snd]. generalize (event o) as es. intros es.
  revert s. enough (forall es (x : Machine), mc_trace (foldl (fun m e => record e m) x es) = mc_trace x ++ es) by done.
  clear. intros es. induction es as [|e es IH]; intros x; cbn; [by rewrite app_nil_r|].
  rewrite IH. cbn. by rewrite <- app_assoc.
Qed.
#[export] Instance recorded : Traced (St * Machine).
Proof.
  refine {| trace s := mc_trace s.2 |}.
  - intros g t p s. exact (on_api_trace (api_committed_offset g t p) _ s).
  - intros r s. exact (on_api_trace (api_group_fetch r) _ s).
  - intros h t p [s m]. cbn. unfold on_machine, next_result. cbn. by destruct (mc_results m).
  - intros t k p m i s. exact (on_api_trace (api_produce t k p m i) _ s).
  - done.
  - intros r s. exact (on_api_trace (api_commit r) _ s).
  - done.
  - done.
  - done.
  - intros [s m]. cbn. unfold on_machine, next_signal. cbn. by destruct (mc_signals m).
  - done.
Defined.
End machine.

(* ------------------------------------------------------------------ *)
(** ** Properties                                                       *)
(* ------------------------------------------------------------------ *)

(** C11 What the consumer promises for a record, over any number of turns, however
    the generation ends and whatever the broker, the handler and the clock answer.
    At least once: an offset is committed only when every record fetched from the
    partition up to it is settled, that is, its handler succeeded or its failure
    was published, acknowledged durably.  At most once: a handler runs, and a
    failure is published, only after the offset past the record was accepted.  And
    every fetch of a partition goes on where the records fetched before ended, all
    of which are settled: no record is skipped. *)
Theorem consumer_delivery `{!Crc32} {St : Type} `{!ClientApi St} `{!Host St} `{!Traced St}
    options turns generation partitions (s : St) :
  trace s = [] ->
  let events := trace (snd (consume_generation options turns generation partitions s)) in
  (op_delivery options = AtLeastOnce -> forall before p offset accepted later,
     events = before ++ ECommit p offset accepted :: later ->
     exists records r, records ++ [r] `prefix_of` fetched_from p before /\ offset = fd_offset r + 1 /\
       Forall (settled options p before) (records ++ [r])) /\
  (op_delivery options = AtMostOnce -> forall before handler payload result later,
     events = before ++ ERun handler payload result :: later ->
     exists p r c, in_turn options p before r /\ context (op_topic options) p r = Ok c /\
       payload = mc_payload c /\ ECommit p (fd_offset r + 1) true ∈ before) /\
  (op_delivery options = AtMostOnce -> forall before topic envelope mode acknowledged later,
     events = before ++ EPublish topic envelope mode acknowledged :: later ->
     exists p r, in_turn options p before r /\ mode = AckDurable /\ ECommit p (fd_offset r + 1) true ∈ before) /\
  (forall before p offset records later, events = before ++ EFetch p offset records :: later ->
     position p before = Some offset /\ Forall (settled options p before) (fetched_from p before)).
Proof.
  intros Hs events. destruct (hoare_generation options partitions turns generation s Hs) as [Hj _].
  fold events in Hj. split_and!.
  - intros Hmode before p offset accepted later He. destruct (Hj _ _ _ He) as (r & (records & Hpre & Hset) & Ho & Hr).
    exists records, r. split_and!; [done..|]. apply Forall_app. split; [done|]. constructor; [by apply Hr|constructor].
  - intros Hmode before handler payload result later He.
    destruct (Hj _ _ _ He) as (p & r & c & Hin & Hc & Hp & Hco). exists p, r, c. split_and!; [done..|by apply Hco].
  - intros Hmode before topic envelope mode ack later He.
    destruct (Hj _ _ _ He) as (p & r & c & n & at_ms & error & Hin & Hc & He' & Hm & Hco).
    exists p, r. split_and!; [done..|by apply Hco].
  - intros before p offset records later He. by apply (Hj _ _ _ He).
Qed.


(* ------------------------------------------------------------------ *)
(** ** A consumer at work                                               *)
(* ------------------------------------------------------------------ *)

#[local] Existing Instance length_crc.
#[local] Existing Instance stored_zstd.
#[local] Instance lone_network : Network (Link (Broker * unit)) := link_network lone_handler.
#[local] Instance lone_api : ClientApi (Client * Link (Broker * unit)) := client_api 100.
Definition Session : Type := (Client * Link (Broker * unit)) * Machine.
Definition worker_options (mode : DeliveryMode) : Options :=
  {| op_topic := "payments"; op_group := "workers"; op_member := "worker-a"; op_delivery := mode;
     op_wait_ms := 0; op_heartbeat_ms := 3000; op_max_bytes := 1048576; op_handler := Some "./handle";
     op_handler_timeout_ms := 30000; op_retry_delays_ms := [1000; 5000] |}.
(** Two records of the same key wait on the broker, and the member has joined. *)
Definition prepare_session (topics : list string) : SM Session ClientError JoinGroupResponse :=
  for_each topics (fun t => _m <- api_create_topic t 3 ;; ret tt) ;;;
  _a <- api_produce "payments" (as_bytes "order-7") (as_bytes "two") AckDurable None ;;
  _b <- api_produce "payments" (as_bytes "order-7") (as_bytes "three") AckDurable None ;;
  api_join "workers" "payments" "worker-a".
Definition machine (results : list ProcessResult) (signals : list bool) : Machine :=
  {| mc_trace := []; mc_time := 9000; mc_results := results; mc_signals := signals |}.
Definition session_start (topics : list string) (results : list ProcessResult) : Session :=
  ((snd (prepare_session topics ((sample_client, linked lone_broker), machine [] []))).1,
   machine results [false; false; false]).
Definition consume_session (mode : DeliveryMode) (topics : list string) (results : list ProcessResult)
  : outcome CliError GenerationOutcome * list Event :=
  let '(o, w) := consume_generation (worker_options mode) 2 1 [0; 1; 2] (session_start topics results) in
  (o, trace w).
Definition first_fails : list ProcessResult := [Exited false "1" (as_bytes "oops"); Exited true "0" []].
Definition commits (events : list Event) : list (Z * Z * bool) :=
  events ≫= fun e => match e with ECommit p o a => [(p, o, a)] | _ => [] end.

(** The failure of the first record goes to the retry topic and the second record is handled. *)
Example session_retries :
  let '(o, events) := consume_session AtLeastOnce ["payments"; "payments.retry.1s"] first_fails in
  o = Ok Shutdown /\ commits events = [(1, 1, true); (1, 2, true)] /\
  (exists envelope, EPublish "payments.retry.1s" envelope AckDurable true ∈ events) /\
  EPrint "partition=1 offset=1 original_topic=payments original_partition=1 original_offset=1 attempt=0 key=order-7 value=three" ∈ events.
Proof.
  set (run := consume_session _ _ _). vm_compute in run. subst run. cbv beta iota.
  split_and!; [reflexivity|reflexivity|eexists; by do 6 right; left|by do 9 right; left].
Qed.

Definition start : Session := session_start ["payments"; "payments.retry.1s"] first_fails.
Definition replay (mode : DeliveryMode) : list Event :=
  trace (snd (consume_generation (worker_options mode) 2 1 [0; 1; 2] start)).
Lemma consumer_delivery_witness :
  (commits (replay AtLeastOnce) = [(1, 1, true); (1, 2, true)]) /\
  (forall before p offset accepted later,
     replay AtLeastOnce = before ++ ECommit p offset accepted :: later ->
     exists records r, records ++ [r] `prefix_of` fetched_from p before /\ offset = fd_offset r + 1 /\
       Forall (settled (worker_options AtLeastOnce) p before) (records ++ [r])) /\
  (forall before handler payload result later,
     replay AtMostOnce = before ++ ERun handler payload result :: later ->
     exists p r c, in_turn (worker_options AtMostOnce) p before r /\ context "payments" p r = Ok c /\
       payload = mc_payload c /\ ECommit p (fd_offset r + 1) true ∈ before).
Proof.
  split; [vm_compute; reflexivity|]. split.
  - exact (proj1 (consumer_delivery (worker_options AtLeastOnce) 2 1 [0; 1; 2] start eq_refl) eq_refl).
  - exact (proj1 (proj2 (consumer_delivery (worker_options AtMostOnce) 2 1 [0; 1; 2] start eq_refl)) eq_refl).
Defined.

Definition lookalike (value : bytes) : FetchedRecord :=
  {| fd_offset := 3; fd_timestamp_ms := 5; fd_key := None; fd_value := value |}.
Definition full_payload : bytes := as_bytes "x" ++ List.repeat Byte.x61 (Z.to_nat 1048575).
Lemma full_payload_size : blen full_payload = MAX_MESSAGE_SIZE.
Proof. unfold full_payload. rewrite blen_app. unfold blen at 2. rewrite List.repeat_length, Z2Nat.id by lia. reflexivity. Qed.

(** Nobody has created the retry topic: the broker stores the record and refuses
    the produce, and the consumer ends with an error, without a commit. *)
Theorem missing_retry_topic_stops_consumer :
  let '(o, events) := consume_session AtLeastOnce ["payments"] first_fails in
  o = Err (CliClient (Server "partition 1 has no leadership metadata")) /\ commits events = [].
Proof. vm_compute. split; reflexivity. Qed.
