(* ===== verification/Cli.v ===== *)
(** * Cli: the commands of [bin/sevlamq-cli]: [cli.rs] and [commands/*.rs].

    The parser of the command line ([clap]) is not part of the model: a command
    is what it delivers. *)

From stdpp Require Import base numbers list strings gmap.
From Stdlib Require Import ZArith Lia.
From S2P Require Import Prelude Text Protocol Record Storage Groups Worker WorkerSpec Topics Addr Codec Broker Serving Connection Connections Client Rpc Host Retry Consume ConsumeFacts ConsumeRun.

Inductive ProduceAcks := AcksLeader | AcksDurable.
Inductive BatchCompression := BatchNone | BatchZstd.

Inductive GroupCommand :=
| GroupJoin (group topic member : string)
| GroupHeartbeat (group topic member : string) (generation : Z)
| GroupLeave (group topic member : string) (generation : Z)
| GroupCommit (group topic member : string) (generation partition offset : Z)
| GroupOffset (group topic : string) (partition : Z)
| GroupFetchFrom (group topic member : string) (generation partition offset max_bytes wait_ms : Z).
Inductive TopicCommand :=
| TopicCreate (topic : string) (partitions : Z)
| TopicList
| TopicDescribe (topic : string).
Inductive ClusterCommand :=
| ClusterStatus
| ClusterPromote (topic : string) (partition broker_id : Z).

Inductive Command :=
| Produce (topic message : string) (key : option string) (acks : ProduceAcks)
    (producer_id : option string) (sequence : option Z)
| ProduceBatch (topic : string) (message : list string) (key : option string) (acks : ProduceAcks)
    (compression : BatchCompression)
| Fetch (topic : string) (partition offset max_bytes wait_ms : Z)
| Group (command : GroupCommand)
| Topic (command : TopicCommand)
| Cluster (command : ClusterCommand)
| Consume (topic group member : string) (delivery : DeliveryMode) (wait_ms heartbeat_ms max_bytes : Z)
    (handler : option string) (handler_timeout_ms : Z) (retry_delays_ms : list Z).
Record Cli := { cli_broker : SocketAddr; cli_command : Command }.

Section commands.
Context `{!Crc32} `{!Zstd} {St : Type} `{!ClientApi St} `{!Host St}.
Abbreviation command A := (SM St CliError A).

(** [for line in lines { println!(...) }] *)
Definition print_lines (ls : list string) : command unit := for_each ls println.

(* ------------------------------------------------------------------ *)
(** ** [produce.rs] and [fetch.rs]                                      *)
(* ------------------------------------------------------------------ *)

Definition ack_mode (acks : ProduceAcks) : AckMode :=
  match acks with AcksLeader => AckLeader | AcksDurable => AckDurable end.
Definition batch_compression (c : BatchCompression) : Compression :=
  match c with BatchNone => CompressionNone | BatchZstd => CompressionZstd end.
Definition option_bytes (key : option string) : bytes :=
  match key with Some key => as_bytes key | None => [] end.
(** [producer_id.zip(sequence)] *)
Definition producer_of (producer_id : option string) (sequence : option Z) : option ProducerIdentity :=
  match producer_id, sequence with
  | Some id, Some sequence => Some {| pi_id := id; pi_sequence := sequence |}
  | _, _ => None
  end.
Definition ack_line (a : ProduceAck) : string :=
  "partition=" +:+ show_uint (pa_partition a) +:+ " offset=" +:+ show_uint (pa_offset a).
Definition produce_command (topic message : string) (key : option string) (acks : ProduceAcks)
    (producer_id : option string) (sequence : option Z) : command unit :=
  ack <- of_client (api_produce topic (option_bytes key) (as_bytes message) (ack_mode acks)
                      (producer_of producer_id sequence)) ;;
  println (ack_line ack).
Definition produce_batch_command (topic : string) (messages : list string) (key : option string)
    (acks : ProduceAcks) (compression : BatchCompression) : command unit :=
  let records := (fun m => {| br_key := option_bytes key; br_payload := as_bytes m |}) <$> messages in
  request <- lift (omap_err CliProtocol
    (fst (ProduceBatchRequest_new topic records (ack_mode acks) (batch_compression compression) tt))) ;;
  acks <- of_client (api_produce_batch request) ;;
  print_lines (ack_line <$> acks).

Definition record_line (r : FetchedRecord) : string :=
  "offset=" +:+ show_uint (fd_offset r) +:+ " timestamp_ms=" +:+ show_uint (fd_timestamp_ms r) +:+
  " key=" +:+ (match fd_key r with Some key => from_utf8_lossy key | None => "-" end) +:+
  " value=" +:+ from_utf8_lossy (fd_value r).
Definition print_records (response : FetchResponse) : command unit :=
  print_lines (record_line <$> fp_records response).
Definition fetch_command (topic : string) (partition offset max_bytes wait_ms : Z) : command unit :=
  response <- of_client (api_fetch topic partition offset max_bytes wait_ms) ;;
  print_records response.

(* ------------------------------------------------------------------ *)
(** ** [group.rs], [topic.rs] and [cluster.rs]                          *)
(* ------------------------------------------------------------------ *)

Definition join_command (group topic member : string) : command unit :=
  response <- of_client (api_join group topic member) ;;
  println ("generation=" +:+ show_uint (jg_generation response) +:+
           " partitions=" +:+ join_with "," (show_uint <$> jg_partitions response)).
Definition group_command (c : GroupCommand) : command unit :=
  match c with
  | GroupJoin group topic member => join_command group topic member
  | GroupHeartbeat group topic member generation =>
      of_client (api_heartbeat group topic member generation) ;;; println "heartbeat accepted"
  | GroupLeave group topic member generation =>
      of_client (api_leave group topic member generation) ;;; println "member left group"
  | GroupCommit group topic member generation partition offset =>
      of_client (api_commit {| co_group := group; co_topic := topic; co_member := member;
        co_generation := generation; co_partition := partition; co_offset := offset |}) ;;;
      println "offset committed"
  | GroupOffset group topic partition =>
      offset <- of_client (api_committed_offset group topic partition) ;;
      println (match offset with Some offset => "offset=" +:+ show_uint offset | None => "offset=-" end)
  | GroupFetchFrom group topic member generation partition offset max_bytes wait_ms =>
      response <- of_client (api_group_fetch {| gf_group := group; gf_topic := topic; gf_member := member;
        gf_generation := generation; gf_partition := partition; gf_offset := offset;
        gf_max_bytes := max_bytes; gf_max_wait_ms := wait_ms |}) ;;
      print_records response
  end.

(** A list without an entry for the partition counts as zero. *)
Definition leader_text (t : TopicMetadata) (partition : nat) (leader : Z) : string :=
  show_uint (Z.of_nat partition) +:+ ":" +:+ show_uint leader +:+
  "@" +:+ show_uint (default 0 (tm_leader_epochs t !! partition)) +:+
  "/hw=" +:+ show_uint (default 0 (tm_high_watermarks t !! partition)).
Definition topic_line (t : TopicMetadata) : string :=
  "topic=" +:+ tm_topic t +:+ " partitions=" +:+ show_uint (tm_partitions t) +:+
  " leaders=[" +:+ join_with "," (imap (leader_text t) (tm_leaders t)) +:+ "]".
Definition topic_command (c : TopicCommand) : command unit :=
  match c with
  | TopicCreate topic partitions =>
      t <- of_client (api_create_topic topic partitions) ;; println (topic_line t)
  | TopicList => ts <- of_client api_list_topics ;; print_lines (topic_line <$> ts)
  | TopicDescribe topic => t <- of_client (api_describe_topic topic) ;; println (topic_line t)
  end.

Definition broker_line (m : ClusterMetadata) (n : ClusterNode) : string :=
  "broker=" +:+ show_uint (cn_id n) +:+
  " address=" +:+ cn_host n +:+ ":" +:+ show_uint (cn_port n) +:+
  " admin=" +:+ cn_host n +:+ ":" +:+ show_uint (cn_admin_port n) +:+
  " replication=" +:+ cn_host n +:+ ":" +:+ show_uint (cn_replication_port n) +:+
  (if cn_id n =? cm_responding_broker_id m then " current" else "").
Definition cluster_command (c : ClusterCommand) : command unit :=
  match c with
  | ClusterStatus =>
      m <- of_client api_cluster_metadata ;;
      println ("responding_broker=" +:+ show_uint (cm_responding_broker_id m)) ;;;
      print_lines (broker_line m <$> cm_nodes m)
  | ClusterPromote topic partition broker_id =>
      l <- of_client (api_promote_leader topic partition broker_id) ;;
      println ("partition=" +:+ show_uint (pl_partition l) +:+ " leader=" +:+ show_uint (pl_leader_id l) +:+
               " epoch=" +:+ show_uint (pl_leader_epoch l))
  end.

(* ------------------------------------------------------------------ *)
(** ** [mod.rs]                                                         *)
(* ------------------------------------------------------------------ *)

(** [execute_single]; a consumer has its own path, [unreachable!] here. *)
Definition execute_single (broker : SocketAddr) (c : Command) : command unit :=
  of_client (api_connect broker) ;;;
  match c with
  | Produce topic message key acks producer_id sequence =>
      produce_command topic message key acks producer_id sequence
  | ProduceBatch topic message key acks compression =>
      produce_batch_command topic message key acks compression
  | Fetch topic partition offset max_bytes wait_ms => fetch_command topic partition offset max_bytes wait_ms
  | Group c => group_command c
  | Topic c => topic_command c
  | Cluster c => cluster_command c
  | Consume _ _ _ _ _ _ _ _ _ _ => panic
  end.
(** [execute]: the consumer may run for ever; it is given a number of
    generations and of turns, and the result tells whether the command ended. *)
Definition execute_cli (generations turns : nat) (cli : Cli) : command bool :=
  match cli_command cli with
  | Consume topic group member delivery wait_ms heartbeat_ms max_bytes handler handler_timeout_ms retry_delays_ms =>
      execute {| op_topic := topic; op_group := group; op_member := member; op_delivery := delivery;
                 op_wait_ms := wait_ms; op_heartbeat_ms := heartbeat_ms; op_max_bytes := max_bytes;
                 op_handler := handler; op_handler_timeout_ms := handler_timeout_ms;
                 op_retry_delays_ms := retry_delays_ms |} generations turns (cli_broker cli)
  | c => execute_single (cli_broker cli) c ;;; ret true
  end.
End commands.

(* ------------------------------------------------------------------ *)
(** ** Commands that run one after the other on a broker                *)
(* ------------------------------------------------------------------ *)

#[local] Existing Instance length_crc.
#[local] Existing Instance stored_zstd.
#[local] Existing Instance lone_network.
#[local] Existing Instance lone_api.

(** What the commands print; the connection stays open in between. *)
Definition printed (commands : list (SM Session CliError unit)) : outcome CliError unit * list string :=
  let '(o, w) := for_each commands (fun m => m) ((sample_client, linked lone_broker), machine [] []) in
  (o, trace w ≫= fun e => match e with EPrint line => [line] | _ => [] end).

(** A topic is created, an idempotent record is produced twice and stored once. *)
Example commands_run :
  printed
    [topic_command (TopicCreate "payments" 3);
     produce_command "payments" "two" (Some "order-7") AcksDurable (Some "app") (Some 0);
     produce_command "payments" "two" (Some "order-7") AcksDurable (Some "app") (Some 0);
     fetch_command "payments" 1 0 1000 0;
     join_command "workers" "payments" "worker-a";
     group_command (GroupCommit "workers" "payments" "worker-a" 1 1 1);
     group_command (GroupOffset "workers" "payments" 1);
     topic_command (TopicDescribe "payments");
     cluster_command ClusterStatus] =
  (Ok tt,
   ["topic=payments partitions=3 leaders=[0:1@0/hw=0,1:1@0/hw=0,2:1@0/hw=0]";
    "partition=1 offset=0";
    "partition=1 offset=0";
    "offset=0 timestamp_ms=5 key=order-7 value=two";
    "generation=1 partitions=0,1,2";
    "offset committed";
    "offset=1";
    "topic=payments partitions=3 leaders=[0:1@0/hw=0,1:1@0/hw=1,2:1@0/hw=0]";
    "responding_broker=1";
    "broker=1 address=127.0.0.1:7400 admin=127.0.0.1:7401 replication=127.0.0.1:7402 current"]).
Proof. vm_compute. reflexivity. Qed.
