(* ===== verification/Metrics.v ===== *)
(** * Metrics: [crates/broker/src/observability.rs], the counters of a broker and
    the text they are shown as.

    Counters are [AtomicU64]s: every update is one step, and wraps around.  The
    order in which a hash map is walked is not specified by the language;
    [iterate] gives it. *)

From stdpp Require Import base numbers list strings gmap.
From Stdlib Require Import ZArith Lia.
From S2P Require Import Prelude Text.

(** A string with quotes around it. *)
Definition QUOTE : string := of_bytes [byte_of_Z 34].
Definition quoted (s : string) : string := QUOTE +:+ s +:+ QUOTE.
(** [k="v"] *)
Definition label (k v : string) : string := k +:+ "=" +:+ quoted v.

(* ------------------------------------------------------------------ *)
(** ** Histograms                                                       *)
(* ------------------------------------------------------------------ *)

Definition LATENCY_BUCKETS_US : list Z := [100; 500; 1000; 5000; 10000; 50000; 100000; 500000; 1000000].
(** The last bucket has no bound. *)
Record Histogram := { h_buckets : list Z; h_count : Z; h_sum_us : Z }.
Definition empty_histogram : Histogram :=
  {| h_buckets := List.repeat 0 (length LATENCY_BUCKETS_US + 1); h_count := 0; h_sum_us := 0 |}.
Definition increment (v : Z) : Z := wrapping_add v 1.

(** Buckets of the bounds, from the first; the buckets beyond are left. *)
Fixpoint observe_buckets (bounds buckets : list Z) (micros : Z) : list Z :=
  match bounds, buckets with
  | bound :: bounds, b :: buckets =>
      (if micros <=? bound then increment b else b) :: observe_buckets bounds buckets micros
  | _, buckets => buckets
  end.
(** [observe], of a duration in microseconds. *)
Definition observe (duration_us : Z) (h : Histogram) : Histogram :=
  let micros := Z.min duration_us U64_MAX in
  let bounded := observe_buckets LATENCY_BUCKETS_US (h_buckets h) micros in
  {| h_buckets := alter increment (length LATENCY_BUCKETS_US) bounded;
     h_count := increment (h_count h); h_sum_us := wrapping_add (h_sum_us h) micros |}.

(** [{}.{:06}] *)
Definition pad6 (n : Z) : string :=
  let d := dec_digits DIGITS n in of_bytes (List.repeat (digit 0) (6 - length d) ++ d).
Definition format_seconds (micros : Z) : string :=
  show_uint (micros / 1000000) +:+ "." +:+ pad6 (micros mod 1000000).

Definition help_line (name help : string) : string := "# HELP " +:+ name +:+ " " +:+ help.
Definition type_line (name kind : string) : string := "# TYPE " +:+ name +:+ " " +:+ kind.
Definition bucket_line (name le : string) (v : Z) : string :=
  name +:+ "_bucket{" +:+ label "le" le +:+ "} " +:+ show_uint v.
(** What is written to the output, line by line. *)
Definition render_histogram (h : Histogram) (name help : string) : list string :=
  [help_line name help; type_line name "histogram"] ++
  zip_with (fun bound v => bucket_line name (format_seconds bound) v) LATENCY_BUCKETS_US (h_buckets h) ++
  [bucket_line name "+Inf" (default 0 (h_buckets h !! length LATENCY_BUCKETS_US));
   name +:+ "_count " +:+ show_uint (h_count h);
   name +:+ "_sum " +:+ format_seconds (h_sum_us h)].

(* ------------------------------------------------------------------ *)
(** ** The metrics of a broker                                          *)
(* ------------------------------------------------------------------ *)

(** A broker, a topic and a partition. *)
Abbreviation ReplicaKey := (Z * string * Z)%type.
Class IterationOrder := {
  iterate {V : Type} : gmap ReplicaKey V -> list (ReplicaKey * V);
  iterate_all {V : Type} (m : gmap ReplicaKey V) : iterate m ≡ₚ map_to_list m
}.

Record RuntimeMetrics := {
  rm_active_connections : Z;
  rm_produced_messages : Z;
  rm_produced_bytes : Z;
  rm_fetched_messages : Z;
  rm_fetched_bytes : Z;
  rm_broker_busy : Z;
  rm_retention_segments_removed : Z;
  rm_replication_records_sent : Z;
  rm_replication_records_received : Z;
  rm_replication_failures : Z;
  rm_replication_reconnects : Z;
  rm_automatic_leader_promotions : Z;
  rm_replica_offsets : gmap ReplicaKey Z;
  rm_replica_sync : gmap ReplicaKey bool;
  rm_in_sync_replicas : gmap ReplicaKey bool;
  rm_produce_latency : Histogram;
  rm_fetch_latency : Histogram;
  rm_append_latency : Histogram;
  rm_flush_latency : Histogram
}.
Definition new_metrics : RuntimeMetrics :=
  Build_RuntimeMetrics 0 0 0 0 0 0 0 0 0 0 0 0 ∅ ∅ ∅
    empty_histogram empty_histogram empty_histogram empty_histogram.

Definition connection_opened (m : RuntimeMetrics) : RuntimeMetrics :=
  let (conn, pm, pb, fm, fb, busy, ret, sent, recv, fail, rec, prom, offs, sync, isr, hp, hf, ha, hl) := m in
  Build_RuntimeMetrics (wrapping_add conn 1) pm pb fm fb busy ret sent recv fail rec prom offs sync isr hp hf ha hl.
Definition connection_closed (m : RuntimeMetrics) : RuntimeMetrics :=
  let (conn, pm, pb, fm, fb, busy, ret, sent, recv, fail, rec, prom, offs, sync, isr, hp, hf, ha, hl) := m in
  Build_RuntimeMetrics (wrapping_add conn (-1)) pm pb fm fb busy ret sent recv fail rec prom offs sync isr hp hf ha hl.
Definition produced (messages bytes : Z) (m : RuntimeMetrics) : RuntimeMetrics :=
  let (conn, pm, pb, fm, fb, busy, ret, sent, recv, fail, rec, prom, offs, sync, isr, hp, hf, ha, hl) := m in
  Build_RuntimeMetrics conn (wrapping_add pm messages) (wrapping_add pb bytes) fm fb busy ret sent recv fail rec prom offs sync isr hp hf ha hl.
Definition fetched_records (messages bytes : Z) (m : RuntimeMetrics) : RuntimeMetrics :=
  let (conn, pm, pb, fm, fb, busy, ret, sent, recv, fail, rec, prom, offs, sync, isr, hp, hf, ha, hl) := m in
  Build_RuntimeMetrics conn pm pb (wrapping_add fm messages) (wrapping_add fb bytes) busy ret sent recv fail rec prom offs sync isr hp hf ha hl.
Definition broker_busy (m : RuntimeMetrics) : RuntimeMetrics :=
  let (conn, pm, pb, fm, fb, busy, ret, sent, recv, fail, rec, prom, offs, sync, isr, hp, hf, ha, hl) := m in
  Build_RuntimeMetrics conn pm pb fm fb (increment busy) ret sent recv fail rec prom offs sync isr hp hf ha hl.
Definition retention_removed (segments : Z) (m : RuntimeMetrics) : RuntimeMetrics :=
  let (conn, pm, pb, fm, fb, busy, ret, sent, recv, fail, rec, prom, offs, sync, isr, hp, hf, ha, hl) := m in
  Build_RuntimeMetrics conn pm pb fm fb busy (wrapping_add ret segments) sent recv fail rec prom offs sync isr hp hf ha hl.
Definition replication_sent (follower_id : Z) (topic : string) (partition next_offset : Z) (record_accepted : bool)
    (m : RuntimeMetrics) : RuntimeMetrics :=
  let (conn, pm, pb, fm, fb, busy, ret, sent, recv, fail, rec, prom, offs, sync, isr, hp, hf, ha, hl) := m in
  Build_RuntimeMetrics conn pm pb fm fb busy ret (if record_accepted then increment sent else sent) recv fail rec prom
    (<[(follower_id, topic, partition) := next_offset]> offs) sync isr hp hf ha hl.
Definition replication_received (m : RuntimeMetrics) : RuntimeMetrics :=
  let (conn, pm, pb, fm, fb, busy, ret, sent, recv, fail, rec, prom, offs, sync, isr, hp, hf, ha, hl) := m in
  Build_RuntimeMetrics conn pm pb fm fb busy ret sent (increment recv) fail rec prom offs sync isr hp hf ha hl.
Definition replication_failed (m : RuntimeMetrics) : RuntimeMetrics :=
  let (conn, pm, pb, fm, fb, busy, ret, sent, recv, fail, rec, prom, offs, sync, isr, hp, hf, ha, hl) := m in
  Build_RuntimeMetrics conn pm pb fm fb busy ret sent recv (increment fail) rec prom offs sync isr hp hf ha hl.
(** Counted only when the replica was known to be out of sync. *)
Definition replication_reconnect (leader_id : Z) (topic : string) (partition : Z) (m : RuntimeMetrics) : RuntimeMetrics :=
  let (conn, pm, pb, fm, fb, busy, ret, sent, recv, fail, rec, prom, offs, sync, isr, hp, hf, ha, hl) := m in
  let was_out_of_sync := bool_decide (sync !! (leader_id, topic, partition) = Some false) in
  Build_RuntimeMetrics conn pm pb fm fb busy ret sent recv fail (if was_out_of_sync then increment rec else rec)
    prom offs sync isr hp hf ha hl.
Definition automatic_leader_promotion (m : RuntimeMetrics) : RuntimeMetrics :=
  let (conn, pm, pb, fm, fb, busy, ret, sent, recv, fail, rec, prom, offs, sync, isr, hp, hf, ha, hl) := m in
  Build_RuntimeMetrics conn pm pb fm fb busy ret sent recv fail rec (increment prom) offs sync isr hp hf ha hl.
Definition replica_sync (leader_id : Z) (topic : string) (partition : Z) (in_sync : bool) (m : RuntimeMetrics) : RuntimeMetrics :=
  let (conn, pm, pb, fm, fb, busy, ret, sent, recv, fail, rec, prom, offs, sync, isr, hp, hf, ha, hl) := m in
  Build_RuntimeMetrics conn pm pb fm fb busy ret sent recv fail rec prom offs
    (<[(leader_id, topic, partition) := in_sync]> sync) isr hp hf ha hl.
Definition in_sync_replica (broker_id : Z) (topic : string) (partition : Z) (in_sync : bool) (m : RuntimeMetrics) : RuntimeMetrics :=
  let (conn, pm, pb, fm, fb, busy, ret, sent, recv, fail, rec, prom, offs, sync, isr, hp, hf, ha, hl) := m in
  Build_RuntimeMetrics conn pm pb fm fb busy ret sent recv fail rec prom offs sync
    (<[(broker_id, topic, partition) := in_sync]> isr) hp hf ha hl.
Definition observe_produce (us : Z) (m : RuntimeMetrics) : RuntimeMetrics :=
  let (conn, pm, pb, fm, fb, busy, ret, sent, recv, fail, rec, prom, offs, sync, isr, hp, hf, ha, hl) := m in
  Build_RuntimeMetrics conn pm pb fm fb busy ret sent recv fail rec prom offs sync isr (observe us hp) hf ha hl.
Definition observe_fetch (us : Z) (m : RuntimeMetrics) : RuntimeMetrics :=
  let (conn, pm, pb, fm, fb, busy, ret, sent, recv, fail, rec, prom, offs, sync, isr, hp, hf, ha, hl) := m in
  Build_RuntimeMetrics conn pm pb fm fb busy ret sent recv fail rec prom offs sync isr hp (observe us hf) ha hl.
Definition observe_append (us : Z) (m : RuntimeMetrics) : RuntimeMetrics :=
  let (conn, pm, pb, fm, fb, busy, ret, sent, recv, fail, rec, prom, offs, sync, isr, hp, hf, ha, hl) := m in
  Build_RuntimeMetrics conn pm pb fm fb busy ret sent recv fail rec prom offs sync isr hp hf (observe us ha) hl.
Definition observe_flush (us : Z) (m : RuntimeMetrics) : RuntimeMetrics :=
  let (conn, pm, pb, fm, fb, busy, ret, sent, recv, fail, rec, prom, offs, sync, isr, hp, hf, ha, hl) := m in
  Build_RuntimeMetrics conn pm pb fm fb busy ret sent recv fail rec prom offs sync isr hp hf ha (observe us hl).

(* ------------------------------------------------------------------ *)
(** ** Their text                                                       *)
(* ------------------------------------------------------------------ *)

Definition metric (name help kind : string) (value : Z) : list string :=
  [help_line name help; type_line name kind; name +:+ " " +:+ show_uint value].

(** [value.replace(b, by)] for a one-byte pattern. *)
Definition replace_byte (b : byte) (by_ : bytes) (l : bytes) : bytes :=
  l ≫= fun x => if bool_decide (x = b) then by_ else [x].
Definition BACKSLASH : byte := byte_of_Z 92.
Definition DQUOTE : byte := byte_of_Z 34.
Definition LOWER_N : byte := byte_of_Z 110.
Definition escape_bytes (l : bytes) : bytes :=
  replace_byte DQUOTE [BACKSLASH; DQUOTE]
    (replace_byte LF [BACKSLASH; LOWER_N]
       (replace_byte BACKSLASH [BACKSLASH; BACKSLASH] l)).
Definition escape_label (value : string) : string := of_bytes (escape_bytes (as_bytes value)).

Definition render_automatic_promotions (m : RuntimeMetrics) : list string :=
  metric "sevlamq_automatic_leader_promotions_total"
    "Partition leaders promoted automatically after probe failures." "counter" (rm_automatic_leader_promotions m).
Definition render_runtime (m : RuntimeMetrics) : list string :=
  metric "sevlamq_active_connections" "Current client TCP connections." "gauge" (rm_active_connections m) ++
  metric "sevlamq_messages_produced_total" "Messages accepted by the broker." "counter" (rm_produced_messages m) ++
  metric "sevlamq_bytes_produced_total" "Uncompressed payload bytes accepted by the broker." "counter" (rm_produced_bytes m) ++
  metric "sevlamq_messages_fetched_total" "Messages returned by fetch requests." "counter" (rm_fetched_messages m) ++
  metric "sevlamq_bytes_fetched_total" "Payload bytes returned by fetch requests." "counter" (rm_fetched_bytes m) ++
  metric "sevlamq_broker_busy_total" "Requests rejected because the storage queue remained full." "counter" (rm_broker_busy m) ++
  metric "sevlamq_retention_segments_removed_total" "Closed log segments removed by retention." "counter" (rm_retention_segments_removed m) ++
  metric "sevlamq_replication_records_sent_total" "Records acknowledged by followers." "counter" (rm_replication_records_sent m) ++
  metric "sevlamq_replication_records_received_total" "Records accepted through the replication listener." "counter" (rm_replication_records_received m) ++
  metric "sevlamq_replication_failures_total" "Replication operations that failed before acknowledgement." "counter" (rm_replication_failures m) ++
  metric "sevlamq_replication_reconnects_total" "Follower recovery retries after a failed connection." "counter" (rm_replication_reconnects m) ++
  render_automatic_promotions m ++
  render_histogram (rm_produce_latency m) "sevlamq_produce_duration_seconds" "End-to-end produce request latency." ++
  render_histogram (rm_fetch_latency m) "sevlamq_fetch_duration_seconds" "End-to-end fetch request latency." ++
  render_histogram (rm_append_latency m) "sevlamq_append_duration_seconds" "Storage append latency." ++
  render_histogram (rm_flush_latency m) "sevlamq_flush_duration_seconds" "Durable storage synchronization latency.".
