(* ===== verification/Admin.v ===== *)
(** * Admin: the admin listener of [crates/broker/src/lib.rs]: health checks and
    the metrics of the storage, the replication and the groups. *)

From stdpp Require Import base numbers list strings gmap sorting.
From Stdlib Require Import ZArith Lia.
From S2P Require Import Prelude Text Files Protocol Record Log Groups Leadership Worker Broker Metrics.

(* ------------------------------------------------------------------ *)
(** ** HTTP                                                             *)
(* ------------------------------------------------------------------ *)

Definition MAX_REQUEST_BYTES : Z := 8 * 1024.
Definition CRLF : bytes := [CR; LF].
(** [request.windows(4).any(|w| w == b"\r\n\r\n")] *)
Fixpoint has_header_end (l : bytes) : bool :=
  match l with
  | [] => false
  | _ :: l' => bytes_prefix (CRLF ++ CRLF) l || has_header_end l'
  end.

Inductive AdminRead :=
| RequestRead (request : bytes)
| RequestTooLarge
| PeerClosed
| RequestPending. (* the model's: the chunks so far do not settle it *)
(** The read loop over the chunks that arrive; an empty chunk is the end of the stream. *)
Fixpoint read_request (chunks : list bytes) (request : bytes) : AdminRead :=
  if has_header_end request then RequestRead request
  else if MAX_REQUEST_BYTES <=? blen request then RequestTooLarge
  else match chunks with
       | [] => RequestPending
       | [] :: _ => PeerClosed
       | chunk :: chunks => read_request chunks (request ++ chunk)
       end.

(** [split_ascii_whitespace] *)
Definition is_ascii_whitespace (b : byte) : bool :=
  (Z_of_byte b =? 32) || (Z_of_byte b =? 9) || (Z_of_byte b =? 10) || (Z_of_byte b =? 12) || (Z_of_byte b =? 13).
Fixpoint split_by (p : byte -> bool) (l : bytes) : list bytes :=
  match l with
  | [] => [[]]
  | b :: l' =>
    if p b then [] :: split_by p l'
    else match split_by p l' with
         | [] => [[b]]
         | w :: ws => (b :: w) :: ws
         end
  end.
Definition ascii_words (l : bytes) : list bytes := filter (fun w => w <> []) (split_by is_ascii_whitespace l).
Definition request_path (request : bytes) : option string :=
  let line := default [] (head (split_on LF request)) in
  let request_line := if utf8_valid line then line else [] in
  of_bytes <$> ascii_words request_line !! 1%nat.

Definition http_response (status content_type body : string) : bytes :=
  as_bytes "HTTP/1.1 " ++ as_bytes status ++ CRLF ++
  as_bytes "Content-Type: " ++ as_bytes content_type ++ CRLF ++
  as_bytes "Content-Length: " ++ as_bytes (show_uint (str_len body)) ++ CRLF ++
  as_bytes "Connection: close" ++ CRLF ++ CRLF ++ as_bytes body.

(* ------------------------------------------------------------------ *)
(** ** Metrics of the topics                                            *)
(* ------------------------------------------------------------------ *)

Definition gauge (name help : string) : list string := [help_line name help; type_line name "gauge"].
(** [name{labels} value] *)
Definition sample (name labels : string) (value : Z) : string :=
  name +:+ "{" +:+ labels +:+ "} " +:+ show_uint value.
Definition bool_gauge (b : bool) : Z := if b then 1 else 0.

(** A [BTreeMap] keyed by topics, walked in their order. *)
Definition entry_le {A} (a b : string * A) : Prop := Is_true (bool_decide (String.le a.1 b.1)).
#[global] Instance entry_le_dec {A} : RelDecision (@entry_le A).
Proof. intros a b. unfold entry_le. apply _. Defined.
Definition in_topic_order {A} (m : gmap string A) : list (string * A) := merge_sort entry_le (map_to_list m).

Definition topic_counts (partitions : list PartitionSnapshot) : gmap string Z :=
  foldl (fun m p => <[ps_topic p := default 0 (m !! ps_topic p) + 1]> m) ∅ partitions.
Definition add_totals (totals : Z * Z) (p : PartitionSnapshot) : Z * Z :=
  (saturating_add totals.1 (ps_high_watermark p), saturating_add totals.2 (ps_log_size_bytes p)).
Definition topic_totals (partitions : list PartitionSnapshot) : gmap string (Z * Z) :=
  foldl (fun m p => <[ps_topic p := add_totals (default (0, 0) (m !! ps_topic p)) p]> m) ∅ partitions.

Definition partition_labels (p : PartitionSnapshot) : string :=
  label "topic" (escape_label (ps_topic p)) +:+ "," +:+ label "partition" (show_uint (ps_partition p)).
Definition render_partition_metrics (partitions : list PartitionSnapshot) : list string :=
  gauge "sevlamq_partition_high_watermark" "Next offset of a partition." ++
  gauge "sevlamq_partition_log_end_offset" "Next locally stored offset." ++
  gauge "sevlamq_partition_low_watermark" "Earliest available offset." ++
  gauge "sevlamq_partition_records" "Records currently retained in a partition." ++
  gauge "sevlamq_partition_log_size_bytes" "Bytes stored in partition logs." ++
  gauge "sevlamq_partition_segments" "Number of log segments." ++
  partitions ≫= fun p =>
    [sample "sevlamq_partition_high_watermark" (partition_labels p) (ps_high_watermark p);
     sample "sevlamq_partition_log_end_offset" (partition_labels p) (ps_log_end_offset p);
     sample "sevlamq_partition_low_watermark" (partition_labels p) (ps_low_watermark p);
     sample "sevlamq_partition_records" (partition_labels p)
       (saturating_sub (ps_high_watermark p) (ps_low_watermark p));
     sample "sevlamq_partition_log_size_bytes" (partition_labels p) (ps_log_size_bytes p);
     sample "sevlamq_partition_segments" (partition_labels p) (ps_segments p)].

(* ------------------------------------------------------------------ *)
(** ** Metrics of the replication                                       *)
(* ------------------------------------------------------------------ *)

Section replication.
Context `{!IterationOrder}.
Definition replica_labels (who : string) (k : ReplicaKey) : string :=
  label who (show_uint k.1.1) +:+ "," +:+ label "topic" (escape_label k.1.2) +:+ "," +:+
  label "partition" (show_uint k.2).
(** What a follower has not acknowledged of a partition; zero without the partition. *)
Definition replication_lag (partitions : list PartitionSnapshot) (topic : string) (partition offset : Z) : Z :=
  let high_watermark :=
    match List.find (fun s => bool_decide (ps_topic s = topic) && (ps_partition s =? partition)) partitions with
    | Some s => ps_high_watermark s
    | None => 0
    end in
  saturating_sub high_watermark offset.
(** The entries of the three maps, in the order in which the hash map yields them. *)
Definition replica_offset_states (m : RuntimeMetrics) : list (ReplicaKey * Z) := iterate (rm_replica_offsets m).
Definition replica_sync_states (m : RuntimeMetrics) : list (ReplicaKey * bool) := iterate (rm_replica_sync m).
Definition in_sync_replica_states (m : RuntimeMetrics) : list (ReplicaKey * bool) := iterate (rm_in_sync_replicas m).
Definition render_replication_metrics (m : RuntimeMetrics) (partitions : list PartitionSnapshot) : list string :=
  gauge "sevlamq_replica_offset" "Next offset acknowledged by a follower." ++
  gauge "sevlamq_replication_lag_records" "Records not yet acknowledged by a follower." ++
  (replica_offset_states m ≫= fun '(k, offset) =>
    [sample "sevlamq_replica_offset" (replica_labels "follower_id" k) offset;
     sample "sevlamq_replication_lag_records" (replica_labels "follower_id" k)
       (replication_lag partitions k.1.2 k.2 offset)]) ++
  gauge "sevlamq_replica_in_sync" "Whether this follower reached its leader." ++
  ((fun '(k, in_sync) => sample "sevlamq_replica_in_sync" (replica_labels "leader_id" k) (bool_gauge in_sync)) <$>
     replica_sync_states m) ++
  gauge "sevlamq_partition_isr" "Broker membership in a partition ISR." ++
  ((fun '(k, in_sync) => sample "sevlamq_partition_isr" (replica_labels "broker_id" k) (bool_gauge in_sync)) <$>
     in_sync_replica_states m).
End replication.

(* ------------------------------------------------------------------ *)
(** ** Metrics of the groups                                            *)
(* ------------------------------------------------------------------ *)

Definition group_labels (g : GroupSnapshot) : string :=
  label "group" (escape_label (gs_group g)) +:+ "," +:+ label "topic" (escape_label (gs_topic g)).
(** [find_map] over the committed offsets, with the default of no commit. *)
Definition committed_of (g : GroupSnapshot) (partition : Z) : Z :=
  match List.find (fun e => e.1 =? partition) (gs_committed_offsets g) with Some e => e.2 | None => 0 end.
Definition group_lag (g : GroupSnapshot) (p : PartitionSnapshot) : Z :=
  saturating_sub (ps_high_watermark p) (Z.max (committed_of g (ps_partition p)) (ps_low_watermark p)).
Definition group_partitions (g : GroupSnapshot) (partitions : list PartitionSnapshot) : list PartitionSnapshot :=
  filter (fun p => ps_topic p = gs_topic g) partitions.
Definition total_lag (g : GroupSnapshot) (partitions : list PartitionSnapshot) : Z :=
  foldl (fun total p => saturating_add total (group_lag g p)) 0 (group_partitions g partitions).
Definition render_group (partitions : list PartitionSnapshot) (g : GroupSnapshot) : list string :=
  [sample "sevlamq_consumer_group_members" (group_labels g) (gs_members g);
   sample "sevlamq_consumer_group_generation" (group_labels g) (gs_generation g);
   sample "sevlamq_consumer_group_assigned_partitions" (group_labels g) (gs_assigned_partitions g)] ++
  (group_partitions g partitions ≫= fun p =>
    let labels := group_labels g +:+ "," +:+ label "partition" (show_uint (ps_partition p)) in
    [sample "sevlamq_consumer_group_committed_offset" labels (committed_of g (ps_partition p));
     sample "sevlamq_consumer_group_lag" labels (group_lag g p)]) ++
  [sample "sevlamq_consumer_group_lag_total" (group_labels g) (total_lag g partitions)].
Definition render_group_metrics (partitions : list PartitionSnapshot) (groups : list GroupSnapshot) : list string :=
  gauge "sevlamq_consumer_group_members" "Active consumer group members." ++
  gauge "sevlamq_consumer_group_generation" "Current consumer group generation." ++
  gauge "sevlamq_consumer_group_assigned_partitions" "Partitions assigned to active members." ++
  gauge "sevlamq_consumer_group_committed_offset" "Committed next offset for a partition." ++
  gauge "sevlamq_consumer_group_lag" "Records between the committed offset and high watermark." ++
  gauge "sevlamq_consumer_group_lag_total" "Total consumer group lag across a topic." ++
  groups ≫= render_group partitions.

(* ------------------------------------------------------------------ *)
(** ** The whole text, and the listener                                 *)
(* ------------------------------------------------------------------ *)

Definition node_line (cluster : ClusterMetadata) (n : ClusterNode) : string :=
  sample "sevlamq_broker_info"
    (label "broker_id" (show_uint (cn_id n)) +:+ "," +:+ label "host" (escape_label (cn_host n)) +:+ "," +:+
     label "port" (show_uint (cn_port n)) +:+ "," +:+
     label "current" (show_uint (bool_gauge (cn_id n =? cm_responding_broker_id cluster)))) 1.

Section admin.
Context `{!IterationOrder}.

Definition render_metrics (m : RuntimeMetrics) (storage_queue_depth : Z) (partitions : list PartitionSnapshot)
    (groups : list GroupSnapshot) (cluster : ClusterMetadata) : list string :=
  render_runtime m ++
  gauge "sevlamq_broker_info" "Static broker identity and endpoint." ++
  (node_line cluster <$> cm_nodes cluster) ++
  gauge "sevlamq_storage_queue_depth" "Commands waiting in the storage worker queue." ++
  ["sevlamq_storage_queue_depth " +:+ show_uint storage_queue_depth] ++
  gauge "sevlamq_topic_partitions" "Number of partitions in a topic." ++
  ((fun '(topic, count) => sample "sevlamq_topic_partitions" (label "topic" (escape_label topic)) count) <$>
     in_topic_order (topic_counts partitions)) ++
  gauge "sevlamq_topic_high_watermark_sum" "Sum of partition high watermarks." ++
  gauge "sevlamq_topic_log_size_bytes" "Bytes stored by all partitions of a topic." ++
  (in_topic_order (topic_totals partitions) ≫= fun '(topic, (high_watermark, size)) =>
    [sample "sevlamq_topic_high_watermark_sum" (label "topic" (escape_label topic)) high_watermark;
     sample "sevlamq_topic_log_size_bytes" (label "topic" (escape_label topic)) size]) ++
  render_partition_metrics partitions ++
  render_replication_metrics m partitions ++
  render_group_metrics partitions groups.
(** Every line ends with a line feed. *)
Definition metrics_text (ls : list string) : string := of_bytes (unlines (as_bytes <$> ls)).

(** The high watermark of a partition is the registry's, when it has one. *)
Definition with_high_watermark (registry : LeadershipRegistry) (p : PartitionSnapshot) : PartitionSnapshot :=
  match fst (registry_partition (ps_topic p) (ps_partition p) registry) with
  | Ok current =>
      {| ps_topic := ps_topic p; ps_partition := ps_partition p; ps_high_watermark := pl_high_watermark current;
         ps_log_end_offset := ps_log_end_offset p; ps_low_watermark := ps_low_watermark p;
         ps_log_size_bytes := ps_log_size_bytes p; ps_segments := ps_segments p |}
  | _ => p
  end.
Definition partitions_of (b : Broker) : list PartitionSnapshot :=
  with_high_watermark (bk_leadership b) <$> snapshot_logs (wk_logs (bk_worker b)).

(** Whether the storage worker and the coordinator answer, and how many commands
    wait for the worker. *)
Context (storage_up groups_up : bool) (queue_depth : Z).
Definition admin_response (metrics : RuntimeMetrics) (cluster : ClusterMetadata) (b : Broker) (path : option string)
  : outcome ConnectionError bytes :=
  match path with
  | Some path =>
      if bool_decide (path = "/health/live") then Ok (http_response "200 OK" "text/plain" (of_bytes (as_bytes "ok" ++ [LF])))
      else if bool_decide (path = "/health/ready") then
        if storage_up && groups_up
        then Ok (http_response "200 OK" "text/plain" (of_bytes (as_bytes "ready" ++ [LF])))
        else Ok (http_response "503 Service Unavailable" "text/plain" (of_bytes (as_bytes "not ready" ++ [LF])))
      else if bool_decide (path = "/metrics") then
        if negb (storage_up && groups_up) then Err StorageUnavailable
        else Ok (http_response "200 OK" "text/plain; version=0.0.4; charset=utf-8"
                   (metrics_text (render_metrics metrics queue_depth (partitions_of b) (snapshot (bk_groups b)) cluster)))
      else Ok (http_response "404 Not Found" "text/plain" (of_bytes (as_bytes "not found" ++ [LF])))
  | None => Ok (http_response "404 Not Found" "text/plain" (of_bytes (as_bytes "not found" ++ [LF])))
  end.
(** What a connection writes before it closes, if the chunks settle it. *)
Definition handle_admin_connection (metrics : RuntimeMetrics) (cluster : ClusterMetadata) (b : Broker)
    (chunks : list bytes) : option (outcome ConnectionError bytes) :=
  match read_request chunks [] with
  | RequestRead request => Some (admin_response metrics cluster b (request_path request))
  | RequestTooLarge => Some (Ok (http_response "413 Payload Too Large" "text/plain" ""))
  | PeerClosed => Some (Ok [])
  | RequestPending => None
  end.
End admin.
