(* ===== verification/MetricsFacts.v ===== *)
(** * MetricsFacts: what the metrics say, and that they can be read back. *)

From stdpp Require Import base numbers list strings gmap sorting.
From Stdlib Require Import ZArith Lia.
From S2P Require Import Prelude Text Metrics.

(* ------------------------------------------------------------------ *)
(** ** Labels                                                           *)
(* ------------------------------------------------------------------ *)

(** What a reader of the text format makes of the value of a label, up to the
    closing quote. *)
Definition unescape (b : byte) : byte := if bool_decide (b = LOWER_N) then LF else b.
Fixpoint read_label (l : bytes) : option (bytes * bytes) :=
  match l with
  | [] => None
  | b :: l1 =>
      if bool_decide (b = DQUOTE) then Some ([], l1)
      else if bool_decide (b = LF) then None
      else if bool_decide (b = BACKSLASH) then
        match l1 with
        | [] => None
        | c :: l2 => '(v, rest) ← read_label l2; Some (unescape c :: v, rest)
        end
      else '(v, rest) ← read_label l1; Some (b :: v, rest)
  end.

Lemma escape_bytes_app a b : escape_bytes (a ++ b) = escape_bytes a ++ escape_bytes b.
Proof. unfold escape_bytes, replace_byte. by rewrite !bind_app. Qed.
Lemma read_label_byte x l :
  read_label (escape_bytes [x] ++ l) = '(v, rest) ← read_label l; Some (x :: v, rest).
Proof. destruct x; reflexivity. Qed.
Lemma read_escaped v rest : read_label (escape_bytes v ++ DQUOTE :: rest) = Some (v, rest).
Proof.
  induction v as [|x v IH]; [reflexivity|].
  change (x :: v) with ([x] ++ v). rewrite escape_bytes_app, <- app_assoc, read_label_byte, IH. reflexivity.
Qed.
Lemma escape_label_inj a b : escape_label a = escape_label b -> a = b.
Proof.
  unfold escape_label. intros H%(f_equal as_bytes). rewrite !as_bytes_of_bytes in H.
  apply as_bytes_inj. pose proof (read_escaped (as_bytes a) []) as Ha. pose proof (read_escaped (as_bytes b) []) as Hb.
  rewrite H in Ha. congruence.
Qed.
Lemma escape_no_lf v : LF ∉ escape_bytes v.
Proof.
  induction v as [|x v IH]; [apply not_elem_of_nil|]. change (x :: v) with ([x] ++ v).
  rewrite escape_bytes_app. intros [Hx|]%elem_of_app; [|done]. revert Hx. clear.
  assert (forall l : bytes, bool_decide (LF ∈ l) = false -> LF ∉ l) as Hdec by (intros l; apply bool_decide_eq_false_1).
  apply Hdec. by destruct x.
Qed.

(* ------------------------------------------------------------------ *)
(** ** Lines                                                            *)
(* ------------------------------------------------------------------ *)

(** A line has no line feed. *)
Definition one_line (s : string) : Prop := LF ∉ as_bytes s.
Create HintDb lines.

Lemma as_bytes_append a b : as_bytes (a +:+ b) = as_bytes a ++ as_bytes b.
Proof.
  unfold as_bytes, String.list_byte_of_string. rewrite <- map_app. f_equal.
  induction a as [|x a IH]; [done|]. cbn. by rewrite <- IH.
Qed.
Lemma one_line_append a b : one_line a -> one_line b -> one_line (a +:+ b).
Proof. unfold one_line. rewrite as_bytes_append, elem_of_app. tauto. Qed.
Lemma one_line_check s : bool_decide (LF ∈ as_bytes s) = false -> one_line s.
Proof. apply bool_decide_eq_false_1. Qed.
Lemma digits_no_lf l : Forall (fun b => is_ascii_digit b = true) l -> LF ∉ l.
Proof. intros Hl Hin. rewrite Forall_forall in Hl. by specialize (Hl LF Hin). Qed.
(** The digits of any number, typed or not, are no line feeds. *)
Lemma digit_not_lf d : 0 <= d <= 9 -> digit d <> LF.
Proof.
  intros Hd Heq. apply (f_equal Z_of_byte) in Heq. rewrite Z_of_digit in Heq by done.
  change (Z_of_byte LF) with 10 in Heq. lia.
Qed.
Lemma one_line_uint n : 0 <= n -> one_line (show_uint n).
Proof.
  intros Hn. unfold one_line, show_uint. rewrite as_bytes_of_bytes. by apply digits_no_lf, dec_digits_digits.
Qed.
Lemma one_line_label v : one_line (escape_label v).
Proof. unfold one_line, escape_label. rewrite as_bytes_of_bytes. apply escape_no_lf. Qed.
Lemma one_line_seconds micros : 0 <= micros -> one_line (format_seconds micros).
Proof.
  intros Hm. unfold format_seconds. apply one_line_append; [apply one_line_uint, Z.div_pos; lia|].
  apply one_line_append; [by apply one_line_check|]. unfold one_line, pad6. rewrite as_bytes_of_bytes, elem_of_app.
  pose proof (Z.mod_pos_bound micros 1000000 eq_refl). intros [Hin|Hin].
  - apply list_elem_of_In, List.repeat_spec in Hin. by apply (digit_not_lf 0 ltac:(lia)).
  - revert Hin. apply digits_no_lf, dec_digits_digits. lia.
Qed.
#[export] Hint Resolve one_line_append one_line_uint one_line_label one_line_seconds : lines.
#[export] Hint Extern 2 (one_line _) => (apply one_line_check; reflexivity) : lines.

Lemma one_line_quoted s : one_line s -> one_line (quoted s).
Proof. unfold quoted. auto with lines. Qed.
#[export] Hint Resolve one_line_quoted : lines.
Lemma one_line_label_pair k v : one_line k -> one_line v -> one_line (label k v).
Proof. unfold label. auto with lines. Qed.
#[export] Hint Resolve one_line_label_pair : lines.

(* ------------------------------------------------------------------ *)
(** ** Histograms                                                       *)
(* ------------------------------------------------------------------ *)

Definition micros_of (d : Z) : Z := Z.min d U64_MAX.
(** How many durations are at most [bound]. *)
Definition at_most (bound : Z) (ds : list Z) : Z := Z.of_nat (length (filter (fun d => micros_of d <= bound) ds)).
Definition total (ds : list Z) : Z := foldr (fun d n => micros_of d + n) 0 ds.
(** The histogram of a list of durations, counted modulo 2^64. *)
Definition wrap (v : Z) : Z := v mod (U64_MAX + 1).
Definition histogram_of (ds : list Z) : Histogram :=
  {| h_buckets := ((fun b => wrap (at_most b ds)) <$> LATENCY_BUCKETS_US) ++ [wrap (Z.of_nat (length ds))];
     h_count := wrap (Z.of_nat (length ds)); h_sum_us := wrap (total ds) |}.

Lemma wrapping_wrap v d : wrapping_add (wrap v) d = wrap (v + d).
Proof. unfold wrapping_add, wrap. apply Z.add_mod_idemp_l. unfold U64_MAX. lia. Qed.
Lemma at_most_snoc b ds d : at_most b (ds ++ [d]) = at_most b ds + (if micros_of d <=? b then 1 else 0).
Proof.
  unfold at_most. rewrite filter_app, length_app, filter_cons, filter_nil.
  destruct (Z.leb_spec (micros_of d) b); case_decide; cbn [length]; lia.
Qed.
Lemma total_snoc ds d : total (ds ++ [d]) = total ds + micros_of d.
Proof. unfold total. induction ds as [|e ds IH]; cbn; lia. Qed.

Lemma observe_buckets_of ds d bounds rest :
  observe_buckets bounds (((fun b => wrap (at_most b ds)) <$> bounds) ++ rest) (micros_of d) =
  ((fun b => wrap (at_most b (ds ++ [d]))) <$> bounds) ++ rest.
Proof.
  induction bounds as [|b bounds IH]; cbn [fmap list_fmap observe_buckets app]; [by destruct rest|].
  fold (fmap (M := list) (fun b => wrap (at_most b ds)) bounds). rewrite IH. f_equal.
  rewrite at_most_snoc. unfold increment. destruct (micros_of d <=? b); [by rewrite wrapping_wrap|by rewrite Z.add_0_r].
Qed.
Lemma observe_of ds d : observe d (histogram_of ds) = histogram_of (ds ++ [d]).
Proof.
  unfold observe. cbn [histogram_of h_buckets h_count h_sum_us]. fold (micros_of d).
  rewrite observe_buckets_of. unfold histogram_of. rewrite total_snoc, length_app. cbn [length].
  rewrite Nat2Z.inj_add. change (Z.of_nat 1) with 1. unfold increment. rewrite !wrapping_wrap. f_equal.
  rewrite alter_app_r_alt by (by rewrite length_fmap). rewrite length_fmap, Nat.sub_diag. cbn.
  by rewrite wrapping_wrap.
Qed.
Lemma observe_all ds : foldl (fun h d => observe d h) empty_histogram ds = histogram_of ds.
Proof.
  induction ds as [|d ds IH] using rev_ind; [reflexivity|]. rewrite foldl_app, IH. apply observe_of.
Qed.

Lemma at_most_le b ds : 0 <= at_most b ds <= Z.of_nat (length ds).
Proof. unfold at_most. pose proof (length_filter (fun d => micros_of d <= b) ds). lia. Qed.
Lemma at_most_mono a b ds : a <= b -> at_most a ds <= at_most b ds.
Proof.
  intros Hab. induction ds as [|d ds IH] using rev_ind; [reflexivity|]. rewrite !at_most_snoc.
  destruct (Z.leb_spec (micros_of d) a), (Z.leb_spec (micros_of d) b); lia.
Qed.
Lemma wrap_small v : is_u64 v -> wrap v = v.
Proof. intros. apply Z.mod_small. range. Qed.

(** Bucket [i] of a histogram counts the durations up to its bound, the last one
    and the count all of them; the buckets never decrease from bound to bound. *)
Theorem histogram_counts ds :
  Z.of_nat (length ds) <= U64_MAX ->
  let h := foldl (fun h d => observe d h) empty_histogram ds in
  h_count h = Z.of_nat (length ds) /\ last (h_buckets h) = Some (h_count h) /\
  (forall i bound, LATENCY_BUCKETS_US !! i = Some bound -> h_buckets h !! i = Some (at_most bound ds)) /\
  (forall i j a b, LATENCY_BUCKETS_US !! i = Some a -> LATENCY_BUCKETS_US !! j = Some b -> a <= b ->
   at_most a ds <= at_most b ds <= h_count h).
Proof.
  intros Hlen h. subst h. rewrite observe_all. cbn [histogram_of h_count h_buckets].
  assert (wrap (Z.of_nat (length ds)) = Z.of_nat (length ds)) as -> by (apply wrap_small; range).
  split_and!; [done|by rewrite last_snoc| |].
  - intros i bound Hb. pose proof (lookup_lt_Some _ _ _ Hb). rewrite lookup_app_l by (by rewrite length_fmap).
    rewrite list_lookup_fmap, Hb. cbn. f_equal. apply wrap_small. pose proof (at_most_le bound ds). range.
  - intros i j a b _ _ Hab. split; [by apply at_most_mono|apply at_most_le].
Qed.
