(* ===== verification/AdminFacts.v ===== *)
(** * AdminFacts: the admin listener answers every request, and its metrics are
    what they are called. *)

From stdpp Require Import base numbers list strings gmap sorting.
From Stdlib Require Import ZArith Lia.
From S2P Require Import Prelude Text Files Protocol Record RecordFacts Log LogRep LogFacts LogRead Storage Groups Leadership Worker WorkerSpec WorkerFacts Whole WorkerOpen Topics Broker Replication Cluster Metrics MetricsFacts Admin.

(* ------------------------------------------------------------------ *)
(** ** Reading a request                                                *)
(* ------------------------------------------------------------------ *)

Lemma read_request_settles chunks request :
  Forall (fun c => c <> []) chunks -> MAX_REQUEST_BYTES <= blen request + Z.of_nat (length chunks) ->
  read_request chunks request <> RequestPending.
Proof.
  revert request. induction chunks as [|c chunks IH]; intros request Hne Hlen; cbn [read_request length] in *.
  all: destruct (has_header_end request); [done|].
  all: destruct (Z.leb_spec MAX_REQUEST_BYTES (blen request)); [done|]; try lia.
  apply Forall_cons in Hne as [Hc Hne]. destruct c as [|x c]; [done|]. apply IH; [done|].
  rewrite blen_app, blen_cons. pose proof (blen_nonneg c). lia.
Qed.
(** A request that is read has its end, and arrived whole. *)
Lemma read_request_whole chunks request whole :
  read_request chunks request = RequestRead whole ->
  has_header_end whole = true /\ exists n, whole = request ++ concat (take n chunks).
Proof.
  revert request. induction chunks as [|c chunks IH]; intros request; cbn [read_request].
  all: destruct (has_header_end request) eqn:Hend;
    [intros [= <-]; split; [done|]; exists O; by rewrite app_nil_r|].
  all: destruct (MAX_REQUEST_BYTES <=? blen request); [done|]; try done.
  destruct c as [|x c]; [done|]. intros [He (n & Hn)]%IH. split; [done|]. exists (S n). cbn. by rewrite Hn, <- app_assoc.
Qed.
(** What is kept of a request is bounded by the limit and the last chunk. *)
Lemma read_request_bounded chunks request whole m :
  Forall (fun c => blen c <= m) chunks -> 0 <= m -> blen request < MAX_REQUEST_BYTES + m ->
  read_request chunks request = RequestRead whole -> blen whole < MAX_REQUEST_BYTES + m.
Proof.
  revert request. induction chunks as [|c chunks IH]; intros request Hm H0 Hr; cbn [read_request].
  all: destruct (has_header_end request) eqn:Hend; [by intros [= <-]|].
  all: destruct (Z.leb_spec MAX_REQUEST_BYTES (blen request)); [done|]; try done.
  apply Forall_cons in Hm as [Hc Hm]. destruct c as [|x c]; [done|]. apply IH; [done..|]. rewrite blen_app. lia.
Qed.

(* ------------------------------------------------------------------ *)
(** ** Lines                                                            *)
(* ------------------------------------------------------------------ *)

Lemma metrics_text_lines ls :
  Forall one_line ls -> split_on LF (as_bytes (metrics_text ls)) = (as_bytes <$> ls) ++ [[]].
Proof.
  intros Hls. unfold metrics_text. rewrite as_bytes_of_bytes. apply split_on_unlines. apply Forall_fmap.
  eapply Forall_impl; [exact Hls|]. intros l Hl. apply Forall_forall. by intros b Hb ->.
Qed.

Lemma Forall_bind_list {A B} (P : B -> Prop) (f : A -> list B) l :
  Forall (fun x => Forall P (f x)) l -> Forall P (l ≫= f).
Proof. induction 1 as [|x l Hx _ IH]; [constructor|]. cbn. by apply Forall_app. Qed.

Definition numbers_ok (m : RuntimeMetrics) : Prop :=
  Forall (Z.le 0) [rm_active_connections m; rm_produced_messages m; rm_produced_bytes m; rm_fetched_messages m;
    rm_fetched_bytes m; rm_broker_busy m; rm_retention_segments_removed m; rm_replication_records_sent m;
    rm_replication_records_received m; rm_replication_failures m; rm_replication_reconnects m;
    rm_automatic_leader_promotions m].
Definition histogram_ok (h : Histogram) : Prop := Forall (Z.le 0) (h_count h :: h_sum_us h :: h_buckets h).
Definition replicas_ok {V} (m : gmap ReplicaKey V) : Prop := map_Forall (fun k _ => 0 <= k.1.1 /\ 0 <= k.2) m.
Definition metrics_ok (m : RuntimeMetrics) : Prop :=
  numbers_ok m /\ histogram_ok (rm_produce_latency m) /\ histogram_ok (rm_fetch_latency m) /\
  histogram_ok (rm_append_latency m) /\ histogram_ok (rm_flush_latency m) /\
  replicas_ok (rm_replica_offsets m) /\ map_Forall (fun _ => Z.le 0) (rm_replica_offsets m) /\
  replicas_ok (rm_replica_sync m) /\ replicas_ok (rm_in_sync_replicas m).
Definition partition_ok (p : PartitionSnapshot) : Prop :=
  0 <= ps_partition p /\ 0 <= ps_high_watermark p /\ 0 <= ps_log_end_offset p /\ 0 <= ps_low_watermark p /\
  0 <= ps_log_size_bytes p /\ 0 <= ps_segments p.
Definition group_ok (g : GroupSnapshot) : Prop :=
  0 <= gs_generation g /\ 0 <= gs_members g /\ 0 <= gs_assigned_partitions g /\
  Forall (fun e => 0 <= e.2) (gs_committed_offsets g).
Definition node_ok (n : ClusterNode) : Prop := 0 <= cn_id n /\ 0 <= cn_port n.

Lemma one_line_sample name labels v : one_line name -> one_line labels -> 0 <= v -> one_line (sample name labels v).
Proof. unfold sample. auto 10 with lines. Qed.
Lemma lines_gauge name help : one_line name -> one_line help -> Forall one_line (gauge name help).
Proof. unfold gauge, help_line, type_line. intros. repeat constructor; auto 10 with lines. Qed.
Lemma lines_metric name help kind v :
  one_line name -> one_line help -> one_line kind -> 0 <= v -> Forall one_line (metric name help kind v).
Proof. unfold metric, help_line, type_line. intros. repeat constructor; auto 10 with lines. Qed.
Lemma bool_gauge_nonneg b : 0 <= bool_gauge b.
Proof. by destruct b. Qed.
Lemma saturating_sub_nonneg a b : 0 <= saturating_sub a b.
Proof. unfold saturating_sub. lia. Qed.
Lemma saturating_add_nonneg a b : 0 <= a -> 0 <= b -> 0 <= saturating_add a b.
Proof. unfold saturating_add, U64_MAX. lia. Qed.
#[export] Hint Resolve one_line_sample lines_gauge lines_metric bool_gauge_nonneg saturating_sub_nonneg saturating_add_nonneg : lines.

Lemma lines_histogram h name help :
  histogram_ok h -> one_line name -> one_line help -> Forall one_line (render_histogram h name help).
Proof.
  unfold histogram_ok. rewrite !Forall_cons. intros (Hc & Hs & Hb) Hn Hh. unfold render_histogram, help_line, type_line.
  assert (0 <= default 0 (h_buckets h !! length LATENCY_BUCKETS_US)).
  { destruct (h_buckets h !! _) eqn:E; [|done]. by eapply Forall_lookup_1 in Hb. }
  apply Forall_app. split; [repeat constructor; auto 10 with lines|]. apply Forall_app.
  split; [|unfold bucket_line; repeat constructor; auto 10 with lines].
  apply Forall_forall. intros l (i & Hl)%list_elem_of_lookup. apply lookup_zip_with_Some in Hl as (b & v & -> & Hbd & Hv).
  unfold bucket_line. eapply Forall_lookup_1 in Hv; [|exact Hb].
  assert (0 <= b) by (eapply (Forall_lookup_1 (Z.le 0) LATENCY_BUCKETS_US); [repeat constructor; lia|done]).
  auto 12 with lines.
Qed.
#[export] Hint Resolve lines_histogram : lines.

(** Cut a rendered text into its parts. *)
Ltac line_parts := repeat match goal with |- Forall _ (_ ++ _) => apply Forall_app; split end.

Lemma lines_runtime m : metrics_ok m -> Forall one_line (render_runtime m).
Proof.
  unfold metrics_ok, numbers_ok. rewrite !Forall_cons. intros (Hn & Hp & Hf & Ha & Hl & _).
  destruct_and!. unfold render_runtime, render_automatic_promotions.
  line_parts; auto with lines.
Qed.
Lemma one_line_partition p : partition_ok p -> one_line (partition_labels p).
Proof. intros (? & _). unfold partition_labels. auto 10 with lines. Qed.
Lemma lines_partitions ps : Forall partition_ok ps -> Forall one_line (render_partition_metrics ps).
Proof.
  intros Hps. unfold render_partition_metrics. line_parts; auto with lines.
  apply Forall_bind_list. eapply Forall_impl; [exact Hps|]. intros p Hp. pose proof (one_line_partition p Hp).
  destruct Hp as (? & ? & ? & ? & ? & ?). repeat constructor; auto with lines.
Qed.
Lemma one_line_replica who (k : ReplicaKey) :
  one_line who -> 0 <= k.1.1 /\ 0 <= k.2 -> one_line (replica_labels who k).
Proof. intros Hw [? ?]. unfold replica_labels. auto 12 with lines. Qed.

Section all_lines.
Context `{!IterationOrder}.
Lemma iterate_in {V} (m : gmap ReplicaKey V) k v : (k, v) ∈ iterate m -> m !! k = Some v.
Proof. rewrite iterate_all. apply elem_of_map_to_list. Qed.
Lemma lines_flags (name who : string) (m : gmap ReplicaKey bool) :
  one_line name -> one_line who -> replicas_ok m ->
  Forall one_line ((fun '(k, b) => sample name (replica_labels who k) (bool_gauge b)) <$> iterate m).
Proof.
  intros Hn Hw Hm. apply Forall_fmap, Forall_forall. intros [k b] Hin%iterate_in. specialize (Hm _ _ Hin).
  cbn. pose proof (one_line_replica who k Hw Hm). auto with lines.
Qed.
Lemma lines_replication m ps : metrics_ok m -> Forall one_line (render_replication_metrics m ps).
Proof.
  intros (_ & _ & _ & _ & _ & Ho & Hv & Hs & Hi). unfold render_replication_metrics.
  line_parts; auto with lines; [|by apply lines_flags; auto with lines..].
  apply Forall_bind_list, Forall_forall. intros [k offset] Hin%iterate_in. specialize (Ho _ _ Hin). specialize (Hv _ _ Hin).
  pose proof (one_line_replica "follower_id" k ltac:(auto with lines) Ho). repeat constructor; auto with lines.
  apply one_line_sample; auto with lines. apply saturating_sub_nonneg.
Qed.

Lemma one_line_group g : one_line (group_labels g).
Proof. unfold group_labels. auto 10 with lines. Qed.
Lemma committed_nonneg g p : group_ok g -> 0 <= committed_of g p.
Proof.
  intros (_ & _ & _ & Hc). unfold committed_of. destruct (List.find _ _) as [e|] eqn:E; [|done].
  apply find_some in E as [Hin _]. rewrite Forall_forall in Hc. by apply Hc, list_elem_of_In.
Qed.
Lemma total_lag_nonneg g ps : 0 <= total_lag g ps.
Proof.
  unfold total_lag. assert (forall n ps, 0 <= n -> 0 <= foldl (fun total p => saturating_add total (group_lag g p)) n ps) as Hgo.
  { intros n qs. revert n. induction qs as [|q qs IH]; intros n Hn; [done|]. cbn. apply IH.
    apply saturating_add_nonneg; [done|apply saturating_sub_nonneg]. }
  by apply Hgo.
Qed.
Lemma lines_groups ps gs :
  Forall partition_ok ps -> Forall group_ok gs -> Forall one_line (render_group_metrics ps gs).
Proof.
  intros Hps Hgs. unfold render_group_metrics. line_parts; auto with lines.
  apply Forall_bind_list. eapply Forall_impl; [exact Hgs|]. intros g Hg. pose proof (one_line_group g). unfold render_group.
  pose proof Hg as (? & ? & ? & _). line_parts.
  - repeat constructor; auto with lines.
  - apply Forall_bind_list, Forall_forall. intros p [_ Hin]%list_elem_of_filter.
    rewrite Forall_forall in Hps. destruct (Hps p Hin) as (? & _).
    pose proof (committed_nonneg g (ps_partition p) Hg). cbv zeta.
    repeat constructor; apply one_line_sample; auto 10 with lines; unfold group_lag; apply saturating_sub_nonneg.
  - repeat constructor. apply one_line_sample; auto with lines. apply total_lag_nonneg.
Qed.

Lemma topic_counts_nonneg ps (m : gmap string Z) : map_Forall (fun _ => Z.le 0) m ->
  map_Forall (fun _ => Z.le 0) (foldl (fun m p => <[ps_topic p := default 0 (m !! ps_topic p) + 1]> m) m ps).
Proof.
  revert m. induction ps as [|p ps IH]; intros m Hm; [done|]. cbn. apply IH.
  apply map_Forall_insert_2; [|done]. destruct (m !! ps_topic p) eqn:E; cbn; [|done]. pose proof (Hm _ _ E) as Hz. cbn in Hz. lia.
Qed.
Lemma topic_totals_nonneg ps (m : gmap string (Z * Z)) :
  Forall partition_ok ps -> map_Forall (fun _ t => 0 <= t.1 /\ 0 <= t.2) m ->
  map_Forall (fun _ t => 0 <= t.1 /\ 0 <= t.2)
    (foldl (fun m p => <[ps_topic p := add_totals (default (0, 0) (m !! ps_topic p)) p]> m) m ps).
Proof.
  intros Hps. revert m. induction Hps as [|p ps (_ & ? & _ & _ & ? & _) _ IH]; intros m Hm; [done|]. cbn. apply IH.
  apply map_Forall_insert_2; [|done]. destruct (m !! ps_topic p) as [t|] eqn:E; cbn.
  - destruct (Hm _ _ E). split; by apply saturating_add_nonneg.
  - split; by apply saturating_add_nonneg.
Qed.
Lemma in_topic_order_in {A} (m : gmap string A) t v : (t, v) ∈ in_topic_order m -> m !! t = Some v.
Proof. unfold in_topic_order. rewrite merge_sort_Permutation. apply elem_of_map_to_list. Qed.

Lemma lines_metrics m depth ps gs cluster :
  metrics_ok m -> 0 <= depth -> Forall partition_ok ps -> Forall group_ok gs -> Forall node_ok (cm_nodes cluster) ->
  Forall one_line (render_metrics m depth ps gs cluster).
Proof.
  intros Hm Hd Hps Hgs Hns. unfold render_metrics.
  line_parts; auto using lines_runtime, lines_partitions, lines_replication, lines_groups with lines.
  - apply Forall_fmap. eapply Forall_impl; [exact Hns|]. intros n [? ?]. cbn. unfold node_line.
    apply one_line_sample; auto 15 with lines. done.
  - apply Forall_fmap, Forall_forall. intros [t c] Hin%in_topic_order_in. cbn.
    apply topic_counts_nonneg in Hin; [|apply map_Forall_empty]. auto 10 with lines.
  - apply Forall_bind_list, Forall_forall. intros [t [h z]] Hin%in_topic_order_in.
    apply (topic_totals_nonneg ps) in Hin as [? ?]; [|done|apply map_Forall_empty]. repeat constructor; auto 10 with lines.
Qed.
End all_lines.

(* ------------------------------------------------------------------ *)
(** ** Lag                                                              *)
(* ------------------------------------------------------------------ *)

Lemma numbered_below hw o rs :
  Z.of_nat (length (filter (fun x : Z * LogRecord => x.1 < hw) (number o rs))) = Z.max 0 (Z.min hw (o + clen rs) - o).
Proof.
  revert o. induction rs as [|r rs IH]; intros o; cbn [number].
  { rewrite filter_nil. unfold clen. cbn [length]. lia. }
  rewrite filter_cons, clen_cons. pose proof (clen_nonneg rs). specialize (IH (o + 1)). cbn [fst].
  case_decide; cbn [length]; lia.
Qed.
Lemma unread_count l offset hw :
  hw <= next (al_chunks l) ->
  Z.of_nat (length (filter (fun x : Z * LogRecord => x.1 < hw) (from_offset offset (al_chunks l)))) =
  saturating_sub hw (Z.max offset (low (al_chunks l))).
Proof.
  intros Hhw. rewrite from_offset_start, numbered_below. unfold saturating_sub, next in *.
  assert (clen (drop (Z.to_nat (Z.max (low (al_chunks l)) offset - low (al_chunks l))) (flat (al_chunks l))) =
    Z.max 0 (clen (flat (al_chunks l)) - (Z.max (low (al_chunks l)) offset - low (al_chunks l)))) as ->
    by (unfold clen; rewrite length_drop; lia).
  pose proof (clen_nonneg (flat (al_chunks l))). lia.
Qed.

Lemma find_entry (m : gmap Z Z) (entries : list (Z * Z)) p :
  entries ≡ₚ map_to_list m -> List.find (fun e => e.1 =? p) entries = (fun o => (p, o)) <$> m !! p.
Proof.
  intros He. destruct (List.find _ entries) as [[q o]|] eqn:E.
  - apply find_some in E as [Hin Hq]. cbn in Hq. apply Z.eqb_eq in Hq as ->.
    apply list_elem_of_In in Hin. rewrite He in Hin. apply elem_of_map_to_list in Hin. by rewrite Hin.
  - destruct (m !! p) as [o|] eqn:Ho; [|done]. apply elem_of_map_to_list in Ho. rewrite <- He in Ho.
    apply list_elem_of_In in Ho. pose proof (find_none _ _ E _ Ho) as Hf. cbn in Hf. by rewrite Z.eqb_refl in Hf.
Qed.
Lemma committed_of_snapshot c key g state p :
  snapshot_of c key = Some g -> gc_groups c !! key = Some state ->
  committed_of g p = default 0 (cg_committed_offsets state !! p).
Proof.
  unfold snapshot_of. intros Hg Hs. rewrite Hs in Hg. injection Hg as <-. unfold committed_of. cbn [gs_committed_offsets].
  rewrite (find_entry (cg_committed_offsets state)) by apply merge_sort_Permutation. by destruct (_ !! p).
Qed.
Lemma snapshot_group c key state :
  gc_groups c !! key = Some state ->
  exists g, snapshot_of c key = Some g /\ g ∈ snapshot c /\ gs_group g = key.1 /\ gs_topic g = key.2.
Proof.
  intros Hs. eexists. split; [unfold snapshot_of; by rewrite Hs|]. split; [|done].
  unfold snapshot. apply list_elem_of_omap. exists key. split; [|unfold snapshot_of; by rewrite Hs].
  rewrite merge_sort_Permutation. apply list_elem_of_fmap. exists (key, state). split; [done|]. by apply elem_of_map_to_list.
Qed.
Lemma partition_snapshot `{!Crc32} s b a t p l cur :
  represents s (bk_worker b) a -> aw_logs a !! (t, p) = Some l -> wf_log l ->
  lr_entries (bk_leadership b) !! (t, p) = Some cur ->
  exists snap, snap ∈ partitions_of b /\ ps_topic snap = t /\ ps_partition snap = p /\
    ps_high_watermark snap = pl_high_watermark cur /\ ps_low_watermark snap = low (al_chunks l).
Proof.
  intros Hr Hl Hwf Hcur. exists (with_high_watermark (bk_leadership b) (snapshot_log ((t, p), log_of (cfg s) l))).
  split.
  { unfold partitions_of. apply list_elem_of_fmap. eexists. split; [reflexivity|]. unfold snapshot_logs.
    rewrite merge_sort_Permutation. apply list_elem_of_fmap. eexists. split; [reflexivity|].
    apply elem_of_map_to_list. destruct Hr as [-> _ _ _ _]. by rewrite lookup_fmap, Hl. }
  unfold with_high_watermark, registry_partition, bind, get, ok_or. cbn [snapshot_log ps_topic ps_partition fst snd].
  rewrite Hcur. cbn. split_and!; [done..|]. destruct Hwf as (Hne & _). unfold low_watermark, log_of, low. cbn.
  by destruct (al_chunks l) as [|[base rs] cs].
Qed.

(* ------------------------------------------------------------------ *)
(** ** Properties                                                       *)
(* ------------------------------------------------------------------ *)


(** The order of [map_to_list] is one that a hash map may have. *)
#[local] Instance listed_order : IterationOrder := {| iterate V := map_to_list; iterate_all V m := reflexivity _ |}.
#[local] Existing Instance length_crc.
#[local] Existing Instance length_crc_ok.
Definition reader_state : ConsumerGroup :=
  {| cg_generation := 1; cg_members := {["worker-a" := 0]}; cg_assignments := {["worker-a" := [1]]};
     cg_committed_offsets := ∅ |}.
Definition read_leader : Broker :=
  set_coordinator new_leader (set_groups (bk_groups new_leader) {[("workers", "payments") := reader_state]}).
Definition three_records : ALog :=
  a_appends (cfg sample_settings) empty_log
    (batch_records "payments" (Some 1) (fun _ => 7) (ba_records (batch_of ["one"; "two"; "three"]))).


Definition metrics_request : list bytes := [as_bytes "GET /metrics HTTP/1.1"; CRLF; CRLF].

(** C31 No name can forge a metric: in the text of the metrics every rendered line
    is a line of its own, whatever the names of hosts, topics and groups hold; and
    a reader of the text format gets every name back as it was, up to the closing
    quote. *)
Theorem metrics_unforgeable `{!IterationOrder} metrics queue_depth partitions groups cluster :
  metrics_ok metrics -> 0 <= queue_depth -> Forall partition_ok partitions -> Forall group_ok groups ->
  Forall node_ok (cm_nodes cluster) ->
  (let ls := render_metrics metrics queue_depth partitions groups cluster in
   split_on LF (as_bytes (metrics_text ls)) = (as_bytes <$> ls) ++ [[]]) /\
  forall name rest, read_label (as_bytes (escape_label name) ++ as_bytes QUOTE ++ rest) = Some (as_bytes name, rest).
Proof.
  intros Hm Hd Hps Hgs Hns. split; [by apply metrics_text_lines, lines_metrics|].
  intros name rest. unfold escape_label. rewrite as_bytes_of_bytes. apply read_escaped.
Qed.

Definition forged_host : string := of_bytes (as_bytes "a" ++ [DQUOTE] ++ as_bytes "} 1" ++ [LF] ++ as_bytes "up 1").
Definition forging_cluster : ClusterMetadata :=
  {| cm_responding_broker_id := 1;
     cm_nodes := [{| cn_id := 1; cn_host := forged_host; cn_port := 7400; cn_admin_port := 7401; cn_replication_port := 7402 |}] |}.
Lemma metrics_unforgeable_witness :
  (let ls := render_metrics new_metrics 0 [] [] forging_cluster in
   split_on LF (as_bytes (metrics_text ls)) = (as_bytes <$> ls) ++ [[]]) /\
  forall name rest, read_label (as_bytes (escape_label name) ++ as_bytes QUOTE ++ rest) = Some (as_bytes name, rest).
Proof.
  apply metrics_unforgeable.
  - split_and!; [repeat constructor; discriminate..| | | |]; apply map_Forall_empty.
  - discriminate.
  - constructor.
  - constructor.
  - repeat constructor; discriminate.
Defined.
