(* ===== verification/Accounts.v ===== *)
(** * Accounts: the metrics that requests leave, [crates/broker/src/lib.rs].

    The handlers of [Requests] leave the metrics out; what [process_request] and
    the loop of [handle_connection] add to them depends on the request and its
    answer alone, and is added here. *)

From stdpp Require Import base numbers list strings gmap.
From Stdlib Require Import ZArith Lia.
From S2P Require Import Prelude Text Files Runs Protocol Record Log Worker Broker Requests Connection Metrics MetricsFacts.

(* ------------------------------------------------------------------ *)
(** ** What a request adds                                              *)
(* ------------------------------------------------------------------ *)

Definition payload_bytes (rs : list BatchRecord) : Z := foldr (fun r n => blen (br_payload r) + n) 0 rs.
Definition value_bytes (rs : list FetchedRecord) : Z := foldr (fun r n => blen (fd_value r) + n) 0 rs.
Definition is_produce (r : Request) : bool :=
  match r with RProduce _ | RProduceBatch _ => true | _ => false end.
Definition is_fetch (r : Request) : bool :=
  match r with RFetch _ | RGroupFetch _ => true | _ => false end.

(** In [process_request]: after a produce has been replicated, and with the
    records of a fetch. *)
Definition count_handled (request : Request) (o : outcome ConnectionError Answer) (m : RuntimeMetrics) : RuntimeMetrics :=
  match request, o with
  | RProduce r, Ok (Reply _) => produced 1 (blen (pr_payload r)) m
  | RProduceBatch r, Ok (Reply _) => produced (Z.of_nat (length (pb_records r))) (payload_bytes (pb_records r)) m
  | RFetch _, Ok (Reply (PFetch f)) | RGroupFetch _, Ok (Reply (PFetch f)) =>
      fetched_records (Z.of_nat (length (fp_records f))) (value_bytes (fp_records f)) m
  | _, _ => m
  end.

Section accounts.
Context `{!Crc32} `{!OsMessage} (cc : ClusterConfig) {Net : Type}.
Context (deliver : Z -> ReplicateRecord -> SM Net ConnectionError ReplicateAck).
Context (query : Z -> string -> Z -> Net -> option Z).

(** Whether the connection goes on after the request. *)
Definition goes_on (o : outcome ConnectionError Answer) : bool :=
  match o with Ok _ => true | Err e => bool_decide (is_Some (error_response e)) | Panic => false end.
(** In [handle_connection]: a full queue, and the time the request took. *)
Definition count_answered (request : Request) (o : outcome ConnectionError Answer) (elapsed_us : Z)
    (m : RuntimeMetrics) : RuntimeMetrics :=
  let m := match o with Err BrokerBusy => broker_busy m | _ => m end in
  if goes_on o then
    if is_produce request then observe_produce elapsed_us m
    else if is_fetch request then observe_fetch elapsed_us m else m
  else m.

(** A request with the world it meets and the microseconds it takes. *)
Record Metered := { mt_request : Request; mt_world : World; mt_elapsed_us : Z }.
Definition process_metered (x : Metered) (s : Broker * Net * RuntimeMetrics)
  : outcome ConnectionError Answer * (Broker * Net * RuntimeMetrics) :=
  let '(o, st) := process_request cc (mt_world x) deliver query (mt_request x) s.1 in
  (o, (st, count_answered (mt_request x) o (mt_elapsed_us x) (count_handled (mt_request x) o s.2))).
(** The requests of all connections, in the order in which they are served. *)
Fixpoint metered_run (xs : list Metered) (s : Broker * Net * RuntimeMetrics)
  : list (Metered * outcome ConnectionError Answer) * (Broker * Net * RuntimeMetrics) :=
  match xs with
  | [] => ([], s)
  | x :: xs =>
      let '(o, s) := process_metered x s in
      let '(os, s) := metered_run xs s in ((x, o) :: os, s)
  end.

(* ------------------------------------------------------------------ *)
(** ** What clients see                                                 *)
(* ------------------------------------------------------------------ *)

Abbreviation Served := (Metered * outcome ConnectionError Answer)%type.
(** The acknowledgements a client gets, with the bytes of their payloads. *)
Definition acknowledged (x : Served) : Z * Z :=
  match mt_request x.1, x.2 with
  | RProduce r, Ok (Reply (PProduceAck _)) => (1, blen (pr_payload r))
  | RProduceBatch r, Ok (Reply (PProduceBatchAck acks)) => (Z.of_nat (length acks), payload_bytes (pb_records r))
  | _, _ => (0, 0)
  end.
(** The records it is sent. *)
Definition returned (x : Served) : Z * Z :=
  if is_fetch (mt_request x.1) then
    match x.2 with
    | Ok (Reply (PFetch f)) => (Z.of_nat (length (fp_records f)), value_bytes (fp_records f))
    | _ => (0, 0)
    end
  else (0, 0).
Definition sum_of (f : Served -> Z) (xs : list Served) : Z := foldr (fun x n => f x + n) 0 xs.
Definition times (p : Request -> bool) (xs : list Served) : list Z :=
  (fun x => mt_elapsed_us x.1) <$> filter (fun x => p (mt_request x.1) && goes_on x.2 = true) xs.

(** A handler answers a produce with acknowledgements, one for each record, and a
    fetch with records. *)
Lemma append_each_length settings t p rs clock w acks w' :
  append_each settings t p rs clock w = (Ok acks, w') -> length acks = length rs.
Proof.
  revert clock w acks w'. induction rs as [|r rs IH]; intros clock w acks w'; cbn [append_each].
  { by intros [-> _]%ret_inv. }
  intros (ack & w1 & _ & (acks1 & w2 & H2%IH & [-> _]%ret_inv)%bind_inv)%bind_inv. cbn. by rewrite H2.
Qed.
Lemma as_leader_inv {S} check (handler : SM S ConnectionError Answer) s p s' :
  as_leader check handler s = (Ok (Reply p), s') -> exists s1, handler s1 = (Ok (Reply p), s').
Proof. intros ([e|] & s1 & _ & Hk)%bind_inv; [by apply ret_inv in Hk as [? _]|by exists s1]. Qed.
Lemma on_broker_inv' {A} (m : broker A) (s : Broker * Net) a s' :
  on_broker m s = (Ok a, s') -> exists b, m s.1 = (Ok a, b).
Proof. unfold on_broker. destruct (m s.1) as [o b]. intros [= -> _]. by exists b. Qed.

Lemma answer_shape w r s p s' :
  process_request cc w deliver query r s = (Ok (Reply p), s') ->
  match r with
  | RProduce _ => exists a, p = PProduceAck a
  | RProduceBatch b => exists acks, p = PProduceBatchAck acks /\ length acks = length (pb_records b)
  | RFetch _ | RGroupFetch _ => exists f, p = PFetch f
  | _ => True
  end.
Proof.
  destruct r as [r|r|r| | | | | |r| | | | | | |]; cbn [process_request]; try done; intros Hp.
  - apply as_leader_inv in Hp as [s1 Hp]. apply bind_inv in Hp as (ack & s2 & _ & Hp). apply bind_inv in Hp as (rec & s3 & _ & Hp).
    apply bind_inv in Hp as (u & s4 & _ & Hp). apply ret_inv in Hp as [[= ->] _]. by exists ack.
  - apply as_leader_inv in Hp as [s1 Hp]. apply bind_inv in Hp as (acks & s2 & Happ & Hp).
    apply bind_inv in Hp as (recs & s3 & _ & Hp). apply bind_inv in Hp as (u & s4 & _ & Hp). apply ret_inv in Hp as [[= ->] _].
    exists acks. split; [done|]. apply on_broker_inv' in Happ as [b Happ]. unfold storage in Happ.
    destruct (append_batch_records _ _ _ (bk_worker s1.1)) as [o wk] eqn:E. destruct o as [acks'| |]; try done.
    injection Happ as -> _. apply bind_inv in E as (acks1 & w1 & E & Hp). apply bind_inv in Hp as (? & ? & _ & Hp).
    apply ret_inv in Hp as [-> _]. by apply append_each_length in E.
  - apply on_broker_inv' in Hp as [b Hp]. apply as_leader_inv in Hp as [s1 Hp].
    apply bind_inv in Hp as (rs & s2 & _ & Hp). apply bind_inv in Hp as (l & s3 & _ & Hp).
    apply ret_inv in Hp as [[= ->] _]. by eexists.
  - apply on_broker_inv' in Hp as [b Hp]. apply as_leader_inv in Hp as [s1 Hp].
    apply bind_inv in Hp as (l & s2 & _ & Hp). apply bind_inv in Hp as (auth & s3 & _ & Hp).
    destruct auth as [[]|]; try (by apply ret_inv in Hp as [? _]).
    apply bind_inv in Hp as (rs & s4 & _ & Hp). apply ret_inv in Hp as [[= ->] _]. by eexists.
Qed.

(** The counters that the requests served so far account for. *)
Record in_step (m : RuntimeMetrics) (xs : list Served) : Prop := {
  is_produced : rm_produced_messages m = wrap (sum_of (fun x => (acknowledged x).1) xs);
  is_produced_bytes : rm_produced_bytes m = wrap (sum_of (fun x => (acknowledged x).2) xs);
  is_fetched : rm_fetched_messages m = wrap (sum_of (fun x => (returned x).1) xs);
  is_fetched_bytes : rm_fetched_bytes m = wrap (sum_of (fun x => (returned x).2) xs);
  is_produce_times : rm_produce_latency m = histogram_of (times is_produce xs);
  is_fetch_times : rm_fetch_latency m = histogram_of (times is_fetch xs)
}.
Lemma sum_snoc f xs x : sum_of f (xs ++ [x]) = sum_of f xs + f x.
Proof. unfold sum_of. induction xs as [|y xs IH]; cbn; [lia|]. rewrite IH. lia. Qed.
Lemma times_snoc p xs x :
  times p (xs ++ [x]) = times p xs ++ (if p (mt_request x.1) && goes_on x.2 then [mt_elapsed_us x.1] else []).
Proof.
  unfold times. rewrite filter_app, fmap_app. f_equal. rewrite filter_cons, filter_nil.
  by destruct (p (mt_request x.1) && goes_on x.2); case_decide.
Qed.

(** The four counters, in one step. *)
Lemma handled_in_step r w elapsed s o st m xs :
  process_request cc w deliver query r s = (o, st) -> in_step m xs ->
  let x := ({| mt_request := r; mt_world := w; mt_elapsed_us := elapsed |}, o) in
  let m' := count_handled r o m in
  rm_produced_messages m' = wrap (sum_of (fun x => (acknowledged x).1) (xs ++ [x])) /\
  rm_produced_bytes m' = wrap (sum_of (fun x => (acknowledged x).2) (xs ++ [x])) /\
  rm_fetched_messages m' = wrap (sum_of (fun x => (returned x).1) (xs ++ [x])) /\
  rm_fetched_bytes m' = wrap (sum_of (fun x => (returned x).2) (xs ++ [x])) /\
  rm_produce_latency m' = rm_produce_latency m /\ rm_fetch_latency m' = rm_fetch_latency m.
Proof.
  intros Hrun [Hp Hpb Hf Hfb _ _] x m'. rewrite !sum_snoc. subst x m'. unfold acknowledged, returned. cbn [fst snd mt_request].
  assert (forall p, o = Ok (Reply p) -> _) as Hshape by (intros p ->; exact (answer_shape w r s p st Hrun)).
  destruct m as [conn pm pb fm fb ? ? ? ? ? ? ? ? ? ? ? ? ? ?].
  cbn [rm_produced_messages rm_produced_bytes rm_fetched_messages rm_fetched_bytes] in *. subst.
  destruct r; destruct o as [[p|e]|e|]; cbn; rewrite ?Z.add_0_r; try done;
    specialize (Hshape p eq_refl); cbn in Hshape.
  - destruct Hshape as [a ->]. cbn. by rewrite ?wrapping_wrap, ?Z.add_0_r.
  - destruct Hshape as (acks & -> & <-). cbn. by rewrite ?wrapping_wrap, ?Z.add_0_r.
  - destruct Hshape as [f ->]. cbn. by rewrite ?wrapping_wrap, ?Z.add_0_r.
  - destruct Hshape as [f ->]. cbn. by rewrite ?wrapping_wrap, ?Z.add_0_r.
Qed.
Lemma answered_in_step r o elapsed m :
  let m' := count_answered r o elapsed m in
  rm_produced_messages m' = rm_produced_messages m /\ rm_produced_bytes m' = rm_produced_bytes m /\
  rm_fetched_messages m' = rm_fetched_messages m /\ rm_fetched_bytes m' = rm_fetched_bytes m /\
  rm_produce_latency m' = (if is_produce r && goes_on o then observe elapsed (rm_produce_latency m) else rm_produce_latency m) /\
  rm_fetch_latency m' = (if is_fetch r && goes_on o then observe elapsed (rm_fetch_latency m) else rm_fetch_latency m).
Proof.
  unfold count_answered. destruct m as [? ? ? ? ? ? ? ? ? ? ? ? ? ? ? ? ? ? ?], o as [a|[]|]; destruct (goes_on _); destruct r; by cbn.
Qed.
Lemma request_in_step x s o s' xs m :
  process_metered x (s, m) = (o, s') -> in_step m xs -> in_step s'.2 (xs ++ [(x, o)]).
Proof.
  unfold process_metered. cbn [fst snd]. destruct x as [r w elapsed]. cbn [mt_request mt_world mt_elapsed_us].
  destruct (process_request _ _ _ _ _ _) as [o1 st] eqn:E. intros [= -> <-] Hin.
  pose proof (handled_in_step r w elapsed s o st m xs E Hin) as (H1 & H2 & H3 & H4 & H5 & H6).
  pose proof (answered_in_step r o elapsed (count_handled r o m)) as (A1 & A2 & A3 & A4 & A5 & A6).
  cbn [snd]. split; rewrite ?A1, ?A2, ?A3, ?A4, ?A5, ?A6; try done; rewrite times_snoc; cbn [fst snd mt_request mt_elapsed_us].
  - rewrite H5, (is_produce_times _ _ Hin). destruct (is_produce r && goes_on o); [apply observe_of|by rewrite app_nil_r].
  - rewrite H6, (is_fetch_times _ _ Hin). destruct (is_fetch r && goes_on o); [apply observe_of|by rewrite app_nil_r].
Qed.
Lemma metered_in_step xs : forall s m done',
  in_step m done' -> in_step (snd (metered_run xs (s, m))).2 (done' ++ fst (metered_run xs (s, m))).
Proof.
  induction xs as [|x xs IH]; intros s m d Hin; cbn [metered_run]; [by rewrite app_nil_r|].
  destruct (process_metered x (s, m)) as [o [s1 m1]] eqn:E. apply (request_in_step _ _ _ _ d) in E; [|done]. cbn [snd] in E.
  specialize (IH s1 m1 _ E). destruct (metered_run xs (s1, m1)) as [os s2]. cbn [fst snd] in *.
  by rewrite <- app_assoc in IH.
Qed.
Lemma new_in_step : in_step new_metrics [].
Proof. split; reflexivity. Qed.

(** C34 The metrics of a broker say what its clients see: after any requests on any
    connections, the counters of produced messages and bytes are those of the
    records that were acknowledged, the counters of fetched messages and bytes
    those of the records that were returned, modulo 2^64; and the latency
    histograms hold the times of the produces and fetches that were answered. *)
Theorem metrics_account xs s :
  let '(served, (_, m)) := metered_run xs (s, new_metrics) in
  rm_produced_messages m = wrap (sum_of (fun x => (acknowledged x).1) served) /\
  rm_produced_bytes m = wrap (sum_of (fun x => (acknowledged x).2) served) /\
  rm_fetched_messages m = wrap (sum_of (fun x => (returned x).1) served) /\
  rm_fetched_bytes m = wrap (sum_of (fun x => (returned x).2) served) /\
  rm_produce_latency m = foldl (fun h d => observe d h) empty_histogram (times is_produce served) /\
  rm_fetch_latency m = foldl (fun h d => observe d h) empty_histogram (times is_fetch served).
Proof.
  pose proof (metered_in_step xs s new_metrics [] new_in_step) as Hin.
  destruct (metered_run xs (s, new_metrics)) as [served [s' m]]. cbn [fst snd app] in Hin.
  destruct Hin. rewrite !observe_all. by split_and!.
Qed.
End accounts.
