(* ===== verification/Isr.v ===== *)
(** * Isr: the metrics of replication, [crates/broker/src/lib.rs].

    [Broker] and [Requests] leave out what [replicate] and
    [recover_follower_partition] tell the metrics.  Here they are with these
    calls; [Counts] says that nothing else changes, and the theorems what an
    operator reads from the metrics. *)

From stdpp Require Import base numbers list strings gmap.
From Stdlib Require Import ZArith Lia.
From S2P Require Import Prelude Text Files Runs Protocol Record Log Storage Leadership Worker Topics Broker Replication Cluster Requests Metrics MetricsFacts.

(* ------------------------------------------------------------------ *)
(** ** A computation beside the metrics                                 *)
(* ------------------------------------------------------------------ *)

Section metered.
Context {S E : Type}.
Abbreviation metered A := (SM (S * RuntimeMetrics) E A).
Definition unmetered {A} (m : SM S E A) : metered A := fun s => let '(o, st) := m s.1 in (o, (st, s.2)).
Definition count (f : RuntimeMetrics -> RuntimeMetrics) : metered unit := modify (fun s => (s.1, f s.2)).

(** [m] does what [m0] does, and counts. *)
Definition Counts {A} (m : metered A) (m0 : SM S E A) : Prop :=
  forall s r, exists r', m (s, r) = (fst (m0 s), (snd (m0 s), r')).
Lemma unmetered_counts {A} (m : SM S E A) : Counts (unmetered m) m.
Proof. intros s r. unfold unmetered. cbn [fst snd]. destruct (m s). by exists r. Qed.
Lemma ret_counts {A} (a : A) : Counts (ret a) (ret a).
Proof. intros s r. by exists r. Qed.
Lemma throw_counts {A} e : Counts (throw (A:=A) e) (throw e).
Proof. intros s r. by exists r. Qed.
Lemma reject_counts c e : Counts (reject_if c e) (reject_if c e).
Proof. destruct c; [apply throw_counts|apply ret_counts]. Qed.
Lemma bind_counts {A B} (m : metered A) m0 (k : A -> metered B) k0 :
  Counts m m0 -> (forall a, Counts (k a) (k0 a)) -> Counts (bind m k) (bind m0 k0).
Proof.
  intros Hm Hk s r. destruct (Hm s r) as [r1 Hrun]. unfold bind. rewrite Hrun.
  destruct (m0 s) as [[a|e|] s1]; cbn [fst snd]; [apply Hk|by exists r1..].
Qed.
Lemma count_counts {A} f (m : metered A) m0 : Counts m m0 -> Counts (count f ;;; m) m0.
Proof. intros Hm s r. unfold bind, count, modify. apply Hm. Qed.
Lemma counted_counts {A} (m : metered A) m0 f : Counts m m0 -> Counts (a <- m ;; count (f a) ;;; ret a) m0.
Proof.
  intros Hm s r. destruct (Hm s r) as [r1 Hrun]. unfold bind. rewrite Hrun.
  destruct (m0 s) as [[a|e|] s1]; cbn; by eexists.
Qed.
End metered.
Create HintDb counts.
#[export] Hint Resolve unmetered_counts ret_counts throw_counts reject_counts : counts.

(* ------------------------------------------------------------------ *)
(** ** [Replicator]                                                     *)
(* ------------------------------------------------------------------ *)

Section isr.
Context `{!Crc32} (cc : ClusterConfig) {Net : Type}.
Context (deliver : Z -> ReplicateRecord -> SM Net ConnectionError ReplicateAck).
Abbreviation metered A := (SM (Broker * Net * RuntimeMetrics) ConnectionError A).

Definition observe_ack (follower_id : Z) (request : ReplicateRecord) (next_offset : Z) (m : RuntimeMetrics) : RuntimeMetrics :=
  replication_sent follower_id (rr_topic request) (rr_partition request) next_offset
    (next_offset =? saturating_add (rr_offset request) 1) m.
Definition send_observed (follower : ClusterNode) (request : ReplicateRecord) : metered Z :=
  next_offset <- unmetered (send_replica deliver follower request) ;;
  count (observe_ack (cn_id follower) request next_offset) ;;;
  ret next_offset.

Fixpoint catch_up_metered (fuel : nat) (follower : ClusterNode) (topic : string) (partition : Z)
    (offset : Z) (ack_mode : AckMode) (l : PartitionLeadership) (next_offset : Z) : metered unit :=
  if offset <? next_offset then ret tt
  else
    match fuel with
    | O => throw ReplicationTimeout
    | Datatypes.S fuel =>
        missing <- unmetered (on_broker (read_record_at cc topic partition next_offset)) ;;
        next_offset <- send_observed follower (replication_record topic missing ack_mode l) ;;
        catch_up_metered fuel follower topic partition offset ack_mode l next_offset
    end.
Definition replicate_to_follower_metered (fuel : nat) (follower : ClusterNode) (topic : string)
    (partition : Z) (record : FetchedRecord) (ack_mode : AckMode) : metered unit :=
  l <- unmetered (on_broker (leadership (registry_partition topic partition))) ;;
  next_offset <- send_observed follower (replication_record topic record ack_mode l) ;;
  reject_if (saturating_add (fd_offset record) 1 <? next_offset) InvalidReplicationAck ;;;
  catch_up_metered fuel follower topic partition (fd_offset record) ack_mode l next_offset.
Fixpoint replicate_all_metered (fuel : nat) (followers : list ClusterNode) (topic : string) (partition : Z)
    (record : FetchedRecord) (ack_mode : AckMode) (acknowledgements : Z) : metered Z := fun s =>
  match followers with
  | [] => (Ok acknowledgements, s)
  | follower :: rest =>
      match replicate_to_follower_metered fuel follower topic partition record ack_mode s with
      | (Ok _, (st, m)) =>
          replicate_all_metered fuel rest topic partition record ack_mode (acknowledgements + 1)
            (st, in_sync_replica (cn_id follower) topic partition true m)
      | (Err _, (st, m)) =>
          replicate_all_metered fuel rest topic partition record ack_mode acknowledgements
            (st, in_sync_replica (cn_id follower) topic partition false (replication_failed m))
      | (Panic, s) => (Panic, s)
      end
  end.
(** [replicate] *)
Definition replicate_metered (fuel : nat) (topic : string) (partition : Z) (record : FetchedRecord)
    (ack_mode : AckMode) : metered unit :=
  count (in_sync_replica (self_id cc) topic partition true) ;;;
  acknowledgements <-
    replicate_all_metered fuel (replica_followers cc partition) topic partition record ack_mode 1 ;;
  let enough := cc_min_in_sync_replicas cc <=? acknowledgements in
  (if enough then unmetered (on_broker (commit_replicated cc topic partition (saturating_add (fd_offset record) 1)))
   else ret tt) ;;;
  match ack_mode with
  | AckDurable =>
      reject_if (negb enough) (NotEnoughInSyncReplicas (cc_min_in_sync_replicas cc) acknowledgements)
  | AckLeader => ret tt
  end.

(* ------------------------------------------------------------------ *)
(** ** They count, and change nothing else                              *)
(* ------------------------------------------------------------------ *)

Lemma send_observed_counts follower request :
  Counts (send_observed follower request) (send_replica deliver follower request).
Proof. apply counted_counts. auto with counts. Qed.
Lemma catch_up_counts fuel follower t p o ack l : forall next_offset,
  Counts (catch_up_metered fuel follower t p o ack l next_offset) (catch_up cc deliver fuel follower t p o ack l next_offset).
Proof.
  induction fuel as [|fuel IH]; intros n; cbn [catch_up_metered catch_up]; destruct (o <? n); auto with counts.
  apply bind_counts; [auto with counts|]. intros r. apply bind_counts; [apply send_observed_counts|apply IH].
Qed.
Lemma replicate_to_follower_counts fuel follower t p r ack :
  Counts (replicate_to_follower_metered fuel follower t p r ack) (replicate_to_follower cc deliver fuel follower t p r ack).
Proof.
  apply bind_counts; [auto with counts|]. intros l. apply bind_counts; [apply send_observed_counts|]. intros n.
  apply bind_counts; [auto with counts|]. intros _. apply catch_up_counts.
Qed.

(** The calls on the metrics commute with one another where the theorem looks. *)
Definition isr_of (m : RuntimeMetrics) : gmap ReplicaKey bool * Z := (rm_in_sync_replicas m, rm_replication_failures m).
Lemma isr_replica b t p v m :
  isr_of (in_sync_replica b t p v m) = (<[(b, t, p) := v]> (isr_of m).1, (isr_of m).2).
Proof. by destruct m. Qed.
Lemma isr_failed m : isr_of (replication_failed m) = ((isr_of m).1, increment (isr_of m).2).
Proof. by destruct m. Qed.
Lemma isr_sent f t p n b m : isr_of (replication_sent f t p n b m) = isr_of m.
Proof. by destruct m. Qed.
(** [m] leaves the sets of in-sync replicas alone. *)
Definition same_isr {A} (m : metered A) : Prop := forall s, isr_of (snd (snd (m s))) = isr_of s.2.
Lemma same_unmetered {A} (m : SM (Broker * Net) ConnectionError A) : same_isr (unmetered m).
Proof. intros s. unfold unmetered. by destruct (m s.1). Qed.
Lemma same_bind {A B} (m : metered A) (k : A -> metered B) :
  same_isr m -> (forall a, same_isr (k a)) -> same_isr (bind m k).
Proof.
  intros Hm Hk s. specialize (Hm s). unfold bind. destruct (m s) as [[a|e|] s1]; cbn in *; [|done..]. by rewrite Hk.
Qed.
Lemma same_ret {A} (a : A) : same_isr (ret a). Proof. by intros s. Qed.
Lemma same_reject c e : same_isr (reject_if c e). Proof. by intros s; destruct c. Qed.
Lemma same_send follower request : same_isr (send_observed follower request).
Proof.
  apply same_bind; [apply same_unmetered|]. intros n. apply same_bind; [|intros; apply same_ret].
  intros s. unfold count, modify, observe_ack. cbn. apply isr_sent.
Qed.
Lemma same_catch_up fuel follower t p o ack l : forall n, same_isr (catch_up_metered fuel follower t p o ack l n).
Proof.
  induction fuel as [|fuel IH]; intros n; cbn [catch_up_metered]; destruct (o <? n); try apply same_ret; [by intros s|].
  apply same_bind; [apply same_unmetered|]. intros r. apply same_bind; [apply same_send|apply IH].
Qed.
Lemma same_follower fuel follower t p r ack : same_isr (replicate_to_follower_metered fuel follower t p r ack).
Proof.
  apply same_bind; [apply same_unmetered|]. intros l. apply same_bind; [apply same_send|]. intros n.
  apply same_bind; [apply same_reject|]. intros _. apply same_catch_up.
Qed.

(* ------------------------------------------------------------------ *)
(** ** The set of in-sync replicas                                      *)
(* ------------------------------------------------------------------ *)

(** Which followers acknowledge a record, in their order. *)
Fixpoint acknowledgers (fuel : nat) (followers : list ClusterNode) (topic : string) (partition : Z)
    (record : FetchedRecord) (ack_mode : AckMode) (st : Broker * Net) : list bool :=
  match followers with
  | [] => []
  | follower :: rest =>
      let '(o, st) := replicate_to_follower cc deliver fuel follower topic partition record ack_mode st in
      is_ok o :: acknowledgers fuel rest topic partition record ack_mode st
  end.
Definition number_of (b : bool) (l : list bool) : Z := Z.of_nat (length (filter (fun x => x = b) l)).
Lemma number_cons b x l : number_of b (x :: l) = (if Bool.eqb x b then 1 else 0) + number_of b l.
Proof. unfold number_of. rewrite filter_cons. case_decide; destruct x, b; try done; cbn [length Bool.eqb]; lia. Qed.
Definition note_replica (topic : string) (partition : Z) (x : gmap ReplicaKey bool * Z) (f : Z * bool)
  : gmap ReplicaKey bool * Z :=
  (<[(f.1, topic, partition) := f.2]> x.1, if f.2 then x.2 else increment x.2).

Lemma replicate_all_isr fuel t p record ack followers : forall acks st m,
  match replicate_all_metered fuel followers t p record ack acks (st, m) with
  | (Ok n, (st', m')) =>
      let acked := acknowledgers fuel followers t p record ack st in
      replicate_all cc deliver fuel followers t p record ack acks st = (Ok n, st') /\
      length acked = length followers /\ n = acks + number_of true acked /\
      isr_of m' = foldl (note_replica t p) (isr_of m) (zip (cn_id <$> followers) acked)
  | (Err _, _) => False
  | (Panic, _) => True
  end.
Proof.
  induction followers as [|f rest IH]; intros acks st m; cbn [replicate_all_metered replicate_all acknowledgers].
  { split_and!; [done..| |done]. unfold number_of. cbn. lia. }
  pose proof (same_follower fuel f t p record ack (st, m)) as Hsame.
  destruct (replicate_to_follower_counts fuel f t p record ack st m) as [r1 Hrun].
  rewrite Hrun in *. cbn [fst snd] in Hsame.
  destruct (replicate_to_follower cc deliver fuel f t p record ack st) as [[u|e|] st1]; cbn [fst snd is_ok]; [| |done].
  - specialize (IH (acks + 1) st1 (in_sync_replica (cn_id f) t p true r1)).
    destruct (replicate_all_metered _ _ _ _ _ _ _ _) as [[n|e|] [st' m']]; [|done..].
    destruct IH as (Hrep & Hlen & Hn & Hisr). rewrite number_cons. cbn [Bool.eqb length fmap list_fmap zip zip_with foldl].
    split_and!; [done|congruence|lia|]. by rewrite Hisr, isr_replica, Hsame.
  - specialize (IH acks st1 (in_sync_replica (cn_id f) t p false (replication_failed r1))).
    destruct (replicate_all_metered _ _ _ _ _ _ _ _) as [[n|e'|] [st' m']]; [|done..].
    destruct IH as (Hrep & Hlen & Hn & Hisr). rewrite number_cons. cbn [Bool.eqb length fmap list_fmap zip zip_with foldl].
    split_and!; [done|congruence|lia|]. by rewrite Hisr, isr_replica, isr_failed, Hsame.
Qed.
(** Reading it off. *)
Lemma increment_add v k : wrapping_add (increment v) k = wrapping_add v (1 + k).
Proof. unfold increment, wrapping_add. rewrite Z.add_mod_idemp_l by done. f_equal. lia. Qed.
Lemma note_replicas t p ids acked : forall x, length acked = length ids -> NoDup ids -> is_u64 x.2 ->
  let x' := foldl (note_replica t p) x (zip ids acked) in
  (forall i f b, ids !! i = Some f -> acked !! i = Some b -> x'.1 !! (f, t, p) = Some b) /\
  (forall k, (forall f, f ∈ ids -> k <> (f, t, p)) -> x'.1 !! k = x.1 !! k) /\
  x'.2 = wrapping_add x.2 (number_of false acked).
Proof.
  revert acked. induction ids as [|f ids IH]; intros [|b acked] x Hlen Hnd Hx; try done; cbn [zip zip_with foldl].
  { split_and!; [done..|]. unfold number_of, wrapping_add. cbn. rewrite Z.add_0_r, Z.mod_small; [done|unfold in_range in Hx; lia]. }
  apply NoDup_cons in Hnd as [Hf Hnd]. injection Hlen as Hlen.
  assert (is_u64 (note_replica t p x (f, b)).2) as Hx1.
  { destruct b; cbn; [done|]. unfold increment, wrapping_add.
    pose proof (Z.mod_pos_bound (x.2 + 1) (U64_MAX + 1) ltac:(done)). unfold in_range. lia. }
  destruct (IH acked (note_replica t p x (f, b)) Hlen Hnd Hx1) as (Hin & Hout & Hn). split_and!.
  - intros [|i] f' b' Hf' Hb'; cbn in Hf', Hb'; [|by eapply Hin]. simplify_eq.
    rewrite Hout by (intros f'' Hf''; by intros [= <-]). cbn. apply lookup_insert_eq.
  - intros k Hk. rewrite Hout by (intros f' Hf'; apply Hk; by right). cbn. apply lookup_insert_ne.
    intros Heq. apply (Hk f); [by left|done].
  - rewrite Hn, number_cons. destruct b; cbn [note_replica fst snd Bool.eqb]; [done|]. by rewrite increment_add.
Qed.

End isr.

#[local] Existing Instance length_crc.
Definition acked_record : FetchedRecord :=
  fetched (stored 1 (batch_record_at "payments" (Some 1) 7 {| br_key := []; br_payload := as_bytes "two" |})).

(* ------------------------------------------------------------------ *)
(** ** [recover_follower_partition]                                     *)
(* ------------------------------------------------------------------ *)

Section recovery.
Context `{!Crc32} (cc : ClusterConfig).
Abbreviation metered A := (SM (Broker * RuntimeMetrics) ConnectionError A).

Fixpoint recover_records_metered (topic : string) (partition leader_id : Z) (records : list FetchedRecord)
    (offset : Z) : metered Z :=
  match records with
  | [] => ret offset
  | r :: records =>
      current <- unmetered (leadership (registry_partition topic partition)) ;;
      offset <- unmetered (storage (worker_append_replica
                  (recovered_record topic partition leader_id r (pl_leader_epoch current)))) ;;
      count replication_received ;;;
      recover_records_metered topic partition leader_id records offset
  end.
Fixpoint recover_follower_metered (fuel : nat) (fetch : Z -> outcome ConnectionError (list FetchedRecord))
    (topic : string) (partition leader_id offset : Z) : metered unit :=
  match fuel with
  | O => throw ReplicationTimeout
  | Datatypes.S fuel =>
      records <- unmetered (lift (fetch offset)) ;;
      match records with
      | [] => count (replica_sync leader_id topic partition true) ;;; ret tt
      | _ =>
          offset <- recover_records_metered topic partition leader_id records offset ;;
          recover_follower_metered fuel fetch topic partition leader_id offset
      end
  end.
(** The body of the loop of [start_follower_recovery]. *)
Definition follow_partition_metered (fuel : nat)
    (fetch : Z -> string -> Z -> Z -> outcome ConnectionError (list FetchedRecord))
    (snapshot : PartitionSnapshot) : metered unit := fun s =>
  let topic := ps_topic snapshot in
  let partition := ps_partition snapshot in
  match unmetered (leadership (registry_partition topic partition)) s with
  | (Ok current, s) =>
      match List.find (fun n => cn_id n =? pl_leader_id current) (nodes cc) with
      | None => (Ok tt, s)
      | Some leader =>
          if (cn_id leader =? self_id cc) || negb (is_partition_replica cc (self_id cc) partition)
          then (Ok tt, s)
          else
            match recover_follower_metered fuel (fetch (cn_id leader) topic partition) topic partition (cn_id leader)
                    (ps_high_watermark snapshot) (s.1, replication_reconnect (cn_id leader) topic partition s.2) with
            | (Ok _, s) => (Ok tt, s)
            | (Err _, (b, m)) => (Ok tt, (b, replica_sync (cn_id leader) topic partition false (replication_failed m)))
            | (Panic, s) => (Panic, s)
            end
      end
  | (Err _, s) => (Ok tt, s)
  | (Panic, s) => (Panic, s)
  end.

Lemma recover_records_counts t p id records : forall offset,
  Counts (recover_records_metered t p id records offset) (recover_records t p id records offset).
Proof.
  induction records as [|r records IH]; intros o; cbn [recover_records_metered recover_records]; [auto with counts|].
  apply bind_counts; [auto with counts|]. intros current. apply bind_counts; [auto with counts|]. intros o1.
  by apply count_counts.
Qed.
Lemma recover_follower_counts fuel fetch t p id : forall offset,
  Counts (recover_follower_metered fuel fetch t p id offset) (recover_follower_partition fuel fetch t p id offset).
Proof.
  induction fuel as [|fuel IH]; intros o; cbn [recover_follower_metered recover_follower_partition]; [auto with counts|].
  apply bind_counts; [auto with counts|]. intros [|r records]; [apply count_counts; auto with counts|].
  apply bind_counts; [apply recover_records_counts|apply IH].
Qed.

(** What an operator reads of the recovery: which partitions are in sync, and how
    many attempts failed. *)
Definition sync_of (m : RuntimeMetrics) : gmap ReplicaKey bool * Z := (rm_replica_sync m, rm_replication_failures m).
Lemma sync_received m : sync_of (replication_received m) = sync_of m. Proof. by destruct m. Qed.
Lemma sync_reconnect id t p m : sync_of (replication_reconnect id t p m) = sync_of m. Proof. by destruct m. Qed.
Lemma sync_replica id t p v m : sync_of (replica_sync id t p v m) = (<[(id, t, p) := v]> (sync_of m).1, (sync_of m).2).
Proof. by destruct m. Qed.
Lemma sync_failed m : sync_of (replication_failed m) = ((sync_of m).1, increment (sync_of m).2). Proof. by destruct m. Qed.
Lemma sync_records t p id records : forall offset s,
  sync_of (snd (snd (recover_records_metered t p id records offset s))) = sync_of s.2.
Proof.
  induction records as [|r records IH]; intros o s; cbn [recover_records_metered]; [done|].
  unfold bind at 1, unmetered at 1. destruct (leadership _ s.1) as [[current|e|] b1]; [|done..].
  unfold bind at 1, unmetered at 1. cbn [fst snd]. destruct (storage _ b1) as [[o1|e|] b2]; [|done..].
  unfold bind at 1, count, modify. cbn [fst snd]. rewrite IH. apply sync_received.
Qed.
Lemma sync_follower fuel fetch t p id : forall offset s,
  let r := recover_follower_metered fuel fetch t p id offset s in
  sync_of (snd (snd r)) =
    (match fst r with Ok _ => <[(id, t, p) := true]> (sync_of s.2).1 | _ => (sync_of s.2).1 end, (sync_of s.2).2).
Proof.
  induction fuel as [|fuel IH]; intros o s; cbn [recover_follower_metered]; [done|].
  unfold bind at 1, unmetered, lift. destruct (fetch o) as [[|r records]|e|]; [|..|done|done]; cbn [fst snd].
  - unfold bind, count, modify, ret. cbn [fst snd]. apply sync_replica.
  - pose proof (sync_records t p id (r :: records) o (s.1, s.2)) as Hr. unfold bind.
    destruct (recover_records_metered _ _ _ _ _ _) as [[o1|e|] s1]; cbn [fst snd] in *; [|by rewrite <- Hr..].
    by rewrite IH, Hr.
Qed.

(** A turn of the recovery of a partition that this broker follows: the metrics do
    not change what it does; and afterwards they show the partition in sync with
    its leader exactly if the fetches reached the end of the leader's log, and one
    failure more if they did not. *)
Theorem recovery_in_sync fuel fetch snapshot b m current leader :
  let t := ps_topic snapshot in
  let p := ps_partition snapshot in
  fst (leadership (registry_partition t p) b) = Ok current ->
  List.find (fun n => cn_id n =? pl_leader_id current) (nodes cc) = Some leader ->
  cn_id leader <> self_id cc -> is_partition_replica cc (self_id cc) p = true ->
  let recovered := fst (recover_follower_partition fuel (fetch (cn_id leader) t p) t p
                          (cn_id leader) (ps_high_watermark snapshot)
                          (snd (leadership (registry_partition t p) b))) in
  recovered <> Panic ->
  exists m', follow_partition_metered fuel fetch snapshot (b, m) = (Ok tt, (snd (follow_partition cc fuel fetch snapshot b), m')) /\
    rm_replica_sync m' = <[(cn_id leader, t, p) := is_ok recovered]> (rm_replica_sync m) /\
    rm_replication_failures m' =
      (if is_ok recovered then rm_replication_failures m else increment (rm_replication_failures m)).
Proof.
  intros t p Hcur Hfind Hne Hrep recovered Hp.
  unfold follow_partition_metered, follow_partition, unmetered, attempt, bind. cbn [fst snd].
  change (ps_topic snapshot) with t. change (ps_partition snapshot) with p.
  destruct (leadership _ b) as [o b1]. cbn [fst snd] in *. subst o. rewrite Hfind, Hrep, (proj2 (Z.eqb_neq _ _) Hne).
  cbn [orb negb].
  set (m1 := replication_reconnect (cn_id leader) t p m).
  destruct (recover_follower_counts fuel (fetch (cn_id leader) t p) t p (cn_id leader)
    (ps_high_watermark snapshot) b1 m1) as [r Hrun].
  pose proof (sync_follower fuel (fetch (cn_id leader) t p) t p (cn_id leader)
    (ps_high_watermark snapshot) (b1, m1)) as Hsync. rewrite Hrun in *. cbn [fst snd] in Hsync. unfold m1 in Hsync.
  rewrite sync_reconnect in Hsync. unfold recovered in *. clear recovered.
  destruct (recover_follower_partition _ _ _ _ _ _ b1) as [[[]|e|] b2]; cbn [fst snd is_ok] in *; [| |done].
  - exists r. split; [done|]. by injection Hsync.
  - eexists. split; [done|]. set (m3 := replica_sync _ _ _ _ _).
    assert (sync_of m3 = (<[(cn_id leader, t, p) := false]> (rm_replica_sync m), increment (rm_replication_failures m))) as H3
      by (unfold m3; by rewrite sync_replica, sync_failed, Hsync). by injection H3.
Qed.
End recovery.
