(* ===== verification/Meters.v ===== *)
(** * Meters: the metrics of the storage worker, of the follower and of the
    monitor, [crates/broker/src/lib.rs].

    [Worker], [Broker] and [Requests] leave the metrics out; here are the
    functions that [Isr] and [Accounts] do not cover, with their calls on them. *)

From stdpp Require Import base numbers list strings gmap sorting.
From Stdlib Require Import ZArith Lia.
From S2P Require Import Prelude Text Files Runs Protocol Record RecordFacts Log LogRep LogFacts LogShrink Storage Leadership Worker WorkerSpec WorkerFacts Whole Topics Broker Replication Requests Metrics MetricsFacts Cluster Isr.

(* ------------------------------------------------------------------ *)
(** ** The storage worker                                               *)
(* ------------------------------------------------------------------ *)

Section storage.
Context `{!Crc32} (settings : StorageSettings).
Abbreviation metered A := (SM (Worker * RuntimeMetrics) StorageError A).
(** How many microseconds the appends and the synchronisations of a command take. *)
Context (append_us flush_us : nat -> Z).

(** [append_record] as the [i]-th append of a command. *)
Definition append_record_metered (input : AppendInput) (now : Z) (i : nat) : metered ProduceAck :=
  partition_count <- unmetered (ensure_topic settings (ai_topic input)) ;;
  partition <- unmetered (choose_partition input partition_count) ;;
  offset <- unmetered (on_log (ai_topic input, partition) SInvalidTopic
              (timestamp <- timestamp_ms now ;; append (input_record input timestamp))) ;;
  count (observe_append (append_us i)) ;;;
  match ai_ack_mode input with
  | AckDurable => count (observe_flush (flush_us O))
  | AckLeader => ret tt
  end ;;;
  ret {| pa_partition := partition; pa_offset := offset |}.

Fixpoint append_each_metered (topic : string) (partition : option Z) (records : list BatchRecord)
    (clock : nat -> Z) (i : nat) : metered (list ProduceAck) :=
  match records with
  | [] => ret []
  | record :: records =>
      ack <- append_record_metered (batch_input topic partition record) (clock O) i ;;
      acks <- append_each_metered topic partition records (fun j => clock (Datatypes.S j)) (Datatypes.S i) ;;
      ret (ack :: acks)
  end.
Fixpoint sync_each_metered (topic : string) (partitions : list Z) (i : nat) : metered unit :=
  match partitions with
  | [] => ret tt
  | partition :: partitions =>
      unmetered (on_log (topic, partition) SInvalidTopic (ret tt)) ;;;
      count (observe_flush (flush_us i)) ;;;
      sync_each_metered topic partitions (Datatypes.S i)
  end.
Definition append_batch_metered (input : BatchAppendInput) (clock : nat -> Z) : metered (list ProduceAck) :=
  acks <- append_each_metered (ba_topic input) (ba_partition input) (ba_records input) clock O ;;
  match ba_ack_mode input with
  | AckDurable =>
      sync_each_metered (ba_topic input) (merge_sort Z.le (remove_dups (pa_partition <$> acks))) O
  | AckLeader => ret tt
  end ;;;
  ret acks.

(** [apply_retention] *)
Definition apply_retention_metered (reached : PartitionKey -> string -> bool) (order : list PartitionKey)
  : metered unit :=
  for_each order (fun k s =>
    let age := match ss_retention_age settings with Some _ => Some (reached k) | None => None end in
    match unmetered (on_log k SInvalidTopic (apply_retention (ss_retention_bytes settings) age)) s with
    | (Ok removed, (w, m)) => (Ok tt, (w, if 0 <? removed then retention_removed removed m else m))
    | (Err _, s) => (Ok tt, s)
    | (Panic, s) => (Panic, s)
    end).

(** A turn of [run_storage_worker]: the other commands tell the metrics nothing. *)
Definition run_command_metered (env : Ambient) (command : StorageCommand) : metered StorageReply :=
  match command with
  | Append input => a <- append_record_metered input (am_clock env O) O ;; ret (AckReply a)
  | AppendBatch input => acks <- append_batch_metered input (am_clock env) ;; ret (BatchReply acks)
  | ApplyRetention => apply_retention_metered (am_reached env) (am_order env) ;;; ret UnitReply
  | _ => unmetered (run_command settings env command)
  end.

(* ------------------------------------------------------------------ *)
(** ** What they leave                                                  *)
(* ------------------------------------------------------------------ *)

(** The metrics with what a command adds: removed segments and the times of appends
    and of synchronisations. *)
Definition tallied (removed : Z) (appends flushes : list Z) (m : RuntimeMetrics) : RuntimeMetrics :=
  let (conn, pm, pb, fm, fb, busy, ret, sent, recv, fail, rec, prom, offs, sync, isr, hp, hf, ha, hl) := m in
  Build_RuntimeMetrics conn pm pb fm fb busy (wrapping_add ret removed) sent recv fail rec prom offs sync isr hp hf
    (foldl (fun h us => observe us h) ha appends) (foldl (fun h us => observe us h) hl flushes).
Definition counted (m : RuntimeMetrics) : Prop := is_u64 (rm_retention_segments_removed m).
Lemma tallied_none m : counted m -> tallied 0 [] [] m = m.
Proof.
  destruct m. unfold counted, tallied. cbn. intros Hr. f_equal. unfold wrapping_add, in_range in *.
  rewrite Z.add_0_r, Z.mod_small; [done|lia].
Qed.
Lemma tallied_counted r xs ys m : counted (tallied r xs ys m).
Proof.
  destruct m. unfold counted, tallied. cbn. unfold wrapping_add, in_range.
  pose proof (Z.mod_pos_bound (rm_retention_segments_removed + r) (U64_MAX + 1) ltac:(done)). lia.
Qed.
Lemma tallied_twice r r' xs xs' ys ys' m :
  tallied r' xs' ys' (tallied r xs ys m) = tallied (r + r') (xs ++ xs') (ys ++ ys') m.
Proof.
  destruct m. cbn. rewrite !foldl_app. f_equal. unfold wrapping_add. rewrite Z.add_mod_idemp_l by done. f_equal. lia.
Qed.
Lemma tallied_append us m : counted m -> observe_append us m = tallied 0 [us] [] m.
Proof. intros Hm. rewrite <- (tallied_none m Hm) at 1. by destruct m. Qed.
Lemma tallied_flush us m : counted m -> observe_flush us m = tallied 0 [] [us] m.
Proof. intros Hm. rewrite <- (tallied_none m Hm) at 1. by destruct m. Qed.
Lemma tallied_removed r m : counted m -> 0 <= r ->
  (if 0 <? r then retention_removed r m else m) = tallied r [] [] m.
Proof.
  intros Hm Hr. destruct (Z.ltb_spec 0 r); [by destruct m|]. replace r with 0 by lia. by rewrite tallied_none.
Qed.

(** [m] does what [m0] does and adds to the metrics what [P] says of its outcome. *)
Definition tallies {A} (m : metered A) (m0 : SM Worker StorageError A)
    (P : outcome StorageError A -> Z -> list Z -> list Z -> Prop) (w : Worker) : Prop :=
  forall r, counted r -> exists removed appends flushes,
    m (w, r) = (fst (m0 w), (snd (m0 w), tallied removed appends flushes r)) /\ P (fst (m0 w)) removed appends flushes.
Definition nothing {A} (_ : outcome StorageError A) (removed : Z) (appends flushes : list Z) : Prop :=
  removed = 0 /\ appends = [] /\ flushes = [].
Lemma unmetered_tallies {A} (m0 : SM Worker StorageError A) w : tallies (unmetered m0) m0 nothing w.
Proof.
  intros r Hr. exists 0, [], []. unfold unmetered. rewrite tallied_none by done. cbn [fst snd]. by destruct (m0 w).
Qed.
Lemma tallies_mono {A} (m : metered A) m0 P P' w :
  tallies m m0 P w -> (forall rm xs ys, P (fst (m0 w)) rm xs ys -> P' (fst (m0 w)) rm xs ys) -> tallies m m0 P' w.
Proof. intros Hm HP r Hr. destruct (Hm r Hr) as (rm & xs & ys & ? & ?). exists rm, xs, ys. auto. Qed.
(** One record: its append is timed when it succeeds. *)
Definition record_times (input : AppendInput) (i : nat) (o : outcome StorageError ProduceAck) (removed : Z) (appends flushes : list Z) : Prop :=
  removed = 0 /\
  match o with
  | Ok _ => appends = [append_us i] /\ flushes = match ai_ack_mode input with AckDurable => [flush_us O] | AckLeader => [] end
  | _ => appends = [] /\ flushes = []
  end.
Lemma append_record_tallies input now i w :
  tallies (append_record_metered input now i) (append_record settings input now) (record_times input i) w.
Proof.
  intros r Hr. unfold append_record_metered, append_record, bind, unmetered, count, modify, record_times. cbn [fst snd].
  destruct (ensure_topic _ _ w) as [[n|e|] w1]; cbn [fst snd];
    [|exists 0, [], []; by rewrite tallied_none by done..].
  destruct (choose_partition _ _ w1) as [[p|e|] w2]; cbn [fst snd];
    [|exists 0, [], []; by rewrite tallied_none by done..].
  destruct (on_log _ _ _ w2) as [[o|e|] w3]; cbn [fst snd];
    [|exists 0, [], []; by rewrite tallied_none by done..].
  rewrite tallied_append by done. destruct (ai_ack_mode input); cbn [fst snd ret].
  - by exists 0, [append_us i], [].
  - rewrite tallied_flush by apply tallied_counted. rewrite tallied_twice. by exists 0, [append_us i], [flush_us O].
Qed.

(** A batch: the records up to the first that fails. *)
Definition prefix_times (n : nat) (i : nat) (o : outcome StorageError (list ProduceAck)) (removed : Z) (appends flushes : list Z) : Prop :=
  removed = 0 /\ flushes = [] /\ exists k, (k <= n)%nat /\ appends = append_us <$> seq i k /\
  match o with Ok acks => k = length acks | _ => True end.
Lemma append_each_tallies t p rs : forall clock i w,
  tallies (append_each_metered t p rs clock i) (append_each settings t p rs clock) (prefix_times (length rs) i) w.
Proof.
  induction rs as [|rec rs IH]; intros clock i w r Hr; cbn [append_each_metered append_each].
  { exists 0, [], []. rewrite tallied_none by done. split; [done|]. split_and!; [done..|]. exists O. split_and!; [lia|done..]. }
  destruct (append_record_tallies (batch_input t p rec) (clock O) i w r Hr) as (rm & xs & ys & Hrun & -> & Hx).
  destruct (append_record settings (batch_input t p rec) (clock O) w) as [[ack|e|] w1] eqn:E; cbn [fst snd] in *; destruct Hx as [-> ->].
  2,3: exists 0, [], []; unfold bind; rewrite Hrun, E; split; [done|]; split; [done|]; split; [done|]; exists O; split; [lia|done].
  rewrite (bind_Ok _ _ _ _ _ Hrun), (bind_Ok _ _ _ _ _ E). cbn [ai_ack_mode batch_input].
  destruct (IH (fun j => clock (Datatypes.S j)) (Datatypes.S i) w1 (tallied 0 [append_us i] [] r)) as (rm & xs & ys & Hrun' & -> & -> & k & Hk & -> & Hlen);
    [apply tallied_counted|]. unfold bind. rewrite Hrun', tallied_twice.
  exists 0, ([append_us i] ++ (append_us <$> seq (Datatypes.S i) k)), [].
  destruct (append_each settings t p rs _ w1) as [[acks|e|] w2]; cbn [fst snd ret] in *;
    (split; [done|]; split; [done|]; split; [done|]);
    exists (Datatypes.S k); (split; [cbn; lia|]; split; [done|]; cbn; congruence || done).
Qed.
Lemma sync_each_tallies t ps : forall i w,
  tallies (sync_each_metered t ps i) (for_each ps (fun p => on_log (t, p) SInvalidTopic (ret tt)))
    (fun o removed appends flushes => removed = 0 /\ appends = [] /\ exists k, flushes = flush_us <$> seq i k /\
       match o with Ok _ => k = length ps | _ => True end) w.
Proof.
  induction ps as [|p ps IH]; intros i w r Hr; cbn [sync_each_metered for_each].
  { exists 0, [], []. rewrite tallied_none by done. split; [done|]. split_and!; [done..|]. by exists O. }
  unfold bind, unmetered. cbn [fst snd]. destruct (on_log _ _ _ w) as [[u|e|] w1]; cbn [fst snd].
  2,3: exists 0, [], []; rewrite tallied_none by done; split; [done|]; split_and!; [done..|]; by exists O.
  unfold count, modify. cbn [fst snd]. rewrite tallied_flush by done.
  destruct (IH (Datatypes.S i) w1 (tallied 0 [] [flush_us i] r)) as (rm & xs & ys & -> & -> & -> & k & -> & Hk);
    [apply tallied_counted|]. rewrite tallied_twice.
  exists 0, [], ([flush_us i] ++ (flush_us <$> seq (Datatypes.S i) k)). split; [done|]. split_and!; [done..|].
  exists (Datatypes.S k). split; [done|]. destruct (fst _); cbn; congruence || done.
Qed.

Definition batch_times (input : BatchAppendInput) (o : outcome StorageError (list ProduceAck)) (removed : Z) (appends flushes : list Z) : Prop :=
  removed = 0 /\ (exists k, (k <= length (ba_records input))%nat /\ appends = append_us <$> seq 0 k) /\
  match o with
  | Ok acks =>
      appends = append_us <$> seq 0 (length acks) /\
      flushes = match ba_ack_mode input with
                | AckDurable => flush_us <$> seq 0 (length (remove_dups (pa_partition <$> acks)))
                | AckLeader => []
                end
  | _ => exists k, flushes = flush_us <$> seq 0 k
  end.
Lemma append_batch_tallies input clock w :
  tallies (append_batch_metered input clock) (append_batch_records settings input clock) (batch_times input) w.
Proof.
  intros r Hr. unfold append_batch_metered, append_batch_records.
  destruct (append_each_tallies (ba_topic input) (ba_partition input) (ba_records input) clock O w r Hr)
    as (rm & xs & ys & Hrun & -> & -> & k & Hk & -> & Hlen).
  destruct (append_each settings _ _ _ _ w) as [[acks|e|] w1] eqn:E; cbn [fst snd] in *.
  2,3: unfold bind; rewrite Hrun, E; do 3 eexists; split; [done|]; split; [done|]; split; [by exists k|by exists O].
  rewrite (bind_Ok _ _ _ _ _ Hrun), (bind_Ok _ _ _ _ _ E). subst k.
  unfold bind, batch_times. destruct (ba_ack_mode input); cbn [ret fst snd].
  { do 3 eexists. split; [done|]. split_and!; [done|by eexists|done|done]. }
  destruct (sync_each_tallies (ba_topic input) (merge_sort Z.le (remove_dups (pa_partition <$> acks))) O w1
    (tallied 0 (append_us <$> seq 0 (length acks)) [] r)) as (rm & xs & ys & -> & -> & -> & j & -> & Hj); [apply tallied_counted|].
  rewrite tallied_twice, app_nil_r. destruct (for_each _ _ w1) as [[u|e|] w2]; cbn [fst snd ret] in *.
  2,3: do 3 eexists; split; [done|]; split_and!; [done|by eexists|by exists j].
  do 3 eexists. split; [done|]. split_and!; [done|by eexists|done|]. rewrite app_nil_l, Hj.
  by rewrite merge_sort_Permutation.
Qed.
(** The segments of all open logs. *)
Definition segments_in (w : Worker) : Z :=
  map_fold (fun _ l n => Z.of_nat (length (lg_segments l)) + n) 0 (wk_logs w).
Definition chunks_in (a : AWorker) : Z := map_fold (fun _ l n => seg_count (al_chunks l) + n) 0 (aw_logs a).
Lemma segments_chunks s w a : represents s w a -> segments_in w = chunks_in a.
Proof.
  intros Hr. unfold segments_in, chunks_in. rewrite (rp_logs _ _ _ Hr), map_fold_fmap.
  induction (aw_logs a) as [|k l logs Hk IH] using map_ind; [done|].
  rewrite !map_fold_insert_L by (done || intros; unfold compose; lia). rewrite IH. f_equal.
  cbn. unfold seg_count. by rewrite length_fmap.
Qed.
Lemma chunks_set a k l l' : aw_logs a !! k = Some l ->
  chunks_in (aw_set_log a k l') = chunks_in a + (seg_count (al_chunks l') - seg_count (al_chunks l)).
Proof.
  intros Hl. unfold chunks_in. cbn [aw_set_log aw_logs].
  rewrite <- insert_delete_eq, map_fold_insert_L by (try apply lookup_delete_eq; intros; lia).
  rewrite (map_fold_delete_L _ _ k l (aw_logs a)) by (done || intros; lia). lia.
Qed.
Lemma retain_fewer mb age l : al_chunks l <> [] ->
  0 <= seg_count (al_chunks l) - seg_count (al_chunks (a_retain mb age l)).
Proof.
  intros Hne. destruct (retain_suffix mb age (al_chunks l) (a_size (al_chunks l)) Hne) as (gone & Heq & _).
  change (retain _ _ _ _) with (al_chunks (a_retain mb age l)) in Heq. unfold seg_count.
  rewrite Heq at 1. rewrite length_app. lia.
Qed.

Lemma retention_tallies reached order : forall w a,
  represents settings w a -> aworker_ok settings a ->
  tallies (apply_retention_metered reached order) (worker_apply_retention settings reached order)
    (fun _ removed appends flushes => appends = [] /\ flushes = [] /\
       removed = segments_in w - segments_in (snd (worker_apply_retention settings reached order w))) w.
Proof.
  unfold worker_apply_retention, apply_retention_metered.
  induction order as [|k order IH]; intros w a Hr Hok r Hc; cbn [for_each].
  { exists 0, [], []. rewrite tallied_none by done. cbn. split_and!; [done..|lia]. }
  set (age := match ss_retention_age settings with Some _ => Some (reached k) | None => None end).
  destruct (retention_step_refines settings w a k age Hr Hok) as (Ho & Hr' & Hok'). unfold bind at 1.
  unfold unmetered at 1. fold age. cbn [fst snd]. rewrite (segments_chunks _ _ _ Hr).
  unfold a_on in *. destruct (on_log k SInvalidTopic _ w) as [o w1] eqn:E. cbn [fst snd] in *.
  destruct (aw_logs a !! k) as [l|] eqn:El; cbn [fst snd] in *; subst o;
    (rewrite (bind_Ok _ _ _ w1 tt) by (fold age; by rewrite E)); cbn [fst snd].
  - assert (0 <= seg_count (al_chunks l) - seg_count (al_chunks (a_retain (ss_retention_bytes settings) age l))) as Hn.
    { apply retain_fewer. destruct (ao_logs _ _ Hok k l El) as ((Hne & _) & _). done. }
    rewrite tallied_removed by done.
    destruct (IH w1 _ Hr' Hok' (tallied (seg_count (al_chunks l) - seg_count (al_chunks (a_retain (ss_retention_bytes settings) age l))) [] [] r))
      as (rm & xs & ys & -> & -> & -> & ->); [apply tallied_counted|].
    rewrite tallied_twice. do 3 eexists. split; [done|]. split_and!; [done..|].
    rewrite (segments_chunks _ _ _ Hr'), (chunks_set a k l) by done. lia.
  - destruct (IH w1 _ Hr' Hok' r Hc) as (rm & xs & ys & -> & -> & -> & ->).
    do 3 eexists. split; [done|]. split_and!; [done..|]. by rewrite (segments_chunks _ _ _ Hr').
Qed.

(** What a command adds, by its answer. *)
Definition command_times (c : StorageCommand) (w w' : Worker) (o : outcome StorageError StorageReply)
    (removed : Z) (appends flushes : list Z) : Prop :=
  removed = match c with ApplyRetention => segments_in w - segments_in w' | _ => 0 end /\
  match c, o with
  | Append input, Ok _ =>
      appends = [append_us O] /\ flushes = match ai_ack_mode input with AckDurable => [flush_us O] | AckLeader => [] end
  | AppendBatch input, Ok (BatchReply acks) =>
      appends = append_us <$> seq 0 (length acks) /\
      flushes = match ba_ack_mode input with
                | AckDurable => flush_us <$> seq 0 (length (remove_dups (pa_partition <$> acks)))
                | AckLeader => []
                end
  | AppendBatch input, Err _ =>
      (exists k, (k <= length (ba_records input))%nat /\ appends = append_us <$> seq 0 k) /\
      exists k, flushes = flush_us <$> seq 0 k
  | AppendBatch _, _ => False
  | _, _ => appends = [] /\ flushes = []
  end.

Lemma command_tallies w a env c :
  represents settings w a -> aworker_ok settings a -> fst (run_command settings env c w) <> Panic ->
  tallies (run_command_metered env c) (run_command settings env c)
    (command_times c w (snd (run_command settings env c w))) w.
Proof.
  intros Hr Hok Hp. destruct c as [| |input|input| | | | | |].
  all: try (apply (tallies_mono _ _ _ _ _ (unmetered_tallies _ w)); intros rm xs ys (-> & -> & ->); done).
  - intros r Hc. cbn [run_command_metered run_command] in *.
    destruct (append_record_tallies input (am_clock env O) O w r Hc) as (rm & xs & ys & Hrun & -> & Hx).
    unfold bind. rewrite Hrun. exists 0, xs, ys. by destruct (append_record _ _ _ w) as [[ack|e|] w1].
  - intros r Hc. cbn [run_command_metered run_command] in *.
    destruct (append_batch_tallies input (am_clock env) w r Hc) as (rm & xs & ys & Hrun & -> & Hk & Hx).
    unfold bind in *. rewrite Hrun. exists 0, xs, ys. by destruct (append_batch_records _ _ _ w) as [[acks|e|] w1].
  - intros r Hc. cbn [run_command_metered run_command] in *.
    destruct (retention_tallies (am_reached env) (am_order env) w a Hr Hok r Hc) as (rm & xs & ys & Hrun & -> & -> & ->).
    unfold bind in *. rewrite Hrun. exists (segments_in w - segments_in (snd (worker_apply_retention settings (am_reached env) (am_order env) w))), [], [].
    by destruct (worker_apply_retention _ _ _ w) as [[u|e|] w1].
Qed.
End storage.

(** The metrics of the storage worker account for its work: they do not change
    what a command does; the counter of removed segments grows by exactly the number
    of segments that retention took from the open logs; a record that is stored adds
    the time of its append, and a durable one the time of its synchronisation; a
    batch adds one time for each record it acknowledges and, when it is durable, one
    synchronisation for each partition it reached; and nothing else changes. *)
Theorem storage_metrics `{!Crc32} `{!Crc32Ok} s (append_us flush_us : nat -> Z) env c w m :
  settings_ok s -> worker_ok s w -> command_typed c -> roomy (demand c) w -> counted m ->
  exists removed appends flushes,
    let '(o, w') := run_command s env c w in
    run_command_metered s append_us flush_us env c (w, m) = (o, (w', tallied removed appends flushes m)) /\
    command_times append_us flush_us c w w' o removed appends flushes.
Proof.
  intros Hs (a & Hr & Hok & _) Hc Hn Hm. destruct (step_refines s Hs w a env c Hr Hok Hc Hn) as (_ & _ & Ho).
  destruct (command_tallies s append_us flush_us w a env c Hr Hok) with (r := m) as (rm & xs & ys & Hrun & Ht); [|done|].
  { rewrite Ho. apply a_run_total. }
  exists rm, xs, ys. rewrite Hrun. by destruct (run_command s env c w).
Qed.

#[local] Existing Instance length_crc.
#[local] Existing Instance length_crc_ok.
(** A durable batch of two records in the partition of their key. *)
Definition durable_pair : BatchAppendInput :=
  {| ba_topic := "payments"; ba_partition := Some 0;
     ba_records := [{| br_key := []; br_payload := as_bytes "one" |}; {| br_key := []; br_payload := as_bytes "two" |}];
     ba_ack_mode := AckDurable |}.
Lemma storage_metrics_witness :
  rm_append_latency (snd (snd (run_command_metered sample_settings (fun i => 90 + Z.of_nat i * 20) (fun _ => 700)
    sample_ambient (AppendBatch durable_pair) (topic_worker, new_metrics)))) = histogram_of [90; 110] /\
  exists removed appends flushes,
    let '(o, w') := run_command sample_settings sample_ambient (AppendBatch durable_pair) topic_worker in
    run_command_metered sample_settings (fun i => 90 + Z.of_nat i * 20) (fun _ => 700) sample_ambient
      (AppendBatch durable_pair) (topic_worker, new_metrics) = (o, (w', tallied removed appends flushes new_metrics)) /\
    command_times (fun i => 90 + Z.of_nat i * 20) (fun _ => 700) (AppendBatch durable_pair) topic_worker w' o removed appends flushes.
Proof.
  split; [vm_compute; reflexivity|]. apply storage_metrics; [exact sample_settings_ok| | | |].
  - exists topic_state. destruct topic_represents. split_and!; [done..|]. intros _. by apply create_wholes.
  - vm_compute. repeat constructor; discriminate.
  - apply roomy_by_check. vm_compute. reflexivity.
  - vm_compute. split; discriminate.
Defined.

(* ------------------------------------------------------------------ *)
(** ** The follower                                                     *)
(* ------------------------------------------------------------------ *)

Section follower.
Context `{!Crc32}.
Abbreviation metered A := (SM (Broker * RuntimeMetrics) ConnectionError A).

(** The body of the loop of [handle_replication_connection]: a record counts when
    the log has grown. *)
Definition adopt_epoch (record : ReplicateRecord) (current : PartitionLeadership) : broker unit :=
  let topic := rr_topic record in
  let partition := rr_partition record in
  reject_if ((rr_leader_epoch record <? pl_leader_epoch current) ||
             ((rr_leader_epoch record =? pl_leader_epoch current) &&
              negb (rr_leader_id record =? pl_leader_id current))) StaleLeaderEpoch ;;;
  if pl_leader_epoch current <? rr_leader_epoch record then
    local_offset <- storage (partition_offset topic partition) ;;
    (if rr_offset record <? local_offset
     then storage (truncate_partition topic partition (rr_offset record)) else ret tt) ;;;
    leadership (registry_apply topic
      {| pl_partition := partition; pl_leader_id := rr_leader_id record;
         pl_leader_epoch := rr_leader_epoch record;
         pl_high_watermark := pl_high_watermark current |})
  else ret tt.
Definition handle_replica_metered (record : ReplicateRecord) : metered ReplicateAck :=
  let topic := rr_topic record in
  let partition := rr_partition record in
  current <- unmetered (leadership (registry_partition topic partition)) ;;
  unmetered (adopt_epoch record current) ;;;
  expected <- unmetered (storage (partition_offset topic partition)) ;;
  next_offset <- unmetered (if expected <? rr_offset record then ret expected
                            else storage (worker_append_replica record)) ;;
  (if expected <? next_offset then count replication_received else ret tt) ;;;
  ret {| ra_partition := partition; ra_next_offset := next_offset |}.

Lemma counts_assoc {A B C} (m : metered C) (a : broker A) (k : A -> broker B) (h : B -> broker C) :
  Counts m (bind (bind a k) h) -> Counts m (bind a (fun x => bind (k x) h)).
Proof. intros Hm s r. rewrite <- bind_assoc. apply Hm. Qed.
Lemma handle_replica_counts record : Counts (handle_replica_metered record) (handle_replica record).
Proof.
  apply bind_counts; [auto with counts|]. intros current.
  apply counts_assoc.
  apply bind_counts; [auto with counts|]. intros _. apply bind_counts; [auto with counts|]. intros expected.
  apply bind_counts; [auto with counts|]. intros n.
  destruct (expected <? n); [apply count_counts; auto with counts|]. intros s r. rewrite bind_ret_l. by exists r.
Qed.

Definition end_of (b : Broker) (k : PartitionKey) : option Z := lg_next_offset <$> wk_logs (bk_worker b) !! k.
Lemma replica_end record w n w' : worker_append_replica record w = (Ok n, w') ->
  lg_next_offset <$> wk_logs w' !! (rr_topic record, rr_partition record) = Some n.
Proof.
  intros H'. unfold worker_append_replica in H'. apply bind_inv in H' as (w1 & w2 & [= <- <-] & H').
  apply bind_inv in H' as (c & w3 & _ & H'). apply bind_inv in H' as (u & w4 & _ & H').
  unfold on_log in H'. destruct (wk_logs w4 !! _) as [l|]; [|done].
  destruct (bind _ _ _) as [o p] eqn:E in H'. injection H' as -> <-.
  apply bind_inv in E as (v & p1 & _ & E). apply bind_inv in E as (l1 & p2 & Hget & [-> ->]%ret_inv).
  cbn [set_part set_logs wk_logs]. rewrite lookup_insert_eq. unfold log_get, gets in Hget.
  by injection Hget as <- <-.
Qed.
(** Between brokers of one epoch a record is counted exactly when it made the log
    longer: a record that is sent again, or too early, is not. *)
Lemma unmetered_inv {S E A} (m : SM S E A) s r a s' r' :
  unmetered m (s, r) = (Ok a, (s', r')) -> m s = (Ok a, s') /\ r' = r.
Proof. unfold unmetered. cbn [fst snd]. destruct (m s). by intros [= -> -> ->]. Qed.
Lemma storage_inv {A} (m : SM Worker StorageError A) b a b' :
  storage m b = (Ok a, b') -> m (bk_worker b) = (Ok a, bk_worker b') /\ bk_leadership b' = bk_leadership b.
Proof. unfold storage. destruct (m (bk_worker b)) as [[] w]; cbn; by intros [= <- <-]. Qed.
Lemma offset_inv t p w n w' : partition_offset t p w = (Ok n, w') ->
  w' = w /\ lg_next_offset <$> wk_logs w !! (t, p) = Some n.
Proof.
  intros H'. apply bind_inv in H' as (w1 & w2 & [= <- <-] & H'). unfold bind, ok_or in H'.
  destruct (wk_logs w !! (t, p)) as [l|]; [|done]. by injection H' as <- <-.
Qed.
Theorem received_when_grown record current b m ack b' m' :
  lr_entries (bk_leadership b) !! (rr_topic record, rr_partition record) = Some current ->
  pl_leader_epoch current = rr_leader_epoch record ->
  handle_replica_metered record (b, m) = (Ok ack, (b', m')) ->
  exists before after,
    end_of b (rr_topic record, rr_partition record) = Some before /\
    end_of b' (rr_topic record, rr_partition record) = Some after /\
    m' = (if before <? after then replication_received m else m).
Proof.
  intros Hcur Hepoch Hrun. unfold handle_replica_metered in Hrun. unfold end_of.
  apply bind_inv in Hrun as (c & [b1 m1] & H1 & Hrun). apply unmetered_inv in H1 as [H1 ->].
  assert (c = current /\ b1 = b) as [-> ->].
  { unfold leadership, registry_partition, bind, get in H1. cbn [fst snd] in H1. rewrite Hcur in H1.
    cbn in H1. injection H1 as <- <-. by destruct b. }
  apply bind_inv in Hrun as ([] & [b1 m1] & H2 & Hrun). apply unmetered_inv in H2 as [H2 ->].
  unfold adopt_epoch in H2. rewrite Hepoch, Z.ltb_irrefl, Z.eqb_refl in H2. apply bind_inv in H2 as (u & b2 & H2 & [_ ->]%ret_inv).
  assert (b2 = b) as -> by (cbn in H2; destruct (negb _); cbn in H2; by injection H2).
  apply bind_inv in Hrun as (expected & [b3 m3] & H3 & Hrun). apply unmetered_inv in H3 as [H3 ->].
  apply storage_inv in H3 as [H3 _]. apply offset_inv in H3 as [Hw Hbefore]. exists expected.
  apply bind_inv in Hrun as (n & [b4 m4] & H4 & Hrun). apply unmetered_inv in H4 as [H4 ->]. exists n.
  apply bind_inv in Hrun as (u' & [b5 m5] & H5 & [_ Hst]%ret_inv). injection Hst as <- <-.
  assert (b' = b4 /\ m' = (if expected <? n then replication_received m else m)) as [-> ->]
    by (destruct (expected <? n); by injection H5 as <- <- <-).
  split_and!; [done| |done]. destruct (expected <? rr_offset record).
  - apply ret_inv in H4 as [-> ->]. by rewrite Hw.
  - apply storage_inv in H4 as [H4 _]. by apply replica_end in H4.
Qed.
End follower.

(* ------------------------------------------------------------------ *)
(** ** The replication of a produce, and the spawned one                *)
(* ------------------------------------------------------------------ *)

Section dispatch.
Context `{!Crc32} (cc : ClusterConfig) {Net : Type}.
Context (deliver : Z -> ReplicateRecord -> SM Net ConnectionError ReplicateAck).
Context (query : Z -> string -> Z -> Net -> option Z).
Abbreviation metered A := (SM (Broker * Net * RuntimeMetrics) ConnectionError A).

Definition replicate_records_metered (fuel : nat) (topic : string) (records : list (Z * FetchedRecord))
    (ack_mode : AckMode) : metered unit :=
  for_each records (fun r => replicate_metered cc deliver fuel topic r.1 r.2 ack_mode).
(** A replication that fails counts once more than the followers that failed. *)
Definition failure_noted {A} (m : metered A) : metered A := fun s =>
  match m s with
  | (Err e, (st, r)) => (Err e, (st, replication_failed r))
  | x => x
  end.
Definition dispatch_replication_metered (fuel : nat) (topic : string) (records : list (Z * FetchedRecord))
    (ack_mode : AckMode) : metered unit :=
  match ack_mode with
  | AckLeader => unmetered (on_broker (modify (fun b => add_task b {| tk_topic := topic; tk_records := records |})))
  | AckDurable => failure_noted (replicate_records_metered fuel topic records ack_mode)
  end.
(** The task that a produce with [AckMode::Leader] spawns. *)
Definition replication_task_metered (fuel : nat) (task : Task) : metered unit :=
  attempt (failure_noted (replicate_records_metered fuel (tk_topic task) (tk_records task) AckLeader)).

Lemma for_each_counts {S E A} (m : A -> SM (S * RuntimeMetrics) E unit) (m0 : A -> SM S E unit) l :
  (forall x, Counts (m x) (m0 x)) -> Counts (for_each l m) (for_each l m0).
Proof.
  intros Hm. induction l as [|x l IH]; cbn [for_each]; [auto with counts|]. by apply bind_counts.
Qed.
Lemma replicate_all_counts fuel t p record ack followers : forall n,
  Counts (replicate_all_metered cc deliver fuel followers t p record ack n)
    (replicate_all cc deliver fuel followers t p record ack n).
Proof.
  induction followers as [|f rest IH]; intros n s r; cbn [replicate_all_metered replicate_all]; [by exists r|].
  destruct (replicate_to_follower_counts cc deliver fuel f t p record ack s r) as [r1 ->].
  destruct (replicate_to_follower _ _ _ _ _ _ _ _ s) as [[u|e|] s1]; cbn [fst snd]; [apply IH..|by exists r1].
Qed.
Lemma replicate_counts fuel t p record ack :
  Counts (replicate_metered cc deliver fuel t p record ack) (replicate cc deliver fuel t p record ack).
Proof.
  apply count_counts. apply bind_counts; [apply replicate_all_counts|]. intros n.
  apply bind_counts; [destruct (_ <=? n); auto with counts|]. intros _. destruct ack; auto with counts.
Qed.
Lemma noted_counts {A} (m : metered A) m0 : Counts m m0 -> Counts (failure_noted m) m0.
Proof.
  intros Hm s r. unfold failure_noted. destruct (Hm s r) as [r1 ->].
  destruct (m0 s) as [[a|e|] s1]; cbn; by eexists.
Qed.
Lemma attempt_counts {S E A} (m : SM (S * RuntimeMetrics) E A) (m0 : SM S E A) :
  Counts m m0 -> Counts (attempt m) (attempt m0).
Proof.
  intros Hm s r. unfold attempt. destruct (Hm s r) as [r1 ->]. destruct (m0 s) as [[a|e|] s1]; cbn; by exists r1.
Qed.
Lemma records_counts fuel t rs ack :
  Counts (replicate_records_metered fuel t rs ack) (replicate_records cc deliver fuel t rs ack).
Proof. apply for_each_counts. intros r. apply replicate_counts. Qed.
Lemma dispatch_counts fuel t rs ack :
  Counts (dispatch_replication_metered fuel t rs ack) (dispatch_replication cc deliver fuel t rs ack).
Proof. destruct ack; cbn; [auto with counts|]. apply noted_counts, records_counts. Qed.
Lemma task_counts fuel task :
  Counts (replication_task_metered fuel task)
    (attempt (replicate_records cc deliver fuel (tk_topic task) (tk_records task) AckLeader)).
Proof. apply attempt_counts, noted_counts, records_counts. Qed.

(* ------------------------------------------------------------------ *)
(** ** The monitor                                                      *)
(* ------------------------------------------------------------------ *)

Abbreviation monitored A := (SM (Broker * Net * gmap (string * Z) Z * RuntimeMetrics) ConnectionError A).
Definition monitor_partition_metered (topic : string) (current : PartitionLeadership) : monitored unit :=
  let key := (topic, pl_partition current) in
  if pl_leader_id current =? self_id cc then unmetered (set_failures (delete key))
  else
    leader <- unmetered (ok_or (List.find (fun n => cn_id n =? pl_leader_id current) (nodes cc))
                InvalidClusterMetadata) ;;
    s <- unmetered get ;;
    match query (cn_id leader) topic (pl_partition current) s.1.2 with
    | Some _ => unmetered (set_failures (delete key))
    | None =>
        let attempts := Z.min U8_MAX (default 0 (s.2 !! key) + 1) in
        unmetered (set_failures (<[key := attempts]>)) ;;;
        if attempts <? 3 then ret tt
        else
          candidate <- unmetered (on_site (select_automatic_candidate cc query topic current)) ;;
          match candidate with
          | None => ret tt
          | Some candidate =>
              answer <- unmetered (on_site (promote_leader cc query {| plr_topic := topic;
                plr_partition := pl_partition current; plr_leader_id := candidate |})) ;;
              match answer with
              | Reply (PLeadershipChanged _) =>
                  count automatic_leader_promotion ;;; unmetered (set_failures (delete key))
              | _ => ret tt
              end
          end
    end.
Definition monitor_topic_metered (m : TopicMetadata) : monitored unit :=
  ls <- unmetered (on_site (on_broker (leadership (registry_topic (tm_topic m) (tm_partitions m))))) ;;
  for_each ls (monitor_partition_metered (tm_topic m)).
Definition monitor_partition_leaders_metered : monitored unit :=
  s <- unmetered get ;;
  for_each (storage_topic_metadata (wk_topics (bk_worker s.1.1))) monitor_topic_metered.

Lemma monitor_partition_counts t current :
  Counts (monitor_partition_metered t current) (monitor_partition cc query t current).
Proof.
  unfold monitor_partition_metered, monitor_partition.
  destruct (pl_leader_id current =? self_id cc); [auto with counts|].
  apply bind_counts; [auto with counts|]. intros leader. apply bind_counts; [auto with counts|]. intros s.
  destruct (query _ _ _ _); [auto with counts|]. apply bind_counts; [auto with counts|]. intros _.
  destruct (_ <? 3); [auto with counts|]. apply bind_counts; [auto with counts|]. intros [candidate|]; [|auto with counts].
  apply bind_counts; [auto with counts|]. intros [[]|]; auto with counts. apply count_counts. auto with counts.
Qed.
Lemma monitor_counts : Counts monitor_partition_leaders_metered (monitor_partition_leaders cc query).
Proof.
  apply bind_counts; [auto with counts|]. intros s. apply for_each_counts. intros m.
  apply bind_counts; [auto with counts|]. intros ls. apply for_each_counts. intros l. apply monitor_partition_counts.
Qed.
End dispatch.

(* ------------------------------------------------------------------ *)
(** ** The gauge of the connections                                     *)
(* ------------------------------------------------------------------ *)

(** [handle_connection] opens the gauge first; [ConnectionGuard] closes it however
    the connection ends. *)
Definition guarded {S E A} (m : SM (S * RuntimeMetrics) E A) : SM (S * RuntimeMetrics) E A := fun s =>
  let '(o, (st, r)) := m (s.1, connection_opened s.2) in (o, (st, connection_closed r)).
(** A connection that has ended is not counted any more, by an error or a panic too. *)
Lemma guarded_gauge {S E A} (m : SM (S * RuntimeMetrics) E A) s :
  is_u64 (rm_active_connections s.2) ->
  (forall s, rm_active_connections (snd (snd (m s))) = rm_active_connections s.2) ->
  rm_active_connections (snd (snd (guarded m s))) = rm_active_connections s.2.
Proof.
  intros Hu Hm. unfold guarded. specialize (Hm (s.1, connection_opened s.2)).
  destruct (m _) as [o [st r]]. cbn [fst snd] in *. destruct r, s as [s0 m0], m0. cbn in *.
  rewrite Hm. unfold wrapping_add. rewrite Zplus_mod_idemp_l. unfold in_range in Hu.
  rewrite Z.mod_small; lia.
Qed.
