(* ===== verification/BrokerTests.v ===== *)
(** * BrokerTests: the tests of [crates/broker/src/lib.rs], run on the model.

    The storage, the registry and the coordinator of a test are those of a
    [Broker]; the handles and the spawned worker of the code are calls on it.
    What runs beside the test, an append while a read waits, the replication that
    a produce spawns, the connections of a replication listener, stands where the
    test waits for it.  The checksum is the CRC-32. *)

From stdpp Require Import base numbers list strings gmap sorting.
From Stdlib Require Import ZArith Lia.
From S2P Require Import Prelude Text Files Protocol Record Crc Log Storage Groups Leadership Worker WorkerFacts Topics Queue Broker Handle Addr Config Cluster Requests Serving Connection Startup Client Codec Rpc Metrics Admin ProtocolTests StorageTests Testing.

#[local] Existing Instance ieee_crc32.
#[local] Existing Instance stored_zstd.
#[local] Instance test_message : OsMessage := "file not found".
#[local] Instance test_order : IterationOrder := {| iterate V := map_to_list; iterate_all V m := reflexivity _ |}.

(* ------------------------------------------------------------------ *)
(** ** Clusters and settings                                            *)
(* ------------------------------------------------------------------ *)

Definition test_storage_settings (partitions : Z) (auto_create_topics : bool) : BrokerConfig :=
  {| bc_host := "127.0.0.1"; bc_port := 7400; bc_data_dir := "./data"; bc_max_segment_bytes := 1024;
     bc_index_interval_bytes := 64; bc_default_partition_count := partitions;
     bc_group_session_timeout_ms := 10000; bc_retention_bytes := 0; bc_retention_ms := 0;
     bc_storage_queue_capacity := 1024; bc_storage_enqueue_timeout_ms := 100;
     bc_auto_create_topics := auto_create_topics |}.
Definition local_node (id port admin_port replication_port : Z) : ClusterNode :=
  {| cn_id := id; cn_host := "127.0.0.1"; cn_port := port; cn_admin_port := admin_port;
     cn_replication_port := replication_port |}.
Definition test_cluster : ClusterMetadata :=
  {| cm_responding_broker_id := 1; cm_nodes := [local_node 1 7400 7401 7500] |}.
Definition three_node_cluster : ClusterMetadata :=
  {| cm_responding_broker_id := 1;
     cm_nodes := (fun id => local_node id (7300 + id * 100) (7301 + id * 100) (7302 + id * 100)) <$> [1; 2; 3] |}.
Definition replication_cluster (active_port unavailable_port : Z) : ClusterMetadata :=
  {| cm_responding_broker_id := 1;
     cm_nodes := [local_node 1 1 2 3; local_node 2 4 5 active_port; local_node 3 6 7 unavailable_port] |}.
Definition runtime (config : BrokerConfig) (cluster : ClusterMetadata)
    (replication_factor min_in_sync_replicas : Z) : Broker.ClusterConfig :=
  {| cc_metadata := cluster; cc_replication_factor := replication_factor;
     cc_min_in_sync_replicas := min_in_sync_replicas; cc_settings := storage_settings config |}.

(* ------------------------------------------------------------------ *)
(** ** Brokers                                                          *)
(* ------------------------------------------------------------------ *)

Definition empty_disk : Startup.Disk := {| dk_data := ∅; dk_files := ∅; dk_offsets := ∅ |}.
(** [test_leadership] on the files of the data directory. *)
Definition test_leadership (files : Dir) (cluster : ClusterMetadata) : outcome Empty_set LeadershipRegistry :=
  match open_registry files cluster with
  | Ok registry => match registry_ensure_topic "payments" 3 registry with
                   | (Ok _, registry) => Ok registry
                   | _ => Panic
                   end
  | _ => Panic
  end.
(** [test_cluster_runtime] with the storage and the groups of the test. *)
Definition start_broker (config : BrokerConfig) (cluster : ClusterMetadata)
  : SM Startup.Disk Empty_set Broker :=
  worker <- expect (start_storage_worker config) ;;
  disk <- get ;;
  groups <- expect (lift (open_coordinator (dk_offsets disk) 3 10000)) ;;
  registry <- lift (test_leadership (dk_files disk) cluster) ;;
  ret {| bk_worker := worker; bk_leadership := registry; bk_groups := groups; bk_outbox := [];
         bk_tasks := [] |}.
Definition with_broker (config : BrokerConfig) (cluster : ClusterMetadata)
    (body : SM Broker Empty_set unit) : test Startup.Disk :=
  scope (start_broker config cluster) disk_of body.

Definition test_world (waits : list (Worker -> Worker)) : World :=
  {| wd_ambient := {| am_clock := fun _ => 1700000000000; am_reached := fun _ _ => false; am_order := [] |};
     wd_now := 0; wd_group_order := []; wd_waits := waits; wd_sends := 4 |}.
Definition unreachable (_ : Z) (_ : ReplicateRecord) : SM unit ConnectionError ReplicateAck :=
  throw ReplicationClosed.
Definition nobody (_ : Z) (_ : string) (_ : Z) (_ : unit) : option Z := None.
(** A computation on the broker and a network that nobody is on. *)
Definition alone {A} (m : SM (Broker * unit) ConnectionError A) : SM Broker ConnectionError A :=
  fun b => let '(o, s) := m (b, tt) in (o, s.1).

Definition test_input (partition : option Z) (value : string) : AppendInput :=
  {| ai_topic := "payments"; ai_partition := partition; ai_key := []; ai_value := as_bytes value;
     ai_ack_mode := AckDurable; ai_producer := None |}.
Definition append_value (cc : Broker.ClusterConfig) (partition : option Z) (value : string) : broker ProduceAck :=
  storage (append_record (settings_of cc) (test_input partition value) 1700000000000).
Definition append_to_partition (cc : Broker.ClusterConfig) (value : string) : SM Broker Empty_set unit :=
  _ack <- expect (append_value cc (Some 0) value) ;; ret tt.

(* ------------------------------------------------------------------ *)
(** ** Leaders                                                          *)
(* ------------------------------------------------------------------ *)

(** The two functions that the crate has for its tests only. *)
Definition leader_for_partition (cluster : ClusterMetadata) (partition : Z) : option ClusterNode :=
  cm_nodes cluster !! Z.to_nat (partition mod Z.of_nat (length (cm_nodes cluster))).
Definition leadership_error {S E} (cluster : ClusterMetadata) (partition : option Z)
  : SM S E (option Response) :=
  if Z.of_nat (length (cm_nodes cluster)) =? 1 then ret None
  else
    match partition with
    | None => ret (Some (PError "partition is required for clustered produce"))
    | Some partition =>
        leader <- expect_some (leader_for_partition cluster partition) ;;
        ret (if cn_id leader =? cm_responding_broker_id cluster then None
             else Some (PError ("not partition leader: partition=" +:+ show_uint partition +:+
                                " leader_id=" +:+ show_uint (cn_id leader) +:+ " leader=" +:+ cn_host leader +:+
                                ":" +:+ show_uint (cn_port leader))))
    end.

Definition assigns_partition_leaders_deterministically : test unit :=
  let cluster := three_node_cluster in
  leaders <- map_m (fun partition => expect_some (cn_id <$> leader_for_partition cluster partition))
               [0; 1; 2; 3; 4; 5] ;;
  assert_eq leaders [1; 2; 3; 1; 2; 3] ;;;
  error <- leadership_error cluster (Some 0) ;;
  assert (bool_decide (error = None)) ;;;
  error <- leadership_error cluster (Some 1) ;;
  assert (bool_decide (is_Some error)) ;;;
  error <- leadership_error cluster None ;;
  assert (bool_decide (is_Some error)).

Definition selects_only_safe_automatic_promotion_candidates : test unit :=
  assert_eq (choose_automatic_candidate [(2, 12); (3, 13)] 2 13) (Some 3) ;;;
  assert_eq (choose_automatic_candidate [(2, 12); (3, 12)] 2 13) None ;;;
  assert_eq (choose_automatic_candidate [(3, 13)] 2 13) None.

(* ------------------------------------------------------------------ *)
(** ** Requests                                                         *)
(* ------------------------------------------------------------------ *)

Definition hides_locally_appended_records_beyond_the_high_watermark : test Startup.Disk :=
  let config := test_storage_settings 3 true in
  let cc := runtime config test_cluster 1 1 in
  with_broker config test_cluster (
    append_to_partition cc "not-committed" ;;;
    request <- expect (FetchRequest_new "payments" 0 0 1024 0) ;;
    response <- expect (alone (process_request cc (test_world []) unreachable nobody (RFetch request))) ;;
    assert (match response with Reply (PFetch r) => bool_decide (fp_records r = []) | _ => false end)).

Definition promotion_truncates_the_uncommitted_tail_to_the_high_watermark : test Startup.Disk :=
  let config := test_storage_settings 3 true in
  let cc := runtime config test_cluster 1 1 in
  with_broker config test_cluster (
    append_to_partition cc "committed" ;;;
    append_to_partition cc "not-committed" ;;;
    expect (leadership (registry_apply "payments"
      {| pl_partition := 0; pl_leader_id := 1; pl_leader_epoch := 0; pl_high_watermark := 1 |})) ;;;
    response <- expect (alone (process_topic_request cc (test_world []) nobody
      (RPromoteLeader {| plr_topic := "payments"; plr_partition := 0; plr_leader_id := 1 |}))) ;;
    assert (match response with
            | Reply (PLeadershipChanged l) => (pl_leader_epoch l =? 1) && (pl_high_watermark l =? 1)
            | _ => false
            end) ;;;
    offset <- expect (storage (partition_offset "payments" 0)) ;;
    assert_eq offset 1).

(** Whether a text occurs in another. *)
Fixpoint occurs (needle hay : bytes) : bool :=
  bytes_prefix needle hay || match hay with [] => false | _ :: hay => occurs needle hay end.
Definition contains (rendered needle : string) : bool := occurs (as_bytes needle) (as_bytes rendered).

Definition renders_partition_and_consumer_group_lag_metrics : test RuntimeMetrics :=
  modify (produced 2 10) ;;;
  modify broker_busy ;;;
  modify (retention_removed 3) ;;;
  modify (observe_produce 2000) ;;;
  metrics <- get ;;
  let partitions :=
    [ {| ps_topic := "payments"; ps_partition := 0; ps_high_watermark := 13; ps_log_end_offset := 15;
         ps_low_watermark := 0; ps_log_size_bytes := 512; ps_segments := 2 |} ] in
  let groups :=
    [ {| gs_group := "workers"; gs_topic := "payments"; gs_generation := 3; gs_members := 1;
         gs_assigned_partitions := 1; gs_committed_offsets := [(0, 8)] |} ] in
  let rendered := metrics_text (render_metrics metrics 0 partitions groups test_cluster) in
  assert (contains rendered "sevlamq_messages_produced_total 2") ;;;
  assert (contains rendered "sevlamq_broker_busy_total 1") ;;;
  assert (contains rendered "sevlamq_retention_segments_removed_total 3") ;;;
  assert (contains rendered "sevlamq_produce_duration_seconds_count 1") ;;;
  assert (contains rendered
    ("sevlamq_partition_log_size_bytes{topic=" +:+ Metrics.quoted "payments" +:+ ",partition=" +:+
     Metrics.quoted "0" +:+ "} 512")) ;;;
  assert (contains rendered
    ("sevlamq_consumer_group_lag{group=" +:+ Metrics.quoted "workers" +:+ ",topic=" +:+
     Metrics.quoted "payments" +:+ ",partition=" +:+ Metrics.quoted "0" +:+ "} 5")).

(* ------------------------------------------------------------------ *)
(** ** Storage                                                          *)
(* ------------------------------------------------------------------ *)

(** The state is the worker; [select_partition] touches its counters only. *)
Definition selects_partitions_deterministically_and_round_robins_unkeyed_messages : test Worker :=
  let key := as_bytes "customer-123" in
  p <- expect (select_partition 3 "payments" (Some key)) ;;
  assert_eq p 1 ;;;
  p <- expect (select_partition 3 "payments" (Some key)) ;;
  assert_eq p 1 ;;;
  selected <- repeat_m 4 (expect (select_partition 3 "payments" None)) ;;
  assert_eq selected [0; 1; 2; 0].

(** A queue with room for one command and a worker that takes none: the second
    call finds no room until its timeout. *)
Definition rejects_commands_when_storage_queue_timeout_expires : test (StorageQueue (Q := ListQueue)) :=
  modify (enqueue ListTopics) ;;;
  st <- get ;;
  assert_eq (queue_depth st) 1%nat ;;;
  modify (enqueue ListTopics) ;;;
  st <- get ;;
  answer <- expect_some (qs_answers st !! 1%nat) ;;
  let list_topics := call_list_topics (runtime (test_storage_settings 3 true) test_cluster 1 1) in
  assert (match call_result list_topics answer with Some (Err BrokerBusy) => true | _ => false end).

Definition rejects_unknown_topics_when_auto_create_is_disabled : test Startup.Disk :=
  let config := test_storage_settings 3 false in
  let cc := runtime config test_cluster 1 1 in
  with_broker config test_cluster (
    assert_err (storage_read cc [] "missing" 0 0 1024 0)
      (fun e => match e with CStorage UnknownTopic => true | _ => false end)).

(** One partition log, made and closed before the worker starts. *)
Definition recovers_existing_partitions_before_starting_worker : test Startup.Disk :=
  let k := ("payments", 0) in
  index_path <- (fun disk =>
    let made :=
      with_log (open_payments 1024 64) (
        _o <- on_the_log (append (record_with None "hello" 1)) ;;
        expect Durable.flush ;;;
        l <- the_log ;;
        ret (with_extension (active_path l) "idx")) in
    let '(o, d) := made (partition_dir (dk_data disk) k) in
    (o, set_dk_data disk (set_partition_dir (dk_data disk) k d))) ;;
  modify (fun disk => set_dk_data disk (set_partition_dir (dk_data disk) k
    (<[index_path := as_bytes "broken index"]> (partition_dir (dk_data disk) k)))) ;;;
  _worker <- expect (start_storage_worker (test_storage_settings 3 true)) ;;
  disk <- get ;;
  index <- expect_some (partition_dir (dk_data disk) k !! index_path) ;;
  assert_eq (blen index) 16.

(** The append arrives while the read waits. *)
Definition wakes_long_poll_when_a_record_is_appended : test Startup.Disk :=
  let config := test_storage_settings 1 true in
  let cc := runtime config test_cluster 1 1 in
  let arrives w := snd (append_record (storage_settings config) (test_input None "hello") 1700000000000 w) in
  with_broker config test_cluster (
    records <- expect (storage_read cc [arrives] "payments" 0 0 1024 1000) ;;
    assert_eq (length records) 1%nat ;;;
    assert_eq (fd_offset <$> records !! 0%nat) (Some 0) ;;;
    assert_eq (fd_value <$> records !! 0%nat) (Some (as_bytes "hello"))).

Definition appends_a_durable_batch_and_returns_each_offset : test Startup.Disk :=
  let config := test_storage_settings 1 true in
  with_broker config test_cluster (
    acks <- expect (storage (append_batch_records (storage_settings config)
      {| ba_topic := "payments"; ba_partition := None;
         ba_records := [ {| br_key := []; br_payload := as_bytes "hello" |};
                         {| br_key := []; br_payload := as_bytes "world" |} ];
         ba_ack_mode := AckDurable |} (fun _ => 1700000000000))) ;;
    assert_eq (length acks) 2%nat ;;;
    assert_eq (pa_offset <$> acks !! 0%nat) (Some 0) ;;;
    assert_eq (pa_offset <$> acks !! 1%nat) (Some 1)).

Definition is_dir (data : DataDir) (k : PartitionKey) : bool :=
  bool_decide (is_Some (td_partitions (topic_dir_of data k.1) !! show_uint k.2)).
Definition fetches_an_empty_partition_before_the_first_produce : test Startup.Disk :=
  let config := test_storage_settings 3 true in
  let cc := runtime config test_cluster 1 1 in
  with_broker config test_cluster (
    records <- expect (storage_read cc [] "payments" 2 0 1024 0) ;;
    assert (bool_decide (records = [])) ;;;
    b <- get ;;
    assert (is_dir (wk_data (bk_worker b)) ("payments", 2))).

(* ------------------------------------------------------------------ *)
(** ** Replication                                                      *)
(* ------------------------------------------------------------------ *)

(** A replication listener that serves so many connections of one request each;
    a request that fails ends it. *)
Record Replica := { rp_connections : nat; rp_broker : Broker }.
Definition replica_server (id : Z) (record : ReplicateRecord) : SM Replica ConnectionError ReplicateAck :=
  fun replica =>
    match rp_connections replica with
    | O => (Err ReplicationClosed, replica)
    | Datatypes.S n =>
        if id =? 2 then
          let '(o, b) := handle_replica record (rp_broker replica) in
          (match o with Err _ => Panic | o => o end, {| rp_connections := n; rp_broker := b |})
        else (Err ReplicationClosed, replica)
    end.
(** Two brokers on disks of their own. *)
Definition with_replica (config : BrokerConfig) (cluster : ClusterMetadata) (connections : nat)
    (body : SM (Broker * Replica) Empty_set unit) : test unit :=
  leader <- lift (fst (start_broker config cluster empty_disk)) ;;
  follower <- lift (fst (start_broker config cluster empty_disk)) ;;
  lift (fst (body (leader, {| rp_connections := connections; rp_broker := follower |}))).
Definition on_leader {A} (m : broker A) : SM (Broker * Replica) Empty_set A := expect (on_broker m).
Definition on_follower {A} (m : broker A) : SM (Broker * Replica) Empty_set A := fun s =>
  let '(o, b) := expect m (rp_broker s.2) in
  (o, (s.1, {| rp_connections := rp_connections s.2; rp_broker := b |})).

Definition catches_up_a_follower_without_creating_offset_gaps : test unit :=
  let config := test_storage_settings 1 true in
  let cluster := replication_cluster 40001 40002 in
  let cc := runtime config cluster 3 2 in
  let settings := storage_settings config in
  with_replica config cluster 4 (
    _m <- on_leader (storage (Worker.create_topic settings "payments" 1)) ;;
    _m <- on_follower (storage (Worker.create_topic settings "payments" 1)) ;;
    for_each ["first"; "second"; "third"] (fun value =>
      _ack <- on_leader (append_value cc (Some 0) value) ;; ret tt) ;;;
    latest <- on_leader (read_record_at cc "payments" 0 2) ;;
    expect (replicate cc replica_server 4 "payments" 0 latest AckDurable) ;;;
    s <- get ;;
    assert_eq (rp_connections s.2) 0%nat ;;;
    records <- on_follower (storage (read_records settings "payments" 0 0 1024)) ;;
    assert_eq (length records) 3%nat ;;;
    assert_eq (fd_offset <$> records !! 2%nat) (Some 2) ;;;
    l <- on_leader (leadership (registry_partition "payments" 0)) ;;
    assert_eq (pl_high_watermark l) 3 ;;;
    (** [assert_rejects_without_quorum] *)
    assert_err (replicate cc replica_server 4 "payments" 0 latest AckDurable)
      (fun e => match e with NotEnoughInSyncReplicas 2 1 => true | _ => false end)).

(* ------------------------------------------------------------------ *)
(** ** A client and a broker                                            *)
(* ------------------------------------------------------------------ *)

(** A client whose connection [handle_connection] serves. *)
Abbreviation served := (Client * Link (Broker * unit))%type.
Definition with_client (config : BrokerConfig) (cluster : ClusterMetadata)
    (body : SM served Empty_set unit) : test Startup.Disk :=
  let address := SocketAddrV4 [127; 0; 0; 1] 7400 in
  scope (b <- start_broker config cluster ;;
         ret ({| cl_address := address; cl_stream := 0; cl_read := []; cl_write := [] |},
              {| lk_conn := idle (b, tt); lk_open := true; lk_pending := []; lk_sizes := [] |} : Link (Broker * unit)))
    (fun s => disk_of (cn_state (lk_conn s.2)).1) body.
Definition on_served {A} (m : SM (Broker * unit) ConnectionError A) : SM served Empty_set A := fun s =>
  let conn := lk_conn s.2 in
  let '(o, st) := expect m (cn_state conn) in
  (o, (s.1, {| lk_conn := {| cn_read := cn_read conn; cn_written := cn_written conn; cn_state := st |};
               lk_open := lk_open s.2; lk_pending := lk_pending s.2; lk_sizes := lk_sizes s.2 |})).
(** The replication that the produces have spawned. *)
Definition run_tasks (cc : Broker.ClusterConfig) : SM (Broker * unit) ConnectionError unit :=
  s <- get ;;
  for_each (bk_tasks s.1) (fun task =>
    replicate_records cc unreachable 4 (tk_topic task) (tk_records task) AckLeader).

Section session.
Context `{!Network (Link (Broker * unit))}.

(** Three records with one key: all in one partition, at 0, 1, 2. *)
Fixpoint produce_each (values : list string) (expected_offset : Z) (selected_partition : option Z)
  : SM served Empty_set (option Z) :=
  match values with
  | [] => ret selected_partition
  | value :: values =>
      ack <- expect (produce 1000 "payments" (as_bytes "customer-123") (as_bytes value) AckLeader None) ;;
      let partition := default (pa_partition ack) selected_partition in
      assert_eq partition (pa_partition ack) ;;;
      assert_eq (pa_offset ack) expected_offset ;;;
      produce_each values (expected_offset + 1) (Some partition)
  end.
Definition produces_and_fetches (cc : Broker.ClusterConfig) : SM served Empty_set unit :=
  selected_partition <- produce_each ["zero"; "one"; "two"] 0 None ;;
  on_served (run_tasks cc) ;;;
  s <- get ;;
  for_each [0; 1; 2] (fun partition =>
    assert (is_dir (wk_data (bk_worker (cn_state (lk_conn s.2)).1)) ("payments", partition))) ;;;
  partition <- expect_some selected_partition ;;
  response <- expect (fetch 1000 "payments" partition 1 1024 0) ;;
  let records := fp_records response in
  assert_eq (length records) 2%nat ;;;
  assert_eq (fd_offset <$> records !! 0%nat) (Some 1) ;;;
  assert_eq (fd_value <$> records !! 0%nat) (Some (as_bytes "one")) ;;;
  assert_eq (fd_offset <$> records !! 1%nat) (Some 2) ;;;
  assert_eq (fd_value <$> records !! 1%nat) (Some (as_bytes "two")).
End session.

Definition produces_and_fetches_persisted_records : test Startup.Disk :=
  let config := test_storage_settings 3 true in
  let cc := runtime config test_cluster 1 1 in
  with_client config test_cluster
    (produces_and_fetches cc
       (Network0 := link_network (fun r => answered (process_request cc (test_world []) unreachable nobody r)))).

(* ------------------------------------------------------------------ *)
(** ** They pass                                                        *)
(* ------------------------------------------------------------------ *)

Definition broker_tests : list (test Startup.Disk) :=
  [ hides_locally_appended_records_beyond_the_high_watermark;
    promotion_truncates_the_uncommitted_tail_to_the_high_watermark;
    rejects_unknown_topics_when_auto_create_is_disabled;
    recovers_existing_partitions_before_starting_worker;
    wakes_long_poll_when_a_record_is_appended;
    appends_a_durable_batch_and_returns_each_offset;
    fetches_an_empty_partition_before_the_first_produce;
    produces_and_fetches_persisted_records ].

Lemma broker_tests_pass : Forall (fun t => passes t empty_disk) broker_tests.
Proof. repeat constructor; vm_compute; reflexivity. Qed.
Lemma other_broker_tests_pass :
  passes assigns_partition_leaders_deterministically tt /\
  passes selects_only_safe_automatic_promotion_candidates tt /\
  passes catches_up_a_follower_without_creating_offset_gaps tt /\
  passes renders_partition_and_consumer_group_lag_metrics new_metrics /\
  passes selects_partitions_deterministically_and_round_robins_unkeyed_messages fresh_worker /\
  passes rejects_commands_when_storage_queue_timeout_expires (start_queue 1 fresh_worker).
Proof. repeat split; vm_compute; reflexivity. Qed.
